(** * factorlog: format compiler, renderer and numeric encoder

    A shallow embedding of the formatter of kdar/factorlog and the
    properties its specification states about it.

    - [format.go] is the single-character grammar ("Grammar A", [%L], [%x], ...);
    - the later generation of the same file is the named-verb grammar
      ("Grammar B", [%{SEVERITY}], [%{ShortFile}], ...), together with the
      numeric encoders [twoDigits], [nDigits] and [itoa];
    - [factorlog.go] holds the severity enumeration and its string tables;
    - [format_test.go] holds the reference encoder [allDigits].

    Go values are modelled as follows.  A Go [string] and a [[]byte] are both
    a [list ascii] (an [ascii] is exactly one 8-bit byte).  A Go [int] is a
    [Z]; none of the arithmetic below can leave the range of a 64-bit [int]
    when its inputs are in that range, so no wrap-around is written.  Go's
    [/] and [%] truncate toward zero: they are [Z.quot] and [Z.rem].  A
    run-time panic (index or slice bound out of range) is the outcome
    [Panic]. *)

From Stdlib Require Import ZArith List Ascii String Bool Lia.
Import ListNotations.
Local Open Scope Z_scope.

Set Implicit Arguments.

(** ** Outcomes of Go code *)

Inductive result (A : Type) : Type :=
| Ok (a : A)
| Panic
| OutOfFuel.

Arguments Ok {A} a.
Arguments Panic {A}.
Arguments OutOfFuel {A}.

Definition bind {A B : Type} (c : result A) (k : A -> result B) : result B :=
  match c with
  | Ok a => k a
  | Panic => Panic
  | OutOfFuel => OutOfFuel
  end.

Notation "x <- c ;; k" := (bind c (fun x => k))
  (at level 61, c at next level, right associativity).
Notation "' pat <- c ;; k" := (bind c (fun x => match x with pat => k end))
  (at level 61, pat pattern, c at next level, right associativity).

(** ** Go strings, byte slices and runes *)

Module Go.

Definition bytes := list ascii.

(** A Go string literal. *)
Definition B (s : string) : bytes := list_ascii_of_string s.

Definition code (c : ascii) : Z := Z.of_N (N_of_ascii c).

(** [byte(x)]: conversion of an integer to a byte keeps the low 8 bits. *)
Definition byte (x : Z) : ascii := ascii_of_N (Z.to_N (x mod 256)).

Definition len {A : Type} (s : list A) : Z := Z.of_nat (List.length s).

(** [s[i]] *)
Definition index {A : Type} (s : list A) (i : Z) : result A :=
  if (0 <=? i) && (i <? len s) then
    match nth_error s (Z.to_nat i) with
    | Some c => Ok c
    | None => Panic
    end
  else Panic.

(** [s[i] = v] *)
Definition store {A : Type} (s : list A) (i : Z) (v : A) : result (list A) :=
  if (0 <=? i) && (i <? len s) then
    Ok (firstn (Z.to_nat i) s ++ v :: skipn (S (Z.to_nat i)) s)
  else Panic.

(** [s[i:]] *)
Definition slice_from {A : Type} (s : list A) (i : Z) : result (list A) :=
  if (0 <=? i) && (i <=? len s) then Ok (skipn (Z.to_nat i) s) else Panic.

(** [s[:n]] *)
Definition slice_to {A : Type} (s : list A) (n : Z) : result (list A) :=
  if (0 <=? n) && (n <=? len s) then Ok (firstn (Z.to_nat n) s) else Panic.

(** [copy(buf[i:], buf[j:])] on one backing array: the two slice expressions
    are evaluated first, then [min(len(dst), len(src))] bytes move as by
    memmove, and the count is returned. *)
Definition copy_within (buf : bytes) (i j : Z) : result (bytes * Z) :=
  dst <- slice_from buf i ;;
  src <- slice_from buf j ;;
  let n := Z.min (len dst) (len src) in
  Ok (firstn (Z.to_nat i) buf ++ firstn (Z.to_nat n) src
        ++ skipn (Z.to_nat n) dst, n).

(** *** [for _, c := range s]: UTF-8 decoding

    Ranging over a string yields runes.  A byte below 0x80 is its own rune;
    a well-formed multi-byte sequence is one rune; any other byte is the
    rune U+FFFD of width 1. *)

Definition RuneError : Z := 65533.

Definition cont (b : Z) : bool := (128 <=? b) && (b <=? 191).

Definition in_range (lo hi b : Z) : bool := (lo <=? b) && (b <=? hi).

(** Size of the sequence a leading byte announces and the range its second
    byte must lie in (0 for an invalid leading byte). *)
Definition first (s0 : Z) : Z * Z * Z :=
  if in_range 194 223 s0 then (2, 128, 191)
  else if s0 =? 224 then (3, 160, 191)
  else if in_range 225 236 s0 then (3, 128, 191)
  else if s0 =? 237 then (3, 128, 159)
  else if in_range 238 239 s0 then (3, 128, 191)
  else if s0 =? 240 then (4, 144, 191)
  else if in_range 241 243 s0 then (4, 128, 191)
  else if s0 =? 244 then (4, 128, 143)
  else (0, 0, 0).

Fixpoint runes (s : bytes) : list Z :=
  match s with
  | [] => []
  | c0 :: t0 =>
    let s0 := code c0 in
    if s0 <? 128 then s0 :: runes t0
    else
      let '(sz, lo, hi) := first s0 in
      if sz =? 0 then RuneError :: runes t0
      else
        match t0 with
        | [] => RuneError :: runes t0
        | c1 :: t1 =>
          let s1 := code c1 in
          if negb (in_range lo hi s1) then RuneError :: runes t0
          else if sz =? 2 then
            Z.lor (Z.shiftl (Z.land s0 31) 6) (Z.land s1 63) :: runes t1
          else
            match t1 with
            | [] => RuneError :: runes t0
            | c2 :: t2 =>
              let s2 := code c2 in
              if negb (cont s2) then RuneError :: runes t0
              else if sz =? 3 then
                Z.lor (Z.lor (Z.shiftl (Z.land s0 15) 12)
                             (Z.shiftl (Z.land s1 63) 6))
                      (Z.land s2 63) :: runes t2
              else
                match t2 with
                | [] => RuneError :: runes t0
                | c3 :: t3 =>
                  let s3 := code c3 in
                  if negb (cont s3) then RuneError :: runes t0
                  else
                    Z.lor (Z.lor (Z.lor (Z.shiftl (Z.land s0 7) 18)
                                        (Z.shiftl (Z.land s1 63) 12))
                                 (Z.shiftl (Z.land s2 63) 6))
                          (Z.land s3 63) :: runes t3
                end
            end
        end
  end.

(** Equality of Go strings. *)
Fixpoint eqb (a b : bytes) : bool :=
  match a, b with
  | [], [] => true
  | x :: a', y :: b' => Ascii.eqb x y && eqb a' b'
  | _, _ => false
  end.

End Go.

Import Go.

(** ** Severity ([factorlog.go]) *)

Definition Severity := Z.

Definition NONE : Severity := 0.
Definition TRACE : Severity := 1.
Definition DEBUG : Severity := 2.
Definition INFO : Severity := 3.
Definition WARN : Severity := 4.
Definition ERROR : Severity := 5.
Definition CRITICAL : Severity := 6.
Definition STACK : Severity := 7.
Definition FATAL : Severity := 8.
Definition PANIC : Severity := 9.

Definition SeverityStrings : list bytes :=
  map B [""; "TRAC"; "DEBG"; "INFO"; "WARN"; "EROR"; "CRIT"; "STAK"; "FATL";
         "PANC"]%string.

Definition LongSeverityStrings : list bytes :=
  map B ["NONE"; "TRACE"; "DEBUG"; "INFO"; "WARN"; "ERROR"; "CRITICAL";
         "STACK"; "FATAL"; "PANIC"]%string.

Definition SeverityFromString (l : bytes) : Severity :=
  if Go.eqb l (B "TRACE") then TRACE
  else if Go.eqb l (B "DEBUG") then DEBUG
  else if Go.eqb l (B "INFO") then INFO
  else if Go.eqb l (B "WARN") then WARN
  else if Go.eqb l (B "ERROR") then ERROR
  else if Go.eqb l (B "CRITICAL") then CRITICAL
  else if Go.eqb l (B "STACK") then STACK
  else if Go.eqb l (B "FATAL") then FATAL
  else if Go.eqb l (B "PANIC") then PANIC
  else NONE.

(** ** Numeric encoder *)

Definition digits : bytes := B "0123456789".

(** [twoDigits(buf, i, d)] *)
Definition twoDigits (buf : bytes) (i d : Z) : result bytes :=
  b <- index digits (Z.rem d 10) ;;
  buf <- store buf (i + 1) b ;;
  let d := Z.quot d 10 in
  b <- index digits (Z.rem d 10) ;;
  store buf i b.

(** The loop of [nDigits]: [k] is [j + 1]. *)
Fixpoint nDigits_loop (k : nat) (buf : bytes) (i d : Z) : result bytes :=
  match k with
  | O => Ok buf
  | S j =>
    b <- index digits (Z.rem d 10) ;;
    buf <- store buf (i + Z.of_nat j) b ;;
    nDigits_loop j buf i (Z.quot d 10)
  end.

(** [nDigits(buf, n, i, d)] *)
Definition nDigits (buf : bytes) (n i d : Z) : result bytes :=
  nDigits_loop (Z.to_nat n) buf i d.

Definition ddigits : bytes :=
  B ("0001020304050607080910111213141516171819" ++
     "2021222324252627282930313233343536373839" ++
     "4041424344454647484950515253545556575859" ++
     "6061626364656667686970717273747576777879" ++
     "8081828384858687888990919293949596979899")%string.

(** Every iteration of the encoders' loops at least halves [d], so this
    many iterations are never used up on a non-negative [d]. *)
Definition loop_fuel (d : Z) : nat := S (Z.to_nat (Z.log2 d)).

(** The loop [for d >= 100 { ... }] of [itoa]. *)
Fixpoint itoa_loop (fuel : nat) (buf : bytes) (j d : Z)
  : result (bytes * Z * Z) :=
  if d >=? 100 then
    match fuel with
    | O => OutOfFuel
    | S fuel' =>
      let index := Z.rem d 100 * 2 in
      let d := Z.quot d 100 in
      let j := j - 1 in
      b <- Go.index ddigits (index + 1) ;;
      buf <- store buf j b ;;
      let j := j - 1 in
      b <- Go.index ddigits index ;;
      buf <- store buf j b ;;
      itoa_loop fuel' buf j d
    end
  else Ok (buf, j, d).

(** [itoa(buf, i, d)]: the buffer after the call and the returned count. *)
Definition itoa (buf : bytes) (i d : Z) : result (bytes * Z) :=
  let j := len buf in
  '(buf, j, d) <- itoa_loop (loop_fuel d) buf j d ;;
  if d <? 10 then
    let j := j - 1 in
    buf <- store buf j (byte (code "0"%char + d)) ;;
    copy_within buf i j
  else
    let index := d * 2 in
    let j := j - 1 in
    b <- Go.index ddigits (index + 1) ;;
    buf <- store buf j b ;;
    let j := j - 1 in
    b <- Go.index ddigits index ;;
    buf <- store buf j b ;;
    copy_within buf i j.

(** The loop [for { ...; if d == 0 { break } }] of [allDigits]. *)
Fixpoint allDigits_loop (fuel : nat) (buf : bytes) (j d : Z)
  : result (bytes * Z) :=
  match fuel with
  | O => OutOfFuel
  | S fuel' =>
    let j := j - 1 in
    b <- index digits (Z.rem d 10) ;;
    buf <- store buf j b ;;
    let d := Z.quot d 10 in
    if d =? 0 then Ok (buf, j) else allDigits_loop fuel' buf j d
  end.

(** [allDigits(buf, i, d)] ([format_test.go]) *)
Definition allDigits (buf : bytes) (i d : Z) : result (bytes * Z) :=
  let j := len buf in
  '(buf, j) <- allDigits_loop (loop_fuel d) buf j d ;;
  copy_within buf i j.

(** ** Records handed to the renderer *)

(** What the renderer reads of a [time.Time]: the results of its accessors
    [Date()], [Clock()], [Nanosecond()], [Unix()] and [UnixNano()]. *)
Record Time : Type := mkTime {
  Date : Z * Z * Z;
  Clock : Z * Z * Z;
  Nanosecond : Z;
  Unix : Z;
  UnixNano : Z
}.

(** [filepath.Separator] (on a Unix system). *)
Definition Separator : ascii := "/"%char.

Definition newline : ascii := "010"%char.

(** The loop
    [for slash = len(s) - 1; slash >= 0; slash-- { if s[slash] == Separator { break } }]
    entered with [slash = k - 1]; the value of [slash] after it. *)
Fixpoint last_separator (s : bytes) (k : nat) : result Z :=
  match k with
  | O => Ok (-1)
  | S slash =>
    c <- index s (Z.of_nat slash) ;;
    if Ascii.eqb c Separator then Ok (Z.of_nat slash)
    else last_separator s slash
  end.

(** The final step of both renderers: a line terminator is added to a
    non-empty buffer that does not end in one. *)
Definition terminate (buf : bytes) : result bytes :=
  if 0 <? len buf then
    c <- index buf (len buf - 1) ;;
    if negb (Ascii.eqb c newline) then Ok (buf ++ [newline]) else Ok buf
  else Ok buf.

(** ** Grammar A: single-character verbs ([format.go]) *)

Module GrammarA.

Inductive fmtVerb : Type :=
| vSTRING
| vDATE_D
| vDATE_d
| vTIME_T
| vTIME_t
| vSEVERITY
| vSHORT_SEVERITY
| vFILE
| vSHORT_FILE
| vEXTRA_SHORT_FILE
| vLINE
| vMESSAGE
| vPACKAGE_FUNCTION
| vFUNCTION.

Definition iota (v : fmtVerb) : Z :=
  match v with
  | vSTRING => 0
  | vDATE_D => 1
  | vDATE_d => 2
  | vTIME_T => 3
  | vTIME_t => 4
  | vSEVERITY => 5
  | vSHORT_SEVERITY => 6
  | vFILE => 7
  | vSHORT_FILE => 8
  | vEXTRA_SHORT_FILE => 9
  | vLINE => 10
  | vMESSAGE => 11
  | vPACKAGE_FUNCTION => 12
  | vFUNCTION => 13
  end.

(** [int(v)], with [v] declared as [1 << iota]. *)
Definition int (v : fmtVerb) : Z := Z.shiftl 1 (iota v).

Definition vRUNTIME_CALLER : Z :=
  Z.lor (Z.lor (Z.lor (Z.lor (Z.lor (int vPACKAGE_FUNCTION) (int vFUNCTION))
                             (int vFILE))
                      (int vSHORT_FILE))
               (int vEXTRA_SHORT_FILE))
        (int vLINE).

Record StdFormatter : Type := mkStdFormatter {
  frmt : bytes;
  strings : list bytes;
  parts : list fmtVerb;
  tmp : bytes;
  flags : Z
}.

(** [f.flags |= int(v); f.parts = append(f.parts, v)] *)
Definition add_verb (f : StdFormatter) (v : fmtVerb) : StdFormatter :=
  mkStdFormatter (frmt f) (strings f) (parts f ++ [v]) (tmp f)
                 (Z.lor (flags f) (int v)).

(** [f.strings = append(f.strings, s); f.parts = append(f.parts, vSTRING)] *)
Definition add_string (f : StdFormatter) (s : bytes) : StdFormatter :=
  mkStdFormatter (frmt f) (strings f ++ [s]) (parts f ++ [vSTRING]) (tmp f)
                 (flags f).

(** The variables of the scanning loop of [NewStdFormatter]. *)
Record scan : Type := mkScan {
  f_ : StdFormatter;
  isverb : bool;
  raw : bytes
}.

Definition rune_is (c : Z) (a : ascii) : bool := c =? code a.

(** One iteration of [for _, c := range frmt]. *)
Definition scan_rune (st : scan) (c : Z) : scan :=
  let f := f_ st in
  if negb (isverb st) && rune_is c "%" then
    if 0 <? len (raw st)
    then mkScan (add_string f (raw st)) true []
    else mkScan f true (raw st)
  else if isverb st then
    if rune_is c "T" then mkScan (add_verb f vTIME_T) false (raw st)
    else if rune_is c "t" then mkScan (add_verb f vTIME_t) false (raw st)
    else if rune_is c "D" then mkScan (add_verb f vDATE_D) false (raw st)
    else if rune_is c "d" then mkScan (add_verb f vDATE_d) false (raw st)
    else if rune_is c "L" then mkScan (add_verb f vSEVERITY) false (raw st)
    else if rune_is c "l" then mkScan (add_verb f vSHORT_SEVERITY) false (raw st)
    else if rune_is c "F" then mkScan (add_verb f vFILE) false (raw st)
    else if rune_is c "f" then mkScan (add_verb f vSHORT_FILE) false (raw st)
    else if rune_is c "x" then mkScan (add_verb f vEXTRA_SHORT_FILE) false (raw st)
    else if rune_is c "s" then mkScan (add_verb f vLINE) false (raw st)
    else if rune_is c "M" then mkScan (add_verb f vMESSAGE) false (raw st)
    else if rune_is c "P" then mkScan (add_verb f vPACKAGE_FUNCTION) false (raw st)
    else if rune_is c "p" then mkScan (add_verb f vFUNCTION) false (raw st)
    else if rune_is c "%" then mkScan f false (raw st ++ ["%"%char])
    else mkScan f false (raw st ++ ["%"%char] ++ [byte c])
  else mkScan f false (raw st ++ [byte c]).

Definition NewStdFormatter (frmt : bytes) : StdFormatter :=
  let f := mkStdFormatter frmt [] [] (repeat zero 64) 0 in
  let st := fold_left scan_rune (runes frmt) (mkScan f false []) in
  if 0 <? len (raw st) then add_string (f_ st) (raw st) else f_ st.

Definition ShouldRuntimeCaller (f : StdFormatter) : bool :=
  negb (Z.land (flags f) vRUNTIME_CALLER =? 0).

Record LogRecord : Type := mkLogRecord {
  Time_ : Time;
  Severity_ : Severity;
  File : bytes;
  Line : Z;
  Function : bytes;
  Package : bytes;
  Message : bytes
}.

(** The variables of the rendering loop of [Format]. *)
Record render : Type := mkRender {
  buf : bytes;
  stringi : Z;
  tmp_ : bytes
}.

(** The body of the case [vSHORT_FILE, vEXTRA_SHORT_FILE]. *)
Definition short_file (p : fmtVerb) (file : bytes) : result bytes :=
  if len file =? 0 then Ok (B "???")
  else
    slash <- last_separator file (List.length file) ;;
    file <- (if slash >=? 0 then slice_from file (slash + 1) else Ok file) ;;
    match p with
    | vEXTRA_SHORT_FILE => slice_to file (len file - 3)
    | _ => Ok file
    end.

(** One iteration of [for _, p := range f.parts], the [switch p]. *)
Definition format_part (f : StdFormatter) (data : LogRecord) (st : render)
           (p : fmtVerb) : result render :=
  let out := buf st in
  let t := tmp_ st in
  match p with
  | vSTRING =>
    s <- index (strings f) (stringi st) ;;
    Ok (mkRender (out ++ s) (stringi st + 1) t)
  | vTIME_T =>
    let '(hour, min, sec) := Clock (Time_ data) in
    t <- twoDigits t 0 hour ;;
    t <- store t 2 ":"%char ;;
    t <- twoDigits t 3 min ;;
    t <- store t 5 ":"%char ;;
    t <- twoDigits t 6 sec ;;
    t <- store t 8 "."%char ;;
    t <- nDigits t 6 9 (Nanosecond (Time_ data)) ;;
    s <- slice_to t 15 ;;
    Ok (mkRender (out ++ s) (stringi st) t)
  | vTIME_t =>
    let '(hour, min, sec) := Clock (Time_ data) in
    t <- twoDigits t 0 hour ;;
    t <- store t 2 ":"%char ;;
    t <- twoDigits t 3 min ;;
    t <- store t 5 ":"%char ;;
    t <- twoDigits t 6 sec ;;
    s <- slice_to t 8 ;;
    Ok (mkRender (out ++ s) (stringi st) t)
  | vDATE_D =>
    let '(year, month, day) := Date (Time_ data) in
    t <- nDigits t 4 0 year ;;
    t <- store t 4 "-"%char ;;
    t <- twoDigits t 5 month ;;
    t <- store t 7 "-"%char ;;
    t <- twoDigits t 8 day ;;
    s <- slice_to t 10 ;;
    Ok (mkRender (out ++ s) (stringi st) t)
  | vDATE_d =>
    let '(year, month, day) := Date (Time_ data) in
    t <- nDigits t 4 0 year ;;
    t <- store t 4 "/"%char ;;
    t <- twoDigits t 5 month ;;
    t <- store t 7 "/"%char ;;
    t <- twoDigits t 8 day ;;
    s <- slice_to t 10 ;;
    Ok (mkRender (out ++ s) (stringi st) t)
  | vSEVERITY =>
    s <- index LongSeverityStrings (Severity_ data) ;;
    Ok (mkRender (out ++ s) (stringi st) t)
  | vSHORT_SEVERITY =>
    s <- index SeverityStrings (Severity_ data) ;;
    Ok (mkRender (out ++ s) (stringi st) t)
  | vFILE => Ok (mkRender (out ++ File data) (stringi st) t)
  | vSHORT_FILE | vEXTRA_SHORT_FILE =>
    file <- short_file p (File data) ;;
    Ok (mkRender (out ++ file) (stringi st) t)
  | vLINE =>
    '(t, n) <- itoa t 0 (Line data) ;;
    s <- slice_to t n ;;
    Ok (mkRender (out ++ s) (stringi st) t)
  | vMESSAGE => Ok (mkRender (out ++ Message data) (stringi st) t)
  | vPACKAGE_FUNCTION => Ok (mkRender (out ++ Function data) (stringi st) t)
  | vFUNCTION => Ok (mkRender (out ++ Package data) (stringi st) t)
  end.

Fixpoint format_parts (f : StdFormatter) (data : LogRecord)
         (ps : list fmtVerb) (st : render) : result render :=
  match ps with
  | [] => Ok st
  | p :: ps' =>
    st' <- format_part f data st p ;;
    format_parts f data ps' st'
  end.

(** The buffer at the end of the loop of [Format], before the line
    terminator is looked at. *)
Definition accumulate (f : StdFormatter) (data : LogRecord) : result bytes :=
  st <- format_parts f data (parts f) (mkRender [] 0 (tmp f)) ;;
  Ok (buf st).

Definition Format (f : StdFormatter) (data : LogRecord) : result bytes :=
  out <- accumulate f data ;;
  terminate out.

End GrammarA.

(** ** The regular expressions of Go's [regexp] that Grammar B uses

    A backtracking matcher with Go's leftmost-first preference: among the
    matches at the leftmost starting position, the one a backtracking
    search finds first.  Matching is by byte.  The pattern below asks only
    for ASCII bytes by name; [.] and the negated class take one rune in Go,
    and a multi-byte rune contains neither a line feed nor a backslash nor
    any byte the pattern names, so the bounds of a match and of its groups
    are the same by rune and by byte. *)

Module Regexp.

Inductive re : Type :=
| Char (c : ascii)             (* one given character *)
| Class (p : ascii -> bool)    (* one character of a class *)
| Seq (a b : re)               (* a b *)
| Plus (a : re)                (* a+ , greedy *)
| StarLazy (a : re)            (* a*? , non-greedy *)
| Quest (a : re)               (* a? , greedy *)
| Group (i : nat) (a : re).    (* capture group number i *)

(** A position in the input and the input from there on. *)
Definition cursor : Type := nat * bytes.

(** The bounds of the capture groups seen so far. *)
Definition captures : Type := nat -> option (nat * nat).

Definition no_captures : captures := fun _ => None.

Definition capture (i : nat) (b : nat * nat) (cs : captures) : captures :=
  fun j => if Nat.eqb i j then Some b else cs j.

Section Matcher.

Variable R : Type.

Definition orelse (a b : option R) : option R :=
  match a with
  | Some v => Some v
  | None => b
  end.

(** [exec r fuel x cs k]: match [r] at [x], then continue with [k]; the
    alternatives are tried in order of preference.  [fuel] bounds the
    iterations of a repetition and is the length of the input plus one. *)
Fixpoint exec (r : re) (fuel : nat) (x : cursor) (cs : captures)
         (k : cursor -> captures -> option R) : option R :=
  match r with
  | Char c =>
    match snd x with
    | c' :: t => if Ascii.eqb c c' then k (S (fst x), t) cs else None
    | [] => None
    end
  | Class p =>
    match snd x with
    | c' :: t => if p c' then k (S (fst x), t) cs else None
    | [] => None
    end
  | Seq a b => exec a fuel x cs (fun x' cs' => exec b fuel x' cs' k)
  | Plus a =>
    (fix loop (n : nat) (x : cursor) (cs : captures) : option R :=
       match n with
       | O => None
       | S n' =>
         exec a fuel x cs (fun x' cs' => orelse (loop n' x' cs') (k x' cs'))
       end) fuel x cs
  | StarLazy a =>
    (fix loop (n : nat) (x : cursor) (cs : captures) : option R :=
       match n with
       | O => k x cs
       | S n' => orelse (k x cs) (exec a fuel x cs (fun x' cs' => loop n' x' cs'))
       end) fuel x cs
  | Quest a => orelse (exec a fuel x cs k) (k x cs)
  | Group i a =>
    exec a fuel x cs (fun x' cs' => k x' (capture i (fst x, fst x') cs'))
  end.

End Matcher.

(** One match of a pattern with two groups, as the six indices
    [m[0]..m[5]] of [FindAllStringSubmatchIndex]; a group that took no part
    in the match is [None] (Go: the pair [-1, -1]). *)
Record submatch : Type := mkSubmatch {
  m_start : nat;
  m_end : nat;
  m_group1 : option (nat * nat);
  m_group2 : option (nat * nat)
}.

Definition match_here (r : re) (fuel : nat) (x : cursor) : option submatch :=
  exec r fuel x no_captures
       (fun x' cs => Some (mkSubmatch (fst x) (fst x') (cs 1%nat) (cs 2%nat))).

(** The leftmost match at or after the cursor. *)
Fixpoint search (r : re) (fuel : nat) (pos : nat) (rest : bytes)
  : option submatch :=
  match match_here r fuel (pos, rest) with
  | Some m => Some m
  | None =>
    match rest with
    | [] => None
    | _ :: t => search r fuel (S pos) t
    end
  end.

(** Successive non-overlapping matches.  A match of the pattern below is
    never empty, so the next search starts where the last match ended. *)
Fixpoint find_all (r : re) (fuel n : nat) (pos : nat) (rest : bytes)
  : list submatch :=
  match n with
  | O => []
  | S n' =>
    match search r fuel pos rest with
    | None => []
    | Some m =>
      if (m_end m <=? pos)%nat then [m]
      else m :: find_all r fuel n' (m_end m) (skipn (m_end m - pos) rest)
    end
  end.

Definition FindAllStringSubmatchIndex (r : re) (s : bytes) : list submatch :=
  find_all r (S (List.length s)) (S (List.length s)) 0 s.

Definition letter (c : ascii) : bool :=
  in_range (code "A") (code "Z") (code c)
  || in_range (code "a") (code "z") (code c).

(** [\s] is [[\t\n\f\r ]]. *)
Definition space (c : ascii) : bool :=
  let n := code c in
  (n =? 9) || (n =? 10) || (n =? 12) || (n =? 13) || (n =? 32).

(** [.] is any character but the line feed. *)
Definition dot (c : ascii) : bool := negb (Ascii.eqb c newline).

Definition not_backslash (c : ascii) : bool := negb (Ascii.eqb c "\"%char).

End Regexp.

(** ** Grammar B: named verbs (the later generation of [format.go]) *)

Module GrammarB.

Import Regexp.

Inductive fmtVerb : Type :=
| vSTRING
| vSEVERITY
| vSeverity
| vseverity
| vSEV
| vSev
| vsev
| vS
| vs
| vDate
| vTime
| vUnix
| vUnixNano
| vFullFile
| vFile
| vShortFile
| vLine
| vFullFunction
| vPkgFunction
| vFunction
| vColor
| vMessage
| vSafeMessage.

Definition iota (v : fmtVerb) : Z :=
  match v with
  | vSTRING => 0
  | vSEVERITY => 1
  | vSeverity => 2
  | vseverity => 3
  | vSEV => 4
  | vSev => 5
  | vsev => 6
  | vS => 7
  | vs => 8
  | vDate => 9
  | vTime => 10
  | vUnix => 11
  | vUnixNano => 12
  | vFullFile => 13
  | vFile => 14
  | vShortFile => 15
  | vLine => 16
  | vFullFunction => 17
  | vPkgFunction => 18
  | vFunction => 19
  | vColor => 20
  | vMessage => 21
  | vSafeMessage => 22
  end.

Definition int (v : fmtVerb) : Z := Z.shiftl 1 (iota v).

Definition vRUNTIME_CALLER : Z :=
  Z.lor (Z.lor (Z.lor (Z.lor (Z.lor (Z.lor (int vFullFile) (int vFile))
                                    (int vShortFile))
                             (int vLine))
                      (int vFullFunction))
               (int vPkgFunction))
        (int vFunction).

(** [%{([A-Za-z]+)(?:\s(.*?[^\\]))?}] *)
Definition formatRe : re :=
  Seq (Char "%")
 (Seq (Char "{")
 (Seq (Group 1 (Plus (Class letter)))
 (Seq (Quest (Seq (Class space)
                  (Group 2 (Seq (StarLazy (Class dot)) (Class not_backslash)))))
      (Char "}")))).

Definition verbTable : list (string * fmtVerb) :=
  [ ("SEVERITY", vSEVERITY);
    ("Severity", vSeverity);
    ("severity", vseverity);
    ("SEV", vSEV);
    ("Sev", vSev);
    ("sev", vsev);
    ("S", vS);
    ("s", vs);
    ("Date", vDate);
    ("Time", vTime);
    ("Unix", vUnix);
    ("UnixNano", vUnixNano);
    ("FullFile", vFullFile);
    ("File", vFile);
    ("ShortFile", vShortFile);
    ("Line", vLine);
    ("FullFunction", vFullFunction);
    ("PkgFunction", vPkgFunction);
    ("Function", vFunction);
    ("Color", vColor);
    ("Message", vMessage);
    ("SafeMessage", vSafeMessage) ]%string.

Fixpoint lookup (t : list (string * fmtVerb)) (k : bytes) : option fmtVerb :=
  match t with
  | [] => None
  | (name, v) :: t' => if Go.eqb k (B name) then Some v else lookup t' k
  end.

(** [v, ok := verbMap[verb]] *)
Definition verbMap (verb : bytes) : option fmtVerb := lookup verbTable verb.

Record StdFormatter : Type := mkStdFormatter {
  frmt : bytes;
  strings : list bytes;
  parts : list fmtVerb;
  tmp : bytes;
  stmp : bytes;
  flags : Z
}.

Definition appendString (f : StdFormatter) (s : bytes) : StdFormatter :=
  if 0 <? len s then
    mkStdFormatter (frmt f) (strings f ++ [s]) (parts f ++ [vSTRING]) (tmp f)
                   (stmp f) (flags f)
  else f.

(** [f.flags |= int(v); f.parts = append(f.parts, v)] *)
Definition add_verb (f : StdFormatter) (v : fmtVerb) : StdFormatter :=
  mkStdFormatter (frmt f) (strings f) (parts f ++ [v]) (tmp f) (stmp f)
                 (Z.lor (flags f) (int v)).

(** [s[a:b]] between bounds that a match of the regular expression gives. *)
Definition substr (s : bytes) (a b : nat) : bytes := firstn (b - a) (skipn a s).

(** [ansi.Reset] of github.com/mgutz/ansi: ESC [ 0 m. *)
Definition Reset : bytes := "027"%char :: B "[0m".

Section Compiler.

(** [ansi.ColorCode] of github.com/mgutz/ansi, which turns a style such as
    [red+b] into its escape sequence. *)
Variable ColorCode : bytes -> bytes.

(** One iteration of [for _, m := range matches]; [prev] is carried along. *)
Definition compile_match (frmt : bytes) (st : StdFormatter * nat) (m : submatch)
  : StdFormatter * nat :=
  let '(f, prev) := st in
  let start := m_start m in
  let end_ := m_end m in
  let verb := match m_group1 m with
              | Some (a, b) => substr frmt a b
              | None => []
              end in
  let layout := match m_group2 m with
                | Some (a, b) => substr frmt a b
                | None => []
                end in
  let f := if (prev <? start)%nat then appendString f (substr frmt prev start)
           else f in
  let f := match verbMap verb with
           | Some v =>
             match v with
             | vColor =>
               if Go.eqb layout (B "reset") then appendString f Reset
               else appendString f (ColorCode layout)
             | _ => add_verb f v
             end
           | None => f
           end in
  (f, end_).

Definition NewStdFormatter (frmt : bytes) : StdFormatter :=
  let f := mkStdFormatter frmt [] [] (repeat zero 64) [] 0 in
  let matches := FindAllStringSubmatchIndex formatRe frmt in
  let '(f, prev) := fold_left (compile_match frmt) matches (f, 0%nat) in
  if negb (Go.eqb (skipn prev frmt) []) then appendString f (skipn prev frmt)
  else f.

End Compiler.

Definition ShouldRuntimeCaller (f : StdFormatter) : bool :=
  negb (Z.land (flags f) vRUNTIME_CALLER =? 0).

(** Modelled from the spec: the severity string tables of this generation
    ([UcSeverityStrings] and the seven others) are declared outside the
    sources at hand.  Their entries for TRACE..PANIC are those the comment
    above [NewStdFormatter] lists for each verb; the entry for NONE, which
    that comment does not give, is taken as in [LongSeverityStrings] for the
    full names and as in [SeverityStrings] (empty) for the shorter ones.
    Each is indexed by the severity, like the tables of [factorlog.go]. *)
Definition UcSeverityStrings : list bytes :=
  map B ["NONE"; "TRACE"; "DEBUG"; "INFO"; "WARN"; "ERROR"; "CRITICAL";
         "STACK"; "FATAL"; "PANIC"]%string.

Definition CapSeverityStrings : list bytes :=
  map B ["None"; "Trace"; "Debug"; "Info"; "Warn"; "Error"; "Critical";
         "Stack"; "Fatal"; "Panic"]%string.

Definition LcSeverityStrings : list bytes :=
  map B ["none"; "trace"; "debug"; "info"; "warn"; "error"; "critical";
         "stack"; "fatal"; "panic"]%string.

Definition UcShortSeverityStrings : list bytes :=
  map B [""; "TRAC"; "DEBG"; "INFO"; "WARN"; "EROR"; "CRIT"; "STAK"; "FATL";
         "PANC"]%string.

Definition CapShortSeverityStrings : list bytes :=
  map B [""; "Trac"; "Debg"; "Info"; "Warn"; "Eror"; "Crit"; "Stak"; "Fatl";
         "Panc"]%string.

Definition LcShortSeverityStrings : list bytes :=
  map B [""; "trac"; "debg"; "info"; "warn"; "eror"; "crit"; "stak"; "fatl";
         "panc"]%string.

Definition UcShortestSeverityStrings : list bytes :=
  map B [""; "T"; "D"; "I"; "W"; "E"; "C"; "S"; "F"; "P"]%string.

Definition LcShortestSeverityStrings : list bytes :=
  map B [""; "t"; "d"; "i"; "w"; "e"; "c"; "s"; "f"; "p"]%string.

(** Modelled from the spec: [i64toa] is declared outside the sources at
    hand; it is the variable-width writer for 64-bit values ("unix
    timestamps"), the algorithm of [itoa]. *)
Definition i64toa (buf : bytes) (i d : Z) : result (bytes * Z) := itoa buf i d.

(** The record type of this generation, [LogContext], with the fields that
    [Format] and [FactorLog.Output] use. *)
Record LogContext : Type := mkLogContext {
  Time_ : Time;
  Severity_ : Severity;
  File : bytes;
  Line : Z;
  Function : bytes;
  Message : bytes;
  Pid : Z
}.

(** The variables of the rendering loop of [Format]; the scratch buffers
    [f.tmp] and [f.stmp] are written by it. *)
Record render : Type := mkRender {
  buf : bytes;
  stringi : Z;
  tmp_ : bytes;
  stmp_ : bytes
}.

(** The body of the case [vFile, vShortFile]. *)
Definition short_file (p : fmtVerb) (file : bytes) : result bytes :=
  file <- (if len file =? 0 then Ok (B "???")
           else
             slash <- last_separator file (List.length file) ;;
             if slash >=? 0 then slice_from file (slash + 1) else Ok file) ;;
  match p with
  | vShortFile => slice_to file (len file - 3)
  | _ => Ok file
  end.

(** The body of the case [vPkgFunction]. *)
Definition pkg_function (fun_ : bytes) : result bytes :=
  slash <- last_separator fun_ (List.length fun_) ;;
  if slash >=? 0 then slice_from fun_ (slash + 1) else Ok fun_.

(** The loop of the case [vFunction], entered with [slash = k - 1]; the
    value of [lastDot] after it. *)
Fixpoint last_dot (s : bytes) (k : nat) (lastDot : Z) : result Z :=
  match k with
  | O => Ok lastDot
  | S slash =>
    c <- index s (Z.of_nat slash) ;;
    if Ascii.eqb c Separator then Ok lastDot
    else if Ascii.eqb c "."%char then last_dot s slash (Z.of_nat slash)
    else last_dot s slash lastDot
  end.

(** The body of the case [vFunction]. *)
Definition function_name (fun_ : bytes) : result bytes :=
  lastDot <- last_dot fun_ (List.length fun_) (-1) ;;
  slice_from fun_ (lastDot + 1).

(** The loop [for _, c := range context.Message] of the case
    [vSafeMessage], over the runes of the message. *)
Fixpoint safe_runes (cs : list Z) (t s : bytes) : result (bytes * bytes) :=
  match cs with
  | [] => Ok (t, s)
  | c :: cs' =>
    if c <? 32 then
      t <- store t 0 "\"%char ;;
      t <- store t 1 "x"%char ;;
      t <- twoDigits t 2 c ;;
      esc <- slice_to t 4 ;;
      safe_runes cs' t (s ++ esc)
    else safe_runes cs' t (s ++ [byte c])
  end.

(** One iteration of [for _, p := range f.parts], the [switch p]. *)
Definition format_part (f : StdFormatter) (context : LogContext) (st : render)
           (p : fmtVerb) : result render :=
  let out := buf st in
  let t := tmp_ st in
  let i := stringi st in
  let sev (table : list bytes) :=
      s <- index table (Severity_ context) ;;
      Ok (mkRender (out ++ s) i t (stmp_ st)) in
  match p with
  | vSTRING =>
    s <- index (strings f) i ;;
    Ok (mkRender (out ++ s) (i + 1) t (stmp_ st))
  | vSEVERITY => sev UcSeverityStrings
  | vSeverity => sev CapSeverityStrings
  | vseverity => sev LcSeverityStrings
  | vSEV => sev UcShortSeverityStrings
  | vSev => sev CapShortSeverityStrings
  | vsev => sev LcShortSeverityStrings
  | vS => sev UcShortestSeverityStrings
  | vs => sev LcShortestSeverityStrings
  | vDate =>
    let '(year, month, day) := Date (Time_ context) in
    t <- nDigits t 4 0 year ;;
    t <- store t 4 "-"%char ;;
    t <- twoDigits t 5 month ;;
    t <- store t 7 "-"%char ;;
    t <- twoDigits t 8 day ;;
    s <- slice_to t 10 ;;
    Ok (mkRender (out ++ s) i t (stmp_ st))
  | vTime =>
    let '(hour, min, sec) := Clock (Time_ context) in
    t <- twoDigits t 0 hour ;;
    t <- store t 2 ":"%char ;;
    t <- twoDigits t 3 min ;;
    t <- store t 5 ":"%char ;;
    t <- twoDigits t 6 sec ;;
    s <- slice_to t 8 ;;
    Ok (mkRender (out ++ s) i t (stmp_ st))
  | vUnix =>
    '(t, n) <- i64toa t 0 (Unix (Time_ context)) ;;
    s <- slice_to t n ;;
    Ok (mkRender (out ++ s) i t (stmp_ st))
  | vUnixNano =>
    '(t, n) <- i64toa t 0 (UnixNano (Time_ context)) ;;
    s <- slice_to t n ;;
    Ok (mkRender (out ++ s) i t (stmp_ st))
  | vFullFile => Ok (mkRender (out ++ File context) i t (stmp_ st))
  | vFile | vShortFile =>
    file <- short_file p (File context) ;;
    Ok (mkRender (out ++ file) i t (stmp_ st))
  | vLine =>
    '(t, n) <- itoa t 0 (Line context) ;;
    s <- slice_to t n ;;
    Ok (mkRender (out ++ s) i t (stmp_ st))
  | vFullFunction => Ok (mkRender (out ++ Function context) i t (stmp_ st))
  | vPkgFunction =>
    fun_ <- pkg_function (Function context) ;;
    Ok (mkRender (out ++ fun_) i t (stmp_ st))
  | vFunction =>
    fun_ <- function_name (Function context) ;;
    Ok (mkRender (out ++ fun_) i t (stmp_ st))
  | vColor => Ok st
  | vMessage => Ok (mkRender (out ++ Message context) i t (stmp_ st))
  | vSafeMessage =>
    '(t, s) <- safe_runes (runes (Message context)) t [] ;;
    Ok (mkRender (out ++ s) i t s)
  end.

Fixpoint format_parts (f : StdFormatter) (context : LogContext)
         (ps : list fmtVerb) (st : render) : result render :=
  match ps with
  | [] => Ok st
  | p :: ps' =>
    st' <- format_part f context st p ;;
    format_parts f context ps' st'
  end.

(** The buffer at the end of the loop of [Format], before the line
    terminator is looked at. *)
Definition accumulate (f : StdFormatter) (context : LogContext)
  : result bytes :=
  st <- format_parts f context (parts f) (mkRender [] 0 (tmp f) (stmp f)) ;;
  Ok (buf st).

Definition Format (f : StdFormatter) (context : LogContext) : result bytes :=
  out <- accumulate f context ;;
  terminate out.

End GrammarB.

(** ** Notions the properties are stated with *)

(** The decimal digit of value [k]. *)
Definition digit (k : Z) : ascii := byte (code "0"%char + k).

Definition is_digit (c : ascii) : Prop := code "0"%char <= code c <= code "9"%char.

(** The number a sequence of decimal digits denotes. *)
Definition value (s : bytes) : Z :=
  fold_left (fun acc c => acc * 10 + (code c - code "0"%char)) s 0.

(** A decimal representation with no leading zero, the single digit [0]
    apart. *)
Definition minimal (s : bytes) : Prop :=
  match s with
  | [] => False
  | [_] => True
  | c :: _ => c <> "0"%char
  end.

(** The digits of [d], most significant first. *)
Fixpoint decimal_upto (n : nat) (d : Z) : bytes :=
  match n with
  | O => []
  | S n' =>
    if d <? 10 then [digit d]
    else decimal_upto n' (d / 10) ++ [digit (d mod 10)]
  end.

Definition decimal (d : Z) : bytes := decimal_upto (loop_fuel d) d.

(** [out] is [acc] with its line terminator seen to: one line feed more
    when [acc] is not empty and does not end in one, nothing more
    otherwise. *)
Definition terminated (acc out : bytes) : Prop :=
  (forall pre c, acc = pre ++ [c] -> c <> newline -> out = acc ++ [newline])
  /\ (forall pre, acc = pre ++ [newline] -> out = acc)
  /\ (acc = [] -> out = []).

(** The record of [format_test.go], [fmtTestsData]. *)
Definition fmtTestsTime : Time :=
  mkTime (2014, 1, 8) (18, 27, 14) 123456 1389223634 1389223634000123456.

Definition fmtTestsData : GrammarA.LogRecord :=
  GrammarA.mkLogRecord fmtTestsTime PANIC (B "/path/to/testing.go") 391
                       (B "pkg.func") (B "pkg") (B "hello there!").

(** The same record with another severity, file or message. *)
Definition recordA (sev : Severity) (file message : bytes)
  : GrammarA.LogRecord :=
  GrammarA.mkLogRecord fmtTestsTime sev file 391 (B "pkg.func") (B "pkg")
                       message.

(** The like record for the later generation. *)
Definition recordB (sev : Severity) (file message : bytes)
  : GrammarB.LogContext :=
  GrammarB.mkLogContext fmtTestsTime sev file 391 (B "pkg.func") message 1234.

(** The verbs that need the caller's file, line or function. *)
Definition needs_callerA (v : GrammarA.fmtVerb) : bool :=
  match v with
  | GrammarA.vFILE | GrammarA.vSHORT_FILE | GrammarA.vEXTRA_SHORT_FILE
  | GrammarA.vLINE | GrammarA.vPACKAGE_FUNCTION | GrammarA.vFUNCTION => true
  | _ => false
  end.

Definition needs_callerB (v : GrammarB.fmtVerb) : bool :=
  match v with
  | GrammarB.vFullFile | GrammarB.vFile | GrammarB.vShortFile
  | GrammarB.vLine | GrammarB.vFullFunction | GrammarB.vPkgFunction
  | GrammarB.vFunction => true
  | _ => false
  end.

(** What a part contributes to [flags]: a literal segment nothing, a verb
    its own bit. *)
Definition bitA (v : GrammarA.fmtVerb) : Z :=
  match v with
  | GrammarA.vSTRING => 0
  | _ => GrammarA.int v
  end.

Definition bitB (v : GrammarB.fmtVerb) : Z :=
  match v with
  | GrammarB.vSTRING => 0
  | _ => GrammarB.int v
  end.

(** The bitwise OR of the contributions of a sequence of parts. *)
Definition mask_of {V : Type} (bit : V -> Z) (ps : list V) : Z :=
  fold_right (fun v acc => Z.lor (bit v) acc) 0 ps.

(** The verb a match of [formatRe] puts into the instruction sequence: the
    one its name stands for in the verb table, [Color] apart. *)
Definition verb_of_match (frmt : bytes) (m : Regexp.submatch)
  : list GrammarB.fmtVerb :=
  let verb := match Regexp.m_group1 m with
              | Some (a, b) => GrammarB.substr frmt a b
              | None => []
              end in
  match GrammarB.verbMap verb with
  | Some GrammarB.vColor => []
  | Some v => [v]
  | None => []
  end.

Definition is_verb (v : GrammarB.fmtVerb) : bool :=
  match v with
  | GrammarB.vSTRING => false
  | _ => true
  end.

(** What the safe-message verb makes of one ASCII byte: a control byte
    becomes a backslash, an [x] and the two low decimal digits of its
    value; any other byte stays. *)
Definition decimal_escape (c : ascii) : bytes :=
  if code c <? 32
  then B "\x" ++ [digit (code c / 10 mod 10); digit (code c mod 10)]
  else [c].

(** Whether a template of Grammar B holds the two bytes that open a token,
    a percent sign and a left brace. *)
Fixpoint opens_token (s : bytes) : bool :=
  match s with
  | [] => false
  | c1 :: t =>
    match t with
    | [] => false
    | c2 :: _ =>
      (Ascii.eqb c1 "%"%char && Ascii.eqb c2 "{"%char) || opens_token t
    end
  end.

(** A template of Grammar A with nothing to interpret: ASCII text without
    the sentinel. *)
Definition plain (c : ascii) : bool :=
  (code c <? 128) && negb (Ascii.eqb c "%"%char).

(** The entry of [ddigits] for [x] holds the two digits of [x]. *)
Definition ddigits_entry_ok (x : Z) : bool :=
  match index ddigits (x * 2), index ddigits (x * 2 + 1) with
  | Ok hi, Ok lo => Ascii.eqb hi (digit (x / 10)) && Ascii.eqb lo (digit (x mod 10))
  | _, _ => false
  end.

(** What [itoa] does between its loop and the final [copy]. *)
Definition itoa_tail (r : bytes * Z * Z) : result (bytes * Z) :=
  let '(buf, j, d) := r in
  if d <? 10 then
    buf <- store buf (j - 1) (byte (code "0"%char + d)) ;;
    Ok (buf, j - 1)
  else
    b <- index ddigits (d * 2 + 1) ;;
    buf <- store buf (j - 1) b ;;
    b <- index ddigits (d * 2) ;;
    buf <- store buf (j - 1 - 1) b ;;
    Ok (buf, j - 1 - 1).

(** What compilation keeps true of a formatter of Grammar A: its flags are
    the OR of its parts. *)
Definition flags_okA (f : GrammarA.StdFormatter) : Prop :=
  GrammarA.flags f = mask_of bitA (GrammarA.parts f).

(** What compilation keeps true of a formatter of Grammar B: its flags are
    the OR of its parts; its parts other than literal segments are [vs]. *)
Definition compiledB (f : GrammarB.StdFormatter) (vs : list GrammarB.fmtVerb)
  : Prop :=
  GrammarB.flags f = mask_of bitB (GrammarB.parts f)
  /\ filter is_verb (GrammarB.parts f) = vs.

(** ** Further notions: fixed-width fields *)

(** The [n] low decimal digits of [d], most significant first. *)
Fixpoint padded (n : nat) (d : Z) : bytes :=
  match n with
  | O => []
  | S k => padded k (d / 10) ++ [digit (d mod 10)]
  end.

(** ** Further notions: what the verbs of Grammar A render *)

(** A date as [YYYY-MM-DD], with the separator given. *)
Definition show_date (sep : ascii) (t : Time) : bytes :=
  let '(year, month, day) := Date t in
  padded 4 year ++ [sep] ++ padded 2 month ++ [sep] ++ padded 2 day.

(** A clock time as [HH:MM:SS]. *)
Definition show_clock (t : Time) : bytes :=
  let '(hour, min, sec) := Clock t in
  padded 2 hour ++ B ":" ++ padded 2 min ++ B ":" ++ padded 2 sec.

(** A file name from after its last separator on; the whole of it when it
    has none. *)
Fixpoint base_name (s : bytes) : bytes :=
  match s with
  | [] => []
  | c :: t =>
    if existsb (Ascii.eqb Separator) t then base_name t
    else if Ascii.eqb c Separator then t
    else c :: t
  end.

(** The numbers of a record that the fixed-width and variable-width
    writers can take: none is negative, and the line number fits the
    64-byte scratch buffer. *)
Definition numbers_ok (t : Time) (line : Z) : Prop :=
  let '(year, month, day) := Date t in
  let '(hour, min, sec) := Clock t in
  0 <= year /\ 0 <= month /\ 0 <= day
  /\ 0 <= hour /\ 0 <= min /\ 0 <= sec
  /\ 0 <= Nanosecond t
  /\ 0 <= line < 10 ^ 64.

(** What a verb of Grammar A renders for a record; a panic where the
    renderer panics. *)
Definition show_verbA (p : GrammarA.fmtVerb) (data : GrammarA.LogRecord)
  : result bytes :=
  let t := GrammarA.Time_ data in
  let file := GrammarA.File data in
  match p with
  | GrammarA.vSTRING => Ok []
  | GrammarA.vDATE_D => Ok (show_date "-" t)
  | GrammarA.vDATE_d => Ok (show_date "/" t)
  | GrammarA.vTIME_T => Ok (show_clock t ++ B "." ++ padded 6 (Nanosecond t))
  | GrammarA.vTIME_t => Ok (show_clock t)
  | GrammarA.vSEVERITY => index LongSeverityStrings (GrammarA.Severity_ data)
  | GrammarA.vSHORT_SEVERITY => index SeverityStrings (GrammarA.Severity_ data)
  | GrammarA.vFILE => Ok file
  | GrammarA.vSHORT_FILE =>
    Ok (match file with [] => B "???" | _ => base_name file end)
  | GrammarA.vEXTRA_SHORT_FILE =>
    match file with
    | [] => Ok (B "???")
    | _ => slice_to (base_name file) (len (base_name file) - 3)
    end
  | GrammarA.vLINE => Ok (decimal (GrammarA.Line data))
  | GrammarA.vMESSAGE => Ok (GrammarA.Message data)
  | GrammarA.vPACKAGE_FUNCTION => Ok (GrammarA.Function data)
  | GrammarA.vFUNCTION => Ok (GrammarA.Package data)
  end.

(** The verb a rune stands for after the sentinel. *)
Definition verb_of_rune (c : Z) : option GrammarA.fmtVerb :=
  if GrammarA.rune_is c "T" then Some GrammarA.vTIME_T
  else if GrammarA.rune_is c "t" then Some GrammarA.vTIME_t
  else if GrammarA.rune_is c "D" then Some GrammarA.vDATE_D
  else if GrammarA.rune_is c "d" then Some GrammarA.vDATE_d
  else if GrammarA.rune_is c "L" then Some GrammarA.vSEVERITY
  else if GrammarA.rune_is c "l" then Some GrammarA.vSHORT_SEVERITY
  else if GrammarA.rune_is c "F" then Some GrammarA.vFILE
  else if GrammarA.rune_is c "f" then Some GrammarA.vSHORT_FILE
  else if GrammarA.rune_is c "x" then Some GrammarA.vEXTRA_SHORT_FILE
  else if GrammarA.rune_is c "s" then Some GrammarA.vLINE
  else if GrammarA.rune_is c "M" then Some GrammarA.vMESSAGE
  else if GrammarA.rune_is c "P" then Some GrammarA.vPACKAGE_FUNCTION
  else if GrammarA.rune_is c "p" then Some GrammarA.vFUNCTION
  else None.

(** A direct reading of a template of Grammar A, rune by rune, with no
    compiled form in between: what the rune [c] contributes to the output
    when the rune before it was ([after_sentinel]) or was not an
    unescaped sentinel. *)
Definition piece (data : GrammarA.LogRecord) (after_sentinel : bool) (c : Z)
  : result bytes :=
  if after_sentinel then
    match verb_of_rune c with
    | Some v => show_verbA v data
    | None =>
      if GrammarA.rune_is c "%" then Ok (B "%") else Ok (B "%" ++ [byte c])
    end
  else if GrammarA.rune_is c "%" then Ok []
  else Ok [byte c].

Fixpoint interpret (data : GrammarA.LogRecord) (after_sentinel : bool)
         (rs : list Z) : result bytes :=
  match rs with
  | [] => Ok []
  | c :: rs' =>
    p <- piece data after_sentinel c ;;
    r <- interpret data (negb after_sentinel && GrammarA.rune_is c "%") rs' ;;
    Ok (p ++ r)
  end.

(** The output of an instruction sequence with its literal segments, part
    by part. *)
Fixpoint assemble (data : GrammarA.LogRecord) (ps : list GrammarA.fmtVerb)
         (ss : list bytes) : result bytes :=
  match ps with
  | [] => Ok []
  | GrammarA.vSTRING :: ps' =>
    match ss with
    | s :: ss' => r <- assemble data ps' ss' ;; Ok (s ++ r)
    | [] => Panic
    end
  | v :: ps' =>
    o <- show_verbA v data ;;
    r <- assemble data ps' ss ;;
    Ok (o ++ r)
  end.

(** The number of literal segments an instruction sequence asks for. *)
Fixpoint literalsA (ps : list GrammarA.fmtVerb) : nat :=
  match ps with
  | [] => 0
  | GrammarA.vSTRING :: ps' => S (literalsA ps')
  | _ :: ps' => literalsA ps'
  end.

(** What the scanner of Grammar A keeps true of its state: there is one
    stored string for each literal part, no stored string is empty, the
    scratch buffer has its 64 bytes, and no literal text is pending while
    a verb letter is awaited. *)
Definition scan_ok (st : GrammarA.scan) : Prop :=
  literalsA (GrammarA.parts (GrammarA.f_ st))
  = List.length (GrammarA.strings (GrammarA.f_ st))
  /\ Forall (fun s => s <> []) (GrammarA.strings (GrammarA.f_ st))
  /\ List.length (GrammarA.tmp (GrammarA.f_ st)) = 64%nat
  /\ (GrammarA.isverb st = true -> GrammarA.raw st = []).

(** What a scanner state stands for: the output of the parts compiled so
    far, followed by the pending literal text. *)
Definition scan_output (data : GrammarA.LogRecord) (st : GrammarA.scan)
  : result bytes :=
  o <- assemble data (GrammarA.parts (GrammarA.f_ st))
                (GrammarA.strings (GrammarA.f_ st)) ;;
  Ok (o ++ GrammarA.raw st).

(** Whether a reading of the runes [rs] ends on an unescaped sentinel,
    with a verb letter still awaited. *)
Definition sentinel_pending (rs : list Z) : bool :=
  fold_left (fun b c => negb b && GrammarA.rune_is c "%") rs false.

(** Two records of Grammar A that differ at most in what the caller's
    location provides: file, line, function and package. *)
Definition same_but_location (d1 d2 : GrammarA.LogRecord) : Prop :=
  GrammarA.Time_ d1 = GrammarA.Time_ d2
  /\ GrammarA.Severity_ d1 = GrammarA.Severity_ d2
  /\ GrammarA.Message d1 = GrammarA.Message d2.

(** ** Further notions: what the verbs of Grammar B render *)

(** What follows the first point of a text, if it has one. *)
Fixpoint after_dot (s : bytes) : option bytes :=
  match s with
  | [] => None
  | c :: t => if Ascii.eqb c "."%char then Some t else after_dot t
  end.

(** The function verb: what follows the first point after the last
    separator; the whole identifier, path included, when no point follows
    the last separator. *)
Definition function_of (fun_ : bytes) : bytes :=
  match after_dot (base_name fun_) with
  | Some name => name
  | None => fun_
  end.

(** The file verb: the base name, or the placeholder for an empty name. *)
Definition file_or_placeholder (file : bytes) : bytes :=
  match file with
  | [] => B "???"
  | _ => base_name file
  end.

(** The safe-message verb on one rune of the message. *)
Definition rune_escape (c : Z) : bytes :=
  if c <? 32 then B "\x" ++ padded 2 c else [byte c].

Definition numbers_okB (context : GrammarB.LogContext) : Prop :=
  numbers_ok (GrammarB.Time_ context) (GrammarB.Line context)
  /\ 0 <= Unix (GrammarB.Time_ context) < 10 ^ 64
  /\ 0 <= UnixNano (GrammarB.Time_ context) < 10 ^ 64.

(** What a verb of Grammar B renders for a record; a panic where the
    renderer panics. *)
Definition show_verbB (p : GrammarB.fmtVerb) (context : GrammarB.LogContext)
  : result bytes :=
  let t := GrammarB.Time_ context in
  let sev := GrammarB.Severity_ context in
  let file := file_or_placeholder (GrammarB.File context) in
  match p with
  | GrammarB.vSTRING => Ok []
  | GrammarB.vSEVERITY => index GrammarB.UcSeverityStrings sev
  | GrammarB.vSeverity => index GrammarB.CapSeverityStrings sev
  | GrammarB.vseverity => index GrammarB.LcSeverityStrings sev
  | GrammarB.vSEV => index GrammarB.UcShortSeverityStrings sev
  | GrammarB.vSev => index GrammarB.CapShortSeverityStrings sev
  | GrammarB.vsev => index GrammarB.LcShortSeverityStrings sev
  | GrammarB.vS => index GrammarB.UcShortestSeverityStrings sev
  | GrammarB.vs => index GrammarB.LcShortestSeverityStrings sev
  | GrammarB.vDate => Ok (show_date "-" t)
  | GrammarB.vTime => Ok (show_clock t)
  | GrammarB.vUnix => Ok (decimal (Unix t))
  | GrammarB.vUnixNano => Ok (decimal (UnixNano t))
  | GrammarB.vFullFile => Ok (GrammarB.File context)
  | GrammarB.vFile => Ok file
  | GrammarB.vShortFile => slice_to file (len file - 3)
  | GrammarB.vLine => Ok (decimal (GrammarB.Line context))
  | GrammarB.vFullFunction => Ok (GrammarB.Function context)
  | GrammarB.vPkgFunction => Ok (base_name (GrammarB.Function context))
  | GrammarB.vFunction => Ok (function_of (GrammarB.Function context))
  | GrammarB.vColor => Ok []
  | GrammarB.vMessage => Ok (GrammarB.Message context)
  | GrammarB.vSafeMessage =>
    Ok (flat_map rune_escape (runes (GrammarB.Message context)))
  end.

(** What a token with the name [verb] and the argument [layout]
    contributes to the output: a colour its escape sequence, a known verb
    what it renders, an unknown name nothing. *)
Definition verb_piece (ColorCode : bytes -> bytes)
           (context : GrammarB.LogContext) (verb layout : bytes)
  : result bytes :=
  match GrammarB.verbMap verb with
  | Some GrammarB.vColor =>
    Ok (if Go.eqb layout (B "reset") then GrammarB.Reset else ColorCode layout)
  | Some v => show_verbB v context
  | None => Ok []
  end.

(** What one match of [formatRe] in a template contributes. *)
Definition token_piece (ColorCode : bytes -> bytes) (frmt : bytes)
           (context : GrammarB.LogContext) (m : Regexp.submatch)
  : result bytes :=
  let verb := match Regexp.m_group1 m with
              | Some (a, b) => GrammarB.substr frmt a b
              | None => []
              end in
  let layout := match Regexp.m_group2 m with
                | Some (a, b) => GrammarB.substr frmt a b
                | None => []
                end in
  verb_piece ColorCode context verb layout.

(** A direct reading of a template of Grammar B along the tokens [ms]
    found in it, from the byte [prev] on: the text before each token as it
    is, then the token's contribution, and at the end the text after the
    last token. *)
Fixpoint interpretB (ColorCode : bytes -> bytes) (frmt : bytes)
         (context : GrammarB.LogContext) (ms : list Regexp.submatch)
         (prev : nat) : result bytes :=
  match ms with
  | [] => Ok (skipn prev frmt)
  | m :: ms' =>
    let gap := GrammarB.substr frmt prev (Regexp.m_start m) in
    p <- token_piece ColorCode frmt context m ;;
    r <- interpretB ColorCode frmt context ms' (Regexp.m_end m) ;;
    Ok (gap ++ p ++ r)
  end.

(** The output of an instruction sequence of Grammar B with its literal
    segments, part by part. *)
Fixpoint assembleB (context : GrammarB.LogContext)
         (ps : list GrammarB.fmtVerb) (ss : list bytes) : result bytes :=
  match ps with
  | [] => Ok []
  | GrammarB.vSTRING :: ps' =>
    match ss with
    | s :: ss' => r <- assembleB context ps' ss' ;; Ok (s ++ r)
    | [] => Panic
    end
  | v :: ps' =>
    o <- show_verbB v context ;;
    r <- assembleB context ps' ss ;;
    Ok (o ++ r)
  end.

Fixpoint literalsB (ps : list GrammarB.fmtVerb) : nat :=
  match ps with
  | [] => 0
  | GrammarB.vSTRING :: ps' => S (literalsB ps')
  | _ :: ps' => literalsB ps'
  end.

(** What the compiler of Grammar B keeps true of the formatter it builds:
    one stored string for each literal part, none of them empty, and a
    scratch buffer of 64 bytes. *)
Definition segments_okB (f : GrammarB.StdFormatter) : Prop :=
  literalsB (GrammarB.parts f) = List.length (GrammarB.strings f)
  /\ Forall (fun s => s <> []) (GrammarB.strings f)
  /\ List.length (GrammarB.tmp f) = 64%nat.

(** Two records of Grammar B that differ at most in what the caller's
    location provides: file, line and function. *)
Definition same_but_locationB (c1 c2 : GrammarB.LogContext) : Prop :=
  GrammarB.Time_ c1 = GrammarB.Time_ c2
  /\ GrammarB.Severity_ c1 = GrammarB.Severity_ c2
  /\ GrammarB.Message c1 = GrammarB.Message c2.

(** The record of [TestLog] of [factorlog_test.go]. *)
Definition logTestContext : GrammarB.LogContext :=
  GrammarB.mkLogContext
    fmtTestsTime ERROR (B "/go/src/github.com/kdar/factorlog/factorlog_test.go")
    31 (B "github.com/kdar/factorlog.TestLog") (B "hello there!") 1234.

(** ** Further notions: the tokens of a template of Grammar B *)

(** The length of the longest run of letters a text starts with. *)
Fixpoint letters_run (s : bytes) : nat :=
  match s with
  | c :: t => if Regexp.letter c then S (letters_run t) else 0
  | [] => 0
  end.

(** The length of the argument a text starts with: the shortest non-empty
    text that is followed by a closing brace, does not end in a backslash
    and holds no line feed before its last byte. *)
Fixpoint arg_length (s : bytes) : option nat :=
  match s with
  | [] => None
  | c :: t =>
    match t with
    | [] => None
    | d :: _ =>
      if Regexp.not_backslash c && Ascii.eqb "}"%char d then Some 1%nat
      else if Regexp.dot c then option_map S (arg_length t)
      else None
    end
  end.

(** The token a text starts with, as the length of its name and, when it
    has an argument, the length of the argument: a percent sign, an
    opening brace, the longest run of letters, which is not empty, and
    then either a closing brace, or one byte of white space, an argument
    and a closing brace. *)
Definition token_at (s : bytes) : option (nat * option nat) :=
  match s with
  | c1 :: c2 :: t =>
    if Ascii.eqb "%"%char c1 && Ascii.eqb "{"%char c2 then
      let n := letters_run t in
      match n with
      | O => None
      | S _ =>
        match skipn n t with
        | c :: u =>
          if Regexp.space c then
            match arg_length u with
            | Some a => Some (n, Some a)
            | None => None
            end
          else if Ascii.eqb "}"%char c then Some (n, None)
          else None
        | [] => None
        end
      end
    else None
  | _ => None
  end.

(** The number of bytes of a token. *)
Definition token_length (tk : nat * option nat) : nat :=
  match snd tk with
  | Some a => (2 + fst tk + 1 + a + 1)%nat
  | None => (2 + fst tk + 1)%nat
  end.

(** The token [tk] at the position [pos], as a match with its groups. *)
Definition to_submatch (pos : nat) (tk : nat * option nat) : Regexp.submatch :=
  Regexp.mkSubmatch
    pos (pos + token_length tk)
    (Some (pos + 2, pos + 2 + fst tk)%nat)
    (match snd tk with
     | Some a => Some (pos + 2 + fst tk + 1, pos + 2 + fst tk + 1 + a)%nat
     | None => None
     end).

(** The first token at or after the start of a text that begins at [pos]. *)
Fixpoint first_token (pos : nat) (s : bytes) : option Regexp.submatch :=
  match token_at s with
  | Some tk => Some (to_submatch pos tk)
  | None =>
    match s with
    | [] => None
    | _ :: t => first_token (S pos) t
    end
  end.

(** The tokens of a text that begins at [pos], from left to right; the
    first [skip] bytes belong to a token already found. *)
Fixpoint tokens (pos skip : nat) (s : bytes) : list Regexp.submatch :=
  match s with
  | [] => []
  | _ :: t =>
    match skip with
    | S k => tokens (S pos) k t
    | O =>
      match token_at s with
      | Some tk => to_submatch pos tk :: tokens (S pos) (token_length tk - 1) t
      | None => tokens (S pos) 0 t
      end
    end
  end.

(** The name and the argument of the token [tk] a text starts with. *)
Definition token_name (tk : nat * option nat) (s : bytes) : bytes :=
  firstn (fst tk) (skipn 2 s).

Definition token_layout (tk : nat * option nat) (s : bytes) : bytes :=
  match snd tk with
  | Some a => firstn a (skipn (2 + fst tk + 1) s)
  | None => []
  end.

(** A direct reading of a template of Grammar B, byte by byte: where a
    token starts, what the token contributes, and on after the token;
    elsewhere the byte as it is.  The first [skip] bytes belong to a token
    already read. *)
Fixpoint readB (ColorCode : bytes -> bytes) (context : GrammarB.LogContext)
         (skip : nat) (s : bytes) : result bytes :=
  match s with
  | [] => Ok []
  | c :: t =>
    match skip with
    | S k => readB ColorCode context k t
    | O =>
      match token_at s with
      | Some tk =>
        p <- verb_piece ColorCode context (token_name tk s) (token_layout tk s) ;;
        r <- readB ColorCode context (token_length tk - 1) t ;;
        Ok (p ++ r)
      | None =>
        r <- readB ColorCode context 0 t ;;
        Ok (c :: r)
      end
    end
  end.

(** The loops of [Regexp.exec] for [a+] and [a*?], by name. *)
Definition plus_loop {R : Type} (a : Regexp.re) (fuel : nat)
           (k : Regexp.cursor -> Regexp.captures -> option R)
  : nat -> Regexp.cursor -> Regexp.captures -> option R :=
  fix loop (n : nat) (x : Regexp.cursor) (cs : Regexp.captures) : option R :=
    match n with
    | O => None
    | S n' =>
      Regexp.exec a fuel x cs
                  (fun x' cs' => Regexp.orelse (loop n' x' cs') (k x' cs'))
    end.

Definition lazy_loop {R : Type} (a : Regexp.re) (fuel : nat)
           (k : Regexp.cursor -> Regexp.captures -> option R)
  : nat -> Regexp.cursor -> Regexp.captures -> option R :=
  fix loop (n : nat) (x : Regexp.cursor) (cs : Regexp.captures) : option R :=
    match n with
    | O => k x cs
    | S n' =>
      Regexp.orelse (k x cs)
                    (Regexp.exec a fuel x cs (fun x' cs' => loop n' x' cs'))
    end.

(** ** Further notions: a template of Grammar B written out *)

(** A token as it is written in a template: its name and, when it has
    one, the byte of white space and the argument after it. *)
Record token : Type := mkToken {
  tok_name : bytes;
  tok_arg : option (ascii * bytes)
}.

Definition tok_layout (tk : token) : bytes :=
  match tok_arg tk with
  | Some (_, a) => a
  | None => []
  end.

Definition token_text (tk : token) : bytes :=
  B "%{" ++ tok_name tk
    ++ match tok_arg tk with
       | Some (sep, a) => sep :: a
       | None => []
       end
    ++ B "}".

(** A name is a non-empty run of letters.  An argument follows one byte
    of white space; it holds no closing brace and no line feed, is not
    empty and does not end in a backslash. *)
Definition token_ok (tk : token) : Prop :=
  tok_name tk <> []
  /\ Forall (fun c => Regexp.letter c = true) (tok_name tk)
  /\ match tok_arg tk with
     | Some (sep, a) =>
       Regexp.space sep = true
       /\ ~ In "}"%char a /\ ~ In newline a
       /\ last a "\"%char <> "\"%char
     | None => True
     end.

(** The template that is each text of [plan] followed by its token, and
    then [tail]. *)
Fixpoint template (plan : list (bytes * token)) (tail : bytes) : bytes :=
  match plan with
  | [] => tail
  | (text, tk) :: plan' => text ++ token_text tk ++ template plan' tail
  end.

(** What such a template is meant to render: each text as it is, each
    token what its verb renders. *)
Fixpoint expected (ColorCode : bytes -> bytes) (context : GrammarB.LogContext)
         (plan : list (bytes * token)) (tail : bytes) : result bytes :=
  match plan with
  | [] => Ok tail
  | (text, tk) :: plan' =>
    p <- verb_piece ColorCode context (tok_name tk) (tok_layout tk) ;;
    r <- expected ColorCode context plan' tail ;;
    Ok (text ++ p ++ r)
  end.

(** The matches [ms] lie in order and without overlap between [prev] and
    [n], each with its groups inside it: the bounds that the slices of
    [NewStdFormatter] need. *)
Fixpoint in_order (prev : nat) (ms : list Regexp.submatch) (n : nat) : Prop :=
  match ms with
  | [] => (prev <= n)%nat
  | m :: ms' =>
    (prev <= Regexp.m_start m)%nat
    /\ (exists a b,
           Regexp.m_group1 m = Some (a, b)
           /\ (Regexp.m_start m <= a /\ a < b /\ b < Regexp.m_end m)%nat
           /\ match Regexp.m_group2 m with
              | Some (a2, b2) => (b < a2 /\ a2 < b2 /\ b2 < Regexp.m_end m)%nat
              | None => True
              end)
    /\ in_order (Regexp.m_end m) ms' n
  end.

(** The plan of a template with a colour, three verbs, an unknown name
    and the message. *)
Definition logTestPlan : list (bytes * token) :=
  [ ([], mkToken (B "Color") (Some (" "%char, B "red+b")));
    (B "[", mkToken (B "SEV") None);
    (B ":", mkToken (B "File") None);
    (B ":", mkToken (B "Line") None);
    (B "]", mkToken (B "Color") (Some (" "%char, B "reset")));
    (B " 100% ", mkToken (B "Nope") None);
    ([], mkToken (B "Message") None) ].

(** ** The stack trace of the logger ([stacks], beside the encoders) *)

Module Stacks.

Section Stacks.

(** The trace that [runtime.Stack] formats, for the calling goroutine or
    for all of them. *)
Variable trace_of : bool -> bytes.

(** [make([]byte, n)] *)
Definition make (n : Z) : bytes := repeat zero (Z.to_nat n).

(** [runtime.Stack(buf, all)]: the trace is formatted into [buf], as much
    of it as [buf] has room for, and the number of bytes written is
    returned. *)
Definition Stack (buf : bytes) (all : bool) : bytes * Z :=
  let w := firstn (List.length buf) (trace_of all) in
  (w ++ skipn (List.length w) buf, len w).

(** The loop [for i := 0; i < 5; i++] of [stacks], entered with [i], [n]
    and the last buffer. *)
Fixpoint stacks_loop (fuel : nat) (i n : Z) (trace : bytes) (all : bool)
  : result bytes :=
  match fuel with
  | O => OutOfFuel
  | S fuel' =>
    if i <? 5 then
      let trace := make n in
      let '(trace, nbytes) := Stack trace all in
      if nbytes <? len trace then slice_to trace nbytes
      else stacks_loop fuel' (i + 1) (n * 2) trace all
    else Ok trace
  end.

Definition stacks (all : bool) : result bytes :=
  let n := if all then 100000 else 10000 in
  stacks_loop 6 0 n [] all.

End Stacks.

End Stacks.

(** A compiled formatter after use: its scratch buffer holds what the last
    call left there, here the bytes of a time stamp. *)
Definition used_formatterA (frmt : bytes) : GrammarA.StdFormatter :=
  let f := GrammarA.NewStdFormatter frmt in
  GrammarA.mkStdFormatter (GrammarA.frmt f) (GrammarA.strings f) (GrammarA.parts f)
                          (B "18:27:14.123456" ++ repeat zero 49) (GrammarA.flags f).

Definition used_formatterB (frmt : bytes) : GrammarB.StdFormatter :=
  let f := GrammarB.NewStdFormatter (fun _ => []) frmt in
  GrammarB.mkStdFormatter (GrammarB.frmt f) (GrammarB.strings f) (GrammarB.parts f)
                          (B "18:27:14.123456" ++ repeat zero 49) (B "hello")
                          (GrammarB.flags f).

(** ** The logger ([factorlog.go] and its later generation)

    [Output] works on the logger and on what the run time answers.  The
    logger is passed as a state; the mutex is one flag of it.  A [Lock] of
    a mutex that is held never returns (there is one goroutine), an
    [Unlock] of a mutex that is not held is a fatal error, and a deferred
    call runs when the body returns or panics. *)

Module Logger.

(** A Go [error]: [nil], or an error with its text. *)
Definition error : Type := option bytes.

(** [io.Writer] *)
Class Writer (W : Type) : Type := {
  Write : W -> bytes -> W * (Z * error)
}.

(** [bytes.Buffer], the writer of the tests: it appends and never fails. *)
#[global] Instance Buffer : Writer bytes := {
  Write w p := (w ++ p, (len p, None))
}.

(** The interface [Formatter] of [format.go], for records of type [R]. *)
Class Formatter (F R : Type) : Type := {
  Format : F -> R -> result bytes;
  ShouldRuntimeCaller : F -> bool
}.

#[global] Instance StdFormatterA
  : Formatter GrammarA.StdFormatter GrammarA.LogRecord := {
  Format := GrammarA.Format;
  ShouldRuntimeCaller := GrammarA.ShouldRuntimeCaller
}.

#[global] Instance StdFormatterB
  : Formatter GrammarB.StdFormatter GrammarB.LogContext := {
  Format := GrammarB.Format;
  ShouldRuntimeCaller := GrammarB.ShouldRuntimeCaller
}.

(** What the run time answers during one call: [time.Now()],
    [runtime.Caller(skip)] as the program counter, the file and the line
    when it succeeds, [runtime.FuncForPC(pc)] as the name of the function
    when it is not [nil], [os.Getpid()], and what becomes of a mutex the
    call finds held: [Released] tells whether its holder unlocks it while
    the call waits.  A holder in another goroutine does; a holder that is
    the waiting goroutine itself, a writer that logs to its own logger for
    instance, never does. *)
Record Runtime : Type := mkRuntime {
  Now : Time;
  Caller : Z -> option (Z * bytes * Z);
  FuncForPC : Z -> option bytes;
  Getpid : Z;
  Released : bool
}.

Record FactorLog (W F : Type) : Type := mkFactorLog {
  mu : bool;
  out : W;
  formatter : F;
  verbosity : Z
}.

Section Steps.

Variables W F : Type.

Context {writer : Writer W}.

(** A step on the logger that returns, panics or does not return. *)
Definition M (A : Type) : Type := FactorLog W F -> FactorLog W F * result A.

Definition ret {A : Type} (a : A) : M A := fun l => (l, Ok a).

Definition lift {A : Type} (r : result A) : M A := fun l => (l, r).

Definition get : M (FactorLog W F) := fun l => (l, Ok l).

Definition then_ {A B : Type} (c : M A) (k : A -> M B) : M B :=
  fun l =>
    let '(l', r) := c l in
    match r with
    | Ok a => k a l'
    | Panic => (l', Panic)
    | OutOfFuel => (l', OutOfFuel)
    end.

(** [defer d] in front of [body]. *)
Definition defer {A : Type} (d : M unit) (body : M A) : M A :=
  fun l =>
    let '(l1, r) := body l in
    match r with
    | OutOfFuel => (l1, OutOfFuel)
    | _ =>
      let '(l2, r2) := d l1 in
      match r2 with
      | Ok _ => (l2, r)
      | Panic => (l2, Panic)
      | OutOfFuel => (l2, OutOfFuel)
      end
    end.

(** [l.mu.Lock()]: a free mutex is taken at once; on a held one the call
    blocks until the holder releases it and then takes it, and does not
    return when the holder never does.  The logger is taken as its holder
    leaves it. *)
Definition Lock (rt : Runtime) : M unit :=
  fun l =>
    if mu l && negb (Released rt) then (l, OutOfFuel)
    else (mkFactorLog true (out l) (formatter l) (verbosity l), Ok tt).

(** [l.mu.Unlock()] *)
Definition Unlock : M unit :=
  fun l =>
    if mu l then (mkFactorLog false (out l) (formatter l) (verbosity l), Ok tt)
    else (l, Panic).

(** [_, err := l.out.Write(b)] *)
Definition write (b : bytes) : M error :=
  fun l =>
    let '(w, (_, err)) := Write (out l) b in
    (mkFactorLog (mu l) w (formatter l) (verbosity l), Ok err).

End Steps.

Arguments ret {W F A} a.
Arguments lift {W F A} r.
Arguments get {W F}.
Arguments Lock {W F}.
Arguments Unlock {W F}.

Notation "x <~ c ;; k" := (then_ c (fun x => k))
  (at level 61, c at next level, right associativity).

(** [strings.LastIndex(s, sep)] for a separator of one byte [c]: the index
    of the last [c] in [s], or -1; [i] is the index of the head of [s]. *)
Fixpoint last_index (s : bytes) (c : ascii) (i found : Z) : Z :=
  match s with
  | [] => found
  | x :: t => last_index t c (i + 1) (if Ascii.eqb x c then i else found)
  end.

Definition LastIndex (s : bytes) (c : ascii) : Z := last_index s c 0 (-1).

Section OutputA.

Variables W F : Type.

Context {writer : Writer W} {fmt : Formatter F GrammarA.LogRecord}.

(** The branch of [Output] that asks for the caller. *)
Definition locate (rt : Runtime) (calldepth : Z) (data : GrammarA.LogRecord)
  : result GrammarA.LogRecord :=
  match Caller rt calldepth with
  | None =>
    Ok (GrammarA.mkLogRecord
          (GrammarA.Time_ data) (GrammarA.Severity_ data) (B "???") 0
          (GrammarA.Function data) (GrammarA.Package data)
          (GrammarA.Message data))
  | Some (pc, file, line) =>
    data <- match FuncForPC rt pc with
            | Some name =>
              let n := LastIndex name "."%char in
              package <- (if negb (n =? -1) then slice_to name n
                          else Ok (GrammarA.Package data)) ;;
              Ok (GrammarA.mkLogRecord
                    (GrammarA.Time_ data) (GrammarA.Severity_ data)
                    (GrammarA.File data) (GrammarA.Line data) name package
                    (GrammarA.Message data))
            | None => Ok data
            end ;;
    Ok (GrammarA.mkLogRecord
          (GrammarA.Time_ data) (GrammarA.Severity_ data) file line
          (GrammarA.Function data) (GrammarA.Package data)
          (GrammarA.Message data))
  end.

Definition Output (rt : Runtime) (sev : Severity) (calldepth : Z) (s : bytes)
  : M W F error :=
  _ <~ Lock rt ;;
  defer Unlock
    (let data := GrammarA.mkLogRecord (Now rt) sev [] 0 [] [] s in
     l <~ get ;;
     data <~ (if ShouldRuntimeCaller (formatter l) then
                _ <~ Unlock ;;
                data <~ lift (locate rt calldepth data) ;;
                _ <~ Lock rt ;;
                ret data
              else ret data) ;;
     l <~ get ;;
     b <~ lift (Format (formatter l) data) ;;
     write b).

End OutputA.

(** [New(out, format)] of [factorlog.go] *)
Definition New {W : Type} (w : W) (format : bytes)
  : FactorLog W GrammarA.StdFormatter :=
  mkFactorLog false w (GrammarA.NewStdFormatter format) 0.

(** [var std = New(os.Stderr, "%d %t %M")] *)
Definition std {W : Type} (stderr : W) : FactorLog W GrammarA.StdFormatter :=
  New stderr (B "%d %t %M").

Section OutputB.

Variables W F : Type.

Context {writer : Writer W} {fmt : Formatter F GrammarB.LogContext}.

(** The same branch in the later generation. *)
Definition locateB (rt : Runtime) (calldepth : Z)
           (context : GrammarB.LogContext) : GrammarB.LogContext :=
  match Caller rt calldepth with
  | None =>
    GrammarB.mkLogContext
      (GrammarB.Time_ context) (GrammarB.Severity_ context) (B "???") 0
      (GrammarB.Function context) (GrammarB.Message context)
      (GrammarB.Pid context)
  | Some (pc, file, line) =>
    let context :=
        match FuncForPC rt pc with
        | Some name =>
          GrammarB.mkLogContext
            (GrammarB.Time_ context) (GrammarB.Severity_ context)
            (GrammarB.File context) (GrammarB.Line context) name
            (GrammarB.Message context) (GrammarB.Pid context)
        | None => context
        end in
    GrammarB.mkLogContext
      (GrammarB.Time_ context) (GrammarB.Severity_ context) file line
      (GrammarB.Function context) (GrammarB.Message context)
      (GrammarB.Pid context)
  end.

Definition OutputB (rt : Runtime) (sev : Severity) (calldepth : Z) (s : bytes)
  : M W F error :=
  _ <~ Lock rt ;;
  defer Unlock
    (let context := GrammarB.mkLogContext (Now rt) sev [] 0 [] s (Getpid rt) in
     l <~ get ;;
     context <~ (if ShouldRuntimeCaller (formatter l) then
                   _ <~ Unlock ;;
                   let context := locateB rt calldepth context in
                   _ <~ Lock rt ;;
                   ret context
                 else ret context) ;;
     l <~ get ;;
     b <~ lift (Format (formatter l) context) ;;
     write b).

End OutputB.

(** [New(out, formatter)] of the later generation *)
Definition NewB {W F : Type} (w : W) (f : F) : FactorLog W F :=
  mkFactorLog false w f 0.

(** [var std = New(os.Stderr, NewStdFormatter("%{Date} %{Time} %{Message}"))] *)
Definition stdB {W : Type} (ColorCode : bytes -> bytes) (stderr : W)
  : FactorLog W GrammarB.StdFormatter :=
  NewB stderr
       (GrammarB.NewStdFormatter ColorCode (B "%{Date} %{Time} %{Message}")).

End Logger.

(** A record of the later generation with its two Unix time stamps set to
    zero. *)
Definition zero_unix (context : GrammarB.LogContext) : GrammarB.LogContext :=
  let t := GrammarB.Time_ context in
  GrammarB.mkLogContext
    (mkTime (Date t) (Clock t) (Nanosecond t) 0 0)
    (GrammarB.Severity_ context) (GrammarB.File context)
    (GrammarB.Line context) (GrammarB.Function context)
    (GrammarB.Message context) (GrammarB.Pid context).

Definition unix_verb (p : GrammarB.fmtVerb) : bool :=
  match p with
  | GrammarB.vUnix | GrammarB.vUnixNano => true
  | _ => false
  end.

(** The run time of the tests: the time of [fmtTestsData], and a caller
    in [factorlog_test.go]. *)
Definition testRuntime : Logger.Runtime :=
  Logger.mkRuntime
    fmtTestsTime
    (fun skip => if skip =? 2
                 then Some (4198400, B "/go/src/factorlog/factorlog_test.go", 122)
                 else None)
    (fun pc => if pc =? 4198400
               then Some (B "github.com/kdar/factorlog.TestLog")
               else None)
    1234
    true.

(** A run time in which [runtime.Caller] never answers. *)
Definition blindRuntime : Logger.Runtime :=
  Logger.mkRuntime fmtTestsTime (fun _ => None) (fun _ => None) 1234 true.

(** ** The glog formatter ([glog_formatter.go])

    [SeverityToIndex], [TwoDigits], [NDigits], [Itoa] and the record type
    of this generation are declared outside the sources at hand.  The
    three encoders are taken to be [twoDigits], [nDigits] and [itoa] under
    their exported names; [SeverityToIndex] and the two functions of [fmt]
    are parameters.  The record holds what [Format] reads: a format or
    none, and the arguments. *)

Module Glog.

Definition TwoDigits : bytes -> Z -> Z -> result bytes := twoDigits.

Definition NDigits : bytes -> Z -> Z -> Z -> result bytes := nDigits.

Definition Itoa : bytes -> Z -> Z -> result (bytes * Z) := itoa.

Record GlogFormatter : Type := mkGlogFormatter {
  tmp : bytes
}.

(** [NewGlogFormatter()] *)
Definition NewGlogFormatter : GlogFormatter := mkGlogFormatter (repeat zero 64).

(** [ShouldRuntimeCaller()]: "This will always be true." *)
Definition ShouldRuntimeCaller (f : GlogFormatter) : bool := true.

Section Format.

(** The arguments of a log call, and what [fmt.Sprintf] and [fmt.Sprint]
    make of them. *)
Variable Args : Type.

Variable Sprintf : bytes -> Args -> bytes.

Variable Sprint : Args -> bytes.

Variable SeverityToIndex : Severity -> Z.

Record LogContext : Type := mkLogContext {
  Time_ : Time;
  Severity_ : Severity;
  File : bytes;
  Line : Z;
  Pid : Z;
  Format_ : option bytes;
  Args_ : Args
}.

Definition Format (f : GlogFormatter) (context : LogContext) : result bytes :=
  let res := [] in
  let file := File context in
  slash <- last_separator file (List.length file) ;;
  file <- (if slash >=? 0 then slice_from file (slash + 1) else Ok file) ;;
  let '(_, month, day) := Date (Time_ context) in
  let '(hour, minute, second) := Clock (Time_ context) in
  let t := tmp f in
  s <- index GrammarB.UcShortestSeverityStrings
             (SeverityToIndex (Severity_ context)) ;;
  c <- index s 0 ;;
  t <- store t 0 c ;;
  t <- TwoDigits t 1 month ;;
  t <- TwoDigits t 3 day ;;
  t <- store t 5 " "%char ;;
  t <- TwoDigits t 6 hour ;;
  t <- store t 8 ":"%char ;;
  t <- TwoDigits t 9 minute ;;
  t <- store t 11 ":"%char ;;
  t <- TwoDigits t 12 second ;;
  t <- store t 14 "."%char ;;
  t <- NDigits t 6 15 (Z.quot (Nanosecond (Time_ context)) 1000) ;;
  t <- store t 21 " "%char ;;
  t <- NDigits t 5 22 (Pid context) ;;
  t <- store t 27 " "%char ;;
  head <- slice_to t 28 ;;
  let res := res ++ head in
  let res := res ++ file in
  t <- store t 0 ":"%char ;;
  '(t, n) <- Itoa t 1 (Line context) ;;
  t <- store t (n + 1) "]"%char ;;
  t <- store t (n + 2) " "%char ;;
  tail <- slice_to t (n + 3) ;;
  let res := res ++ tail in
  let message := match Format_ context with
                 | Some format => Sprintf format (Args_ context)
                 | None => Sprint (Args_ context)
                 end in
  let res := res ++ message in
  let l := len message in
  if 0 <? l then
    last <- index message (l - 1) ;;
    if negb (Ascii.eqb last newline) then Ok (res ++ [newline]) else Ok res
  else Ok res.

End Format.

End Glog.

(** The header of a glog line: the letter of the level, month and day,
    the time with its microseconds, and the process id in five digits. *)
Definition glog_header (c : ascii) (t : Time) (pid : Z) : bytes :=
  let '(_, month, day) := Date t in
  [c] ++ padded 2 month ++ padded 2 day ++ B " "
      ++ show_clock t ++ B "." ++ padded 6 (Z.quot (Nanosecond t) 1000)
      ++ B " " ++ padded 5 pid ++ B " ".

(** A record as [TestGlogFormatter] needs it. *)
Definition glogTestsContext : Glog.LogContext (list bytes) :=
  Glog.mkLogContext
    (mkTime (2014, 1, 8) (18, 27, 14) 123456789 1389223634 1389223634123456789)
    PANIC (B "/path/to/testing.go") 391 1234 None [B "hello there!"].

(** ** Further notions: literal text in a template of Grammar A *)

(** A text with each percent sign doubled. *)
Definition escapeA (s : bytes) : bytes :=
  flat_map (fun c => if Ascii.eqb c "%"%char then B "%%" else [c]) s.

(** A record with nothing in it but a severity and a message. *)
Definition bare_record (data : GrammarA.LogRecord) : GrammarA.LogRecord :=
  GrammarA.mkLogRecord (mkTime (0, 0, 0) (0, 0, 0) 0 0 0)
                       (GrammarA.Severity_ data) [] 0 [] []
                       (GrammarA.Message data).


(** ** Further notions: what in a template asks for the caller *)

(** The letters that stand, after the sentinel of Grammar A, for the file,
    the line and the function of the caller. *)
Definition location_letter (c : Z) : bool :=
  GrammarA.rune_is c "F" || GrammarA.rune_is c "f" || GrammarA.rune_is c "x"
  || GrammarA.rune_is c "s" || GrammarA.rune_is c "P" || GrammarA.rune_is c "p".

(** Whether a template of Grammar A, read rune by rune, holds one of these
    letters right after an unescaped sentinel; [after_sentinel] tells
    whether the rune before the first one was an unescaped sentinel. *)
Fixpoint mentions_locationA (after_sentinel : bool) (rs : list Z) : bool :=
  match rs with
  | [] => false
  | c :: rs' =>
    (after_sentinel && location_letter c)
    || mentions_locationA (negb after_sentinel && GrammarA.rune_is c "%") rs'
  end.

(** Whether a template of Grammar B, read byte by byte, holds a token
    whose name stands in the verb table for the file, the line or the
    function of the caller.  The first [skip] bytes belong to a token
    already read. *)
Fixpoint mentions_locationB (skip : nat) (s : bytes) : bool :=
  match s with
  | [] => false
  | _ :: t =>
    match skip with
    | S k => mentions_locationB k t
    | O =>
      match token_at s with
      | Some tk =>
        match GrammarB.verbMap (token_name tk s) with
        | Some v => needs_callerB v
        | None => false
        end
        || mentions_locationB (token_length tk - 1) t
      | None => mentions_locationB 0 t
      end
    end
  end.

(** The escape sequence that a match of [formatRe] named [Color] stands
    for: [ansi.Reset] for the argument [reset], else what [ansi.ColorCode]
    makes of the argument. *)
Definition color_of_match (ColorCode : bytes -> bytes) (frmt : bytes)
           (m : Regexp.submatch) : option bytes :=
  let verb := match Regexp.m_group1 m with
              | Some (a, b) => GrammarB.substr frmt a b
              | None => []
              end in
  let layout := match Regexp.m_group2 m with
                | Some (a, b) => GrammarB.substr frmt a b
                | None => []
                end in
  match GrammarB.verbMap verb with
  | Some GrammarB.vColor =>
    Some (if Go.eqb layout (B "reset") then GrammarB.Reset else ColorCode layout)
  | _ => None
  end.

(** The literal texts of a template of Grammar B along the matches [ms]
    found in it, from the byte [prev] on: the text before each match when
    the match starts after [prev], the escape sequence of each match named
    [Color], and the text after the last match. *)
Fixpoint literal_texts (ColorCode : bytes -> bytes) (frmt : bytes)
         (ms : list Regexp.submatch) (prev : nat) : list bytes :=
  match ms with
  | [] => [skipn prev frmt]
  | m :: ms' =>
    (if (prev <? Regexp.m_start m)%nat
     then [GrammarB.substr frmt prev (Regexp.m_start m)] else [])
      ++ match color_of_match ColorCode frmt m with
         | Some code => [code]
         | None => []
         end
      ++ literal_texts ColorCode frmt ms' (Regexp.m_end m)
  end.

(** A text that is not empty. *)
Definition not_empty (s : bytes) : bool := 0 <? len s.
(* ================================================================== *)
(** * Properties *)

Unset Implicit Arguments.

(** ** The test vectors of the repository

    [TestFormat] of [format_test.go] on [fmtTestsData], vector by vector,
    and [TestStdFormat] and [TestLog] of [factorlog_test.go] on the like
    record of the later generation. *)

Example TestFormat_all_verbs :
  GrammarA.Format
    (GrammarA.NewStdFormatter
       (B "%p-%P [%D]%%[%d]%%[%T][%t] [%L:%l:%F:%f:%x:%s] %%%M%%"))
    fmtTestsData
  = Ok (B ("pkg-pkg.func [2014-01-08]%[2014/01/08]%[18:27:14.123456][18:27:14] "
           ++ "[PANIC:PANC:/path/to/testing.go:testing.go:testing:391] "
           ++ "%hello there!%") ++ [newline]).
Proof. vm_compute. reflexivity. Qed.

Example TestFormat_empty :
  GrammarA.Format (GrammarA.NewStdFormatter (B "")) fmtTestsData = Ok (B "").
Proof. vm_compute. reflexivity. Qed.

Example TestFormat_text :
  GrammarA.Format (GrammarA.NewStdFormatter (B "just text here")) fmtTestsData
  = Ok (B "just text here" ++ [newline]).
Proof. vm_compute. reflexivity. Qed.

Example TestFormat_severity :
  GrammarA.Format (GrammarA.NewStdFormatter (B "%L")) fmtTestsData
  = Ok (B "PANIC" ++ [newline]).
Proof. vm_compute. reflexivity. Qed.

Example TestFormat_unknown_verb :
  GrammarA.Format (GrammarA.NewStdFormatter (B "%@")) fmtTestsData
  = Ok (B "%@" ++ [newline])
  /\ GrammarA.Format (GrammarA.NewStdFormatter (B "%notsupported")) fmtTestsData
     = Ok (B "%notsupported" ++ [newline]).
Proof. split; vm_compute; reflexivity. Qed.

Example TestStdFormat (ColorCode : bytes -> bytes) :
  GrammarB.Format
    (GrammarB.NewStdFormatter ColorCode (B "%{Date} %{Time} %{Message}"))
    (recordB PANIC (B "/path/to/testing.go") (B "hello there!"))
  = Ok (B "2014-01-08 18:27:14 hello there!" ++ [newline]).
Proof. vm_compute. reflexivity. Qed.

Example TestLog (ColorCode : bytes -> bytes) :
  GrammarB.Format
    (GrammarB.NewStdFormatter
       ColorCode
       (B "%{FullFunction} [%{SEVERITY}:%{SEV}:%{File}:%{ShortFile}] %%{Message}%"))
    (GrammarB.mkLogContext
       fmtTestsTime ERROR (B "/go/src/github.com/kdar/factorlog/factorlog_test.go")
       31 (B "github.com/kdar/factorlog.TestLog") (B "hello there!") 1234)
  = Ok (B ("github.com/kdar/factorlog.TestLog "
           ++ "[ERROR:EROR:factorlog_test.go:factorlog_test] %hello there!%")
          ++ [newline])
  /\ GrammarB.Format
       (GrammarB.NewStdFormatter ColorCode (B "%{Message} %{File}"))
       (GrammarB.mkLogContext
          fmtTestsTime ERROR
          (B "/go/src/github.com/kdar/factorlog/factorlog_test.go")
          31 (B "github.com/kdar/factorlog.TestLog") (B "hello there!") 1234)
     = Ok (B "hello there! factorlog_test.go" ++ [newline]).
Proof. split; vm_compute; reflexivity. Qed.

(** The matches of [formatRe]: a name runs as far as its letters do, the
    argument is the shortest text that ends before an unescaped brace. *)
Example formatRe_matches :
  Regexp.FindAllStringSubmatchIndex GrammarB.formatRe (B "a%{Color red+b}%{S}")
  = [Regexp.mkSubmatch 1 15 (Some (3, 8)%nat) (Some (9, 14)%nat);
     Regexp.mkSubmatch 15 19 (Some (17, 18)%nat) None]
  /\ Regexp.FindAllStringSubmatchIndex GrammarB.formatRe (B "%{Color a\} b}x}")
     = [Regexp.mkSubmatch 0 14 (Some (2, 7)%nat) (Some (8, 13)%nat)]
  /\ Regexp.FindAllStringSubmatchIndex GrammarB.formatRe (B "%{Color }")
     = []
  /\ Regexp.FindAllStringSubmatchIndex GrammarB.formatRe (B "%{%{ab}")
     = [Regexp.mkSubmatch 2 7 (Some (4, 6)%nat) None].
Proof. repeat split; vm_compute; reflexivity. Qed.

(** ** Go primitives *)

Section GoFacts.

Context {A : Type}.

Lemma len_app (a b : list A) : len (a ++ b) = len a + len b.
Proof. unfold len. rewrite length_app. lia. Qed.

Lemma len_cons (x : A) (a : list A) : len (x :: a) = 1 + len a.
Proof. unfold len. simpl List.length. lia. Qed.

Lemma len_nil : len (@nil A) = 0.
Proof. reflexivity. Qed.

Lemma len_nonneg (a : list A) : 0 <= len a.
Proof. unfold len. lia. Qed.

Lemma to_nat_len (a : list A) : Z.to_nat (len a) = List.length a.
Proof. unfold len. lia. Qed.

Lemma store_mid (pre post : list A) (x v : A) :
  store (pre ++ x :: post) (len pre) v = Ok (pre ++ v :: post).
Proof.
  unfold store.
  rewrite len_app, len_cons.
  pose proof (len_nonneg pre). pose proof (len_nonneg post).
  replace ((0 <=? len pre) && (len pre <? len pre + (1 + len post))) with true
    by (symmetry; apply andb_true_iff; split; [apply Z.leb_le | apply Z.ltb_lt]; lia).
  rewrite to_nat_len.
  rewrite firstn_app, firstn_all, Nat.sub_diag. simpl firstn. rewrite app_nil_r.
  replace (S (List.length pre)) with (List.length pre + 1)%nat by lia.
  rewrite skipn_app.
  rewrite skipn_all2 by lia.
  replace (List.length pre + 1 - List.length pre)%nat with 1%nat by lia.
  reflexivity.
Qed.

Lemma store_last (pre mid post : list A) (x v : A) :
  store (pre ++ (mid ++ [x]) ++ post) (len (pre ++ mid ++ [x]) - 1) v
  = Ok (pre ++ mid ++ v :: post).
Proof.
  replace (len (pre ++ mid ++ [x]) - 1) with (len (pre ++ mid))
    by (rewrite !len_app, len_cons, len_nil; lia).
  replace (pre ++ (mid ++ [x]) ++ post) with ((pre ++ mid) ++ x :: post)
    by (rewrite <- !app_assoc; reflexivity).
  rewrite store_mid. rewrite <- app_assoc. reflexivity.
Qed.

Lemma slice_from_app (a b : list A) : slice_from (a ++ b) (len a) = Ok b.
Proof.
  unfold slice_from. rewrite len_app.
  pose proof (len_nonneg a). pose proof (len_nonneg b).
  replace ((0 <=? len a) && (len a <=? len a + len b)) with true
    by (symmetry; apply andb_true_iff; split; apply Z.leb_le; lia).
  rewrite to_nat_len, skipn_app, skipn_all, Nat.sub_diag. reflexivity.
Qed.

Lemma slice_to_app (a b : list A) : slice_to (a ++ b) (len a) = Ok a.
Proof.
  unfold slice_to. rewrite len_app.
  pose proof (len_nonneg a). pose proof (len_nonneg b).
  replace ((0 <=? len a) && (len a <=? len a + len b)) with true
    by (symmetry; apply andb_true_iff; split; apply Z.leb_le; lia).
  rewrite to_nat_len, firstn_app, firstn_all, Nat.sub_diag.
  simpl. apply f_equal, app_nil_r.
Qed.

Lemma split_last (k : nat) (l : list A) :
  List.length l = S k -> exists l' x, l = l' ++ [x] /\ List.length l' = k.
Proof.
  intros H. destruct (@exists_last _ l) as (l' & x & ->).
  - intros ->. discriminate.
  - exists l', x. split; [reflexivity|]. rewrite length_app in H. simpl in H. lia.
Qed.

End GoFacts.

(** ** The numeric encoder *)

Section Encoder.

Lemma digits_index (k : Z) : 0 <= k < 10 -> index digits k = Ok (digit k).
Proof.
  intros H.
  assert (E : k = 0 \/ k = 1 \/ k = 2 \/ k = 3 \/ k = 4 \/ k = 5 \/ k = 6
              \/ k = 7 \/ k = 8 \/ k = 9) by lia.
  repeat (destruct E as [-> | E]; [reflexivity|]). subst k. reflexivity.
Qed.

Lemma ddigits_table_ok :
  forallb ddigits_entry_ok (map Z.of_nat (seq 0 100)) = true.
Proof. vm_compute. reflexivity. Qed.

Lemma ddigits_index (x : Z) :
  0 <= x < 100 ->
  index ddigits (x * 2) = Ok (digit (x / 10))
  /\ index ddigits (x * 2 + 1) = Ok (digit (x mod 10)).
Proof.
  intros H.
  pose proof ddigits_table_ok as T.
  rewrite forallb_forall in T.
  specialize (T x).
  assert (I : In x (map Z.of_nat (seq 0 100))).
  { apply in_map_iff. exists (Z.to_nat x). split; [lia|]. apply in_seq. lia. }
  specialize (T I). unfold ddigits_entry_ok in T.
  destruct (index ddigits (x * 2)); try discriminate.
  destruct (index ddigits (x * 2 + 1)); try discriminate.
  apply andb_true_iff in T. destruct T as [T1 T2].
  apply Ascii.eqb_eq in T1, T2. subst. split; reflexivity.
Qed.

Lemma decimal_upto_enough (n m : nat) (d : Z) :
  0 <= d < 2 ^ Z.of_nat (S n) -> d < 2 ^ Z.of_nat (S m) ->
  decimal_upto (S n) d = decimal_upto (S m) d.
Proof.
  revert m d. induction n as [|n IH]; intros m d Hn Hm.
  - change (2 ^ Z.of_nat 1) with 2 in Hn.
    cbn [decimal_upto]. replace (d <? 10) with true; [reflexivity|].
    symmetry. apply Z.ltb_lt. lia.
  - cbn [decimal_upto]. destruct (d <? 10) eqn:E; [reflexivity|].
    apply Z.ltb_ge in E.
    destruct m as [|m].
    { change (2 ^ Z.of_nat 1) with 2 in Hm. lia. }
    f_equal. apply IH.
    + split; [apply Z.div_pos; lia|].
      apply Z.div_lt_upper_bound; [lia|].
      rewrite (Nat2Z.inj_succ (S n)), Z.pow_succ_r in Hn by lia. lia.
    + apply Z.div_lt_upper_bound; [lia|].
      rewrite (Nat2Z.inj_succ (S m)), Z.pow_succ_r in Hm by lia. lia.
Qed.

Lemma below_loop_fuel (d : Z) : 0 <= d -> d < 2 ^ Z.of_nat (loop_fuel d).
Proof.
  intros H. unfold loop_fuel.
  rewrite Nat2Z.inj_succ, Z2Nat.id by apply Z.log2_nonneg.
  destruct (Z.eq_dec d 0) as [-> | N]; [reflexivity|].
  apply Z.log2_spec. lia.
Qed.

Lemma decimal_upto_decimal (n : nat) (d : Z) :
  0 <= d < 2 ^ Z.of_nat (S n) -> decimal_upto (S n) d = decimal d.
Proof.
  intros H. unfold decimal, loop_fuel. apply decimal_upto_enough; [exact H|].
  apply (below_loop_fuel d). lia.
Qed.

Lemma decimal_eq (d : Z) :
  0 <= d ->
  decimal d = if d <? 10 then [digit d]
              else decimal (d / 10) ++ [digit (d mod 10)].
Proof.
  intros H. unfold decimal at 1. unfold loop_fuel at 1.
  cbn [decimal_upto]. destruct (d <? 10) eqn:E; [reflexivity|].
  apply Z.ltb_ge in E. f_equal.
  assert (L : 3 <= Z.log2 d).
  { change 3 with (Z.log2 8). apply Z.log2_le_mono. lia. }
  assert (Q : 0 <= d / 10) by (apply Z.div_pos; lia).
  destruct (Z.to_nat (Z.log2 d)) as [|n] eqn:En; [lia|].
  apply decimal_upto_decimal.
  split; [exact Q|].
  apply Z.div_lt_upper_bound; [lia|].
  pose proof (Z.log2_spec d ltac:(lia)) as S.
  replace (Z.succ (Z.log2 d)) with (Z.succ (Z.of_nat (Datatypes.S n))) in S by lia.
  rewrite Z.pow_succ_r in S by lia. lia.
Qed.

Lemma decimal_small (d : Z) : 0 <= d < 10 -> decimal d = [digit d].
Proof.
  intros H. rewrite decimal_eq by lia.
  replace (d <? 10) with true by (symmetry; apply Z.ltb_lt; lia). reflexivity.
Qed.

Lemma decimal_large (d : Z) :
  10 <= d -> decimal d = decimal (d / 10) ++ [digit (d mod 10)].
Proof.
  intros H. rewrite decimal_eq by lia.
  replace (d <? 10) with false by (symmetry; apply Z.ltb_ge; lia). reflexivity.
Qed.

Lemma decimal_two (d : Z) :
  10 <= d < 100 -> decimal d = [digit (d / 10); digit (d mod 10)].
Proof.
  intros H. rewrite decimal_large by lia.
  rewrite decimal_small; [reflexivity|].
  split; [apply Z.div_pos; lia | apply Z.div_lt_upper_bound; lia].
Qed.

Lemma mod_100_split (d : Z) :
  0 <= d -> d mod 100 = 10 * (d / 10 mod 10) + d mod 10.
Proof.
  intros H. symmetry.
  pose proof (Z.div_mod d 10 ltac:(lia)).
  pose proof (Z.mod_pos_bound d 10 ltac:(lia)).
  pose proof (Z.div_mod (d / 10) 10 ltac:(lia)).
  pose proof (Z.mod_pos_bound (d / 10) 10 ltac:(lia)).
  apply Z.mod_unique with (q := d / 10 / 10); lia.
Qed.

Lemma decimal_pair (d : Z) :
  100 <= d ->
  decimal d = decimal (d / 100)
                ++ [digit (d mod 100 / 10); digit (d mod 100 mod 10)].
Proof.
  intros H. rewrite decimal_large by lia.
  assert (Q : 10 <= d / 10) by (apply Z.div_le_lower_bound; lia).
  rewrite (decimal_large (d / 10) Q).
  rewrite <- app_assoc. cbn [app].
  rewrite Z.div_div by lia. change (10 * 10) with 100.
  pose proof (Z.mod_pos_bound d 10 ltac:(lia)).
  pose proof (Z.mod_pos_bound (d / 10) 10 ltac:(lia)).
  rewrite (mod_100_split d) by lia.
  replace ((10 * (d / 10 mod 10) + d mod 10) / 10) with (d / 10 mod 10)
    by (apply Z.div_unique with (r := d mod 10); lia).
  replace ((10 * (d / 10 mod 10) + d mod 10) mod 10) with (d mod 10)
    by (apply Z.mod_unique with (q := d / 10 mod 10); lia).
  reflexivity.
Qed.

Lemma store_at {A : Type} (l pre post : list A) (x v : A) (i : Z) :
  l = pre ++ x :: post -> i = len pre -> store l i v = Ok (pre ++ v :: post).
Proof. intros -> ->. apply store_mid. Qed.

Ltac lists := repeat rewrite <- app_assoc; cbn [app]; try reflexivity.
Ltac lens := repeat rewrite ?len_app, ?len_cons, ?len_nil; try lia.
Ltac fits := solve [lists | lens].

Lemma allDigits_loop_S (fuel : nat) (buf : bytes) (j d : Z) :
  allDigits_loop (S fuel) buf j d =
  (b <- index digits (Z.rem d 10) ;;
   buf <- store buf (j - 1) b ;;
   if Z.quot d 10 =? 0 then Ok (buf, j - 1)
   else allDigits_loop fuel buf (j - 1) (Z.quot d 10)).
Proof. reflexivity. Qed.

Lemma itoa_loop_S (fuel : nat) (buf : bytes) (j d : Z) :
  itoa_loop (S fuel) buf j d =
  if d >=? 100 then
    b <- index ddigits (Z.rem d 100 * 2 + 1) ;;
    buf <- store buf (j - 1) b ;;
    b <- index ddigits (Z.rem d 100 * 2) ;;
    buf <- store buf (j - 1 - 1) b ;;
    itoa_loop fuel buf (j - 1 - 1) (Z.quot d 100)
  else Ok (buf, j, d).
Proof. reflexivity. Qed.

Lemma allDigits_loop_spec (n : nat) :
  forall (d : Z) (pre mid post : bytes),
    0 <= d < 2 ^ Z.of_nat (S n) ->
    List.length mid = List.length (decimal d) ->
    allDigits_loop (S n) (pre ++ mid ++ post) (len (pre ++ mid)) d
    = Ok (pre ++ decimal d ++ post, len pre).
Proof.
  induction n as [|n IH]; intros d pre mid post Hd Hmid.
  all: rewrite allDigits_loop_S.
  all: rewrite Z.rem_mod_nonneg, Z.quot_div_nonneg by lia.
  all: rewrite digits_index by (apply Z.mod_pos_bound; lia).
  all: cbn [bind].
  all: destruct (Z.lt_ge_cases d 10) as [S | L].
  - rewrite decimal_small in * by lia.
    destruct mid as [|x [|? ?]]; try discriminate.
    rewrite store_at with (pre := pre) (post := post) (x := x) by fits.
    cbn [bind]. rewrite Z.div_small, Z.mod_small by lia. cbn.
    f_equal. f_equal. lens.
  - change (2 ^ Z.of_nat 1) with 2 in Hd. lia.
  - rewrite decimal_small in * by lia.
    destruct mid as [|x [|? ?]]; try discriminate.
    rewrite store_at with (pre := pre) (post := post) (x := x) by fits.
    cbn [bind]. rewrite Z.div_small, Z.mod_small by lia.
    change (0 =? 0) with true. cbv iota.
    f_equal. f_equal. lens.
  - rewrite (decimal_large d L) in *.
    rewrite length_app in Hmid. cbn [List.length] in Hmid.
    destruct (split_last (List.length (decimal (d / 10))) mid) as (mid' & x & -> & Hm');
      [lia|].
    rewrite store_at with (pre := pre ++ mid') (post := post) (x := x)
      by fits.
    cbn [bind].
    assert (Q : 1 <= d / 10) by (apply Z.div_le_lower_bound; lia).
    replace (d / 10 =? 0) with false by (symmetry; apply Z.eqb_neq; lia).
    replace (len (pre ++ mid' ++ [x]) - 1) with (len (pre ++ mid')) by lens.
    replace ((pre ++ mid') ++ digit (d mod 10) :: post)
      with (pre ++ mid' ++ digit (d mod 10) :: post) by lists.
    rewrite IH; [lists | | exact Hm'].
    split; [lia|]. apply Z.div_lt_upper_bound; [lia|].
    rewrite (Nat2Z.inj_succ (S n)), Z.pow_succ_r in Hd by lia. lia.
Qed.

Lemma itoa_unfold (buf : bytes) (i d : Z) :
  itoa buf i d =
  (r <- itoa_loop (loop_fuel d) buf (len buf) d ;;
   '(buf, j) <- itoa_tail r ;;
   copy_within buf i j).
Proof.
  unfold itoa.
  destruct (itoa_loop (loop_fuel d) buf (len buf) d) as [[[b j] d']| |];
    cbn [bind]; try reflexivity.
  unfold itoa_tail. destruct (d' <? 10).
  - destruct (store b (j - 1) _); reflexivity.
  - destruct (index ddigits (d' * 2 + 1)); cbn [bind]; try reflexivity.
    destruct (store b (j - 1) a); cbn [bind]; try reflexivity.
    destruct (index ddigits (d' * 2)); cbn [bind]; try reflexivity.
    destruct (store a0 (j - 1 - 1) a1); reflexivity.
Qed.

Lemma itoa_tail_spec (d : Z) (pre mid post : bytes) :
  0 <= d < 100 ->
  List.length mid = List.length (decimal d) ->
  itoa_tail (pre ++ mid ++ post, len (pre ++ mid), d)
  = Ok (pre ++ decimal d ++ post, len pre).
Proof.
  intros Hd Hmid. cbn [itoa_tail].
  destruct (Z.lt_ge_cases d 10) as [S1 | L1].
  - replace (d <? 10) with true by (symmetry; apply Z.ltb_lt; lia).
    rewrite decimal_small in * by lia.
    destruct mid as [|x [|? ?]]; try discriminate.
    rewrite store_at with (pre := pre) (post := post) (x := x) by fits.
    cbn [bind]. f_equal. f_equal. lens.
  - replace (d <? 10) with false by (symmetry; apply Z.ltb_ge; lia).
    rewrite decimal_two in * by lia.
    destruct mid as [|x [|y [|? ?]]]; try discriminate.
    destruct (ddigits_index d) as [I0 I1]; [lia|].
    rewrite I0, I1. cbn [bind].
    rewrite store_at with (pre := pre ++ [x]) (post := post) (x := y)
      by fits.
    cbn [bind].
    rewrite store_at with (pre := pre) (post := digit (d mod 10) :: post) (x := x)
      by fits.
    cbn [bind]. f_equal. f_equal. lens.
Qed.

Lemma itoa_digits_spec (n : nat) :
  forall (d : Z) (pre mid post : bytes),
    0 <= d < 2 ^ Z.of_nat (S n) ->
    List.length mid = List.length (decimal d) ->
    (r <- itoa_loop (S n) (pre ++ mid ++ post) (len (pre ++ mid)) d ;;
     itoa_tail r)
    = Ok (pre ++ decimal d ++ post, len pre).
Proof.
  induction n as [|n IH]; intros d pre mid post Hd Hmid.
  all: rewrite itoa_loop_S.
  all: destruct (Z.lt_ge_cases d 100) as [S | L].
  all: try (replace (d >=? 100) with false by (symmetry; rewrite Z.geb_leb; apply Z.leb_gt; lia)).
  all: try (replace (d >=? 100) with true by (symmetry; rewrite Z.geb_leb; apply Z.leb_le; lia)).
  - cbn [bind]. apply itoa_tail_spec; [lia | exact Hmid].
  - change (2 ^ Z.of_nat 1) with 2 in Hd. lia.
  - cbn [bind]. apply itoa_tail_spec; [lia | exact Hmid].
  - (* an iteration of the loop *)
    rewrite Z.rem_mod_nonneg, Z.quot_div_nonneg by lia.
    rewrite (decimal_pair d L) in *.
    rewrite length_app in Hmid. cbn [List.length] in Hmid.
    destruct (split_last (Datatypes.S (List.length (decimal (d / 100)))) mid)
      as (mid1 & y & -> & Hm1); [lia|].
    destruct (split_last (List.length (decimal (d / 100))) mid1)
      as (mid0 & x & -> & Hm0); [lia|].
    destruct (ddigits_index (d mod 100)) as [I0 I1];
      [apply Z.mod_pos_bound; lia|].
    rewrite I0, I1. cbn [bind].
    rewrite store_at with (pre := pre ++ mid0 ++ [x]) (post := post) (x := y)
      by fits.
    cbn [bind].
    rewrite store_at with (pre := pre ++ mid0)
                      (post := digit (d mod 100 mod 10) :: post) (x := x)
      by fits.
    cbn [bind].
    replace (len (pre ++ (mid0 ++ [x]) ++ [y]) - 1 - 1) with (len (pre ++ mid0))
      by lens.
    replace ((pre ++ mid0) ++ digit (d mod 100 / 10)
               :: digit (d mod 100 mod 10) :: post)
      with (pre ++ mid0 ++ digit (d mod 100 / 10)
               :: digit (d mod 100 mod 10) :: post) by lists.
    rewrite IH; [lists | | exact Hm0].
    split; [apply Z.div_pos; lia|]. apply Z.div_lt_upper_bound; [lia|].
    rewrite (Nat2Z.inj_succ (Datatypes.S n)), Z.pow_succ_r in Hd by lia. lia.
Qed.

Lemma decimal_ind (P : Z -> Prop) :
  (forall d, 0 <= d < 10 -> P d) ->
  (forall d, 10 <= d -> P (d / 10) -> P d) ->
  forall d, 0 <= d -> P d.
Proof.
  intros Hs Hl d.
  induction d as [d IH] using (well_founded_induction (Z.lt_wf 0)).
  intros H. destruct (Z.lt_ge_cases d 10) as [S | L].
  - apply Hs. lia.
  - apply Hl; [exact L|].
    assert (0 <= d / 10 < d).
    { split; [apply Z.div_pos; lia | apply Z.div_lt; lia]. }
    apply IH; lia.
Qed.

Lemma code_digit (k : Z) : 0 <= k < 10 -> code (digit k) = code "0"%char + k.
Proof.
  intros H.
  assert (E : k = 0 \/ k = 1 \/ k = 2 \/ k = 3 \/ k = 4 \/ k = 5 \/ k = 6
              \/ k = 7 \/ k = 8 \/ k = 9) by lia.
  repeat (destruct E as [-> | E]; [reflexivity|]). subst k. reflexivity.
Qed.

Lemma is_digit_digit (k : Z) : 0 <= k < 10 -> is_digit (digit k).
Proof.
  intros H. unfold is_digit. rewrite code_digit by exact H.
  change (code "0") with 48. change (code "9") with 57. lia.
Qed.

Lemma value_snoc (s : bytes) (c : ascii) :
  value (s ++ [c]) = value s * 10 + (code c - code "0"%char).
Proof. unfold value. rewrite fold_left_app. reflexivity. Qed.

Lemma decimal_digits (d : Z) : 0 <= d -> Forall is_digit (decimal d).
Proof.
  revert d. apply decimal_ind; intros d H.
  - rewrite decimal_small by exact H.
    apply Forall_cons; [|apply Forall_nil]. apply is_digit_digit, H.
  - intros IH. rewrite decimal_large by exact H.
    apply Forall_app. split; [exact IH|].
    apply Forall_cons; [|apply Forall_nil].
    apply is_digit_digit, Z.mod_pos_bound. lia.
Qed.

Lemma value_decimal (d : Z) : 0 <= d -> value (decimal d) = d.
Proof.
  revert d. apply decimal_ind; intros d H.
  - rewrite decimal_small by exact H. unfold value. cbn [fold_left].
    rewrite code_digit by exact H. lia.
  - intros IH. rewrite decimal_large by exact H.
    rewrite value_snoc, IH, code_digit by (apply Z.mod_pos_bound; lia).
    pose proof (Z.div_mod d 10 ltac:(lia)). lia.
Qed.

Lemma digit_nonzero (k : Z) : 1 <= k < 10 -> digit k <> "0"%char.
Proof.
  intros H E. apply (f_equal code) in E. rewrite code_digit in E by lia. lia.
Qed.

Lemma decimal_head (d : Z) :
  1 <= d -> exists c t, decimal d = c :: t /\ c <> "0"%char.
Proof.
  intros H. assert (N : 0 <= d) by lia. revert d N H.
  apply (decimal_ind (fun d => 1 <= d -> _)); intros d H.
  - intros P. rewrite decimal_small by exact H.
    exists (digit d), []. split; [reflexivity | apply digit_nonzero; lia].
  - intros IH _. rewrite decimal_large by exact H.
    destruct IH as (c & t & -> & N).
    { apply Z.div_le_lower_bound; lia. }
    exists c, (t ++ [digit (d mod 10)]). split; [reflexivity | exact N].
Qed.

Lemma decimal_minimal (d : Z) : 0 <= d -> minimal (decimal d).
Proof.
  intros H. destruct (Z.lt_ge_cases d 10) as [S | L].
  - rewrite decimal_small by lia. exact I.
  - destruct (decimal_head d ltac:(lia)) as (c & t & E & N).
    rewrite E. destruct t as [|c' t]; [exact I | exact N].
Qed.

Lemma decimal_length (m : nat) :
  forall d, 0 <= d < 10 ^ Z.of_nat (S m) ->
            (1 <= List.length (decimal d) <= S m)%nat.
Proof.
  induction m as [|m IH]; intros d H.
  - change (10 ^ Z.of_nat 1) with 10 in H.
    rewrite decimal_small by exact H. cbn. lia.
  - destruct (Z.lt_ge_cases d 10) as [S | L].
    + rewrite decimal_small by lia. cbn. lia.
    + rewrite decimal_large by exact L. rewrite length_app. cbn [List.length].
      enough (1 <= List.length (decimal (d / 10)) <= Datatypes.S m)%nat by lia.
      apply IH. split; [apply Z.div_pos; lia|].
      apply Z.div_lt_upper_bound; [lia|].
      rewrite (Nat2Z.inj_succ (Datatypes.S m)), Z.pow_succ_r in H by lia. lia.
Qed.

(** Both encoders put the digits of [d] at the end of the buffer and then
    copy them to index [i]. *)
Lemma encoders_agree (buf : bytes) (i d : Z) :
  0 <= d ->
  (List.length (decimal d) <= List.length buf)%nat ->
  let pre := firstn (List.length buf - List.length (decimal d)) buf in
  itoa buf i d = copy_within (pre ++ decimal d) i (len pre)
  /\ allDigits buf i d = copy_within (pre ++ decimal d) i (len pre).
Proof.
  intros Hd Hk pre.
  set (mid := skipn (List.length buf - List.length (decimal d)) buf).
  assert (E : buf = pre ++ mid ++ []).
  { rewrite app_nil_r. symmetry. apply firstn_skipn. }
  assert (Hmid : List.length mid = List.length (decimal d)).
  { unfold mid. rewrite length_skipn. lia. }
  assert (J : len buf = len (pre ++ mid)).
  { rewrite E at 1. rewrite app_nil_r. reflexivity. }
  pose proof (below_loop_fuel d Hd) as F.
  split.
  - rewrite itoa_unfold, J. rewrite E at 1.
    pose proof (itoa_digits_spec (Z.to_nat (Z.log2 d)) d pre mid [] (conj Hd F) Hmid) as S.
    unfold loop_fuel.
    destruct (itoa_loop _ _ _ _) as [r| |]; cbn [bind] in S |- *; try discriminate.
    rewrite S. cbn [bind]. rewrite app_nil_r. reflexivity.
  - unfold allDigits. rewrite J. rewrite E at 1.
    unfold loop_fuel.
    rewrite (allDigits_loop_spec (Z.to_nat (Z.log2 d)) d pre mid [] (conj Hd F) Hmid).
    cbn [bind]. rewrite app_nil_r. reflexivity.
Qed.

Lemma copy_within_spec (pre w : bytes) (i : Z) :
  0 <= i -> i + len w <= len (pre ++ w) ->
  exists buf',
    copy_within (pre ++ w) i (len pre) = Ok (buf', len w)
    /\ firstn (Z.to_nat (len w)) (skipn (Z.to_nat i) buf') = w.
Proof.
  intros Hi Hroom. unfold copy_within.
  pose proof (len_nonneg w) as Hw.
  unfold slice_from at 1.
  replace ((0 <=? i) && (i <=? len (pre ++ w))) with true
    by (symmetry; apply andb_true_iff; split; apply Z.leb_le; lia).
  cbn [bind]. rewrite slice_from_app. cbn [bind].
  assert (Hn : Z.min (len (skipn (Z.to_nat i) (pre ++ w))) (len w) = len w).
  { apply Z.min_r. unfold len in *. rewrite length_skipn. lia. }
  rewrite Hn. eexists. split; [reflexivity|].
  rewrite skipn_app.
  rewrite skipn_all2 by (rewrite length_firstn; unfold len in *; lia).
  replace (Z.to_nat i - List.length (firstn (Z.to_nat i) (pre ++ w)))%nat
    with 0%nat by (rewrite length_firstn; unfold len in *; lia).
  cbn [skipn app]. rewrite to_nat_len, firstn_all.
  rewrite firstn_app, firstn_all, Nat.sub_diag. cbn [firstn].
  apply app_nil_r.
Qed.

End Encoder.

(** C8. For every non-negative [d] and every buffer with room for the digits
    of [d] from index [i] on, the two-digits-per-iteration encoder [itoa]
    and the one-digit-per-iteration encoder [allDigits] leave the same
    buffer and return the same count [n]; the [n] bytes from index [i] are
    decimal digits, denote [d], and have no leading zero (a lone [0] for
    [d = 0]). *)
Theorem itoa_refines_allDigits (buf : bytes) (i d : Z) :
  0 <= d -> 0 <= i < len buf -> d < 10 ^ (len buf - i) ->
  exists (buf' : bytes) (n : Z),
    itoa buf i d = Ok (buf', n)
    /\ allDigits buf i d = Ok (buf', n)
    /\ let w := firstn (Z.to_nat n) (skipn (Z.to_nat i) buf') in
       len w = n /\ Forall is_digit w /\ value w = d /\ minimal w
       /\ (d = 0 -> w = B "0").
Proof.
  intros Hd Hi Hroom.
  destruct (Z.to_nat (len buf - i)) as [|m] eqn:Em; [lia|].
  assert (K : (1 <= List.length (decimal d) <= S m)%nat).
  { apply decimal_length. split; [exact Hd|].
    replace (Z.of_nat (S m)) with (len buf - i) by lia. exact Hroom. }
  destruct (encoders_agree buf i d Hd) as [Ei Ea].
  { unfold len in *. lia. }
  set (pre := firstn (List.length buf - List.length (decimal d)) buf) in *.
  assert (Lpre : len (pre ++ decimal d) = len buf).
  { unfold pre, len in *. rewrite length_app, length_firstn. lia. }
  destruct (copy_within_spec pre (decimal d) i) as (buf' & C & W).
  { lia. }
  { rewrite Lpre. unfold len in *. lia. }
  exists buf', (len (decimal d)).
  rewrite Ei, Ea, C. repeat split; try reflexivity.
  all: cbv zeta; rewrite W.
  - reflexivity.
  - apply decimal_digits, Hd.
  - apply value_decimal, Hd.
  - apply decimal_minimal, Hd.
  - intros ->. reflexivity.
Qed.

Lemma itoa_refines_allDigits_witness :
  exists (buf' : bytes) (n : Z),
    itoa (repeat zero 64) 0 3456 = Ok (buf', n)
    /\ allDigits (repeat zero 64) 0 3456 = Ok (buf', n)
    /\ let w := firstn (Z.to_nat n) (skipn (Z.to_nat 0) buf') in
       len w = n /\ Forall is_digit w /\ value w = 3456 /\ minimal w
       /\ (3456 = 0 -> w = B "0").
Proof.
  apply (itoa_refines_allDigits (repeat zero 64) 0 3456).
  - lia.
  - vm_compute. split; [discriminate | reflexivity].
  - vm_compute. reflexivity.
Defined.

(** ** Severity names *)

Section SeverityNames.

Lemma eqb_eq (a b : bytes) : Go.eqb a b = true <-> a = b.
Proof.
  revert b. induction a as [|x a IH]; intros [|y b]; cbn [Go.eqb];
    try (split; [discriminate | discriminate]); [tauto|].
  rewrite andb_true_iff, Ascii.eqb_eq, IH.
  split; [intros [-> ->]; reflexivity | intros E; inversion E; auto].
Qed.

Lemma eqb_neq (a b : bytes) : Go.eqb a b = false <-> a <> b.
Proof.
  rewrite <- eqb_eq. destruct (Go.eqb a b); split; congruence.
Qed.

Lemma eqb_refl (a : bytes) : Go.eqb a a = true.
Proof. apply eqb_eq. reflexivity. Qed.

End SeverityNames.

(** C10. [SeverityFromString] undoes [LongSeverityStrings] on the levels
    TRACE..PANIC, and gives NONE for every string that is not one of the
    nine upper-case names. *)
Theorem SeverityFromString_left_inverse (s : Severity) (l : bytes) :
  TRACE <= s <= PANIC ->
  ~ In l (map B ["TRACE"; "DEBUG"; "INFO"; "WARN"; "ERROR"; "CRITICAL";
                 "STACK"; "FATAL"; "PANIC"]%string) ->
  (exists name, index LongSeverityStrings s = Ok name
                /\ SeverityFromString name = s)
  /\ SeverityFromString l = NONE.
Proof.
  intros Hs Hl. split.
  - unfold TRACE, PANIC in Hs.
    assert (E : s = 1 \/ s = 2 \/ s = 3 \/ s = 4 \/ s = 5 \/ s = 6 \/ s = 7
                \/ s = 8 \/ s = 9) by lia.
    repeat (destruct E as [-> | E]; [eexists; split; reflexivity|]).
    subst s. eexists; split; reflexivity.
  - unfold SeverityFromString.
    cbn [map In] in Hl.
    repeat match goal with
           | |- context [Go.eqb l ?n] =>
             let E := fresh "E" in
             destruct (Go.eqb l n) eqn:E;
               [apply eqb_eq in E; exfalso; apply Hl; subst l; tauto|]
           end.
    reflexivity.
Qed.

Lemma SeverityFromString_left_inverse_witness :
  (exists name, index LongSeverityStrings ERROR = Ok name
                /\ SeverityFromString name = ERROR)
  /\ SeverityFromString (B "error") = NONE.
Proof.
  apply (SeverityFromString_left_inverse ERROR (B "error")).
  - vm_compute. split; discriminate.
  - cbn [map In]. intros H.
    repeat (destruct H as [H | H]; [discriminate H|]). exact H.
Defined.

(** ** The line terminator *)

Section Terminator.

Lemma index_last {A : Type} (pre : list A) (c : A) :
  index (pre ++ [c]) (len (pre ++ [c]) - 1) = Ok c.
Proof.
  unfold index.
  replace (len (pre ++ [c]) - 1) with (len pre)
    by (rewrite len_app, len_cons; change (len (@nil A)) with 0; lia).
  rewrite len_app, len_cons. change (len (@nil A)) with 0.
  pose proof (len_nonneg pre).
  replace ((0 <=? len pre) && (len pre <? len pre + (1 + 0))) with true
    by (symmetry; apply andb_true_iff; split; [apply Z.leb_le | apply Z.ltb_lt]; lia).
  rewrite to_nat_len, nth_error_app2, Nat.sub_diag by lia. reflexivity.
Qed.

Lemma nil_or_last {A : Type} (l : list A) :
  l = [] \/ exists pre c, l = pre ++ [c].
Proof.
  destruct l as [|x l]; [left; reflexivity | right].
  destruct (@exists_last _ (x :: l)) as (pre & c & E); [discriminate|].
  exists pre, c. exact E.
Qed.

Lemma terminate_spec (acc : bytes) :
  exists out, terminate acc = Ok out /\ terminated acc out.
Proof.
  unfold terminate, terminated.
  destruct (nil_or_last acc) as [-> | (pre & c & ->)].
  - exists []. cbn. repeat split.
    intros pre c E. destruct pre; discriminate E.
  - replace (0 <? len (pre ++ [c])) with true.
    2:{ symmetry. apply Z.ltb_lt. rewrite len_app, len_cons.
        pose proof (len_nonneg pre). pose proof (len_nonneg (@nil ascii)). lia. }
    rewrite index_last. cbn [bind].
    destruct (Ascii.eqb c newline) eqn:E; cbn [negb].
    + apply Ascii.eqb_eq in E. subst c.
      eexists. split; [reflexivity|]. repeat split.
      * intros pre' c E N. apply app_inj_tail in E. destruct E as [_ <-].
        contradiction N. reflexivity.
      * intros E. destruct pre; discriminate E.
    + apply Ascii.eqb_neq in E.
      eexists. split; [reflexivity|]. repeat split.
      * intros pre' E'. apply app_inj_tail in E'. destruct E' as [_ ->].
        contradiction E. reflexivity.
      * intros E'. destruct pre; discriminate E'.
Qed.

End Terminator.

(** C1. In both grammars the renderer returns the accumulated output with
    its line terminator seen to: one line feed is appended when that output
    is not empty and does not end in a line feed, and nothing is appended
    otherwise; the compiled empty template renders to the empty byte
    sequence for every record. *)
Theorem Format_line_terminator
        (fa : GrammarA.StdFormatter) (data : GrammarA.LogRecord)
        (fb : GrammarB.StdFormatter) (context : GrammarB.LogContext)
        (ColorCode : bytes -> bytes) (acca accb : bytes) :
  GrammarA.accumulate fa data = Ok acca ->
  GrammarB.accumulate fb context = Ok accb ->
  (exists out, GrammarA.Format fa data = Ok out /\ terminated acca out)
  /\ (exists out, GrammarB.Format fb context = Ok out /\ terminated accb out)
  /\ GrammarA.Format (GrammarA.NewStdFormatter []) data = Ok []
  /\ GrammarB.Format (GrammarB.NewStdFormatter ColorCode []) context = Ok [].
Proof.
  intros Ha Hb.
  unfold GrammarA.Format, GrammarB.Format.
  rewrite Ha, Hb. cbn [bind].
  split; [apply terminate_spec|].
  split; [apply terminate_spec|].
  split; reflexivity.
Qed.

Lemma Format_line_terminator_witness :
  (GrammarA.accumulate (GrammarA.NewStdFormatter (B "%L")) fmtTestsData
   = Ok (B "PANIC")
   /\ GrammarB.accumulate (GrammarB.NewStdFormatter (fun _ => []) (B "%{Message}"))
                          (recordB ERROR [] (B "done" ++ [newline]))
      = Ok (B "done" ++ [newline]))
  /\ (exists out,
         GrammarA.Format (GrammarA.NewStdFormatter (B "%L")) fmtTestsData = Ok out
         /\ terminated (B "PANIC") out)
  /\ (exists out,
         GrammarB.Format (GrammarB.NewStdFormatter (fun _ => []) (B "%{Message}"))
                         (recordB ERROR [] (B "done" ++ [newline])) = Ok out
         /\ terminated (B "done" ++ [newline]) out)
  /\ GrammarA.Format (GrammarA.NewStdFormatter []) fmtTestsData = Ok []
  /\ GrammarB.Format (GrammarB.NewStdFormatter (fun _ => []) [])
                     (recordB ERROR [] (B "done" ++ [newline])) = Ok [].
Proof.
  split; [split; vm_compute; reflexivity|].
  apply (Format_line_terminator
           (GrammarA.NewStdFormatter (B "%L")) fmtTestsData
           (GrammarB.NewStdFormatter (fun _ => []) (B "%{Message}"))
           (recordB ERROR [] (B "done" ++ [newline]))
           (fun _ => []) (B "PANIC") (B "done" ++ [newline]));
    vm_compute; reflexivity.
Defined.

(** ** Where the renderer stops with a run-time panic *)

(** C2. A severity outside NONE..PANIC is used as an index into the
    severity tables as it is: rendering a severity verb then stops with an
    index-out-of-range panic, in both grammars, instead of falling back to
    the NONE entry. *)
Theorem severity_out_of_range_panics (ColorCode : bytes -> bytes) :
  GrammarA.Format (GrammarA.NewStdFormatter (B "%L"))
                  (recordA 10 (B "/path/to/testing.go") (B "hello there!"))
  = Panic
  /\ GrammarA.Format (GrammarA.NewStdFormatter (B "%l"))
                     (recordA (-1) (B "/path/to/testing.go") (B "hello there!"))
     = Panic
  /\ GrammarB.Format (GrammarB.NewStdFormatter ColorCode (B "%{SEVERITY}"))
                     (recordB 10 (B "/path/to/testing.go") (B "hello there!"))
     = Panic
  /\ GrammarB.Format (GrammarB.NewStdFormatter ColorCode (B "%{s}"))
                     (recordB (-1) (B "/path/to/testing.go") (B "hello there!"))
     = Panic.
Proof. repeat split; vm_compute; reflexivity. Qed.

(** C3. The extra-short file verb cuts three bytes off the base name
    without looking at its length: with a base name of fewer than three
    bytes the slice bound is negative and rendering stops with a panic, in
    both grammars. *)
Theorem extra_short_file_panics (ColorCode : bytes -> bytes) :
  GrammarA.Format (GrammarA.NewStdFormatter (B "%x"))
                  (recordA PANIC (B "/path/to/a") (B "hello there!"))
  = Panic
  /\ GrammarA.Format (GrammarA.NewStdFormatter (B "%x"))
                     (recordA PANIC (B "/path/to/") (B "hello there!"))
     = Panic
  /\ GrammarB.Format (GrammarB.NewStdFormatter ColorCode (B "%{ShortFile}"))
                     (recordB PANIC (B "/path/to/a") (B "hello there!"))
     = Panic
  /\ GrammarB.Format (GrammarB.NewStdFormatter ColorCode (B "%{ShortFile}"))
                     (recordB PANIC (B "go") (B "hello there!"))
     = Panic.
Proof. repeat split; vm_compute; reflexivity. Qed.

(** ** Where the output differs from the template *)

(** C4. In Grammar B a token [%{Name}] or [%{Name arg}] whose name is not in
    the verb table is matched by the regular expression and then left out
    of the compiled format: it renders as nothing, not as itself. *)
Theorem unknown_verb_dropped (ColorCode : bytes -> bytes)
        (context : GrammarB.LogContext) :
  GrammarB.Format (GrammarB.NewStdFormatter ColorCode (B "%{Foo}")) context
  = Ok []
  /\ GrammarB.Format (GrammarB.NewStdFormatter ColorCode (B "a %{Foo bar} b"))
                     context
     = Ok (B "a  b" ++ [newline])
  /\ GrammarB.strings (GrammarB.NewStdFormatter ColorCode (B "a %{Foo bar} b"))
     = [B "a "; B " b"].
Proof. repeat split; vm_compute; reflexivity. Qed.

(** C5. In Grammar A the scanner keeps the low byte of every rune of the
    template: a template without verbs that holds a byte outside ASCII does
    not come back byte for byte.  The two bytes of the UTF-8 encoding of
    U+00E9 come back as the single byte 0xE9, and a lone byte 0xFF comes
    back as 0xFD, the low byte of U+FFFD.  (A sentinel that ends the
    template is lost as well: nothing flushes the pending verb state.) *)
Theorem non_ascii_literal_mangled (data : GrammarA.LogRecord) :
  GrammarA.Format (GrammarA.NewStdFormatter ["195"; "169"]%char) data
  = Ok ["233"; "010"]%char
  /\ GrammarA.Format (GrammarA.NewStdFormatter ["255"]%char) data
     = Ok ["253"; "010"]%char
  /\ GrammarA.Format (GrammarA.NewStdFormatter (B "abc%")) data
     = Ok (B "abc" ++ [newline]).
Proof. repeat split; vm_compute; reflexivity. Qed.

(** C9. The safe-message verb writes, after [\x], the two low decimal
    digits of a control byte, not its two hexadecimal digits: a line feed
    (value 10, hexadecimal 0A) becomes [\x10] and the byte 31 (hexadecimal
    1F) becomes [\x31].  Bytes from 128 on are not copied through either:
    the loop ranges over runes and keeps the low byte of each. *)
Theorem safe_message_escape_is_decimal (ColorCode : bytes -> bytes) :
  GrammarB.Format (GrammarB.NewStdFormatter ColorCode (B "%{SafeMessage}"))
                  (recordB ERROR [] [newline])
  = Ok (B "\x10" ++ [newline])
  /\ GrammarB.Format (GrammarB.NewStdFormatter ColorCode (B "%{SafeMessage}"))
                     (recordB ERROR [] ["031"]%char)
     = Ok (B "\x31" ++ [newline])
  /\ GrammarB.Format (GrammarB.NewStdFormatter ColorCode (B "%{SafeMessage}"))
                     (recordB ERROR [] ["195"; "169"]%char)
     = Ok ["233"; "010"]%char.
Proof. repeat split; vm_compute; reflexivity. Qed.

(** C6, as stated, fails in Grammar B: the template [%%] renders as two
    percent signs, not as one. *)
Lemma escape_doubling_counterexample :
  GrammarB.Format (GrammarB.NewStdFormatter (fun _ => []) (B "%%"))
                  (recordB ERROR [] (B "hello there!"))
  = Ok (B "%%" ++ [newline])
  /\ GrammarB.Format (GrammarB.NewStdFormatter (fun _ => []) (B "%%"))
                     (recordB ERROR [] (B "hello there!"))
     <> Ok (B "%" ++ [newline]).
Proof. split; [vm_compute; reflexivity | vm_compute; discriminate]. Qed.

(** ** The flags and the location mask *)

Section Flags.

Context {V : Type} (bit : V -> Z) (needs : V -> bool) (mask : Z).

Hypothesis bit_needs : forall v, (Z.land (bit v) mask =? 0) = negb (needs v).

Lemma mask_of_snoc (ps : list V) (v : V) :
  mask_of bit (ps ++ [v]) = Z.lor (mask_of bit ps) (bit v).
Proof.
  induction ps as [|p ps IH]; cbn [mask_of app fold_right].
  - rewrite Z.lor_0_r. reflexivity.
  - fold (mask_of bit (ps ++ [v])). rewrite IH. fold (mask_of bit ps).
    apply Z.lor_assoc.
Qed.

Lemma lor_eqb_0 (a b : Z) : (Z.lor a b =? 0) = (a =? 0) && (b =? 0).
Proof.
  destruct (Z.eqb_spec (Z.lor a b) 0) as [E | N].
  - apply Z.lor_eq_0_iff in E. destruct E as [-> ->]. reflexivity.
  - destruct (Z.eqb_spec a 0) as [-> | ?]; [|reflexivity].
    destruct (Z.eqb_spec b 0) as [-> | ?]; [|reflexivity].
    contradiction N. reflexivity.
Qed.

Lemma mask_of_needs (ps : list V) :
  negb (Z.land (mask_of bit ps) mask =? 0) = existsb needs ps.
Proof.
  induction ps as [|p ps IH]; cbn [mask_of fold_right existsb].
  - reflexivity.
  - fold (mask_of bit ps). rewrite Z.land_lor_distr_l, lor_eqb_0.
    rewrite negb_andb, IH, bit_needs, negb_involutive. reflexivity.
Qed.

Lemma mask_of_bit_clear (ps : list V) (n : Z) :
  (forall v, In v ps -> Z.testbit (bit v) n = false) ->
  Z.testbit (mask_of bit ps) n = false.
Proof.
  induction ps as [|p ps IH]; intros H; cbn [mask_of fold_right].
  - apply Z.testbit_0_l.
  - fold (mask_of bit ps). rewrite Z.lor_spec.
    rewrite (H p (or_introl eq_refl)), IH; [reflexivity|].
    intros v I. apply H. right. exact I.
Qed.

End Flags.

Lemma fold_left_invariant {S C : Type} (P : S -> Prop) (step : S -> C -> S) :
  (forall st c, P st -> P (step st c)) ->
  forall l st, P st -> P (fold_left step l st).
Proof.
  intros H l. induction l as [|c l IH]; intros st Hst; cbn [fold_left].
  - exact Hst.
  - apply IH, H, Hst.
Qed.

Section FlagsA.

Import GrammarA.

Lemma add_verb_okA (f : StdFormatter) (v : fmtVerb) :
  v <> vSTRING -> flags_okA f -> flags_okA (add_verb f v).
Proof.
  unfold flags_okA. intros N H. cbn [add_verb flags parts].
  rewrite mask_of_snoc, H. f_equal. destruct v; try reflexivity.
  contradiction N. reflexivity.
Qed.

Lemma add_string_okA (f : StdFormatter) (s : bytes) :
  flags_okA f -> flags_okA (add_string f s).
Proof.
  unfold flags_okA. intros H. cbn [add_string flags parts].
  rewrite mask_of_snoc, H. cbn [bitA]. apply eq_sym, Z.lor_0_r.
Qed.

Lemma scan_rune_okA (st : scan) (c : Z) :
  flags_okA (f_ st) -> flags_okA (f_ (scan_rune st c)).
Proof.
  intros H. unfold scan_rune.
  repeat match goal with
         | |- context [if ?b then _ else _] => destruct b
         end; cbn [f_];
    first [ exact H
          | apply add_string_okA; exact H
          | apply add_verb_okA; [discriminate | exact H] ].
Qed.

Lemma NewStdFormatter_okA (frmt : bytes) : flags_okA (NewStdFormatter frmt).
Proof.
  unfold NewStdFormatter.
  set (st := fold_left scan_rune _ _).
  assert (H : flags_okA (f_ st)).
  { apply (fold_left_invariant (fun st => flags_okA (f_ st))).
    - apply scan_rune_okA.
    - reflexivity. }
  destruct (0 <? len (raw st)); [apply add_string_okA|]; exact H.
Qed.

Lemma bit_needsA (v : fmtVerb) :
  (Z.land (bitA v) vRUNTIME_CALLER =? 0) = negb (needs_callerA v).
Proof. destruct v; reflexivity. Qed.

Lemma ShouldRuntimeCaller_A (frmt : bytes) :
  ShouldRuntimeCaller (NewStdFormatter frmt)
  = existsb needs_callerA (parts (NewStdFormatter frmt)).
Proof.
  unfold ShouldRuntimeCaller. rewrite NewStdFormatter_okA.
  apply mask_of_needs, bit_needsA.
Qed.

End FlagsA.

Section FlagsB.

Import GrammarB Regexp.

Variable ColorCode : bytes -> bytes.

Lemma appendString_okB (f : StdFormatter) (s : bytes) (vs : list fmtVerb) :
  compiledB f vs -> compiledB (appendString f s) vs.
Proof.
  unfold compiledB, appendString. intros [H1 H2].
  destruct (0 <? len s); [|split; assumption].
  cbn [flags parts]. split.
  - rewrite mask_of_snoc, H1. cbn [bitB]. apply eq_sym, Z.lor_0_r.
  - rewrite filter_app, H2. cbn. apply app_nil_r.
Qed.

Lemma add_verb_okB (f : StdFormatter) (v : fmtVerb) (vs : list fmtVerb) :
  v <> vSTRING -> compiledB f vs -> compiledB (add_verb f v) (vs ++ [v]).
Proof.
  unfold compiledB. intros N [H1 H2]. cbn [add_verb flags parts]. split.
  - rewrite mask_of_snoc, H1. f_equal. destruct v; try reflexivity.
    contradiction N. reflexivity.
  - rewrite filter_app, H2. f_equal. destruct v; try reflexivity.
    contradiction N. reflexivity.
Qed.

Lemma lookup_in (t : list (string * fmtVerb)) (k : bytes) (v : fmtVerb) :
  lookup t k = Some v -> In v (map snd t).
Proof.
  induction t as [|[name v'] t IH]; cbn [lookup map snd In]; [discriminate|].
  destruct (Go.eqb k (B name)).
  - intros E. injection E as ->. left. reflexivity.
  - intros E. right. apply IH, E.
Qed.

Lemma verbMap_not_string (verb : bytes) : verbMap verb <> Some vSTRING.
Proof.
  intros E. apply lookup_in in E. cbn in E.
  repeat (destruct E as [E | E]; [discriminate E|]). exact E.
Qed.

Lemma compile_match_okB (frmt : bytes) (f : StdFormatter) (prev : nat)
      (m : submatch) (vs : list fmtVerb) :
  compiledB f vs ->
  compiledB (fst (compile_match ColorCode frmt (f, prev) m))
            (vs ++ verb_of_match frmt m).
Proof.
  intros H. unfold compile_match, verb_of_match.
  set (verb := match m_group1 m with Some (a, b) => substr frmt a b | None => [] end).
  set (f1 := if (prev <? m_start m)%nat then _ else f).
  assert (H1 : compiledB f1 vs).
  { unfold f1. destruct (prev <? m_start m)%nat; [apply appendString_okB|]; exact H. }
  cbn [fst].
  pose proof (verbMap_not_string verb) as N.
  destruct (verbMap verb) as [v|]; [|rewrite app_nil_r; exact H1].
  destruct v; try (apply add_verb_okB; [discriminate | exact H1]).
  - contradiction N. reflexivity.
  - rewrite app_nil_r. destruct (Go.eqb _ _); apply appendString_okB, H1.
Qed.

Lemma compile_matches_okB (frmt : bytes) (ms : list submatch) :
  forall (f : StdFormatter) (prev : nat) (vs : list fmtVerb),
    compiledB f vs ->
    compiledB (fst (fold_left (compile_match ColorCode frmt) ms (f, prev)))
              (vs ++ flat_map (verb_of_match frmt) ms).
Proof.
  induction ms as [|m ms IH]; intros f prev vs H; cbn [fold_left flat_map].
  - rewrite app_nil_r. exact H.
  - rewrite app_assoc.
    pose proof (compile_match_okB frmt f prev m vs H) as H1.
    destruct (compile_match ColorCode frmt (f, prev) m) as [f1 prev1].
    apply IH, H1.
Qed.

Lemma NewStdFormatter_okB (frmt : bytes) :
  compiledB (NewStdFormatter ColorCode frmt)
            (flat_map (verb_of_match frmt)
                      (FindAllStringSubmatchIndex formatRe frmt)).
Proof.
  unfold NewStdFormatter.
  set (f0 := mkStdFormatter frmt [] [] (repeat zero 64) [] 0).
  pose proof (compile_matches_okB frmt
                (FindAllStringSubmatchIndex formatRe frmt) f0 0%nat []) as H.
  destruct (fold_left _ _ _) as [f prev]. cbn [fst app] in H.
  assert (H0 : compiledB f0 []) by (split; reflexivity).
  specialize (H H0).
  destruct (negb _); [apply appendString_okB|]; exact H.
Qed.

Lemma bit_needsB (v : fmtVerb) :
  (Z.land (bitB v) vRUNTIME_CALLER =? 0) = negb (needs_callerB v).
Proof. destruct v; reflexivity. Qed.

Lemma ShouldRuntimeCaller_B (frmt : bytes) :
  ShouldRuntimeCaller (NewStdFormatter ColorCode frmt)
  = existsb needs_callerB (parts (NewStdFormatter ColorCode frmt)).
Proof.
  unfold ShouldRuntimeCaller.
  destruct (NewStdFormatter_okB frmt) as [-> _].
  apply mask_of_needs, bit_needsB.
Qed.

Lemma verb_of_match_not_color (frmt : bytes) (m : submatch) :
  ~ In vColor (verb_of_match frmt m).
Proof.
  unfold verb_of_match. destruct (verbMap _) as [v|]; [|exact (fun F => F)].
  destruct v; cbn [In]; intros I;
    try (destruct I as [E | []]; discriminate E); exact I.
Qed.

Lemma no_color_part (frmt : bytes) :
  ~ In vColor (parts (NewStdFormatter ColorCode frmt)).
Proof.
  intros I.
  destruct (NewStdFormatter_okB frmt) as [_ E].
  assert (I' : In vColor (filter is_verb (parts (NewStdFormatter ColorCode frmt)))).
  { apply filter_In. split; [exact I | reflexivity]. }
  rewrite E in I'. apply in_flat_map in I'. destruct I' as (m & _ & Im).
  exact (verb_of_match_not_color frmt m Im).
Qed.

Lemma no_color_flag (frmt : bytes) :
  Z.land (flags (NewStdFormatter ColorCode frmt)) (int vColor) = 0.
Proof.
  apply Z.bits_inj'. intros n Hn.
  rewrite Z.land_spec, Z.bits_0.
  destruct (Z.eq_dec n (iota vColor)) as [-> | N].
  - destruct (NewStdFormatter_okB frmt) as [-> _].
    rewrite mask_of_bit_clear; [reflexivity|].
    intros v I. destruct v; try reflexivity.
    contradiction (no_color_part frmt I).
  - unfold int. rewrite Z.shiftl_1_l, Z.pow2_bits_false by (intros E; apply N; symmetry; exact E).
    apply andb_false_r.
Qed.

End FlagsB.

(** ** Literal text *)

Section LiteralB.

Import GrammarB Regexp.

Variable ColorCode : bytes -> bytes.

Lemma match_here_needs_opening (fuel pos : nat) (rest : bytes) :
  match rest with
  | c1 :: c2 :: _ => Ascii.eqb c1 "%"%char && Ascii.eqb c2 "{"%char
  | _ => false
  end = false ->
  match_here formatRe fuel (pos, rest) = None.
Proof.
  intros H. unfold match_here, formatRe. cbn [exec snd fst].
  destruct rest as [|c1 t]; [reflexivity|].
  rewrite (Ascii.eqb_sym "%"%char c1).
  destruct (Ascii.eqb c1 "%"%char); [|reflexivity].
  cbn [exec snd fst].
  destruct t as [|c2 t]; [reflexivity|].
  rewrite (Ascii.eqb_sym "{"%char c2).
  destruct (Ascii.eqb c2 "{"%char); [discriminate H | reflexivity].
Qed.

Lemma search_needs_opening (fuel : nat) (rest : bytes) :
  forall pos, opens_token rest = false -> search formatRe fuel pos rest = None.
Proof.
  induction rest as [|c1 t IH]; intros pos H; cbn [search].
  - rewrite match_here_needs_opening by reflexivity. reflexivity.
  - cbn [opens_token] in H.
    destruct t as [|c2 t'].
    + rewrite match_here_needs_opening by reflexivity.
      cbn [search]. rewrite match_here_needs_opening by reflexivity.
      reflexivity.
    + apply orb_false_iff in H. destruct H as [H1 H2].
      rewrite match_here_needs_opening by exact H1.
      apply IH, H2.
Qed.

Lemma no_opening_no_match (frmt : bytes) :
  opens_token frmt = false -> FindAllStringSubmatchIndex formatRe frmt = [].
Proof.
  intros H. unfold FindAllStringSubmatchIndex. cbn [find_all].
  rewrite search_needs_opening by exact H. reflexivity.
Qed.

Lemma index_0 {A : Type} (x : A) (l : list A) : index (x :: l) 0 = Ok x.
Proof. reflexivity. Qed.

Lemma eqb_nil (s : bytes) : Go.eqb s [] = match s with [] => true | _ => false end.
Proof. destruct s; reflexivity. Qed.

(** A template of Grammar B that opens no token is one literal segment. *)
Lemma literal_accumulate_B (frmt : bytes) (context : LogContext) :
  opens_token frmt = false ->
  accumulate (NewStdFormatter ColorCode frmt) context = Ok frmt.
Proof.
  intros H. unfold NewStdFormatter.
  rewrite no_opening_no_match by exact H. cbn [fold_left skipn].
  rewrite eqb_nil. destruct frmt as [|c t]; [reflexivity|].
  cbn [negb]. unfold appendString.
  replace (0 <? len (c :: t)) with true by reflexivity.
  unfold accumulate. cbn [parts strings tmp stmp format_parts format_part app].
  rewrite index_0. reflexivity.
Qed.

End LiteralB.

Section LiteralA.

Import GrammarA.

Lemma code_bound (c : ascii) : 0 <= code c < 256.
Proof.
  unfold code. pose proof (N_ascii_bounded c). lia.
Qed.

Lemma byte_code (c : ascii) : byte (code c) = c.
Proof.
  unfold byte. rewrite Z.mod_small by apply code_bound.
  unfold code. rewrite N2Z.id. apply ascii_N_embedding.
Qed.

Lemma code_inj (a b : ascii) : code a = code b -> a = b.
Proof.
  intros E. rewrite <- (byte_code a), <- (byte_code b), E. reflexivity.
Qed.

Lemma runes_ascii (s : bytes) :
  Forall (fun c => code c < 128) s -> runes s = map code s.
Proof.
  induction 1 as [|c s Hc _ IH]; [reflexivity|].
  cbn [runes map].
  replace (code c <? 128) with true by (symmetry; apply Z.ltb_lt; exact Hc).
  rewrite IH. reflexivity.
Qed.

Lemma plain_ascii (s : bytes) :
  Forall (fun c => plain c = true) s -> Forall (fun c => code c < 128) s.
Proof.
  apply Forall_impl. intros c H. unfold plain in H.
  apply andb_true_iff in H. apply Z.ltb_lt, H.
Qed.

Lemma scan_plain (s : bytes) :
  forall st, isverb st = false -> Forall (fun c => plain c = true) s ->
             fold_left scan_rune (map code s) st
             = mkScan (f_ st) false (raw st ++ s).
Proof.
  induction s as [|c s IH]; intros st Hv Hs; cbn [map fold_left].
  - rewrite app_nil_r. destruct st. cbn in *. subst. reflexivity.
  - inversion Hs as [|? ? Hc Hs']; subst.
    assert (E : scan_rune st (code c) = mkScan (f_ st) false (raw st ++ [c])).
    { unfold scan_rune. rewrite Hv. cbn [negb andb].
      unfold plain in Hc. apply andb_true_iff in Hc. destruct Hc as [_ Hc].
      unfold rune_is. destruct (Z.eqb_spec (code c) (code "%"%char)) as [E | _].
      - apply code_inj in E. subst c. discriminate Hc.
      - rewrite byte_code. reflexivity. }
    rewrite E, IH by (try reflexivity; exact Hs').
    cbn [f_ raw]. rewrite <- app_assoc. reflexivity.
Qed.

(** From a state outside a verb, the two runes of [%%] put one percent
    sign into the pending literal text and nothing else: the text pending
    before is flushed as a segment of its own, no verb is added and no
    flag is set. *)
Lemma scan_doubled_sentinel (st : scan) :
  isverb st = false ->
  fold_left scan_rune (runes (B "%%")) st
  = if 0 <? len (raw st)
    then mkScan (add_string (f_ st) (raw st)) false (B "%")
    else mkScan (f_ st) false (raw st ++ B "%").
Proof.
  intros Hv.
  change (fold_left scan_rune (runes (B "%%")) st)
    with (scan_rune (scan_rune st (code "%"%char)) (code "%"%char)).
  assert (E : scan_rune st (code "%"%char)
              = if 0 <? len (raw st)
                then mkScan (add_string (f_ st) (raw st)) true []
                else mkScan (f_ st) true (raw st)).
  { unfold scan_rune. rewrite Hv. reflexivity. }
  rewrite E. destruct (0 <? len (raw st)); reflexivity.
Qed.

Lemma len_pos_cons {A : Type} (x : A) (l : list A) : (0 <? len (x :: l)) = true.
Proof. reflexivity. Qed.

(** A template of Grammar A made of ASCII text without percent signs is
    one literal segment. *)
Lemma literal_accumulate_A (frmt : bytes) (data : LogRecord) :
  Forall (fun c => plain c = true) frmt ->
  accumulate (NewStdFormatter frmt) data = Ok frmt.
Proof.
  intros H. unfold NewStdFormatter.
  rewrite runes_ascii by (apply plain_ascii, H).
  rewrite scan_plain by (try reflexivity; exact H).
  cbn [raw f_ app].
  destruct frmt as [|c t]; [reflexivity|].
  rewrite len_pos_cons. reflexivity.
Qed.

Lemma doubled_sentinel_accumulate_A (pre post : bytes) (data : LogRecord) :
  Forall (fun c => plain c = true) pre ->
  Forall (fun c => plain c = true) post ->
  accumulate (NewStdFormatter (pre ++ B "%%" ++ post)) data
  = Ok (pre ++ B "%" ++ post).
Proof.
  intros Hpre Hpost. unfold NewStdFormatter.
  rewrite runes_ascii.
  2:{ apply Forall_app. split; [apply plain_ascii, Hpre|].
      apply Forall_app. split; [|apply plain_ascii, Hpost].
      repeat constructor. }
  rewrite !map_app, !fold_left_app.
  rewrite (scan_plain pre) by (try reflexivity; exact Hpre).
  change (map code (B "%%")) with (runes (B "%%")).
  rewrite scan_doubled_sentinel by reflexivity.
  cbn [raw f_ app].
  destruct pre as [|c pre].
  - cbn [len List.length Z.of_nat Z.ltb Z.compare].
    rewrite (scan_plain post) by (try reflexivity; exact Hpost).
    cbn [raw f_ app B list_ascii_of_string]. reflexivity.
  - rewrite len_pos_cons.
    rewrite (scan_plain post) by (try reflexivity; exact Hpost).
    cbn [raw f_ app B list_ascii_of_string]. reflexivity.
Qed.

End LiteralA.

(** ** The classes of records behind the panics *)

Section SeverityIndex.

Lemma index_out_of_range {A : Type} (l : list A) (i : Z) :
  ~ (0 <= i < len l) -> index l i = Panic.
Proof.
  intros H. unfold index.
  destruct (0 <=? i) eqn:E1; [|reflexivity].
  destruct (i <? len l) eqn:E2; [|reflexivity].
  apply Z.leb_le in E1. apply Z.ltb_lt in E2. contradiction H. lia.
Qed.

Lemma index_in_range {A : Type} (l : list A) (i : Z) :
  0 <= i < len l -> exists x, index l i = Ok x.
Proof.
  intros H. unfold index.
  replace ((0 <=? i) && (i <? len l)) with true
    by (symmetry; apply andb_true_iff; split; [apply Z.leb_le | apply Z.ltb_lt]; lia).
  destruct (nth_error l (Z.to_nat i)) as [x|] eqn:E; [exists x; reflexivity|].
  apply nth_error_None in E. unfold len in H. lia.
Qed.

(** Grammar A: the severity verbs render exactly the severities 0..9; any
    other severity stops the renderer. *)
Lemma severity_verbs_A (data : GrammarA.LogRecord) :
  (0 <= GrammarA.Severity_ data <= 9 ->
   exists out, GrammarA.Format (GrammarA.NewStdFormatter (B "%L")) data = Ok out)
  /\ (~ 0 <= GrammarA.Severity_ data <= 9 ->
      GrammarA.Format (GrammarA.NewStdFormatter (B "%L")) data = Panic
      /\ GrammarA.Format (GrammarA.NewStdFormatter (B "%l")) data = Panic).
Proof.
  change (GrammarA.NewStdFormatter (B "%L"))
    with (GrammarA.mkStdFormatter (B "%L") [] [GrammarA.vSEVERITY]
                                  (repeat zero 64) (GrammarA.int GrammarA.vSEVERITY)).
  change (GrammarA.NewStdFormatter (B "%l"))
    with (GrammarA.mkStdFormatter (B "%l") [] [GrammarA.vSHORT_SEVERITY]
                                  (repeat zero 64)
                                  (GrammarA.int GrammarA.vSHORT_SEVERITY)).
  unfold GrammarA.Format, GrammarA.accumulate.
  cbn [GrammarA.parts GrammarA.format_parts GrammarA.format_part GrammarA.buf
       GrammarA.stringi GrammarA.tmp_ GrammarA.tmp].
  split.
  - intros H.
    destruct (index_in_range LongSeverityStrings (GrammarA.Severity_ data)) as [s E].
    { change (len LongSeverityStrings) with 10. lia. }
    rewrite E. cbn [bind app GrammarA.buf].
    destruct (terminate_spec s) as (out & T & _). exists out. exact T.
  - intros H. rewrite !index_out_of_range; [split; reflexivity | |].
    + change (len SeverityStrings) with 10. lia.
    + change (len LongSeverityStrings) with 10. lia.
Qed.

(** Grammar B: the same for each of its eight severity verbs. *)
Lemma severity_verbs_B (ColorCode : bytes -> bytes)
      (context : GrammarB.LogContext) (name : string) :
  In name ["SEVERITY"; "Severity"; "severity"; "SEV"; "Sev"; "sev"; "S"; "s"]%string ->
  ~ 0 <= GrammarB.Severity_ context <= 9 ->
  GrammarB.Format
    (GrammarB.NewStdFormatter ColorCode (B "%{" ++ B name ++ B "}")) context
  = Panic.
Proof.
  intros I H. cbn [In] in I.
  repeat (destruct I as [<- | I]);
    try contradiction;
    match goal with
    | |- GrammarB.Format ?f _ = _ =>
      let f' := eval vm_compute in f in change f with f'
    end;
    unfold GrammarB.Format, GrammarB.accumulate;
    cbn [GrammarB.parts GrammarB.format_parts GrammarB.format_part GrammarB.buf
         GrammarB.stringi GrammarB.tmp_ GrammarB.tmp GrammarB.stmp_ GrammarB.stmp];
    rewrite index_out_of_range; try reflexivity;
    match goal with
    | |- ~ 0 <= _ < len ?t => change (len t) with 10; lia
    end.
Qed.

End SeverityIndex.

Section ShortFile.

Lemma index_app_l {A : Type} (s t : list A) (i : Z) :
  0 <= i < len s -> index (s ++ t) i = index s i.
Proof.
  intros H. unfold index. rewrite len_app.
  pose proof (len_nonneg t).
  replace ((0 <=? i) && (i <? len s + len t)) with true
    by (symmetry; apply andb_true_iff; split; [apply Z.leb_le | apply Z.ltb_lt]; lia).
  replace ((0 <=? i) && (i <? len s)) with true
    by (symmetry; apply andb_true_iff; split; [apply Z.leb_le | apply Z.ltb_lt]; lia).
  rewrite nth_error_app1 by (unfold len in H; lia). reflexivity.
Qed.

Lemma last_separator_app (k : nat) (s t : bytes) :
  (k <= List.length s)%nat ->
  last_separator (s ++ t) k = last_separator s k.
Proof.
  induction k as [|k IH]; intros H; cbn [last_separator]; [reflexivity|].
  rewrite index_app_l by (unfold len; lia).
  destruct (index s (Z.of_nat k)); cbn [bind]; try reflexivity.
  destruct (Ascii.eqb a Separator); [reflexivity|]. apply IH. lia.
Qed.

Lemma index_snoc {A : Type} (s : list A) (c : A) :
  index (s ++ [c]) (Z.of_nat (List.length s)) = Ok c.
Proof.
  rewrite <- (index_last s c). f_equal.
  rewrite len_app, len_cons. unfold len. cbn [List.length]. lia.
Qed.

Lemma last_separator_skips (s base : bytes) :
  ~ In Separator base ->
  last_separator (s ++ base) (List.length (s ++ base))
  = last_separator s (List.length s).
Proof.
  induction base as [|c base IH] using rev_ind; intros H.
  - rewrite app_nil_r. reflexivity.
  - rewrite app_assoc. rewrite length_app. cbn [List.length].
    rewrite Nat.add_1_r. cbn [last_separator].
    rewrite index_snoc. cbn [bind].
    destruct (Ascii.eqb c Separator) eqn:E.
    + apply Ascii.eqb_eq in E. subst c. contradiction H.
      apply in_or_app. right. left. reflexivity.
    + rewrite last_separator_app by lia. apply IH.
      intros I. apply H, in_or_app. left. exact I.
Qed.

Lemma last_separator_none (base : bytes) :
  ~ In Separator base -> last_separator base (List.length base) = Ok (-1).
Proof.
  intros H. apply (last_separator_skips [] base H).
Qed.

Lemma last_separator_found (dir base : bytes) :
  ~ In Separator base ->
  last_separator (dir ++ Separator :: base) (List.length (dir ++ Separator :: base))
  = Ok (len dir).
Proof.
  intros H.
  replace (dir ++ Separator :: base) with ((dir ++ [Separator]) ++ base)
    by (rewrite <- app_assoc; reflexivity).
  rewrite last_separator_skips by exact H.
  rewrite length_app. cbn [List.length]. rewrite Nat.add_1_r.
  cbn [last_separator]. rewrite index_snoc. cbn [bind].
  rewrite Ascii.eqb_refl. reflexivity.
Qed.

(** The base name the short-file verbs arrive at: the file name after its
    last separator, the whole of it when it has none. *)
Lemma base_name_cases (file : bytes) :
  (~ In Separator file)
  \/ exists dir base, file = dir ++ Separator :: base /\ ~ In Separator base.
Proof.
  induction file as [|c file IH]; [left; exact (fun F => F)|].
  destruct IH as [N | (dir & base & -> & N)].
  - destruct (Ascii.eqb_spec c Separator) as [-> | Nc].
    + right. exists [], file. split; [reflexivity | exact N].
    + left. intros [E | I]; [apply Nc; exact E | exact (N I)].
  - right. exists (c :: dir), base. split; [reflexivity | exact N].
Qed.

Lemma slice_to_negative {A : Type} (s : list A) (n : Z) :
  n < 0 -> slice_to s n = Panic.
Proof.
  intros H. unfold slice_to.
  replace (0 <=? n) with false by (symmetry; apply Z.leb_gt; exact H).
  reflexivity.
Qed.

(** Grammar A: with a non-empty file name whose base name has fewer than
    three bytes, the extra-short file verb stops the renderer. *)
Lemma extra_short_file_A (data : GrammarA.LogRecord) (dir base : bytes) :
  ~ In Separator base ->
  (List.length base < 3)%nat ->
  (GrammarA.File data = dir ++ Separator :: base
   \/ GrammarA.File data = base /\ base <> []) ->
  GrammarA.Format (GrammarA.NewStdFormatter (B "%x")) data = Panic.
Proof.
  intros N L F.
  change (GrammarA.NewStdFormatter (B "%x"))
    with (GrammarA.mkStdFormatter (B "%x") [] [GrammarA.vEXTRA_SHORT_FILE]
                                  (repeat zero 64)
                                  (GrammarA.int GrammarA.vEXTRA_SHORT_FILE)).
  unfold GrammarA.Format, GrammarA.accumulate.
  cbn [GrammarA.parts GrammarA.format_parts GrammarA.format_part GrammarA.buf
       GrammarA.stringi GrammarA.tmp_ GrammarA.tmp].
  enough (E : GrammarA.short_file GrammarA.vEXTRA_SHORT_FILE (GrammarA.File data)
              = Panic) by (rewrite E; reflexivity).
  unfold GrammarA.short_file.
  destruct F as [-> | [-> Ne]].
  - replace (len (dir ++ Separator :: base) =? 0) with false.
    2:{ symmetry. apply Z.eqb_neq. rewrite len_app, len_cons.
        pose proof (len_nonneg dir). pose proof (len_nonneg base). lia. }
    rewrite last_separator_found by exact N. cbn [bind].
    replace (len dir >=? 0) with true
      by (symmetry; rewrite Z.geb_leb; apply Z.leb_le, len_nonneg).
    replace (dir ++ Separator :: base) with ((dir ++ [Separator]) ++ base)
      by (rewrite <- app_assoc; reflexivity).
    replace (len dir + 1) with (len (dir ++ [Separator]))
      by (rewrite len_app, len_cons; reflexivity).
    rewrite slice_from_app. cbn [bind].
    apply slice_to_negative. unfold len. lia.
  - replace (len base =? 0) with false.
    2:{ symmetry. apply Z.eqb_neq. destruct base; [contradiction Ne; reflexivity|].
        rewrite len_cons. pose proof (len_nonneg base). lia. }
    rewrite last_separator_none by exact N. cbn [bind].
    apply slice_to_negative. unfold len. lia.
Qed.

(** Grammar B: the same; here the placeholder for an empty file name is cut
    as well, which a three-byte placeholder survives. *)
Lemma extra_short_file_B (ColorCode : bytes -> bytes)
      (context : GrammarB.LogContext) (dir base : bytes) :
  ~ In Separator base ->
  (List.length base < 3)%nat ->
  (GrammarB.File context = dir ++ Separator :: base
   \/ GrammarB.File context = base /\ base <> []) ->
  GrammarB.Format (GrammarB.NewStdFormatter ColorCode (B "%{ShortFile}")) context
  = Panic.
Proof.
  intros N L F.
  match goal with
  | |- GrammarB.Format ?f _ = _ =>
    let f' := eval vm_compute in f in change f with f'
  end.
  unfold GrammarB.Format, GrammarB.accumulate.
  cbn [GrammarB.parts GrammarB.format_parts GrammarB.format_part GrammarB.buf
       GrammarB.stringi GrammarB.tmp_ GrammarB.tmp GrammarB.stmp_ GrammarB.stmp].
  enough (E : GrammarB.short_file GrammarB.vShortFile (GrammarB.File context)
              = Panic) by (rewrite E; reflexivity).
  unfold GrammarB.short_file.
  destruct F as [-> | [-> Ne]].
  - replace (len (dir ++ Separator :: base) =? 0) with false.
    2:{ symmetry. apply Z.eqb_neq. rewrite len_app, len_cons.
        pose proof (len_nonneg dir). pose proof (len_nonneg base). lia. }
    rewrite last_separator_found by exact N. cbn [bind].
    replace (len dir >=? 0) with true
      by (symmetry; rewrite Z.geb_leb; apply Z.leb_le, len_nonneg).
    replace (dir ++ Separator :: base) with ((dir ++ [Separator]) ++ base)
      by (rewrite <- app_assoc; reflexivity).
    replace (len dir + 1) with (len (dir ++ [Separator]))
      by (rewrite len_app, len_cons; reflexivity).
    rewrite slice_from_app. cbn [bind].
    apply slice_to_negative. unfold len. lia.
  - replace (len base =? 0) with false.
    2:{ symmetry. apply Z.eqb_neq. destruct base; [contradiction Ne; reflexivity|].
        rewrite len_cons. pose proof (len_nonneg base). lia. }
    rewrite last_separator_none by exact N. cbn [bind].
    apply slice_to_negative. unfold len. lia.
Qed.

End ShortFile.

Section SafeMessage.

(** [twoDigits] writes the two low decimal digits of a non-negative [d]
    into the two bytes at [i]. *)
Lemma twoDigits_spec (pre post : bytes) (x y : ascii) (d : Z) :
  0 <= d ->
  twoDigits (pre ++ x :: y :: post) (len pre) d
  = Ok (pre ++ digit (d / 10 mod 10) :: digit (d mod 10) :: post).
Proof.
  intros H. unfold twoDigits.
  rewrite Z.rem_mod_nonneg, Z.quot_div_nonneg by lia.
  rewrite digits_index by (apply Z.mod_pos_bound; lia). cbn [bind].
  rewrite store_at with (pre := pre ++ [x]) (x := y) (post := post)
    by (first [ solve [rewrite <- app_assoc; reflexivity]
              | rewrite len_app, len_cons; reflexivity ]).
  cbn [bind].
  rewrite Z.rem_mod_nonneg by (try apply Z.div_pos; lia).
  rewrite digits_index by (apply Z.mod_pos_bound; lia). cbn [bind].
  rewrite store_at with (pre := pre) (x := x) (post := digit (d mod 10) :: post)
    by (first [ solve [rewrite <- app_assoc; reflexivity] | reflexivity ]).
  reflexivity.
Qed.

Lemma safe_runes_ascii (m : bytes) :
  forall (t s : bytes),
    Forall (fun c => code c < 128) m ->
    (4 <= List.length t)%nat ->
    exists t',
      GrammarB.safe_runes (map code m) t s
      = Ok (t', s ++ flat_map decimal_escape m)
      /\ List.length t' = List.length t.
Proof.
  induction m as [|c m IH]; intros t s Hm Ht; cbn [map GrammarB.safe_runes flat_map].
  - exists t. rewrite app_nil_r. split; reflexivity.
  - inversion Hm as [|? ? Hc Hm']; subst.
    unfold decimal_escape at 1.
    destruct (code c <? 32) eqn:E.
    + destruct t as [|a0 [|a1 [|a2 [|a3 rest]]]]; cbn [List.length] in Ht; try lia.
      rewrite store_at with (pre := []) (x := a0) (post := a1 :: a2 :: a3 :: rest)
        by reflexivity.
      cbn [bind app].
      rewrite store_at with (pre := ["\"%char]) (x := a1) (post := a2 :: a3 :: rest)
        by reflexivity.
      cbn [bind app].
      change ("\"%char :: "x"%char :: a2 :: a3 :: rest)
        with (B "\x" ++ a2 :: a3 :: rest).
      change 2 with (len (B "\x")).
      rewrite twoDigits_spec by (pose proof (code_bound c); lia).
      cbn [bind].
      change (B "\x" ++ digit (code c / 10 mod 10) :: digit (code c mod 10) :: rest)
        with ((B "\x" ++ [digit (code c / 10 mod 10); digit (code c mod 10)]) ++ rest).
      change 4 with (len (B "\x" ++ [digit (code c / 10 mod 10); digit (code c mod 10)])).
      rewrite slice_to_app. cbn [bind].
      destruct (IH ((B "\x" ++ [digit (code c / 10 mod 10); digit (code c mod 10)])
                      ++ rest)
                   (s ++ B "\x" ++ [digit (code c / 10 mod 10); digit (code c mod 10)])
                   Hm') as (t' & R & L).
      { cbn [B list_ascii_of_string app List.length]. lia. }
      exists t'. rewrite R. split; [rewrite <- app_assoc; reflexivity|].
      rewrite L. reflexivity.
    + rewrite byte_code.
      destruct (IH t (s ++ [c]) Hm' Ht) as (t' & R & L).
      exists t'. rewrite R. split; [rewrite <- app_assoc; reflexivity | exact L].
Qed.

(** For an ASCII message the safe-message verb yields the message with
    each control byte replaced by its decimal escape. *)
Lemma safe_message_ascii (ColorCode : bytes -> bytes)
      (context : GrammarB.LogContext) :
  Forall (fun c => code c < 128) (GrammarB.Message context) ->
  GrammarB.accumulate
    (GrammarB.NewStdFormatter ColorCode (B "%{SafeMessage}")) context
  = Ok (flat_map decimal_escape (GrammarB.Message context)).
Proof.
  intros H.
  match goal with
  | |- GrammarB.accumulate ?f _ = _ =>
    let f' := eval vm_compute in f in change f with f'
  end.
  unfold GrammarB.accumulate.
  cbn [GrammarB.parts GrammarB.format_parts GrammarB.format_part GrammarB.buf
       GrammarB.stringi GrammarB.tmp_ GrammarB.tmp GrammarB.stmp_ GrammarB.stmp].
  rewrite runes_ascii by exact H.
  match goal with
  | |- context [GrammarB.safe_runes _ ?t ?s] =>
    destruct (safe_runes_ascii (GrammarB.Message context) t s H) as (t' & R & _);
      [cbn; lia|]
  end.
  rewrite R. reflexivity.
Qed.

End SafeMessage.

(* ================================================================== *)
(** * Further properties of the code *)

(** ** The fixed-width writers *)

Ltac app_norm := repeat rewrite <- app_assoc; cbn [app]; try reflexivity.
Ltac len_norm := repeat rewrite ?len_app, ?len_cons, ?len_nil; try lia.
Ltac side := solve [app_norm | len_norm].
Ltac decide_true := symmetry; repeat rewrite ?andb_true_iff, ?Z.geb_leb;
                    repeat split; first [apply Z.leb_le | apply Z.ltb_lt]; lia.
Ltac decide_false := symmetry; repeat rewrite ?Z.geb_leb;
                     first [apply Z.leb_gt | apply Z.ltb_ge | apply Z.eqb_neq]; lia.

Section FixedWidth.

Lemma length_padded (n : nat) (d : Z) : List.length (padded n d) = n.
Proof.
  revert d. induction n as [|n IH]; intros d; cbn [padded]; [reflexivity|].
  rewrite length_app, IH. cbn. lia.
Qed.

Lemma len_padded (n : nat) (d : Z) : len (padded n d) = Z.of_nat n.
Proof. unfold len. rewrite length_padded. reflexivity. Qed.

Lemma padded_digits (n : nat) (d : Z) : Forall is_digit (padded n d).
Proof.
  revert d. induction n as [|n IH]; intros d; cbn [padded]; [constructor|].
  apply Forall_app. split; [apply IH|].
  apply Forall_cons; [|apply Forall_nil].
  apply is_digit_digit, Z.mod_pos_bound. lia.
Qed.

Lemma value_padded (n : nat) (d : Z) :
  value (padded n d) = d mod 10 ^ Z.of_nat n.
Proof.
  revert d. induction n as [|n IH]; intros d; cbn [padded].
  - change (10 ^ Z.of_nat 0) with 1. rewrite Z.mod_1_r. reflexivity.
  - rewrite value_snoc, IH, code_digit by (apply Z.mod_pos_bound; lia).
    rewrite Nat2Z.inj_succ, Z.pow_succ_r by lia.
    rewrite Z.rem_mul_r by (try apply Z.pow_nonzero; lia). lia.
Qed.

Lemma nDigits_loop_spec (k : nat) :
  forall (d : Z) (pre mid post : bytes),
    0 <= d ->
    List.length mid = k ->
    nDigits_loop k (pre ++ mid ++ post) (len pre) d
    = Ok (pre ++ padded k d ++ post).
Proof.
  induction k as [|k IH]; intros d pre mid post Hd Hmid.
  - destruct mid; [reflexivity | discriminate].
  - cbn [nDigits_loop padded].
    rewrite Z.rem_mod_nonneg, Z.quot_div_nonneg by lia.
    rewrite digits_index by (apply Z.mod_pos_bound; lia). cbn [bind].
    destruct (split_last k mid Hmid) as (mid' & x & -> & Hm').
    rewrite store_at with (pre := pre ++ mid') (x := x) (post := post)
      by (first [ solve [app_norm] | rewrite len_app; unfold len; lia ]).
    cbn [bind].
    replace ((pre ++ mid') ++ digit (d mod 10) :: post)
      with (pre ++ mid' ++ digit (d mod 10) :: post) by app_norm.
    rewrite IH by (try apply Z.div_pos; lia).
    app_norm.
Qed.

Lemma field_split (buf : bytes) (i n : Z) :
  0 <= i -> 0 <= n -> i + n <= len buf ->
  exists pre mid post,
    buf = pre ++ mid ++ post
    /\ len pre = i /\ len mid = n
    /\ pre = firstn (Z.to_nat i) buf
    /\ post = skipn (Z.to_nat (i + n)) buf.
Proof.
  intros Hi Hn Hroom. unfold len in *.
  exists (firstn (Z.to_nat i) buf),
         (firstn (Z.to_nat n) (skipn (Z.to_nat i) buf)),
         (skipn (Z.to_nat (i + n)) buf).
  repeat split.
  - rewrite Z2Nat.inj_add by lia. rewrite Nat.add_comm, <- skipn_skipn.
    rewrite firstn_skipn, firstn_skipn. reflexivity.
  - rewrite length_firstn. lia.
  - rewrite length_firstn, length_skipn. lia.
Qed.

(** What a write into the field [i, i + n) leaves: the bytes before and
    after the field as they were, and [w] in the field. *)
Lemma field_written (pre mid post w : bytes) (i n : Z) :
  len pre = i -> len mid = n -> len w = n ->
  len (pre ++ w ++ post) = len (pre ++ mid ++ post)
  /\ firstn (Z.to_nat i) (pre ++ w ++ post) = pre
  /\ skipn (Z.to_nat (i + n)) (pre ++ w ++ post) = post
  /\ firstn (Z.to_nat n) (skipn (Z.to_nat i) (pre ++ w ++ post)) = w.
Proof.
  intros Hi Hn Hw. unfold len in *.
  assert (Ei : Z.to_nat i = List.length pre) by lia.
  assert (En : Z.to_nat n = List.length w) by lia.
  repeat split.
  - rewrite !length_app. lia.
  - rewrite Ei, firstn_app, firstn_all, Nat.sub_diag. cbn. apply app_nil_r.
  - rewrite Z2Nat.inj_add by lia. rewrite Ei, En.
    rewrite Nat.add_comm, <- skipn_skipn.
    rewrite skipn_app, skipn_all, Nat.sub_diag. cbn [skipn app].
    rewrite skipn_app, skipn_all, Nat.sub_diag. reflexivity.
  - rewrite Ei, En, skipn_app, skipn_all, Nat.sub_diag. cbn [skipn app].
    rewrite firstn_app, firstn_all, Nat.sub_diag. cbn. apply app_nil_r.
Qed.

End FixedWidth.

(** X1. [nDigits(buf, n, i, d)] with a non-negative [d] and a field
    [i, i + n) inside the buffer fills the field with the [n] low decimal
    digits of [d], most significant first and zero padded, and leaves the
    rest of the buffer as it was; higher digits of [d] are lost. *)
Theorem nDigits_writes_field (buf : bytes) (n i d : Z) :
  0 <= d -> 0 <= n -> 0 <= i -> i + n <= len buf ->
  exists buf',
    nDigits buf n i d = Ok buf'
    /\ len buf' = len buf
    /\ firstn (Z.to_nat i) buf' = firstn (Z.to_nat i) buf
    /\ skipn (Z.to_nat (i + n)) buf' = skipn (Z.to_nat (i + n)) buf
    /\ let w := firstn (Z.to_nat n) (skipn (Z.to_nat i) buf') in
       len w = n /\ Forall is_digit w /\ value w = d mod 10 ^ n.
Proof.
  intros Hd Hn Hi Hroom.
  destruct (field_split buf i n Hi Hn Hroom) as (pre & mid & post & E & Lp & Lm & Ep & Eq).
  assert (R : nDigits buf n i d = Ok (pre ++ padded (Z.to_nat n) d ++ post)).
  { unfold nDigits. rewrite E, <- Lp.
    apply nDigits_loop_spec; [exact Hd | unfold len in Lm; lia]. }
  eexists. split; [exact R|].
  assert (Lw : len (padded (Z.to_nat n) d) = n) by (rewrite len_padded; lia).
  destruct (field_written pre mid post (padded (Z.to_nat n) d) i n
                          Lp Lm Lw) as (F1 & F2 & F3 & F4).
  rewrite <- Ep, <- Eq, E.
  split; [exact F1|]. split; [exact F2|]. split; [exact F3|].
  cbv zeta. rewrite F4.
  split; [exact Lw|]. split; [apply padded_digits|].
  rewrite value_padded, Z2Nat.id by lia. reflexivity.
Qed.

Lemma nDigits_writes_field_witness :
  (0 <= 123456 /\ 0 <= 4 /\ 0 <= 9
   /\ 9 + 4 <= len (repeat "-"%char 15))
  /\ exists buf',
      nDigits (repeat "-"%char 15) 4 9 123456 = Ok buf'
      /\ len buf' = len (repeat "-"%char 15)
      /\ firstn (Z.to_nat 9) buf' = firstn (Z.to_nat 9) (repeat "-"%char 15)
      /\ skipn (Z.to_nat (9 + 4)) buf'
         = skipn (Z.to_nat (9 + 4)) (repeat "-"%char 15)
      /\ let w := firstn (Z.to_nat 4) (skipn (Z.to_nat 9) buf') in
         len w = 4 /\ Forall is_digit w /\ value w = 123456 mod 10 ^ 4.
Proof.
  assert (H : 9 + 4 <= len (repeat "-"%char 15)) by (vm_compute; discriminate).
  split; [repeat split; first [lia | exact H]|].
  apply (nDigits_writes_field (repeat "-"%char 15) 4 9 123456);
    first [lia | exact H].
Defined.

(** X2. [twoDigits(buf, i, d)] with a non-negative [d] and both bytes
    [i] and [i + 1] inside the buffer writes the tens digit and the units
    digit of [d] there, zero padded, and leaves the rest of the buffer as
    it was: for [d] in 0..99 the two bytes denote [d]. *)
Theorem twoDigits_writes_field (buf : bytes) (i d : Z) :
  0 <= d -> 0 <= i -> i + 2 <= len buf ->
  exists buf',
    twoDigits buf i d = Ok buf'
    /\ len buf' = len buf
    /\ firstn (Z.to_nat i) buf' = firstn (Z.to_nat i) buf
    /\ skipn (Z.to_nat (i + 2)) buf' = skipn (Z.to_nat (i + 2)) buf
    /\ firstn 2 (skipn (Z.to_nat i) buf')
       = [digit (d / 10 mod 10); digit (d mod 10)]
    /\ value (firstn 2 (skipn (Z.to_nat i) buf')) = d mod 100.
Proof.
  intros Hd Hi Hroom.
  destruct (field_split buf i 2 Hi ltac:(lia) Hroom)
    as (pre & mid & post & E & Lp & Lm & Ep & Eq).
  destruct mid as [|x [|y [|? ?]]];
    try (exfalso; unfold len in Lm; cbn [List.length] in Lm; lia).
  assert (R : twoDigits buf i d
              = Ok (pre ++ digit (d / 10 mod 10) :: digit (d mod 10) :: post)).
  { rewrite E, <- Lp. cbn [app]. apply twoDigits_spec, Hd. }
  eexists. split; [exact R|].
  destruct (field_written pre [x; y] post
                          [digit (d / 10 mod 10); digit (d mod 10)] i 2
                          Lp eq_refl eq_refl) as (F1 & F2 & F3 & F4).
  cbn [app] in F1, F2, F3, F4.
  rewrite <- Ep, <- Eq, E. cbn [app].
  split; [exact F1|]. split; [exact F2|]. split; [exact F3|].
  change (Z.to_nat 2) with 2%nat in F4. rewrite F4.
  split; [reflexivity|].
  change [digit (d / 10 mod 10); digit (d mod 10)] with (padded 2 d).
  rewrite value_padded. reflexivity.
Qed.

Lemma twoDigits_writes_field_witness :
  (0 <= 7 /\ 0 <= 3 /\ 3 + 2 <= len (repeat ":"%char 8))
  /\ exists buf',
      twoDigits (repeat ":"%char 8) 3 7 = Ok buf'
      /\ len buf' = len (repeat ":"%char 8)
      /\ firstn (Z.to_nat 3) buf' = firstn (Z.to_nat 3) (repeat ":"%char 8)
      /\ skipn (Z.to_nat (3 + 2)) buf'
         = skipn (Z.to_nat (3 + 2)) (repeat ":"%char 8)
      /\ firstn 2 (skipn (Z.to_nat 3) buf')
         = [digit (7 / 10 mod 10); digit (7 mod 10)]
      /\ value (firstn 2 (skipn (Z.to_nat 3) buf')) = 7 mod 100.
Proof.
  assert (H : 3 + 2 <= len (repeat ":"%char 8)) by (vm_compute; discriminate).
  split; [repeat split; first [lia | exact H]|].
  apply (twoDigits_writes_field (repeat ":"%char 8) 3 7);
    first [lia | exact H].
Defined.

(** ** The variable-width writers on every buffer *)

Section VariableWidth.

Lemma store_negative {A : Type} (s : list A) (i : Z) (v : A) :
  i < 0 -> store s i v = Panic.
Proof.
  intros H. unfold store.
  replace (0 <=? i) with false by decide_false. reflexivity.
Qed.

Lemma decimal_nonempty (d : Z) : 0 <= d -> (1 <= List.length (decimal d))%nat.
Proof.
  intros H. rewrite decimal_eq by exact H.
  destruct (d <? 10); [cbn; lia|]. rewrite length_app. cbn. lia.
Qed.

Lemma decimal_length_lower (m : nat) :
  forall d, 10 ^ Z.of_nat m <= d -> (m < List.length (decimal d))%nat.
Proof.
  induction m as [|m IH]; intros d H.
  - change (10 ^ Z.of_nat 0) with 1 in H. apply decimal_nonempty. lia.
  - rewrite Nat2Z.inj_succ, Z.pow_succ_r in H by lia.
    assert (P : 0 < 10 ^ Z.of_nat m) by (apply Z.pow_pos_nonneg; lia).
    rewrite decimal_large by lia. rewrite length_app. cbn [List.length].
    enough (m < List.length (decimal (d / 10)))%nat by lia.
    apply IH. apply Z.div_le_lower_bound; lia.
Qed.

Lemma allDigits_loop_short (n : nat) :
  forall (d : Z) (mid post : bytes),
    0 <= d < 2 ^ Z.of_nat (S n) ->
    (List.length mid < List.length (decimal d))%nat ->
    allDigits_loop (S n) (mid ++ post) (len mid) d = Panic.
Proof.
  induction n as [|n IH]; intros d mid post Hd Hmid.
  all: rewrite allDigits_loop_S.
  all: rewrite Z.rem_mod_nonneg, Z.quot_div_nonneg by lia.
  all: rewrite digits_index by (apply Z.mod_pos_bound; lia).
  all: cbn [bind].
  all: destruct (nil_or_last mid) as [-> | (mid' & x & ->)];
    [rewrite store_negative by (cbn; lia); reflexivity|].
  all: rewrite store_at with (pre := mid') (x := x) (post := post)
    by (first [ solve [app_norm] | len_norm ]).
  all: cbn [bind].
  all: destruct (Z.lt_ge_cases d 10) as [S | L].
  all: try (rewrite decimal_small in Hmid by lia;
            rewrite length_app in Hmid; cbn [List.length] in Hmid; lia).
  all: try (change (2 ^ Z.of_nat 1) with 2 in Hd; lia).
  - rewrite (decimal_large d L) in Hmid.
    rewrite !length_app in Hmid. cbn [List.length] in Hmid.
    assert (Q : 1 <= d / 10) by (apply Z.div_le_lower_bound; lia).
    replace (d / 10 =? 0) with false by decide_false.
    replace (len (mid' ++ [x]) - 1) with (len mid') by len_norm.
    apply IH; [|lia].
    split; [lia|]. apply Z.div_lt_upper_bound; [lia|].
    rewrite (Nat2Z.inj_succ (S n)), Z.pow_succ_r in Hd by lia. lia.
Qed.

Lemma itoa_tail_short (d : Z) (mid post : bytes) :
  0 <= d < 100 ->
  (List.length mid < List.length (decimal d))%nat ->
  itoa_tail (mid ++ post, len mid, d) = Panic.
Proof.
  intros Hd Hmid. cbn [itoa_tail].
  destruct (Z.lt_ge_cases d 10) as [S1 | L1].
  - replace (d <? 10) with true by decide_true.
    rewrite decimal_small in Hmid by lia. cbn [List.length] in Hmid.
    destruct mid; [|cbn [List.length] in Hmid; lia].
    rewrite store_negative by (cbn; lia). reflexivity.
  - replace (d <? 10) with false by decide_false.
    rewrite decimal_two in Hmid by lia. cbn [List.length] in Hmid.
    destruct (ddigits_index d) as [I0 I1]; [lia|].
    rewrite I0, I1. cbn [bind].
    destruct mid as [|y [|? ?]]; [| |cbn [List.length] in Hmid; lia].
    + rewrite store_negative by (cbn; lia). reflexivity.
    + rewrite store_at with (pre := []) (x := y) (post := post) by reflexivity.
      cbn [bind]. rewrite store_negative by (cbn; lia). reflexivity.
Qed.

Lemma itoa_digits_short (n : nat) :
  forall (d : Z) (mid post : bytes),
    0 <= d < 2 ^ Z.of_nat (S n) ->
    (List.length mid < List.length (decimal d))%nat ->
    (r <- itoa_loop (S n) (mid ++ post) (len mid) d ;; itoa_tail r) = Panic.
Proof.
  induction n as [|n IH]; intros d mid post Hd Hmid.
  all: rewrite itoa_loop_S.
  all: destruct (Z.lt_ge_cases d 100) as [S | L].
  all: try (replace (d >=? 100) with false by decide_false).
  all: try (replace (d >=? 100) with true by decide_true).
  - cbn [bind]. apply itoa_tail_short; [lia | exact Hmid].
  - change (2 ^ Z.of_nat 1) with 2 in Hd. lia.
  - cbn [bind]. apply itoa_tail_short; [lia | exact Hmid].
  - rewrite Z.rem_mod_nonneg, Z.quot_div_nonneg by lia.
    rewrite (decimal_pair d L) in Hmid.
    rewrite length_app in Hmid. cbn [List.length] in Hmid.
    destruct (ddigits_index (d mod 100)) as [I0 I1];
      [apply Z.mod_pos_bound; lia|].
    rewrite I0, I1. cbn [bind].
    destruct (nil_or_last mid) as [-> | (mid1 & y & ->)];
      [rewrite store_negative by (cbn; lia); reflexivity|].
    rewrite store_at with (pre := mid1) (x := y) (post := post)
      by (first [ solve [app_norm] | len_norm ]).
    cbn [bind].
    destruct (nil_or_last mid1) as [-> | (mid0 & x & ->)];
      [rewrite store_negative by (cbn; lia); reflexivity|].
    rewrite store_at with (pre := mid0) (x := x)
                          (post := digit (d mod 100 mod 10) :: post)
      by (first [ solve [app_norm] | len_norm ]).
    cbn [bind].
    replace (len ((mid0 ++ [x]) ++ [y]) - 1 - 1) with (len mid0) by len_norm.
    rewrite !length_app in Hmid. cbn [List.length] in Hmid.
    apply IH; [|lia].
    split; [apply Z.div_pos; lia|]. apply Z.div_lt_upper_bound; [lia|].
    rewrite (Nat2Z.inj_succ (Datatypes.S n)), Z.pow_succ_r in Hd by lia. lia.
Qed.

(** A buffer shorter than the digits of [d] stops both encoders. *)
Lemma encoders_short (buf : bytes) (i d : Z) :
  0 <= d ->
  (List.length buf < List.length (decimal d))%nat ->
  itoa buf i d = Panic /\ allDigits buf i d = Panic.
Proof.
  intros Hd Hk.
  pose proof (below_loop_fuel d Hd) as F. unfold loop_fuel in F.
  split.
  - rewrite itoa_unfold. unfold loop_fuel.
    pose proof (itoa_digits_short (Z.to_nat (Z.log2 d)) d buf [] (conj Hd F) Hk) as S.
    rewrite app_nil_r in S.
    destruct (itoa_loop _ _ _ _) as [r| |]; cbn [bind] in S |- *;
      try discriminate; try reflexivity.
    rewrite S. reflexivity.
  - unfold allDigits, loop_fuel.
    pose proof (allDigits_loop_short (Z.to_nat (Z.log2 d)) d buf [] (conj Hd F) Hk) as S.
    rewrite app_nil_r in S. rewrite S. reflexivity.
Qed.

Lemma slice_from_outside {A : Type} (s : list A) (i : Z) :
  i < 0 \/ len s < i -> slice_from s i = Panic.
Proof.
  intros H. unfold slice_from.
  destruct (0 <=? i) eqn:E1; [|reflexivity].
  destruct (i <=? len s) eqn:E2; [|reflexivity].
  apply Z.leb_le in E1, E2. lia.
Qed.

Lemma copy_within_general (pre w : bytes) (i : Z) :
  0 <= i <= len (pre ++ w) ->
  exists buf',
    copy_within (pre ++ w) i (len pre)
    = Ok (buf', Z.min (len (pre ++ w) - i) (len w))
    /\ len buf' = len (pre ++ w)
    /\ firstn (Z.to_nat (Z.min (len (pre ++ w) - i) (len w)))
              (skipn (Z.to_nat i) buf')
       = firstn (Z.to_nat (Z.min (len (pre ++ w) - i) (len w))) w.
Proof.
  intros Hi. unfold copy_within.
  pose proof (len_nonneg w) as Hw.
  unfold slice_from at 1.
  replace ((0 <=? i) && (i <=? len (pre ++ w))) with true by decide_true.
  cbn [bind]. rewrite slice_from_app. cbn [bind].
  assert (Ld : len (skipn (Z.to_nat i) (pre ++ w)) = len (pre ++ w) - i).
  { unfold len in *. rewrite length_skipn. lia. }
  rewrite Ld.
  set (n := Z.min (len (pre ++ w) - i) (len w)).
  assert (Hn : 0 <= n <= len w /\ n <= len (pre ++ w) - i) by (unfold n; lia).
  eexists. split; [reflexivity|].
  assert (Lf : List.length (firstn (Z.to_nat i) (pre ++ w)) = Z.to_nat i).
  { rewrite length_firstn. unfold len in *. lia. }
  assert (Lw : List.length (firstn (Z.to_nat n) w) = Z.to_nat n).
  { rewrite length_firstn. unfold len in *. lia. }
  split.
  - unfold len in *. rewrite (length_app (firstn _ _)), (length_app (firstn _ _)).
    rewrite Lf, Lw, length_skipn, length_skipn. lia.
  - rewrite skipn_app, skipn_all2 by lia.
    rewrite Lf, Nat.sub_diag. cbn [skipn app].
    rewrite firstn_app, Lw, Nat.sub_diag. cbn [firstn].
    rewrite app_nil_r, firstn_firstn, Nat.min_id. reflexivity.
Qed.

End VariableWidth.

(** X3. On every buffer, for every destination index and every
    non-negative [d], [itoa] and [allDigits] have the same outcome: the
    same buffer and count when they return, a panic of both otherwise. *)
Theorem itoa_allDigits_always (buf : bytes) (i d : Z) :
  0 <= d -> itoa buf i d = allDigits buf i d.
Proof.
  intros Hd.
  destruct (le_lt_dec (List.length (decimal d)) (List.length buf)) as [L | S].
  - destruct (encoders_agree buf i d Hd L) as [-> ->]. reflexivity.
  - destruct (encoders_short buf i d Hd S) as [-> ->]. reflexivity.
Qed.

Lemma itoa_allDigits_always_witness :
  0 <= 3456
  /\ itoa (repeat zero 3) 0 3456 = allDigits (repeat zero 3) 0 3456
  /\ itoa (repeat zero 3) 0 3456 = Panic.
Proof.
  split; [lia|]. split.
  - apply (itoa_allDigits_always (repeat zero 3) 0 3456). lia.
  - reflexivity.
Defined.

(** X4. [itoa] panics on a non-negative [d] whenever the buffer has fewer
    bytes than [d] has digits (the digits are first written at the end of
    the buffer), and whenever the destination index is outside the
    buffer. *)
Theorem itoa_panics (buf : bytes) (i d : Z) :
  0 <= d ->
  len buf = 0 \/ 10 ^ len buf <= d \/ i < 0 \/ len buf < i ->
  itoa buf i d = Panic.
Proof.
  intros Hd H.
  destruct (le_lt_dec (List.length (decimal d)) (List.length buf)) as [L | S];
    [|apply (encoders_short buf i d Hd S)].
  destruct (encoders_agree buf i d Hd L) as [-> _].
  pose proof (decimal_nonempty d Hd) as N.
  destruct H as [H | [H | H]].
  - unfold len in H. lia.
  - unfold len in H.
    pose proof (decimal_length_lower (List.length buf) d H). lia.
  - unfold copy_within. rewrite slice_from_outside; [reflexivity|].
    rewrite len_app. unfold len in *. rewrite length_firstn. lia.
Qed.

Lemma itoa_panics_witness :
  (0 <= 100 /\ (len (repeat zero 2) = 0 \/ 10 ^ len (repeat zero 2) <= 100
                \/ 0 < 0 \/ len (repeat zero 2) < 0))
  /\ itoa (repeat zero 2) 0 100 = Panic.
Proof.
  assert (H : 10 ^ len (repeat zero 2) <= 100) by (vm_compute; discriminate).
  split; [split; [lia | right; left; exact H]|].
  apply (itoa_panics (repeat zero 2) 0 100); [lia | right; left; exact H].
Defined.

(** X5. When the buffer holds the digits of a non-negative [d] but the
    room from the destination index on is shorter, [itoa] does not fail:
    it copies the leading digits that fit and returns their count.  With
    room enough the count is the number of digits. *)
Theorem itoa_truncates (buf : bytes) (i d : Z) :
  0 <= d -> 0 < len buf -> d < 10 ^ len buf -> 0 <= i <= len buf ->
  exists buf' n,
    itoa buf i d = Ok (buf', n)
    /\ n = Z.min (len buf - i) (len (decimal d))
    /\ len buf' = len buf
    /\ firstn (Z.to_nat n) (skipn (Z.to_nat i) buf')
       = firstn (Z.to_nat n) (decimal d).
Proof.
  intros Hd Hpos Hfit Hi.
  assert (K : (1 <= List.length (decimal d) <= List.length buf)%nat).
  { destruct (List.length buf) as [|m] eqn:Em; [unfold len in Hpos; lia|].
    apply decimal_length. split; [exact Hd|].
    unfold len in Hfit. rewrite Em in Hfit. exact Hfit. }
  destruct (encoders_agree buf i d Hd) as [-> _]; [lia|].
  set (pre := firstn (List.length buf - List.length (decimal d)) buf).
  assert (Lpre : len (pre ++ decimal d) = len buf).
  { unfold pre, len. rewrite length_app, length_firstn. lia. }
  destruct (copy_within_general pre (decimal d) i) as (buf' & C & Lb & W).
  { rewrite Lpre. exact Hi. }
  rewrite Lpre in C, Lb, W.
  exists buf', (Z.min (len buf - i) (len (decimal d))).
  repeat split; assumption.
Qed.

Lemma itoa_truncates_witness :
  (0 <= 3456 /\ 0 < len (repeat zero 8) /\ 3456 < 10 ^ len (repeat zero 8)
   /\ 0 <= 6 <= len (repeat zero 8))
  /\ exists buf' n,
      itoa (repeat zero 8) 6 3456 = Ok (buf', n)
      /\ n = Z.min (len (repeat zero 8) - 6) (len (decimal 3456))
      /\ len buf' = len (repeat zero 8)
      /\ firstn (Z.to_nat n) (skipn (Z.to_nat 6) buf')
         = firstn (Z.to_nat n) (decimal 3456).
Proof.
  assert (H1 : 0 < len (repeat zero 8)) by reflexivity.
  assert (H2 : 3456 < 10 ^ len (repeat zero 8)) by reflexivity.
  assert (H3 : 0 <= 6 <= len (repeat zero 8)) by (split; discriminate).
  split; [repeat split; first [lia | assumption | apply H3]|].
  apply (itoa_truncates (repeat zero 8) 6 3456); first [lia | assumption].
Defined.

(** ** Grammar A, verb by verb *)

Lemma nDigits_at (k : nat) (buf pre mid post : bytes) (n i d : Z) :
  buf = pre ++ mid ++ post -> i = len pre -> List.length mid = k ->
  n = Z.of_nat k -> 0 <= d ->
  nDigits buf n i d = Ok (pre ++ padded k d ++ post).
Proof.
  intros -> -> Hm -> Hd. unfold nDigits. rewrite Nat2Z.id.
  apply nDigits_loop_spec; assumption.
Qed.

Lemma twoDigits_at (buf pre post : bytes) (x y : ascii) (i d : Z) :
  buf = pre ++ x :: y :: post -> i = len pre -> 0 <= d ->
  twoDigits buf i d = Ok (pre ++ padded 2 d ++ post).
Proof.
  intros -> -> Hd. rewrite twoDigits_spec by exact Hd. reflexivity.
Qed.

Lemma slice_to_at {A : Type} (buf w post : list A) (n : Z) :
  buf = w ++ post -> n = len w -> slice_to buf n = Ok w.
Proof. intros -> ->. apply slice_to_app. Qed.

(** A scratch buffer of 64 bytes, its first 15 bytes named. *)
Lemma scratch_split (t : bytes) :
  List.length t = 64%nat ->
  exists a0 a1 a2 a3 a4 a5 a6 a7 a8 a9 a10 a11 a12 a13 a14 rest,
    t = a0 :: a1 :: a2 :: a3 :: a4 :: a5 :: a6 :: a7 :: a8 :: a9
           :: a10 :: a11 :: a12 :: a13 :: a14 :: rest
    /\ List.length rest = 49%nat.
Proof.
  intros H.
  do 15 (destruct t as [|? t]; [discriminate H|]).
  repeat eexists. cbn [List.length] in H. lia.
Qed.

Ltac store_step :=
  match goal with
  | |- context [store ?b ?i ?v] =>
    let n := eval cbv in (Z.to_nat i) in
    let pre := eval cbn [firstn] in (firstn n b) in
    let tl := eval cbn [skipn] in (skipn n b) in
    match tl with
    | ?x :: ?post => rewrite (store_at b pre post x v i eq_refl eq_refl)
    end
  end; cbn [bind app].

Ltac two_step H :=
  match goal with
  | |- context [twoDigits ?b ?i ?d] =>
    let n := eval cbv in (Z.to_nat i) in
    let pre := eval cbn [firstn] in (firstn n b) in
    let tl := eval cbn [skipn] in (skipn n b) in
    match tl with
    | ?x :: ?y :: ?post =>
      rewrite (twoDigits_at b pre post x y i d eq_refl eq_refl H)
    end
  end; cbn [bind app padded].

Ltac n_step k H :=
  match goal with
  | |- context [nDigits ?b ?n ?i ?d] =>
    let s := eval cbv in (Z.to_nat i) in
    let pre := eval cbn [firstn] in (firstn s b) in
    let tl := eval cbn [skipn] in (skipn s b) in
    let mid := eval cbn [firstn] in (firstn k tl) in
    let post := eval cbn [skipn] in (skipn k tl) in
    rewrite (nDigits_at k b pre mid post n i d eq_refl eq_refl eq_refl eq_refl H)
  end; cbn [bind app padded].

Ltac slice_step k :=
  match goal with
  | |- context [slice_to ?b ?n] =>
    let w := eval cbn [firstn] in (firstn k b) in
    let post := eval cbn [skipn] in (skipn k b) in
    rewrite (slice_to_at b w post n eq_refl eq_refl)
  end; cbn [bind app].

Section PartsA.

Import GrammarA.

Lemma existsb_separator (s : bytes) :
  existsb (Ascii.eqb Separator) s = true <-> In Separator s.
Proof.
  rewrite existsb_exists. split.
  - intros (x & I & E). apply Ascii.eqb_eq in E. subst x. exact I.
  - intros I. exists Separator. split; [exact I | apply Ascii.eqb_refl].
Qed.

Lemma base_name_none (s : bytes) : ~ In Separator s -> base_name s = s.
Proof.
  destruct s as [|c t]; [reflexivity|]. intros N. cbn [base_name].
  destruct (existsb (Ascii.eqb Separator) t) eqn:E.
  - apply existsb_separator in E. contradiction N. right. exact E.
  - destruct (Ascii.eqb_spec c Separator) as [-> | _]; [|reflexivity].
    contradiction N. left. reflexivity.
Qed.

Lemma base_name_found (dir base : bytes) :
  ~ In Separator base -> base_name (dir ++ Separator :: base) = base.
Proof.
  intros N. induction dir as [|c dir IH]; cbn [app base_name].
  - destruct (existsb (Ascii.eqb Separator) base) eqn:E.
    + apply existsb_separator in E. contradiction.
    + rewrite Ascii.eqb_refl. reflexivity.
  - replace (existsb (Ascii.eqb Separator) (dir ++ Separator :: base)) with true;
      [exact IH|].
    symmetry. apply existsb_separator, in_or_app. right. left. reflexivity.
Qed.

(** The loop over the file name and the slice after it: the base name. *)
Lemma base_name_loop (file : bytes) :
  (slash <- last_separator file (List.length file) ;;
   if slash >=? 0 then slice_from file (slash + 1) else Ok file)
  = Ok (base_name file).
Proof.
  destruct (base_name_cases file) as [N | (dir & base & -> & N)].
  - rewrite last_separator_none by exact N. cbn [bind].
    rewrite base_name_none by exact N. reflexivity.
  - rewrite last_separator_found by exact N. cbn [bind].
    replace (len dir >=? 0) with true
      by (symmetry; rewrite Z.geb_leb; apply Z.leb_le, len_nonneg).
    replace (dir ++ Separator :: base) with ((dir ++ [Separator]) ++ base)
      by (rewrite <- app_assoc; reflexivity).
    replace (len dir + 1) with (len (dir ++ [Separator]))
      by (rewrite len_app, len_cons; reflexivity).
    rewrite slice_from_app.
    replace ((dir ++ [Separator]) ++ base) with (dir ++ Separator :: base)
      by (rewrite <- app_assoc; reflexivity).
    rewrite base_name_found by exact N. reflexivity.
Qed.

Lemma short_file_spec (p : fmtVerb) (data : LogRecord) :
  p = vSHORT_FILE \/ p = vEXTRA_SHORT_FILE ->
  short_file p (File data) = show_verbA p data.
Proof.
  intros Hp. unfold short_file, show_verbA.
  destruct (File data) as [|c file] eqn:E.
  - destruct Hp as [-> | ->]; reflexivity.
  - replace (len (c :: file) =? 0) with false by reflexivity.
    pose proof (base_name_loop (c :: file)) as L.
    destruct (last_separator (c :: file) (List.length (c :: file))) as [slash| |];
      cbn [bind] in L |- *; try discriminate L.
    rewrite L. cbn [bind]. destruct Hp as [-> | ->]; reflexivity.
Qed.

Lemma line_part (t : bytes) (line : Z) :
  List.length t = 64%nat -> 0 <= line < 10 ^ 64 ->
  exists t',
    List.length t' = 64%nat
    /\ itoa t 0 line = Ok (t', len (decimal line))
    /\ slice_to t' (len (decimal line)) = Ok (decimal line).
Proof.
  intros Ht Hl.
  assert (K : (1 <= List.length (decimal line) <= 64)%nat)
    by (apply (decimal_length 63); exact Hl).
  destruct (encoders_agree t 0 line) as [-> _]; [lia | lia |].
  set (pre := firstn (List.length t - List.length (decimal line)) t).
  assert (Lpre : len (pre ++ decimal line) = 64).
  { unfold pre, len. rewrite length_app, length_firstn. lia. }
  destruct (copy_within_general pre (decimal line) 0) as (t' & C & Lt & W).
  { rewrite Lpre. lia. }
  rewrite Lpre in C, Lt, W.
  replace (Z.min (64 - 0) (len (decimal line))) with (len (decimal line)) in C, W
    by (unfold len; lia).
  exists t'. split; [unfold len in Lt; lia|]. split; [exact C|].
  unfold slice_to.
  replace ((0 <=? len (decimal line)) && (len (decimal line) <=? len t')) with true
    by (symmetry; apply andb_true_iff; split; apply Z.leb_le; unfold len in *; lia).
  change (Z.to_nat 0) with 0%nat in W. cbn [skipn] in W. rewrite W.
  rewrite to_nat_len, firstn_all. reflexivity.
Qed.

(** A verb part appends what the verb renders and leaves a scratch buffer
    of the same size. *)
Lemma format_part_verb (f : StdFormatter) (data : LogRecord) (st : render)
      (p : fmtVerb) :
  numbers_ok (Time_ data) (Line data) ->
  List.length (tmp_ st) = 64%nat ->
  p <> vSTRING ->
  exists t',
    List.length t' = 64%nat
    /\ format_part f data st p
       = (o <- show_verbA p data ;;
          Ok (mkRender (buf st ++ o) (stringi st) t')).
Proof.
  intros Hn Ht Hp. unfold numbers_ok in Hn.
  destruct st as [out i t]. cbn [tmp_ buf stringi] in *.
  destruct p; try (contradiction Hp; reflexivity);
    unfold format_part, show_verbA, show_date, show_clock;
    cbn [tmp_ buf stringi];
    try (exists t; split; [exact Ht|];
         try reflexivity;
         match goal with
         | |- context [index ?l ?s] => destruct (index l s); reflexivity
         end).
  - (* vDATE_D *)
    destruct (Date (Time_ data)) as [[year month] day].
    destruct (Clock (Time_ data)) as [[hour min] sec].
    destruct Hn as (Hy & Hm & Hd & _).
    destruct (scratch_split t Ht)
      as (a0 & a1 & a2 & a3 & a4 & a5 & a6 & a7 & a8 & a9 & a10 & a11 & a12
          & a13 & a14 & rest & -> & Hr).
    n_step 4%nat Hy. store_step. two_step Hm. store_step. two_step Hd.
    slice_step 10%nat.
    eexists. split; [|reflexivity]. cbn [List.length]. lia.
  - (* vDATE_d *)
    destruct (Date (Time_ data)) as [[year month] day].
    destruct (Clock (Time_ data)) as [[hour min] sec].
    destruct Hn as (Hy & Hm & Hd & _).
    destruct (scratch_split t Ht)
      as (a0 & a1 & a2 & a3 & a4 & a5 & a6 & a7 & a8 & a9 & a10 & a11 & a12
          & a13 & a14 & rest & -> & Hr).
    n_step 4%nat Hy. store_step. two_step Hm. store_step. two_step Hd.
    slice_step 10%nat.
    eexists. split; [|reflexivity]. cbn [List.length]. lia.
  - (* vTIME_T *)
    destruct (Date (Time_ data)) as [[year month] day].
    destruct (Clock (Time_ data)) as [[hour min] sec].
    destruct Hn as (_ & _ & _ & Hh & Hm & Hs & Hns & _).
    destruct (scratch_split t Ht)
      as (a0 & a1 & a2 & a3 & a4 & a5 & a6 & a7 & a8 & a9 & a10 & a11 & a12
          & a13 & a14 & rest & -> & Hr).
    two_step Hh. store_step. two_step Hm. store_step. two_step Hs.
    store_step. n_step 6%nat Hns. slice_step 15%nat.
    eexists. split; [|reflexivity]. cbn [List.length]. lia.
  - (* vTIME_t *)
    destruct (Date (Time_ data)) as [[year month] day].
    destruct (Clock (Time_ data)) as [[hour min] sec].
    destruct Hn as (_ & _ & _ & Hh & Hm & Hs & _).
    destruct (scratch_split t Ht)
      as (a0 & a1 & a2 & a3 & a4 & a5 & a6 & a7 & a8 & a9 & a10 & a11 & a12
          & a13 & a14 & rest & -> & Hr).
    two_step Hh. store_step. two_step Hm. store_step. two_step Hs.
    slice_step 8%nat.
    eexists. split; [|reflexivity]. cbn [List.length]. lia.
  - (* vSHORT_FILE *)
    exists t. split; [exact Ht|].
    change (short_file vSHORT_FILE (File data))
      with (short_file vSHORT_FILE (File data)).
    rewrite (short_file_spec vSHORT_FILE data) by (left; reflexivity).
    reflexivity.
  - (* vEXTRA_SHORT_FILE *)
    exists t. split; [exact Ht|].
    rewrite (short_file_spec vEXTRA_SHORT_FILE data) by (right; reflexivity).
    unfold show_verbA. destruct (File data); reflexivity.
  - (* vLINE *)
    destruct (Date (Time_ data)) as [[year month] day].
    destruct (Clock (Time_ data)) as [[hour min] sec].
    destruct Hn as (_ & _ & _ & _ & _ & _ & _ & Hl).
    destruct (line_part t (Line data) Ht Hl) as (t' & Lt & I & S).
    exists t'. split; [exact Lt|].
    rewrite I. cbn [bind]. rewrite S. reflexivity.
Qed.

End PartsA.

(** ** Grammar A: the compiled format against a direct reading *)

Lemma fmtVerb_is_string (p : GrammarA.fmtVerb) :
  p = GrammarA.vSTRING \/ p <> GrammarA.vSTRING.
Proof. destruct p; (left; reflexivity) || (right; discriminate). Qed.

Section DenotationA.

Import GrammarA.

Variable data : LogRecord.

Hypothesis numbers : numbers_ok (Time_ data) (Line data).

Lemma index_app_mid {A : Type} (done ss : list A) (s : A) :
  index (done ++ s :: ss) (len done) = Ok s.
Proof.
  unfold index. rewrite len_app, len_cons.
  pose proof (len_nonneg done). pose proof (len_nonneg ss).
  replace ((0 <=? len done) && (len done <? len done + (1 + len ss))) with true
    by decide_true.
  rewrite to_nat_len, nth_error_app2, Nat.sub_diag by lia. reflexivity.
Qed.

Lemma index_app_end {A : Type} (done : list A) :
  index (done ++ []) (len done) = Panic.
Proof.
  rewrite app_nil_r. apply index_out_of_range. lia.
Qed.

Lemma format_parts_assemble (f : StdFormatter) (ps : list fmtVerb) :
  forall (done ss : list bytes) (out t : bytes),
    strings f = done ++ ss ->
    List.length t = 64%nat ->
    (r <- format_parts f data ps (mkRender out (len done) t) ;; Ok (buf r))
    = (o <- assemble data ps ss ;; Ok (out ++ o)).
Proof.
  induction ps as [|p ps IH]; intros done ss out t Hs Ht;
    cbn [format_parts bind buf].
  - cbn [assemble bind]. rewrite app_nil_r. reflexivity.
  - destruct (fmtVerb_is_string p) as [-> | Hp].
    + cbn [format_part buf stringi tmp_ assemble]. rewrite Hs.
      destruct ss as [|s ss].
      * rewrite index_app_end. reflexivity.
      * rewrite index_app_mid. cbn [bind].
        replace (len done + 1) with (len (done ++ [s]))
          by (rewrite len_app, len_cons; reflexivity).
        rewrite (IH (done ++ [s]) ss (out ++ s) t)
          by (try exact Ht; rewrite Hs, <- app_assoc; reflexivity).
        destruct (assemble data ps ss); cbn [bind]; try reflexivity.
        rewrite app_assoc. reflexivity.
    + destruct (format_part_verb f data (mkRender out (len done) t) p
                                 numbers Ht Hp) as (t' & Lt & ->).
      cbn [buf stringi].
      replace (assemble data (p :: ps) ss)
        with (o <- show_verbA p data ;; r <- assemble data ps ss ;; Ok (o ++ r))
        by (destruct p; try reflexivity; contradiction Hp; reflexivity).
      destruct (show_verbA p data) as [o| |]; cbn [bind]; try reflexivity.
      rewrite (IH done ss (out ++ o) t' Hs Lt).
      destruct (assemble data ps ss); cbn [bind]; try reflexivity.
      rewrite <- app_assoc. reflexivity.
Qed.

Lemma literalsA_snoc (ps : list fmtVerb) (v : fmtVerb) :
  literalsA (ps ++ [v])
  = (literalsA ps + match v with vSTRING => 1 | _ => 0 end)%nat.
Proof.
  induction ps as [|p ps IH]; [destruct v; reflexivity|].
  cbn [app]. destruct p; cbn [literalsA]; rewrite IH; reflexivity.
Qed.

Lemma assemble_snoc_string (ps : list fmtVerb) :
  forall (ss : list bytes) (s : bytes),
    literalsA ps = List.length ss ->
    assemble data (ps ++ [vSTRING]) (ss ++ [s])
    = (o <- assemble data ps ss ;; Ok (o ++ s)).
Proof.
  induction ps as [|p ps IH]; intros ss s H.
  - destruct ss; [|discriminate H]. cbn. rewrite app_nil_r. reflexivity.
  - destruct (fmtVerb_is_string p) as [-> | Hp].
    + destruct ss as [|s0 ss]; [discriminate H|].
      cbn [app assemble]. rewrite IH by (cbn in H; lia).
      destruct (assemble data ps ss); cbn [bind]; try reflexivity.
      rewrite app_assoc. reflexivity.
    + replace (assemble data ((p :: ps) ++ [vSTRING]) (ss ++ [s]))
        with (o <- show_verbA p data ;;
              r <- assemble data (ps ++ [vSTRING]) (ss ++ [s]) ;; Ok (o ++ r))
        by (destruct p; try reflexivity; contradiction Hp; reflexivity).
      replace (assemble data (p :: ps) ss)
        with (o <- show_verbA p data ;; r <- assemble data ps ss ;; Ok (o ++ r))
        by (destruct p; try reflexivity; contradiction Hp; reflexivity).
      rewrite IH by (destruct p; try exact H; contradiction Hp; reflexivity).
      destruct (show_verbA p data); cbn [bind]; try reflexivity.
      destruct (assemble data ps ss); cbn [bind]; try reflexivity.
      rewrite app_assoc. reflexivity.
Qed.

Lemma assemble_snoc_verb (ps : list fmtVerb) (v : fmtVerb) :
  forall (ss : list bytes),
    v <> vSTRING ->
    literalsA ps = List.length ss ->
    assemble data (ps ++ [v]) ss
    = (o <- assemble data ps ss ;; s <- show_verbA v data ;; Ok (o ++ s)).
Proof.
  intros ss Hv. revert ss.
  induction ps as [|p ps IH]; intros ss H.
  - destruct ss; [|discriminate H]. cbn [app].
    replace (assemble data [v] [])
      with (o <- show_verbA v data ;; r <- Ok [] ;; Ok (o ++ r))
      by (destruct v; try reflexivity; contradiction Hv; reflexivity).
    cbn [assemble bind].
    destruct (show_verbA v data); cbn [bind]; try reflexivity.
    rewrite app_nil_r. reflexivity.
  - destruct (fmtVerb_is_string p) as [-> | Hp].
    + destruct ss as [|s0 ss]; [discriminate H|].
      cbn [app assemble]. rewrite IH by (cbn in H; lia).
      destruct (assemble data ps ss); cbn [bind]; try reflexivity.
      destruct (show_verbA v data); cbn [bind]; try reflexivity.
      rewrite app_assoc. reflexivity.
    + replace (assemble data ((p :: ps) ++ [v]) ss)
        with (o <- show_verbA p data ;;
              r <- assemble data (ps ++ [v]) ss ;; Ok (o ++ r))
        by (destruct p; try reflexivity; contradiction Hp; reflexivity).
      replace (assemble data (p :: ps) ss)
        with (o <- show_verbA p data ;; r <- assemble data ps ss ;; Ok (o ++ r))
        by (destruct p; try reflexivity; contradiction Hp; reflexivity).
      rewrite IH by (destruct p; try exact H; contradiction Hp; reflexivity).
      destruct (show_verbA p data); cbn [bind]; try reflexivity.
      destruct (assemble data ps ss); cbn [bind]; try reflexivity.
      destruct (show_verbA v data); cbn [bind]; try reflexivity.
      rewrite app_assoc. reflexivity.
Qed.

Lemma len_zero_nil {A : Type} (l : list A) : (0 <? len l) = false -> l = [].
Proof. destruct l; [reflexivity | discriminate]. Qed.

Lemma len_pos_not_nil {A : Type} (l : list A) : (0 <? len l) = true -> l <> [].
Proof. destruct l; [discriminate | discriminate]. Qed.

Lemma add_verb_ok (st : scan) (v : fmtVerb) :
  v <> vSTRING -> scan_ok st -> isverb st = true ->
  scan_ok (mkScan (add_verb (f_ st) v) false (raw st))
  /\ scan_output data (mkScan (add_verb (f_ st) v) false (raw st))
     = (d <- scan_output data st ;; s <- show_verbA v data ;; Ok (d ++ s)).
Proof.
  intros Hv (H1 & H2 & H3 & H4) Hb. rewrite (H4 Hb). split.
  - repeat split; cbn [f_ add_verb parts strings tmp isverb raw];
      try assumption; try discriminate.
    rewrite literalsA_snoc, H1. destruct v; try lia. contradiction Hv. reflexivity.
  - unfold scan_output. cbn [f_ add_verb parts strings raw].
    rewrite ?(H4 Hb).
    rewrite assemble_snoc_verb by assumption.
    destruct (assemble data _ _); cbn [bind]; try reflexivity.
    destruct (show_verbA v data); cbn [bind]; try reflexivity.
    rewrite !app_nil_r. reflexivity.
Qed.

(** One rune of the template: the state stays well formed, and what it
    stands for grows by what the rune contributes. *)
Ltac finish :=
  cbn [bind app];
  first [ reflexivity
        | rewrite !app_nil_r; reflexivity
        | rewrite app_assoc; reflexivity
        | rewrite <- app_assoc; reflexivity ].

Lemma scan_rune_output (st : scan) (c : Z) :
  scan_ok st ->
  scan_ok (scan_rune st c)
  /\ isverb (scan_rune st c) = negb (isverb st) && rune_is c "%"
  /\ scan_output data (scan_rune st c)
     = (d <- scan_output data st ;; p <- piece data (isverb st) c ;; Ok (d ++ p)).
Proof.
  intros Hok. pose proof Hok as (H1 & H2 & H3 & H4).
  unfold scan_rune, piece, verb_of_rune.
  destruct (isverb st) eqn:Hb; cbn [negb andb].
  - (* after the sentinel *)
    specialize (H4 eq_refl).
    repeat match goal with
           | |- context [if rune_is c ?a then _ else _] =>
             destruct (rune_is c a) eqn:?
           end;
      try match goal with
          | |- scan_ok (mkScan (add_verb _ ?v) _ _) /\ _ =>
            destruct (add_verb_ok st v ltac:(discriminate) Hok Hb) as [K1 K2];
              split; [exact K1|]; split; [reflexivity | exact K2]
          end.
    + split; [|split; [reflexivity|]].
      * repeat split; cbn [f_ isverb raw]; try assumption; discriminate.
      * unfold scan_output. cbn [f_ raw]. rewrite H4.
        destruct (assemble data _ _); finish.
    + split; [|split; [reflexivity|]].
      * repeat split; cbn [f_ isverb raw]; try assumption; discriminate.
      * unfold scan_output. cbn [f_ raw]. rewrite H4.
        destruct (assemble data _ _); finish.
  - destruct (rune_is c "%") eqn:Hc.
    + (* the sentinel: pending text is flushed *)
      destruct (0 <? len (raw st)) eqn:Hr.
      * split; [|split; [reflexivity|]].
        -- repeat split; cbn [f_ add_string parts strings tmp isverb raw];
             try assumption; try reflexivity.
           ++ rewrite literalsA_snoc, H1, length_app. reflexivity.
           ++ apply Forall_app. split; [exact H2|].
              apply Forall_cons; [|apply Forall_nil].
              apply len_pos_not_nil, Hr.
        -- unfold scan_output. cbn [f_ add_string parts strings raw].
           rewrite assemble_snoc_string by exact H1.
           destruct (assemble data _ _); finish.
      * split; [|split; [reflexivity|]].
        -- repeat split; cbn [f_ isverb raw]; try assumption.
           intros _. apply len_zero_nil, Hr.
        -- unfold scan_output. cbn [f_ raw].
           destruct (assemble data _ _); finish.
    + split; [|split; [reflexivity|]].
      * repeat split; cbn [f_ isverb raw]; try assumption; discriminate.
      * unfold scan_output. cbn [f_ raw].
        destruct (assemble data _ _); finish.
Qed.

Lemma scan_runes_output (rs : list Z) :
  forall st,
    scan_ok st ->
    scan_ok (fold_left scan_rune rs st)
    /\ scan_output data (fold_left scan_rune rs st)
       = (d <- scan_output data st ;;
          r <- interpret data (isverb st) rs ;; Ok (d ++ r)).
Proof.
  induction rs as [|c rs IH]; intros st Hok; cbn [fold_left interpret].
  - split; [exact Hok|].
    destruct (scan_output data st); cbn [bind]; try reflexivity.
    rewrite app_nil_r. reflexivity.
  - destruct (scan_rune_output st c Hok) as (K1 & K2 & K3).
    destruct (IH _ K1) as [J1 J2]. split; [exact J1|].
    rewrite J2, K3, K2. clear J2 K3 K2.
    destruct (scan_output data st); cbn [bind]; try reflexivity.
    destruct (piece data (isverb st) c); cbn [bind]; try reflexivity.
    destruct (interpret data _ rs); finish.
Qed.

Lemma bind_ok {A : Type} (c : result A) : (x <- c ;; Ok x) = c.
Proof. destruct c; reflexivity. Qed.

(** The compiled format of a template renders what the direct reading of
    the template gives. *)
Lemma accumulate_interpret (frmt : bytes) :
  accumulate (NewStdFormatter frmt) data = interpret data false (runes frmt).
Proof.
  unfold NewStdFormatter.
  set (st0 := mkScan (mkStdFormatter frmt [] [] (repeat zero 64) 0) false []).
  assert (H0 : scan_ok st0).
  { repeat split; try reflexivity; try discriminate; constructor. }
  destruct (scan_runes_output (runes frmt) st0 H0) as [(H1 & H2 & H3 & H4) E].
  set (st := fold_left scan_rune (runes frmt) st0) in *.
  change (scan_output data st0) with (Ok (@nil ascii)) in E.
  cbn [bind isverb st0 app] in E. rewrite bind_ok in E.
  rewrite <- E. unfold scan_output, accumulate.
  destruct (0 <? len (raw st)) eqn:Hr.
  - cbn [add_string parts strings tmp].
    rewrite (format_parts_assemble (add_string (f_ st) (raw st)) _ []
                                   (strings (f_ st) ++ [raw st]) [] _
                                   eq_refl H3).
    rewrite assemble_snoc_string by exact H1.
    destruct (assemble data _ _); reflexivity.
  - rewrite (format_parts_assemble (f_ st) _ [] (strings (f_ st)) [] _ eq_refl H3).
    apply len_zero_nil in Hr. rewrite Hr.
    destruct (assemble data _ _); cbn [bind app]; try reflexivity.
    rewrite app_nil_r. reflexivity.
Qed.

End DenotationA.

Section ReadingA.

Import GrammarA.

Lemma interpret_app (data : LogRecord) (rs1 rs2 : list Z) :
  forall b,
    interpret data b (rs1 ++ rs2)
    = (a <- interpret data b rs1 ;;
       r <- interpret data
              (fold_left (fun b c => negb b && rune_is c "%") rs1 b) rs2 ;;
       Ok (a ++ r)).
Proof.
  induction rs1 as [|c rs1 IH]; intros b; cbn [app interpret fold_left bind].
  - destruct (interpret data b rs2); reflexivity.
  - rewrite IH.
    destruct (piece data b c); cbn [bind]; try reflexivity.
    destruct (interpret data _ rs1); cbn [bind]; try reflexivity.
    destruct (interpret data _ rs2); cbn [bind]; try reflexivity.
    rewrite app_assoc. reflexivity.
Qed.

Lemma runes_app_ascii (t1 t2 : bytes) :
  Forall (fun c => code c < 128) t1 -> runes (t1 ++ t2) = runes t1 ++ runes t2.
Proof.
  induction 1 as [|c t1 Hc _ IH]; [reflexivity|].
  cbn [app runes].
  replace (code c <? 128) with true by (symmetry; apply Z.ltb_lt; exact Hc).
  rewrite IH. reflexivity.
Qed.

Lemma show_verbA_ok (data : LogRecord) (v : fmtVerb) :
  0 <= Severity_ data <= 9 ->
  File data = [] \/ (3 <= List.length (base_name (File data)))%nat ->
  exists o, show_verbA v data = Ok o.
Proof.
  intros Hs Hf. destruct v; cbn [show_verbA]; try (eexists; reflexivity).
  - apply index_in_range. change (len LongSeverityStrings) with 10. lia.
  - apply index_in_range. change (len SeverityStrings) with 10. lia.
  - destruct (File data) as [|c file] eqn:E; [eexists; reflexivity|].
    destruct Hf as [Hf | Hf]; [discriminate Hf|].
    unfold slice_to.
    replace ((0 <=? len (base_name (c :: file)) - 3)
             && (len (base_name (c :: file)) - 3 <=? len (base_name (c :: file))))
      with true
      by (symmetry; apply andb_true_iff; split; apply Z.leb_le; unfold len; lia).
    eexists. reflexivity.
Qed.

Lemma interpret_ok (data : LogRecord) (rs : list Z) :
  0 <= Severity_ data <= 9 ->
  File data = [] \/ (3 <= List.length (base_name (File data)))%nat ->
  forall b, exists o, interpret data b rs = Ok o.
Proof.
  intros Hs Hf. induction rs as [|c rs IH]; intros b; cbn [interpret].
  - eexists. reflexivity.
  - assert (P : exists p, piece data b c = Ok p).
    { unfold piece. destruct b.
      - destruct (verb_of_rune c) as [v|]; [apply show_verbA_ok; assumption|].
        destruct (rune_is c "%"); eexists; reflexivity.
      - destruct (rune_is c "%"); eexists; reflexivity. }
    destruct P as [p ->]. destruct (IH (negb b && rune_is c "%")) as [r ->].
    eexists. reflexivity.
Qed.

Lemma format_part_location (f : StdFormatter) (d1 d2 : LogRecord)
      (st : render) (p : fmtVerb) :
  same_but_location d1 d2 -> needs_callerA p = false ->
  format_part f d1 st p = format_part f d2 st p.
Proof.
  intros (Ht & Hs & Hm) Hp.
  destruct p; try discriminate Hp; cbn [format_part];
    rewrite ?Ht, ?Hs, ?Hm; reflexivity.
Qed.

Lemma format_parts_location (f : StdFormatter) (d1 d2 : LogRecord)
      (ps : list fmtVerb) :
  same_but_location d1 d2 -> existsb needs_callerA ps = false ->
  forall st, format_parts f d1 ps st = format_parts f d2 ps st.
Proof.
  intros H. induction ps as [|p ps IH]; intros Hp st; [reflexivity|].
  cbn [existsb] in Hp. apply orb_false_iff in Hp. destruct Hp as [Hp Hps].
  cbn [format_parts]. rewrite (format_part_location f d1 d2 st p H Hp).
  destruct (format_part f d2 st p); cbn [bind]; try reflexivity.
  apply IH, Hps.
Qed.

End ReadingA.

(** X6. Grammar A, compiled against read directly.  For every template and
    every record whose numbers the writers can take, rendering the
    compiled format gives what a rune-by-rune reading of the template
    gives: each literal rune its low byte, each verb letter after a
    sentinel what the verb renders, a doubled sentinel one percent sign,
    any other rune after a sentinel the percent sign and the rune, a
    sentinel that ends the template nothing; then the line terminator.
    The two stop with a panic on the same inputs. *)
Theorem compiled_reads_as_template (frmt : bytes) (data : GrammarA.LogRecord) :
  numbers_ok (GrammarA.Time_ data) (GrammarA.Line data) ->
  GrammarA.Format (GrammarA.NewStdFormatter frmt) data
  = (o <- interpret data false (runes frmt) ;; terminate o).
Proof.
  intros H. unfold GrammarA.Format.
  rewrite (accumulate_interpret data H). reflexivity.
Qed.

Lemma compiled_reads_as_template_witness :
  numbers_ok (GrammarA.Time_ fmtTestsData) (GrammarA.Line fmtTestsData)
  /\ GrammarA.Format (GrammarA.NewStdFormatter (B "[%D] %L%% %M %q")) fmtTestsData
     = (o <- interpret fmtTestsData false (runes (B "[%D] %L%% %M %q")) ;;
        terminate o).
Proof.
  assert (H : numbers_ok (GrammarA.Time_ fmtTestsData) (GrammarA.Line fmtTestsData)).
  { cbv [numbers_ok fmtTestsData fmtTestsTime GrammarA.Time_ GrammarA.Line
         Date Clock Nanosecond].
    repeat split; try discriminate; reflexivity. }
  split; [exact H|].
  apply (compiled_reads_as_template (B "[%D] %L%% %M %q") fmtTestsData H).
Defined.

(** X7. Grammar A, composition.  When a template is cut in two where its
    first part is ASCII and does not end on an unescaped sentinel, the
    compiled whole renders as the compiled first part followed by the
    compiled second part (before the line terminator), panics included. *)
Theorem templates_compose (t1 t2 : bytes) (data : GrammarA.LogRecord) :
  numbers_ok (GrammarA.Time_ data) (GrammarA.Line data) ->
  Forall (fun c => code c < 128) t1 ->
  sentinel_pending (runes t1) = false ->
  GrammarA.accumulate (GrammarA.NewStdFormatter (t1 ++ t2)) data
  = (a <- GrammarA.accumulate (GrammarA.NewStdFormatter t1) data ;;
     b <- GrammarA.accumulate (GrammarA.NewStdFormatter t2) data ;;
     Ok (a ++ b)).
Proof.
  intros Hn Ha Hp.
  rewrite !(accumulate_interpret data Hn).
  rewrite runes_app_ascii by exact Ha.
  rewrite interpret_app.
  unfold sentinel_pending in Hp. rewrite Hp. reflexivity.
Qed.

Lemma templates_compose_witness :
  (numbers_ok (GrammarA.Time_ fmtTestsData) (GrammarA.Line fmtTestsData)
   /\ Forall (fun c => code c < 128) (B "at %f:%s%% ")
   /\ sentinel_pending (runes (B "at %f:%s%% ")) = false)
  /\ GrammarA.accumulate
       (GrammarA.NewStdFormatter (B "at %f:%s%% " ++ B "%L %M")) fmtTestsData
     = (a <- GrammarA.accumulate (GrammarA.NewStdFormatter (B "at %f:%s%% "))
                                 fmtTestsData ;;
        b <- GrammarA.accumulate (GrammarA.NewStdFormatter (B "%L %M"))
                                 fmtTestsData ;;
        Ok (a ++ b)).
Proof.
  assert (H : numbers_ok (GrammarA.Time_ fmtTestsData) (GrammarA.Line fmtTestsData)).
  { cbv [numbers_ok fmtTestsData fmtTestsTime GrammarA.Time_ GrammarA.Line
         Date Clock Nanosecond].
    repeat split; try discriminate; reflexivity. }
  assert (A : Forall (fun c => code c < 128) (B "at %f:%s%% "))
    by (repeat constructor).
  split; [split; [exact H | split; [exact A | reflexivity]]|].
  apply (templates_compose (B "at %f:%s%% ") (B "%L %M") fmtTestsData H A).
  reflexivity.
Defined.

(** X8. Grammar A never fails on a sound record.  For every template, a
    record whose numbers the writers can take, whose severity is one of
    NONE..PANIC and whose file name is empty or has a base name of at
    least three bytes is rendered without a panic, and the loops of the
    encoder never run out; the output is empty or ends in a line feed. *)
Theorem Format_total (frmt : bytes) (data : GrammarA.LogRecord) :
  numbers_ok (GrammarA.Time_ data) (GrammarA.Line data) ->
  NONE <= GrammarA.Severity_ data <= PANIC ->
  GrammarA.File data = []
  \/ (3 <= List.length (base_name (GrammarA.File data)))%nat ->
  exists out,
    GrammarA.Format (GrammarA.NewStdFormatter frmt) data = Ok out
    /\ (out = [] \/ exists line, out = line ++ [newline]).
Proof.
  intros Hn Hs Hf. unfold GrammarA.Format.
  rewrite (accumulate_interpret data Hn).
  destruct (interpret_ok data (runes frmt) Hs Hf false) as [o ->].
  cbn [bind].
  destruct (terminate_spec o) as (out & T & T1 & T2 & T3).
  exists out. split; [exact T|].
  destruct (nil_or_last o) as [-> | (pre & c & ->)].
  - left. apply T3. reflexivity.
  - right. destruct (Ascii.eqb_spec c newline) as [-> | N].
    + exists pre. apply (T2 pre). reflexivity.
    + exists (pre ++ [c]). apply (T1 pre c); [reflexivity | exact N].
Qed.

Lemma Format_total_witness :
  (numbers_ok (GrammarA.Time_ fmtTestsData) (GrammarA.Line fmtTestsData)
   /\ NONE <= GrammarA.Severity_ fmtTestsData <= PANIC
   /\ (GrammarA.File fmtTestsData = []
       \/ (3 <= List.length (base_name (GrammarA.File fmtTestsData)))%nat))
  /\ exists out,
      GrammarA.Format (GrammarA.NewStdFormatter (B "%T %x:%s [%l] %M"))
                      fmtTestsData = Ok out
      /\ (out = [] \/ exists line, out = line ++ [newline]).
Proof.
  assert (H : numbers_ok (GrammarA.Time_ fmtTestsData) (GrammarA.Line fmtTestsData)).
  { cbv [numbers_ok fmtTestsData fmtTestsTime GrammarA.Time_ GrammarA.Line
         Date Clock Nanosecond].
    repeat split; try discriminate; reflexivity. }
  assert (S : NONE <= GrammarA.Severity_ fmtTestsData <= PANIC)
    by (split; discriminate).
  assert (F : GrammarA.File fmtTestsData = []
              \/ (3 <= List.length (base_name (GrammarA.File fmtTestsData)))%nat).
  { right. vm_compute. repeat constructor. }
  split; [split; [exact H | split; [exact S | exact F]]|].
  apply (Format_total (B "%T %x:%s [%l] %M") fmtTestsData H S F).
Defined.

(** X9. Grammar A, the location is read only when asked for.  When
    [ShouldRuntimeCaller] of a compiled format is false, its rendering
    does not depend on the file, line, function or package of the record:
    two records that agree on time, severity and message render alike. *)
Theorem location_unused (frmt : bytes) (d1 d2 : GrammarA.LogRecord) :
  GrammarA.ShouldRuntimeCaller (GrammarA.NewStdFormatter frmt) = false ->
  same_but_location d1 d2 ->
  GrammarA.Format (GrammarA.NewStdFormatter frmt) d1
  = GrammarA.Format (GrammarA.NewStdFormatter frmt) d2.
Proof.
  intros Hc Hd. rewrite ShouldRuntimeCaller_A in Hc.
  unfold GrammarA.Format, GrammarA.accumulate.
  rewrite (format_parts_location _ d1 d2 _ Hd Hc). reflexivity.
Qed.

Lemma location_unused_witness :
  (GrammarA.ShouldRuntimeCaller (GrammarA.NewStdFormatter (B "%d %t %M")) = false
   /\ same_but_location fmtTestsData
                        (recordA PANIC (B "elsewhere.go") (B "hello there!")))
  /\ GrammarA.Format (GrammarA.NewStdFormatter (B "%d %t %M")) fmtTestsData
     = GrammarA.Format (GrammarA.NewStdFormatter (B "%d %t %M"))
                       (recordA PANIC (B "elsewhere.go") (B "hello there!")).
Proof.
  assert (S : same_but_location fmtTestsData
                (recordA PANIC (B "elsewhere.go") (B "hello there!")))
    by (repeat split).
  split; [split; [reflexivity | exact S]|].
  apply (location_unused (B "%d %t %M") fmtTestsData
                         (recordA PANIC (B "elsewhere.go") (B "hello there!"))
                         eq_refl S).
Defined.

(** X10. Grammar A, the numeric verbs.  For a record whose numbers the
    writers can take: [%D] and [%d] render the low four digits of the
    year, the low two of the month and of the day, zero padded, with [-]
    or [/] between; [%t] renders hour, minute and second the same way
    with colons; [%T] adds a point and six digits which are the low six
    decimal digits of the nanosecond field (its value modulo 1000000, not
    its microseconds); [%s] renders the line number in decimal. *)
Theorem numeric_verbs (data : GrammarA.LogRecord) :
  numbers_ok (GrammarA.Time_ data) (GrammarA.Line data) ->
  let t := GrammarA.Time_ data in
  GrammarA.accumulate (GrammarA.NewStdFormatter (B "%D")) data
  = Ok (show_date "-" t)
  /\ GrammarA.accumulate (GrammarA.NewStdFormatter (B "%d")) data
     = Ok (show_date "/" t)
  /\ GrammarA.accumulate (GrammarA.NewStdFormatter (B "%t")) data
     = Ok (show_clock t)
  /\ GrammarA.accumulate (GrammarA.NewStdFormatter (B "%T")) data
     = Ok (show_clock t ++ B "." ++ padded 6 (Nanosecond t))
  /\ value (padded 6 (Nanosecond t)) = Nanosecond t mod 1000000
  /\ GrammarA.accumulate (GrammarA.NewStdFormatter (B "%s")) data
     = Ok (decimal (GrammarA.Line data))
  /\ value (decimal (GrammarA.Line data)) = GrammarA.Line data.
Proof.
  intros Hn t.
  rewrite !(accumulate_interpret data Hn).
  repeat split; try (cbn; rewrite app_nil_r; reflexivity).
  - apply (value_padded 6).
  - apply value_decimal.
    unfold numbers_ok in Hn.
    destruct (Date (GrammarA.Time_ data)) as [[? ?] ?].
    destruct (Clock (GrammarA.Time_ data)) as [[? ?] ?]. lia.
Qed.

Lemma numeric_verbs_witness :
  numbers_ok (GrammarA.Time_ fmtTestsData) (GrammarA.Line fmtTestsData)
  /\ (let t := GrammarA.Time_ fmtTestsData in
      GrammarA.accumulate (GrammarA.NewStdFormatter (B "%D")) fmtTestsData
      = Ok (show_date "-" t)
      /\ GrammarA.accumulate (GrammarA.NewStdFormatter (B "%d")) fmtTestsData
         = Ok (show_date "/" t)
      /\ GrammarA.accumulate (GrammarA.NewStdFormatter (B "%t")) fmtTestsData
         = Ok (show_clock t)
      /\ GrammarA.accumulate (GrammarA.NewStdFormatter (B "%T")) fmtTestsData
         = Ok (show_clock t ++ B "." ++ padded 6 (Nanosecond t))
      /\ value (padded 6 (Nanosecond t)) = Nanosecond t mod 1000000
      /\ GrammarA.accumulate (GrammarA.NewStdFormatter (B "%s")) fmtTestsData
         = Ok (decimal (GrammarA.Line fmtTestsData))
      /\ value (decimal (GrammarA.Line fmtTestsData))
         = GrammarA.Line fmtTestsData).
Proof.
  assert (H : numbers_ok (GrammarA.Time_ fmtTestsData) (GrammarA.Line fmtTestsData)).
  { cbv [numbers_ok fmtTestsData fmtTestsTime GrammarA.Time_ GrammarA.Line
         Date Clock Nanosecond].
    repeat split; try discriminate; reflexivity. }
  split; [exact H|].
  apply (numeric_verbs fmtTestsData H).
Defined.

(** X11. Grammar A, the file verbs.  [%F] renders the file name as it is.
    For a non-empty file name [%f] renders its base name, what follows the
    last separator (the whole name when there is none), and [%x] renders
    the base name without its last three bytes, whatever they are.  For an
    empty file name both render the placeholder [???], uncut. *)
Theorem file_verbs (data data0 : GrammarA.LogRecord) (dir base : bytes) :
  ~ In Separator base ->
  (GrammarA.File data = dir ++ Separator :: base
   \/ GrammarA.File data = base /\ base <> []) ->
  GrammarA.File data0 = [] ->
  GrammarA.accumulate (GrammarA.NewStdFormatter (B "%F")) data
  = Ok (GrammarA.File data)
  /\ GrammarA.accumulate (GrammarA.NewStdFormatter (B "%f")) data = Ok base
  /\ (forall stem ext,
         base = stem ++ ext -> List.length ext = 3%nat ->
         GrammarA.accumulate (GrammarA.NewStdFormatter (B "%x")) data = Ok stem)
  /\ GrammarA.accumulate (GrammarA.NewStdFormatter (B "%f")) data0 = Ok (B "???")
  /\ GrammarA.accumulate (GrammarA.NewStdFormatter (B "%x")) data0 = Ok (B "???").
Proof.
  intros N F F0.
  assert (Eb : base_name (GrammarA.File data) = base
               /\ GrammarA.File data <> []).
  { destruct F as [-> | [-> Ne]].
    - split; [apply base_name_found, N | destruct dir; discriminate].
    - split; [apply base_name_none, N | exact Ne]. }
  destruct Eb as [Eb Ne].
  change (GrammarA.NewStdFormatter (B "%F"))
    with (GrammarA.mkStdFormatter (B "%F") [] [GrammarA.vFILE]
            (repeat zero 64) (GrammarA.int GrammarA.vFILE)).
  change (GrammarA.NewStdFormatter (B "%f"))
    with (GrammarA.mkStdFormatter (B "%f") [] [GrammarA.vSHORT_FILE]
            (repeat zero 64) (GrammarA.int GrammarA.vSHORT_FILE)).
  change (GrammarA.NewStdFormatter (B "%x"))
    with (GrammarA.mkStdFormatter (B "%x") [] [GrammarA.vEXTRA_SHORT_FILE]
            (repeat zero 64) (GrammarA.int GrammarA.vEXTRA_SHORT_FILE)).
  unfold GrammarA.accumulate.
  cbn [GrammarA.parts GrammarA.format_parts GrammarA.format_part GrammarA.buf
       GrammarA.stringi GrammarA.tmp_ GrammarA.tmp bind app].
  rewrite !(short_file_spec _ data) by (auto).
  rewrite !(short_file_spec _ data0) by (auto).
  cbn [show_verbA]. rewrite F0.
  destruct (GrammarA.File data) as [|c file] eqn:E;
    [contradiction Ne; reflexivity|].
  rewrite Eb.
  repeat split.
  intros stem ext -> Hext.
  replace (len (stem ++ ext) - 3) with (len stem)
    by (rewrite len_app; unfold len; lia).
  rewrite slice_to_app. reflexivity.
Qed.

Lemma file_verbs_witness :
  (~ In Separator (B "testing.go")
   /\ (GrammarA.File fmtTestsData = B "/path/to" ++ Separator :: B "testing.go"
       \/ GrammarA.File fmtTestsData = B "testing.go" /\ B "testing.go" <> [])
   /\ GrammarA.File (recordA PANIC [] (B "hello there!")) = [])
  /\ GrammarA.accumulate (GrammarA.NewStdFormatter (B "%F")) fmtTestsData
     = Ok (GrammarA.File fmtTestsData)
  /\ GrammarA.accumulate (GrammarA.NewStdFormatter (B "%f")) fmtTestsData
     = Ok (B "testing.go")
  /\ (forall stem ext,
         B "testing.go" = stem ++ ext -> List.length ext = 3%nat ->
         GrammarA.accumulate (GrammarA.NewStdFormatter (B "%x")) fmtTestsData
         = Ok stem)
  /\ GrammarA.accumulate (GrammarA.NewStdFormatter (B "%f"))
                         (recordA PANIC [] (B "hello there!")) = Ok (B "???")
  /\ GrammarA.accumulate (GrammarA.NewStdFormatter (B "%x"))
                         (recordA PANIC [] (B "hello there!")) = Ok (B "???").
Proof.
  assert (N : ~ In Separator (B "testing.go")).
  { cbn. intros H. repeat (destruct H as [H | H]; [discriminate H|]). exact H. }
  split; [split; [exact N | split; [left; reflexivity | reflexivity]]|].
  apply (file_verbs fmtTestsData (recordA PANIC [] (B "hello there!"))
                    (B "/path/to") (B "testing.go") N);
    [left; reflexivity | reflexivity].
Defined.

(** X12. Grammar A, the compiled format is well formed.  For every
    template the compiler stores exactly one string for each literal part,
    never an empty one, and leaves a scratch buffer of 64 bytes. *)
Theorem compiled_segments (frmt : bytes) :
  let f := GrammarA.NewStdFormatter frmt in
  literalsA (GrammarA.parts f) = List.length (GrammarA.strings f)
  /\ Forall (fun s => s <> []) (GrammarA.strings f)
  /\ List.length (GrammarA.tmp f) = 64%nat.
Proof.
  unfold GrammarA.NewStdFormatter.
  set (st0 := GrammarA.mkScan
                (GrammarA.mkStdFormatter frmt [] [] (repeat zero 64) 0) false []).
  assert (H0 : scan_ok st0).
  { repeat split; try reflexivity; try discriminate; constructor. }
  destruct (scan_runes_output fmtTestsData (runes frmt) st0 H0)
    as [(H1 & H2 & H3 & H4) _].
  set (st := fold_left GrammarA.scan_rune (runes frmt) st0) in *.
  destruct (0 <? len (GrammarA.raw st)) eqn:Hr; cbv zeta.
  - cbn [GrammarA.add_string GrammarA.parts GrammarA.strings GrammarA.tmp].
    split; [rewrite literalsA_snoc, H1, length_app; reflexivity|].
    split; [|exact H3].
    apply Forall_app. split; [exact H2|].
    apply Forall_cons; [|apply Forall_nil]. apply len_pos_not_nil, Hr.
  - repeat split; assumption.
Qed.

(** ** Grammar B, verb by verb *)

Section PartsB.

Import GrammarB.

Lemma runes_nonneg_upto (n : nat) :
  forall s, (List.length s <= n)%nat -> Forall (fun c => 0 <= c) (runes s).
Proof.
  induction n as [|n IH]; intros s H.
  - destruct s; [constructor | cbn in H; lia].
  - destruct s as [|c0 t0]; [constructor|].
    cbn [List.length] in H. cbn [runes].
    pose proof (code_bound c0) as B0.
    assert (R : 0 <= RuneError) by (unfold RuneError; lia).
    assert (T0 : Forall (fun c => 0 <= c) (runes t0)) by (apply IH; lia).
    destruct (code c0 <? 128); [constructor; [lia | exact T0]|].
    destruct (first (code c0)) as [[sz lo] hi].
    destruct (sz =? 0); [constructor; assumption|].
    destruct t0 as [|c1 t1]; [constructor; assumption|].
    cbn [List.length] in H.
    destruct (negb (in_range lo hi (code c1))); [constructor; assumption|].
    destruct (sz =? 2).
    { constructor; [|apply IH; lia].
      apply Z.lor_nonneg. split; [apply Z.shiftl_nonneg|]; apply Z.land_nonneg; lia. }
    destruct t1 as [|c2 t2]; [constructor; assumption|].
    cbn [List.length] in H.
    destruct (negb (cont (code c2))); [constructor; assumption|].
    destruct (sz =? 3).
    { constructor; [|apply IH; lia].
      repeat (apply Z.lor_nonneg; split);
        try apply Z.shiftl_nonneg; apply Z.land_nonneg; lia. }
    destruct t2 as [|c3 t3]; [constructor; assumption|].
    cbn [List.length] in H.
    destruct (negb (cont (code c3))); [constructor; assumption|].
    constructor; [|apply IH; lia].
    repeat (apply Z.lor_nonneg; split);
      try apply Z.shiftl_nonneg; apply Z.land_nonneg; lia.
Qed.

Lemma runes_nonneg (s : bytes) : Forall (fun c => 0 <= c) (runes s).
Proof. apply (runes_nonneg_upto (List.length s)). lia. Qed.

Lemma safe_runes_spec (cs : list Z) :
  forall (t s : bytes),
    Forall (fun c => 0 <= c) cs ->
    (4 <= List.length t)%nat ->
    exists t',
      safe_runes cs t s = Ok (t', s ++ flat_map rune_escape cs)
      /\ List.length t' = List.length t.
Proof.
  induction cs as [|c cs IH]; intros t s Hc Ht; cbn [safe_runes flat_map].
  - exists t. rewrite app_nil_r. split; reflexivity.
  - inversion Hc as [|? ? Hc0 Hcs]; subst.
    unfold rune_escape at 1.
    destruct (c <? 32) eqn:E.
    + destruct t as [|a0 [|a1 [|a2 [|a3 rest]]]]; cbn [List.length] in Ht; try lia.
      rewrite (store_at _ [] (a1 :: a2 :: a3 :: rest) a0 _ 0 eq_refl eq_refl).
      cbn [bind app].
      rewrite (store_at _ ["\"%char] (a2 :: a3 :: rest) a1 _ 1 eq_refl eq_refl).
      cbn [bind app].
      rewrite (twoDigits_at ("\"%char :: "x"%char :: a2 :: a3 :: rest)
                 (B "\x") rest a2 a3 2 c eq_refl eq_refl Hc0).
      cbn [bind].
      rewrite (slice_to_at (B "\x" ++ padded 2 c ++ rest)
                 (B "\x" ++ padded 2 c) rest 4 eq_refl eq_refl).
      cbn [bind].
      destruct (IH (B "\x" ++ padded 2 c ++ rest) (s ++ B "\x" ++ padded 2 c) Hcs)
        as (t' & R & L).
      { cbn [B list_ascii_of_string app List.length padded]. lia. }
      exists t'. rewrite R. split; [rewrite <- app_assoc; reflexivity|].
      rewrite L. reflexivity.
    + destruct (IH t (s ++ [byte c]) Hcs Ht) as (t' & R & L).
      exists t'. rewrite R. split; [rewrite <- app_assoc; reflexivity | exact L].
Qed.

Lemma after_dot_cases (s : bytes) :
  (after_dot s = None /\ ~ In "."%char s)
  \/ exists b1 b2,
      s = b1 ++ "."%char :: b2 /\ ~ In "."%char b1 /\ after_dot s = Some b2.
Proof.
  induction s as [|c s IH]; [left; split; [reflexivity | exact (fun F => F)]|].
  cbn [after_dot]. destruct (Ascii.eqb_spec c "."%char) as [-> | Nc].
  - right. exists [], s. repeat split. exact (fun F => F).
  - destruct IH as [[E N] | (b1 & b2 & -> & N & E)].
    + left. split; [exact E|]. intros [F | F]; [exact (Nc F) | exact (N F)].
    + right. exists (c :: b1), b2. repeat split; [|exact E].
      intros [F | F]; [exact (Nc F) | exact (N F)].
Qed.

Lemma last_dot_S (s : bytes) (slash : nat) (lastDot : Z) :
  last_dot s (S slash) lastDot
  = (c <- index s (Z.of_nat slash) ;;
     if Ascii.eqb c Separator then Ok lastDot
     else if Ascii.eqb c "."%char then last_dot s slash (Z.of_nat slash)
     else last_dot s slash lastDot).
Proof. reflexivity. Qed.

Lemma last_dot_step (pre post : bytes) (c : ascii) (lastDot : Z) :
  last_dot (pre ++ c :: post) (List.length (pre ++ [c])) lastDot
  = if Ascii.eqb c Separator then Ok lastDot
    else if Ascii.eqb c "."%char
         then last_dot (pre ++ c :: post) (List.length pre) (len pre)
         else last_dot (pre ++ c :: post) (List.length pre) lastDot.
Proof.
  rewrite length_app. cbn [List.length]. rewrite Nat.add_1_r, last_dot_S.
  change (Z.of_nat (List.length pre)) with (len pre).
  rewrite index_app_mid. reflexivity.
Qed.

(** Through a stretch with no separator the loop goes on, whatever it
    remembers. *)
Lemma last_dot_through (mid : bytes) :
  forall (pre post : bytes) (lastDot : Z),
    ~ In Separator mid ->
    exists lastDot',
      last_dot (pre ++ mid ++ post) (List.length (pre ++ mid)) lastDot
      = last_dot (pre ++ mid ++ post) (List.length pre) lastDot'.
Proof.
  induction mid as [|c mid IH]; intros pre post lastDot N.
  - exists lastDot. rewrite app_nil_r. reflexivity.
  - assert (Nm : ~ In Separator mid) by (intros F; apply N; right; exact F).
    assert (Nc : Ascii.eqb c Separator = false)
      by (apply Ascii.eqb_neq; intros ->; apply N; left; reflexivity).
    destruct (IH (pre ++ [c]) post lastDot Nm) as (l1 & E).
    replace (pre ++ (c :: mid) ++ post) with ((pre ++ [c]) ++ mid ++ post)
      by (rewrite <- app_assoc; reflexivity).
    replace (pre ++ c :: mid) with ((pre ++ [c]) ++ mid)
      by (rewrite <- app_assoc; reflexivity).
    rewrite E.
    replace ((pre ++ [c]) ++ mid ++ post) with (pre ++ c :: mid ++ post)
      by (rewrite <- app_assoc; reflexivity).
    rewrite last_dot_step, Nc.
    destruct (Ascii.eqb c "."%char); eexists; reflexivity.
Qed.

(** Through a stretch with neither separator nor point the loop keeps what
    it remembers. *)
Lemma last_dot_keeps (mid : bytes) :
  forall (pre post : bytes) (lastDot : Z),
    ~ In Separator mid -> ~ In "."%char mid ->
    last_dot (pre ++ mid ++ post) (List.length (pre ++ mid)) lastDot
    = last_dot (pre ++ mid ++ post) (List.length pre) lastDot.
Proof.
  induction mid as [|c mid IH]; intros pre post lastDot N D.
  - rewrite app_nil_r. reflexivity.
  - assert (Nm : ~ In Separator mid) by (intros F; apply N; right; exact F).
    assert (Dm : ~ In "."%char mid) by (intros F; apply D; right; exact F).
    assert (Nc : Ascii.eqb c Separator = false)
      by (apply Ascii.eqb_neq; intros ->; apply N; left; reflexivity).
    assert (Dc : Ascii.eqb c "."%char = false)
      by (apply Ascii.eqb_neq; intros ->; apply D; left; reflexivity).
    replace (pre ++ (c :: mid) ++ post) with ((pre ++ [c]) ++ mid ++ post)
      by (rewrite <- app_assoc; reflexivity).
    replace (pre ++ c :: mid) with ((pre ++ [c]) ++ mid)
      by (rewrite <- app_assoc; reflexivity).
    rewrite (IH (pre ++ [c]) post lastDot Nm Dm).
    replace ((pre ++ [c]) ++ mid ++ post) with (pre ++ c :: mid ++ post)
      by (rewrite <- app_assoc; reflexivity).
    rewrite last_dot_step, Nc, Dc. reflexivity.
Qed.

(** Where the loop stops, in front of a base name [base] that holds no
    separator: at the start of the identifier, or at the separator before
    the base name. *)
Lemma last_dot_stops (front base : bytes) (lastDot : Z) :
  front = [] \/ (exists dir, front = dir ++ [Separator]) ->
  last_dot (front ++ base) (List.length front) lastDot = Ok lastDot.
Proof.
  intros [-> | (dir & ->)]; [reflexivity|].
  rewrite <- app_assoc. cbn [app].
  rewrite last_dot_step, Ascii.eqb_refl. reflexivity.
Qed.

Lemma base_name_front (file : bytes) :
  exists front,
    file = front ++ base_name file
    /\ ~ In Separator (base_name file)
    /\ (front = [] \/ exists dir, front = dir ++ [Separator]).
Proof.
  destruct (base_name_cases file) as [N | (dir & base & -> & N)].
  - exists []. rewrite base_name_none by exact N. repeat split; [exact N | left; reflexivity].
  - exists (dir ++ [Separator]). rewrite base_name_found by exact N.
    repeat split; [rewrite <- app_assoc; reflexivity | exact N |].
    right. exists dir. reflexivity.
Qed.

(** The loop of the function verb and the slice after it. *)
Lemma function_name_spec (fun_ : bytes) :
  function_name fun_ = Ok (function_of fun_).
Proof.
  unfold function_name, function_of.
  destruct (base_name_front fun_) as (front & E & N & F).
  destruct (after_dot_cases (base_name fun_))
    as [[A D] | (b1 & b2 & Eb & D & A)]; rewrite A; clear A;
    remember (base_name fun_) as base eqn:Hb; clear Hb; subst fun_.
  - pose proof (last_dot_keeps base front [] (-1) N D) as K.
    rewrite app_nil_r in K. rewrite K, (last_dot_stops front _ _ F).
    cbn [bind]. apply (slice_from_app [] (front ++ base)).
  - subst base.
    assert (N1 : ~ In Separator b1)
      by (intros I; apply N, in_or_app; left; exact I).
    assert (N2 : ~ In Separator b2)
      by (intros I; apply N, in_or_app; right; right; exact I).
    destruct (last_dot_through b2 (front ++ b1 ++ ["."%char]) [] (-1) N2) as (l1 & T).
    rewrite app_nil_r in T.
    replace (front ++ b1 ++ "."%char :: b2)
      with ((front ++ b1 ++ ["."%char]) ++ b2)
      by (rewrite <- !app_assoc; reflexivity).
    rewrite T.
    replace ((front ++ b1 ++ ["."%char]) ++ b2)
      with ((front ++ b1) ++ "."%char :: b2)
      by (rewrite <- !app_assoc; reflexivity).
    replace (front ++ b1 ++ ["."%char]) with ((front ++ b1) ++ ["."%char])
      by (rewrite <- !app_assoc; reflexivity).
    rewrite last_dot_step.
    replace (Ascii.eqb "."%char Separator) with false by reflexivity.
    rewrite Ascii.eqb_refl.
    replace ((front ++ b1) ++ "."%char :: b2)
      with (front ++ b1 ++ "."%char :: b2)
      by (rewrite <- !app_assoc; reflexivity).
    rewrite (last_dot_keeps b1 front ("."%char :: b2) (len (front ++ b1)) N1 D).
    pose proof (last_dot_stops front (b1 ++ "."%char :: b2) (len (front ++ b1)) F) as S.
    rewrite S. cbn [bind].
    replace (front ++ b1 ++ "."%char :: b2)
      with (((front ++ b1) ++ ["."%char]) ++ b2)
      by (rewrite <- !app_assoc; reflexivity).
    replace (len (front ++ b1) + 1) with (len ((front ++ b1) ++ ["."%char]))
      by (rewrite (len_app (front ++ b1)), len_cons; reflexivity).
    apply slice_from_app.
Qed.

Lemma short_file_specB (p : fmtVerb) (context : LogContext) :
  p = vFile \/ p = vShortFile ->
  short_file p (File context) = show_verbB p context.
Proof.
  intros Hp. unfold short_file, show_verbB, file_or_placeholder.
  destruct (File context) as [|c file] eqn:E.
  - destruct Hp as [-> | ->]; reflexivity.
  - replace (len (c :: file) =? 0) with false by reflexivity.
    pose proof (base_name_loop (c :: file)) as L.
    destruct (last_separator (c :: file) (List.length (c :: file))) as [slash| |];
      cbn [bind] in L |- *; try discriminate L.
    rewrite L. cbn [bind]. destruct Hp as [-> | ->]; reflexivity.
Qed.

(** A verb part of Grammar B appends what the verb renders and leaves a
    scratch buffer of the same size. *)
Lemma format_part_verbB (f : StdFormatter) (context : LogContext) (st : render)
      (p : fmtVerb) :
  numbers_okB context ->
  List.length (tmp_ st) = 64%nat ->
  p <> vSTRING ->
  exists t' s',
    List.length t' = 64%nat
    /\ format_part f context st p
       = (o <- show_verbB p context ;;
          Ok (mkRender (buf st ++ o) (stringi st) t' s')).
Proof.
  intros (Hn & Hu & Hun) Ht Hp. unfold numbers_ok in Hn.
  destruct st as [out i t s]. cbn [tmp_ buf stringi stmp_] in *.
  destruct p; try (contradiction Hp; reflexivity);
    unfold format_part, show_verbB, show_date, show_clock;
    cbn [tmp_ buf stringi stmp_];
    try (exists t, s; split; [exact Ht|];
         try reflexivity;
         match goal with
         | |- context [index ?l ?s] => destruct (index l s); reflexivity
         end).
  - (* vDate *)
    destruct (Date (Time_ context)) as [[year month] day].
    destruct (Clock (Time_ context)) as [[hour min] sec].
    destruct Hn as (Hy & Hm & Hd & _).
    destruct (scratch_split t Ht)
      as (a0 & a1 & a2 & a3 & a4 & a5 & a6 & a7 & a8 & a9 & a10 & a11 & a12
          & a13 & a14 & rest & -> & Hr).
    n_step 4%nat Hy. store_step. two_step Hm. store_step. two_step Hd.
    slice_step 10%nat.
    eexists. exists s. split; [|reflexivity]. cbn [List.length]. lia.
  - (* vTime *)
    destruct (Date (Time_ context)) as [[year month] day].
    destruct (Clock (Time_ context)) as [[hour min] sec].
    destruct Hn as (_ & _ & _ & Hh & Hm & Hs & _).
    destruct (scratch_split t Ht)
      as (a0 & a1 & a2 & a3 & a4 & a5 & a6 & a7 & a8 & a9 & a10 & a11 & a12
          & a13 & a14 & rest & -> & Hr).
    two_step Hh. store_step. two_step Hm. store_step. two_step Hs.
    slice_step 8%nat.
    eexists. exists s. split; [|reflexivity]. cbn [List.length]. lia.
  - (* vUnix *)
    destruct (line_part t (Unix (Time_ context)) Ht Hu) as (t' & Lt & I & S).
    exists t', s. split; [exact Lt|].
    unfold i64toa. rewrite I. cbn [bind]. rewrite S. reflexivity.
  - (* vUnixNano *)
    destruct (line_part t (UnixNano (Time_ context)) Ht Hun) as (t' & Lt & I & S).
    exists t', s. split; [exact Lt|].
    unfold i64toa. rewrite I. cbn [bind]. rewrite S. reflexivity.
  - (* vFile *)
    exists t, s. split; [exact Ht|].
    rewrite (short_file_specB vFile context) by (left; reflexivity).
    reflexivity.
  - (* vShortFile *)
    exists t, s. split; [exact Ht|].
    rewrite (short_file_specB vShortFile context) by (right; reflexivity).
    reflexivity.
  - (* vLine *)
    destruct (Date (Time_ context)) as [[year month] day].
    destruct (Clock (Time_ context)) as [[hour min] sec].
    destruct Hn as (_ & _ & _ & _ & _ & _ & _ & Hl).
    destruct (line_part t (Line context) Ht Hl) as (t' & Lt & I & S).
    exists t', s. split; [exact Lt|].
    rewrite I. cbn [bind]. rewrite S. reflexivity.
  - (* vPkgFunction *)
    exists t, s. split; [exact Ht|].
    unfold pkg_function. rewrite base_name_loop. reflexivity.
  - (* vFunction *)
    exists t, s. split; [exact Ht|].
    rewrite function_name_spec. reflexivity.
  - (* vColor *)
    exists t, s. split; [exact Ht|]. cbn [bind]. rewrite app_nil_r. reflexivity.
  - (* vSafeMessage *)
    destruct (safe_runes_spec (runes (Message context)) t []
                              (runes_nonneg (Message context)))
      as (t' & R & L); [lia|].
    exists t'. eexists. split; [lia|].
    rewrite R. reflexivity.
Qed.

End PartsB.

(** ** Grammar B: the compiled format against a direct reading *)

Lemma fmtVerb_is_stringB (p : GrammarB.fmtVerb) :
  p = GrammarB.vSTRING \/ p <> GrammarB.vSTRING.
Proof. destruct p; (left; reflexivity) || (right; discriminate). Qed.

Section DenotationB.

Import GrammarB Regexp.

Variable ColorCode : bytes -> bytes.

Variable context : LogContext.

Hypothesis numbers : numbers_okB context.

Lemma assembleB_verb (p : fmtVerb) (ps : list fmtVerb) (ss : list bytes) :
  p <> vSTRING ->
  assembleB context (p :: ps) ss
  = (o <- show_verbB p context ;; r <- assembleB context ps ss ;; Ok (o ++ r)).
Proof. intros Hp. destruct p; try reflexivity. contradiction Hp. reflexivity. Qed.

Lemma format_parts_assembleB (f : StdFormatter) (ps : list fmtVerb) :
  forall (done ss : list bytes) (out t s : bytes),
    strings f = done ++ ss ->
    List.length t = 64%nat ->
    (r <- format_parts f context ps (mkRender out (len done) t s) ;; Ok (buf r))
    = (o <- assembleB context ps ss ;; Ok (out ++ o)).
Proof.
  induction ps as [|p ps IH]; intros done ss out t s Hs Ht;
    cbn [format_parts bind buf].
  - cbn [assembleB bind]. rewrite app_nil_r. reflexivity.
  - destruct (fmtVerb_is_stringB p) as [-> | Hp].
    + cbn [format_part buf stringi tmp_ stmp_ assembleB]. rewrite Hs.
      destruct ss as [|s0 ss].
      * rewrite index_app_end. reflexivity.
      * rewrite index_app_mid. cbn [bind].
        replace (len done + 1) with (len (done ++ [s0]))
          by (rewrite len_app, len_cons; reflexivity).
        rewrite (IH (done ++ [s0]) ss (out ++ s0) t s)
          by (try exact Ht; rewrite Hs, <- app_assoc; reflexivity).
        destruct (assembleB context ps ss); cbn [bind]; try reflexivity.
        rewrite app_assoc. reflexivity.
    + destruct (format_part_verbB f context (mkRender out (len done) t s) p
                                  numbers Ht Hp) as (t' & s' & Lt & ->).
      cbn [buf stringi].
      rewrite assembleB_verb by exact Hp.
      destruct (show_verbB p context) as [o| |]; cbn [bind]; try reflexivity.
      rewrite (IH done ss (out ++ o) t' s' Hs Lt).
      destruct (assembleB context ps ss); cbn [bind]; try reflexivity.
      rewrite <- app_assoc. reflexivity.
Qed.

Lemma literalsB_snoc (ps : list fmtVerb) (v : fmtVerb) :
  literalsB (ps ++ [v])
  = (literalsB ps + match v with vSTRING => 1 | _ => 0 end)%nat.
Proof.
  induction ps as [|p ps IH]; [destruct v; reflexivity|].
  cbn [app]. destruct p; cbn [literalsB]; rewrite IH; reflexivity.
Qed.

Lemma assembleB_snoc_string (ps : list fmtVerb) :
  forall (ss : list bytes) (s : bytes),
    literalsB ps = List.length ss ->
    assembleB context (ps ++ [vSTRING]) (ss ++ [s])
    = (o <- assembleB context ps ss ;; Ok (o ++ s)).
Proof.
  induction ps as [|p ps IH]; intros ss s H.
  - destruct ss; [|discriminate H]. cbn. rewrite app_nil_r. reflexivity.
  - destruct (fmtVerb_is_stringB p) as [-> | Hp].
    + destruct ss as [|s0 ss]; [discriminate H|].
      cbn [app assembleB]. rewrite IH by (cbn in H; lia).
      destruct (assembleB context ps ss); cbn [bind]; try reflexivity.
      rewrite app_assoc. reflexivity.
    + cbn [app]. rewrite !assembleB_verb by exact Hp.
      rewrite IH by (destruct p; try exact H; contradiction Hp; reflexivity).
      destruct (show_verbB p context); cbn [bind]; try reflexivity.
      destruct (assembleB context ps ss); cbn [bind]; try reflexivity.
      rewrite app_assoc. reflexivity.
Qed.

Lemma assembleB_snoc_verb (ps : list fmtVerb) (v : fmtVerb) :
  forall (ss : list bytes),
    v <> vSTRING ->
    literalsB ps = List.length ss ->
    assembleB context (ps ++ [v]) ss
    = (o <- assembleB context ps ss ;; s <- show_verbB v context ;; Ok (o ++ s)).
Proof.
  intros ss Hv. revert ss.
  induction ps as [|p ps IH]; intros ss H.
  - destruct ss; [|discriminate H]. cbn [app].
    rewrite assembleB_verb by exact Hv.
    cbn [assembleB bind].
    destruct (show_verbB v context); cbn [bind]; try reflexivity.
    rewrite app_nil_r. reflexivity.
  - destruct (fmtVerb_is_stringB p) as [-> | Hp].
    + destruct ss as [|s0 ss]; [discriminate H|].
      cbn [app assembleB]. rewrite IH by (cbn in H; lia).
      destruct (assembleB context ps ss); cbn [bind]; try reflexivity.
      destruct (show_verbB v context); cbn [bind]; try reflexivity.
      rewrite app_assoc. reflexivity.
    + cbn [app]. rewrite !assembleB_verb by exact Hp.
      rewrite IH by (destruct p; try exact H; contradiction Hp; reflexivity).
      destruct (show_verbB p context); cbn [bind]; try reflexivity.
      destruct (assembleB context ps ss); cbn [bind]; try reflexivity.
      destruct (show_verbB v context); cbn [bind]; try reflexivity.
      rewrite app_assoc. reflexivity.
Qed.

(** What a formatter under construction stands for. *)
Lemma appendString_output (f : StdFormatter) (s : bytes) :
  segments_okB f ->
  segments_okB (appendString f s)
  /\ assembleB context (parts (appendString f s)) (strings (appendString f s))
     = (o <- assembleB context (parts f) (strings f) ;; Ok (o ++ s)).
Proof.
  intros (H1 & H2 & H3). unfold appendString.
  destruct (0 <? len s) eqn:Hs.
  - cbn [parts strings]. split.
    + repeat split; cbn [parts strings tmp]; [| |exact H3].
      * rewrite literalsB_snoc, H1, length_app. reflexivity.
      * apply Forall_app. split; [exact H2|].
        apply Forall_cons; [|apply Forall_nil]. apply len_pos_not_nil, Hs.
    + apply assembleB_snoc_string, H1.
  - split; [repeat split; assumption|].
    apply len_zero_nil in Hs. subst s.
    destruct (assembleB context _ _); cbn [bind]; try reflexivity.
    rewrite app_nil_r. reflexivity.
Qed.

Lemma add_verb_output (f : StdFormatter) (v : fmtVerb) :
  v <> vSTRING ->
  segments_okB f ->
  segments_okB (add_verb f v)
  /\ assembleB context (parts (add_verb f v)) (strings (add_verb f v))
     = (o <- assembleB context (parts f) (strings f) ;;
        s <- show_verbB v context ;; Ok (o ++ s)).
Proof.
  intros Hv (H1 & H2 & H3). split.
  - repeat split; cbn [add_verb parts strings tmp]; [|exact H2 | exact H3].
    rewrite literalsB_snoc, H1. destruct v; try lia. contradiction Hv. reflexivity.
  - apply assembleB_snoc_verb; assumption.
Qed.

(** One token of the template: the formatter stays well formed, and what
    it stands for grows by the text before the token and by what the token
    contributes. *)
Lemma compile_match_output (frmt : bytes) (f : StdFormatter) (prev : nat)
      (m : submatch) :
  segments_okB f ->
  segments_okB (fst (compile_match ColorCode frmt (f, prev) m))
  /\ snd (compile_match ColorCode frmt (f, prev) m) = m_end m
  /\ (let f' := fst (compile_match ColorCode frmt (f, prev) m) in
      assembleB context (parts f') (strings f'))
     = (d <- assembleB context (parts f) (strings f) ;;
        p <- token_piece ColorCode frmt context m ;;
        Ok (d ++ substr frmt prev (m_start m) ++ p)).
Proof.
  intros Hok. unfold compile_match, token_piece, verb_piece. cbn [fst snd]. cbv zeta.
  set (verb := match m_group1 m with Some (a, b) => substr frmt a b | None => [] end).
  set (layout := match m_group2 m with Some (a, b) => substr frmt a b | None => [] end).
  set (gap := substr frmt prev (m_start m)).
  assert (G : exists f1,
             (if (prev <? m_start m)%nat then appendString f gap else f) = f1
             /\ segments_okB f1
             /\ assembleB context (parts f1) (strings f1)
                = (o <- assembleB context (parts f) (strings f) ;; Ok (o ++ gap))).
  { destruct (prev <? m_start m)%nat eqn:E.
    - eexists. split; [reflexivity|]. apply appendString_output, Hok.
    - exists f. split; [reflexivity|]. split; [exact Hok|].
      apply Nat.ltb_ge in E.
      replace gap with (@nil ascii)
        by (unfold gap, substr; replace (m_start m - prev)%nat with 0%nat by lia;
            reflexivity).
      destruct (assembleB context _ _); cbn [bind]; try reflexivity.
      rewrite app_nil_r. reflexivity. }
  destruct G as (f1 & -> & Hok1 & E1).
  destruct (verbMap verb) as [v|] eqn:Ev.
  - assert (Hv : v <> vSTRING)
      by (intros ->; exact (verbMap_not_string verb Ev)).
    assert (K : v = vColor \/ v <> vColor)
      by (destruct v; (left; reflexivity) || (right; discriminate)).
    destruct K as [-> | Hc].
    + destruct (Go.eqb layout (B "reset")).
      * destruct (appendString_output f1 Reset Hok1) as [K1 K2].
        split; [exact K1|]. split; [reflexivity|].
        rewrite K2, E1. destruct (assembleB context (parts f) (strings f)); cbn [bind]; try reflexivity.
        rewrite <- app_assoc. reflexivity.
      * destruct (appendString_output f1 (ColorCode layout) Hok1) as [K1 K2].
        split; [exact K1|]. split; [reflexivity|].
        rewrite K2, E1. destruct (assembleB context (parts f) (strings f)); cbn [bind]; try reflexivity.
        rewrite <- app_assoc. reflexivity.
    + destruct (add_verb_output f1 v Hv Hok1) as [K1 K2].
      replace (match v with vColor => _ | _ => add_verb f1 v end)
        with (add_verb f1 v)
        by (destruct v; try reflexivity; contradiction Hc; reflexivity).
      replace (match v with vColor => _ | _ => show_verbB v context end)
        with (show_verbB v context)
        by (destruct v; try reflexivity; contradiction Hc; reflexivity).
      split; [exact K1|]. split; [reflexivity|].
      rewrite K2, E1. destruct (assembleB context (parts f) (strings f)); cbn [bind]; try reflexivity.
      destruct (show_verbB v context); cbn [bind]; try reflexivity.
      rewrite <- app_assoc. reflexivity.
  - split; [exact Hok1|]. split; [reflexivity|].
    rewrite E1. destruct (assembleB context (parts f) (strings f)); cbn [bind]; try reflexivity.
    rewrite app_nil_r. reflexivity.
Qed.

Lemma compile_matches_output (frmt : bytes) (ms : list submatch) :
  forall (f : StdFormatter) (prev : nat),
    segments_okB f ->
    let st := fold_left (compile_match ColorCode frmt) ms (f, prev) in
    segments_okB (fst st)
    /\ (d <- assembleB context (parts (fst st)) (strings (fst st)) ;;
        Ok (d ++ skipn (snd st) frmt))
       = (d <- assembleB context (parts f) (strings f) ;;
          r <- interpretB ColorCode frmt context ms prev ;; Ok (d ++ r)).
Proof.
  induction ms as [|m ms IH]; intros f prev Hok; cbv zeta;
    cbn [fold_left interpretB fst snd].
  - split; [exact Hok|].
    destruct (assembleB context _ _); reflexivity.
  - destruct (compile_match_output frmt f prev m Hok) as (K1 & K2 & K3).
    destruct (compile_match ColorCode frmt (f, prev) m) as [f1 prev1].
    cbn [fst snd] in K1, K2, K3. cbv zeta in K3. subst prev1.
    destruct (IH f1 (m_end m) K1) as [J1 J2]. cbv zeta in J1, J2.
    split; [exact J1|].
    rewrite J2, K3. clear J2 K3.
    destruct (assembleB context (parts f) (strings f)); cbn [bind]; try reflexivity.
    destruct (token_piece ColorCode frmt context m); cbn [bind]; try reflexivity.
    destruct (interpretB ColorCode frmt context ms (m_end m)); cbn [bind];
      try reflexivity.
    rewrite <- !app_assoc. reflexivity.
Qed.

(** The formatter the compiler returns, and what it stands for. *)
Lemma NewStdFormatter_output (frmt : bytes) :
  segments_okB (NewStdFormatter ColorCode frmt)
  /\ assembleB context (parts (NewStdFormatter ColorCode frmt))
               (strings (NewStdFormatter ColorCode frmt))
     = interpretB ColorCode frmt context
                  (FindAllStringSubmatchIndex formatRe frmt) 0.
Proof.
  unfold NewStdFormatter.
  set (f0 := mkStdFormatter frmt [] [] (repeat zero 64) [] 0).
  assert (H0 : segments_okB f0) by (repeat split; constructor).
  destruct (compile_matches_output frmt (FindAllStringSubmatchIndex formatRe frmt)
                                   f0 0%nat H0) as [K1 K2].
  cbv zeta in K1, K2.
  destruct (fold_left _ _ _) as [f prev]. cbn [fst snd] in K1, K2.
  change (assembleB context (parts f0) (strings f0)) with (Ok (@nil ascii)) in K2.
  cbn [bind app] in K2. rewrite bind_ok in K2. rewrite <- K2.
  rewrite eqb_nil.
  destruct (skipn prev frmt) as [|c rest] eqn:E; cbn [negb].
  - split; [exact K1|].
    destruct (assembleB context _ _); cbn [bind]; try reflexivity.
    rewrite app_nil_r. reflexivity.
  - apply appendString_output, K1.
Qed.

Lemma accumulate_interpretB (frmt : bytes) :
  accumulate (NewStdFormatter ColorCode frmt) context
  = interpretB ColorCode frmt context
               (FindAllStringSubmatchIndex formatRe frmt) 0.
Proof.
  destruct (NewStdFormatter_output frmt) as [(H1 & H2 & H3) E].
  rewrite <- E. unfold accumulate.
  rewrite (format_parts_assembleB (NewStdFormatter ColorCode frmt) _ []
             (strings (NewStdFormatter ColorCode frmt)) [] _ _ eq_refl H3).
  destruct (assembleB context _ _); reflexivity.
Qed.

End DenotationB.

Section ReadingB.

Import GrammarB Regexp.

Variable ColorCode : bytes -> bytes.

Lemma show_verbB_ok (context : LogContext) (v : fmtVerb) :
  0 <= Severity_ context <= 9 ->
  File context = [] \/ (3 <= List.length (base_name (File context)))%nat ->
  exists o, show_verbB v context = Ok o.
Proof.
  intros Hs Hf. destruct v; cbn [show_verbB]; try (eexists; reflexivity);
    try (apply index_in_range;
         match goal with |- _ <= _ < len ?t => change (len t) with 10 end; lia).
  unfold file_or_placeholder.
  destruct (File context) as [|c file] eqn:E; [eexists; reflexivity|].
  destruct Hf as [Hf | Hf]; [discriminate Hf|].
  unfold slice_to.
  replace ((0 <=? len (base_name (c :: file)) - 3)
           && (len (base_name (c :: file)) - 3 <=? len (base_name (c :: file))))
    with true
    by (symmetry; apply andb_true_iff; split; apply Z.leb_le; unfold len; lia).
  eexists. reflexivity.
Qed.

Lemma interpretB_ok (frmt : bytes) (context : LogContext) (ms : list submatch) :
  0 <= Severity_ context <= 9 ->
  File context = [] \/ (3 <= List.length (base_name (File context)))%nat ->
  forall prev, exists o, interpretB ColorCode frmt context ms prev = Ok o.
Proof.
  intros Hs Hf. induction ms as [|m ms IH]; intros prev; cbn [interpretB].
  - eexists. reflexivity.
  - assert (P : exists p, token_piece ColorCode frmt context m = Ok p).
    { unfold token_piece, verb_piece. destruct (verbMap _) as [v|]; [|eexists; reflexivity].
      destruct (show_verbB_ok context v Hs Hf) as [o E].
      destruct v; try (exists o; exact E); eexists; reflexivity. }
    destruct P as [p ->]. destruct (IH (m_end m)) as [r ->].
    eexists. reflexivity.
Qed.

Lemma format_part_locationB (f : StdFormatter) (c1 c2 : LogContext)
      (st : render) (p : fmtVerb) :
  same_but_locationB c1 c2 -> needs_callerB p = false ->
  format_part f c1 st p = format_part f c2 st p.
Proof.
  intros (Ht & Hs & Hm) Hp.
  destruct p; try discriminate Hp; cbn [format_part];
    rewrite ?Ht, ?Hs, ?Hm; reflexivity.
Qed.

Lemma format_parts_locationB (f : StdFormatter) (c1 c2 : LogContext)
      (ps : list fmtVerb) :
  same_but_locationB c1 c2 -> existsb needs_callerB ps = false ->
  forall st, format_parts f c1 ps st = format_parts f c2 ps st.
Proof.
  intros H. induction ps as [|p ps IH]; intros Hp st; [reflexivity|].
  cbn [existsb] in Hp. apply orb_false_iff in Hp. destruct Hp as [Hp Hps].
  cbn [format_parts]. rewrite (format_part_locationB f c1 c2 st p H Hp).
  destruct (format_part f c2 st p); cbn [bind]; try reflexivity.
  apply IH, Hps.
Qed.

(** A template that is one verb renders what the verb renders. *)
Lemma single_verb (f : StdFormatter) (context : LogContext) (v : fmtVerb) :
  numbers_okB context ->
  v <> vSTRING ->
  parts f = [v] -> List.length (tmp f) = 64%nat ->
  accumulate f context = show_verbB v context.
Proof.
  intros Hn Hv Hp Ht. unfold accumulate. rewrite Hp. cbn [format_parts].
  destruct (format_part_verbB f context (mkRender [] 0 (tmp f) (stmp f)) v
                              Hn Ht Hv) as (t' & s' & _ & ->).
  destruct (show_verbB v context); reflexivity.
Qed.

End ReadingB.

Ltac numbers_of c :=
  cbv [numbers_okB numbers_ok c recordB fmtTestsTime GrammarB.Time_ GrammarB.Line
       GrammarA.Time_ GrammarA.Line Date Clock Nanosecond Unix UnixNano];
  repeat split; try discriminate; reflexivity.

Ltac compile_template :=
  repeat match goal with
         | |- context [GrammarB.NewStdFormatter ?cc (B ?s)] =>
           let f := constr:(GrammarB.NewStdFormatter cc (B s)) in
           let f' := eval vm_compute in f in change f with f'
         end.

Ltac one_verb c H :=
  repeat match goal with
         | |- context [GrammarB.accumulate ?f c] =>
           let ps := eval cbn [GrammarB.parts] in (GrammarB.parts f) in
           match ps with
           | [?v] =>
             rewrite (single_verb f c v H ltac:(discriminate) eq_refl eq_refl)
           end
         end.

Lemma logTestContext_numbers : numbers_okB logTestContext.
Proof. numbers_of logTestContext. Qed.

Lemma no_separator_in (s : bytes) :
  existsb (Ascii.eqb Separator) s = false -> ~ In Separator s.
Proof.
  intros E I. apply existsb_separator in I. rewrite I in E. discriminate E.
Qed.

(** X14. Grammar B never fails on a sound record.  For every template, a
    record whose numbers the writers can take, whose severity is one of
    NONE..PANIC and whose file name is empty or has a base name of at
    least three bytes is rendered without a panic, and the loops of the
    encoder never run out; the output is empty or ends in a line feed. *)
Theorem Format_totalB (ColorCode : bytes -> bytes) (frmt : bytes)
        (context : GrammarB.LogContext) :
  numbers_okB context ->
  NONE <= GrammarB.Severity_ context <= PANIC ->
  GrammarB.File context = []
  \/ (3 <= List.length (base_name (GrammarB.File context)))%nat ->
  exists out,
    GrammarB.Format (GrammarB.NewStdFormatter ColorCode frmt) context = Ok out
    /\ (out = [] \/ exists line, out = line ++ [newline]).
Proof.
  intros Hn Hs Hf. unfold GrammarB.Format.
  rewrite (accumulate_interpretB ColorCode context Hn).
  destruct (interpretB_ok ColorCode frmt context
              (Regexp.FindAllStringSubmatchIndex GrammarB.formatRe frmt) Hs Hf 0%nat)
    as [o ->].
  cbn [bind].
  destruct (terminate_spec o) as (out & T & T1 & T2 & T3).
  exists out. split; [exact T|].
  destruct (nil_or_last o) as [-> | (pre & c & ->)].
  - left. apply T3. reflexivity.
  - right. destruct (Ascii.eqb_spec c newline) as [-> | N].
    + exists pre. apply (T2 pre). reflexivity.
    + exists (pre ++ [c]). apply (T1 pre c); [reflexivity | exact N].
Qed.

Lemma Format_totalB_witness :
  (numbers_okB logTestContext
   /\ NONE <= GrammarB.Severity_ logTestContext <= PANIC
   /\ (GrammarB.File logTestContext = []
       \/ (3 <= List.length (base_name (GrammarB.File logTestContext)))%nat))
  /\ exists out,
      GrammarB.Format
        (GrammarB.NewStdFormatter (fun _ => [])
                                  (B "%{Unix} %{ShortFile}:%{Line} %{Function}"))
        logTestContext = Ok out
      /\ (out = [] \/ exists line, out = line ++ [newline]).
Proof.
  assert (S : NONE <= GrammarB.Severity_ logTestContext <= PANIC)
    by (split; discriminate).
  assert (F : GrammarB.File logTestContext = []
              \/ (3 <= List.length (base_name (GrammarB.File logTestContext)))%nat).
  { right. vm_compute. repeat constructor. }
  split; [split; [exact logTestContext_numbers | split; [exact S | exact F]]|].
  apply (Format_totalB (fun _ => []) (B "%{Unix} %{ShortFile}:%{Line} %{Function}")
                       logTestContext logTestContext_numbers S F).
Defined.

(** X15. Grammar B, the location is read only when asked for.  When
    [ShouldRuntimeCaller] of a compiled format is false, its rendering
    does not depend on the file, line or function of the record: two
    records that agree on time, severity and message render alike. *)
Theorem location_unusedB (ColorCode : bytes -> bytes) (frmt : bytes)
        (c1 c2 : GrammarB.LogContext) :
  GrammarB.ShouldRuntimeCaller (GrammarB.NewStdFormatter ColorCode frmt) = false ->
  same_but_locationB c1 c2 ->
  GrammarB.Format (GrammarB.NewStdFormatter ColorCode frmt) c1
  = GrammarB.Format (GrammarB.NewStdFormatter ColorCode frmt) c2.
Proof.
  intros Hc Hd. rewrite ShouldRuntimeCaller_B in Hc.
  unfold GrammarB.Format, GrammarB.accumulate.
  rewrite (format_parts_locationB _ c1 c2 _ Hd Hc). reflexivity.
Qed.

Lemma location_unusedB_witness :
  (GrammarB.ShouldRuntimeCaller
     (GrammarB.NewStdFormatter (fun _ => []) (B "%{Date} %{Time} [%{S}] %{Message}"))
   = false
   /\ same_but_locationB logTestContext
                         (recordB ERROR (B "elsewhere.go") (B "hello there!")))
  /\ GrammarB.Format
       (GrammarB.NewStdFormatter (fun _ => []) (B "%{Date} %{Time} [%{S}] %{Message}"))
       logTestContext
     = GrammarB.Format
         (GrammarB.NewStdFormatter (fun _ => []) (B "%{Date} %{Time} [%{S}] %{Message}"))
         (recordB ERROR (B "elsewhere.go") (B "hello there!")).
Proof.
  assert (S : same_but_locationB logTestContext
                (recordB ERROR (B "elsewhere.go") (B "hello there!")))
    by (repeat split).
  split; [split; [reflexivity | exact S]|].
  apply (location_unusedB (fun _ => []) (B "%{Date} %{Time} [%{S}] %{Message}")
                          logTestContext
                          (recordB ERROR (B "elsewhere.go") (B "hello there!"))
                          eq_refl S).
Defined.

(** X16. Grammar B, the function verbs.  [%{FullFunction}] renders the
    identifier as it is and [%{PkgFunction}] what follows its last
    separator (the whole identifier when there is none).  [%{Function}]
    renders what follows the first point after the last separator; when no
    point follows the last separator it renders the whole identifier, its
    path included. *)
Theorem function_verbs (ColorCode : bytes -> bytes)
        (context : GrammarB.LogContext) (dir base : bytes) :
  numbers_okB context ->
  ~ In Separator base ->
  (GrammarB.Function context = dir ++ Separator :: base
   \/ GrammarB.Function context = base) ->
  GrammarB.accumulate (GrammarB.NewStdFormatter ColorCode (B "%{FullFunction}"))
                      context
  = Ok (GrammarB.Function context)
  /\ GrammarB.accumulate (GrammarB.NewStdFormatter ColorCode (B "%{PkgFunction}"))
                         context
     = Ok base
  /\ (forall pkg name,
         base = pkg ++ "."%char :: name -> ~ In "."%char pkg ->
         GrammarB.accumulate (GrammarB.NewStdFormatter ColorCode (B "%{Function}"))
                             context
         = Ok name)
  /\ (~ In "."%char base ->
      GrammarB.accumulate (GrammarB.NewStdFormatter ColorCode (B "%{Function}"))
                          context
      = Ok (GrammarB.Function context)).
Proof.
  intros Hn N F.
  assert (Eb : base_name (GrammarB.Function context) = base).
  { destruct F as [-> | ->]; [apply base_name_found, N | apply base_name_none, N]. }
  compile_template.
  one_verb (context) Hn.
  cbn [show_verbB]. unfold function_of. rewrite Eb.
  repeat split.
  - intros pkg name -> D.
    destruct (after_dot_cases (pkg ++ "."%char :: name))
      as [[_ A] | (b1 & b2 & E & D1 & ->)].
    + contradiction A. apply in_or_app. right. left. reflexivity.
    + f_equal. symmetry.
      assert (K : forall (p1 p2 n1 n2 : bytes),
                 p1 ++ "."%char :: n1 = p2 ++ "."%char :: n2 ->
                 ~ In "."%char p1 -> ~ In "."%char p2 -> n1 = n2).
      { induction p1 as [|c p1 IH]; intros p2 n1 n2 H D1' D2'.
        - destruct p2 as [|c2 p2]; [injection H as H; exact H|].
          injection H as H1 H2. contradiction D2'. left. symmetry. exact H1.
        - destruct p2 as [|c2 p2].
          + injection H as H1 H2. contradiction D1'. left. exact H1.
          + injection H as H1 H2. apply (IH p2 n1 n2 H2).
            * intros I. apply D1'. right. exact I.
            * intros I. apply D2'. right. exact I. }
      apply (K pkg b1 name b2 E D D1).
  - intros D.
    destruct (after_dot_cases base) as [[-> _] | (b1 & b2 & -> & _ & _)];
      [reflexivity|].
    contradiction D. apply in_or_app. right. left. reflexivity.
Qed.

Lemma function_verbs_witness :
  (numbers_okB logTestContext
   /\ ~ In Separator (B "factorlog.TestLog")
   /\ (GrammarB.Function logTestContext
       = B "github.com/kdar" ++ Separator :: B "factorlog.TestLog"
       \/ GrammarB.Function logTestContext = B "factorlog.TestLog"))
  /\ GrammarB.accumulate
       (GrammarB.NewStdFormatter (fun _ => []) (B "%{FullFunction}")) logTestContext
     = Ok (GrammarB.Function logTestContext)
  /\ GrammarB.accumulate
       (GrammarB.NewStdFormatter (fun _ => []) (B "%{PkgFunction}")) logTestContext
     = Ok (B "factorlog.TestLog")
  /\ (forall pkg name,
         B "factorlog.TestLog" = pkg ++ "."%char :: name -> ~ In "."%char pkg ->
         GrammarB.accumulate
           (GrammarB.NewStdFormatter (fun _ => []) (B "%{Function}")) logTestContext
         = Ok name)
  /\ (~ In "."%char (B "factorlog.TestLog") ->
      GrammarB.accumulate
        (GrammarB.NewStdFormatter (fun _ => []) (B "%{Function}")) logTestContext
      = Ok (GrammarB.Function logTestContext)).
Proof.
  assert (N : ~ In Separator (B "factorlog.TestLog"))
    by (apply no_separator_in; reflexivity).
  split; [split; [exact logTestContext_numbers
                 | split; [exact N | left; reflexivity]]|].
  apply (function_verbs (fun _ => []) logTestContext (B "github.com/kdar")
                        (B "factorlog.TestLog") logTestContext_numbers N).
  left. reflexivity.
Defined.

(** X17. Grammar B, the file verbs.  [%{FullFile}] renders the file name
    as it is.  For a non-empty file name [%{File}] renders its base name,
    what follows the last separator (the whole name when there is none),
    and [%{ShortFile}] renders the base name without its last three bytes,
    whatever they are.  For an empty file name [%{File}] renders the
    placeholder [???] and [%{ShortFile}] renders nothing: here the
    placeholder is cut like a name. *)
Theorem file_verbsB (ColorCode : bytes -> bytes)
        (context context0 : GrammarB.LogContext) (dir base : bytes) :
  numbers_okB context -> numbers_okB context0 ->
  ~ In Separator base ->
  (GrammarB.File context = dir ++ Separator :: base
   \/ GrammarB.File context = base /\ base <> []) ->
  GrammarB.File context0 = [] ->
  GrammarB.accumulate (GrammarB.NewStdFormatter ColorCode (B "%{FullFile}")) context
  = Ok (GrammarB.File context)
  /\ GrammarB.accumulate (GrammarB.NewStdFormatter ColorCode (B "%{File}")) context
     = Ok base
  /\ (forall stem ext,
         base = stem ++ ext -> List.length ext = 3%nat ->
         GrammarB.accumulate
           (GrammarB.NewStdFormatter ColorCode (B "%{ShortFile}")) context
         = Ok stem)
  /\ GrammarB.accumulate (GrammarB.NewStdFormatter ColorCode (B "%{File}")) context0
     = Ok (B "???")
  /\ GrammarB.accumulate
       (GrammarB.NewStdFormatter ColorCode (B "%{ShortFile}")) context0
     = Ok [].
Proof.
  intros Hn Hn0 N F F0.
  assert (Eb : base_name (GrammarB.File context) = base
               /\ GrammarB.File context <> []).
  { destruct F as [-> | [-> Ne]].
    - split; [apply base_name_found, N | destruct dir; discriminate].
    - split; [apply base_name_none, N | exact Ne]. }
  destruct Eb as [Eb Ne].
  compile_template.
  one_verb (context) Hn. one_verb context0 Hn0.
  cbn [show_verbB]. unfold file_or_placeholder. rewrite F0.
  destruct (GrammarB.File context) as [|c file] eqn:E;
    [contradiction Ne; reflexivity|].
  rewrite Eb.
  repeat split.
  intros stem ext -> Hext.
  replace (len (stem ++ ext) - 3) with (len stem)
    by (rewrite len_app; unfold len; lia).
  rewrite slice_to_app. reflexivity.
Qed.

Lemma file_verbsB_witness :
  (numbers_okB logTestContext
   /\ numbers_okB (recordB ERROR [] (B "hello there!"))
   /\ ~ In Separator (B "factorlog_test.go")
   /\ (GrammarB.File logTestContext
       = B "/go/src/github.com/kdar/factorlog" ++ Separator :: B "factorlog_test.go"
       \/ GrammarB.File logTestContext = B "factorlog_test.go"
          /\ B "factorlog_test.go" <> [])
   /\ GrammarB.File (recordB ERROR [] (B "hello there!")) = [])
  /\ GrammarB.accumulate
       (GrammarB.NewStdFormatter (fun _ => []) (B "%{FullFile}")) logTestContext
     = Ok (GrammarB.File logTestContext)
  /\ GrammarB.accumulate
       (GrammarB.NewStdFormatter (fun _ => []) (B "%{File}")) logTestContext
     = Ok (B "factorlog_test.go")
  /\ (forall stem ext,
         B "factorlog_test.go" = stem ++ ext -> List.length ext = 3%nat ->
         GrammarB.accumulate
           (GrammarB.NewStdFormatter (fun _ => []) (B "%{ShortFile}")) logTestContext
         = Ok stem)
  /\ GrammarB.accumulate
       (GrammarB.NewStdFormatter (fun _ => []) (B "%{File}"))
       (recordB ERROR [] (B "hello there!"))
     = Ok (B "???")
  /\ GrammarB.accumulate
       (GrammarB.NewStdFormatter (fun _ => []) (B "%{ShortFile}"))
       (recordB ERROR [] (B "hello there!"))
     = Ok [].
Proof.
  assert (N : ~ In Separator (B "factorlog_test.go"))
    by (apply no_separator_in; reflexivity).
  assert (H0 : numbers_okB (recordB ERROR [] (B "hello there!")))
    by (numbers_of logTestContext).
  split; [split; [exact logTestContext_numbers
                 | split; [exact H0
                          | split; [exact N
                                   | split; [left; reflexivity | reflexivity]]]]|].
  apply (file_verbsB (fun _ => []) logTestContext
                     (recordB ERROR [] (B "hello there!"))
                     (B "/go/src/github.com/kdar/factorlog") (B "factorlog_test.go")
                     logTestContext_numbers H0 N);
    [left; reflexivity | reflexivity].
Defined.

(** ** The regular expression of Grammar B and the tokens of a template *)

Section MatchToken.

Import Regexp.

Variable R : Type.

Lemma orelse_None_r (a : option R) : orelse a None = a.
Proof. destruct a; reflexivity. Qed.

Lemma exec_Seq (a b : re) (fuel : nat) (x : cursor) (cs : captures)
      (k : cursor -> captures -> option R) :
  exec (Seq a b) fuel x cs k
  = exec a fuel x cs (fun x' cs' => exec b fuel x' cs' k).
Proof. reflexivity. Qed.

Lemma exec_Group (i : nat) (a : re) (fuel : nat) (x : cursor) (cs : captures)
      (k : cursor -> captures -> option R) :
  exec (Group i a) fuel x cs k
  = exec a fuel x cs (fun x' cs' => k x' (capture i (fst x, fst x') cs')).
Proof. reflexivity. Qed.

Lemma exec_Quest (a : re) (fuel : nat) (x : cursor) (cs : captures)
      (k : cursor -> captures -> option R) :
  exec (Quest a) fuel x cs k = orelse (exec a fuel x cs k) (k x cs).
Proof. reflexivity. Qed.

Lemma exec_Char (c : ascii) (fuel pos : nat) (s : list ascii) (cs : captures)
      (k : cursor -> captures -> option R) :
  exec (Char c) fuel (pos, s) cs k
  = match s with
    | c' :: t => if Ascii.eqb c c' then k (S pos, t) cs else None
    | [] => None
    end.
Proof. reflexivity. Qed.

Lemma exec_Class (p : ascii -> bool) (fuel pos : nat) (s : list ascii) (cs : captures)
      (k : cursor -> captures -> option R) :
  exec (Class p) fuel (pos, s) cs k
  = match s with
    | c' :: t => if p c' then k (S pos, t) cs else None
    | [] => None
    end.
Proof. reflexivity. Qed.

Lemma exec_Plus (a : re) (fuel : nat) (x : cursor) (cs : captures)
      (k : cursor -> captures -> option R) :
  exec (Plus a) fuel x cs k = plus_loop a fuel k fuel x cs.
Proof. reflexivity. Qed.

Lemma exec_StarLazy (a : re) (fuel : nat) (x : cursor) (cs : captures)
      (k : cursor -> captures -> option R) :
  exec (StarLazy a) fuel x cs k = lazy_loop a fuel k fuel x cs.
Proof. reflexivity. Qed.

Lemma plus_loop_S (a : re) (fuel : nat) (k : cursor -> captures -> option R)
      (n : nat) (x : cursor) (cs : captures) :
  plus_loop a fuel k (S n) x cs
  = exec a fuel x cs (fun x' cs' => orelse (plus_loop a fuel k n x' cs') (k x' cs')).
Proof. reflexivity. Qed.

Lemma lazy_loop_S (a : re) (fuel : nat) (k : cursor -> captures -> option R)
      (n : nat) (x : cursor) (cs : captures) :
  lazy_loop a fuel k (S n) x cs
  = orelse (k x cs)
           (exec a fuel x cs (fun x' cs' => lazy_loop a fuel k n x' cs')).
Proof. reflexivity. Qed.

(** The greedy run of letters: when what follows cannot start with a
    letter, the run is the longest one. *)
Lemma plus_letters (fuel : nat) (k : cursor -> captures -> option R) :
  (forall pos c t cs, letter c = true -> k (pos, c :: t) cs = None) ->
  forall (n : nat) (s : list ascii) (pos : nat) (cs : captures),
    (List.length s <= n)%nat ->
    plus_loop (Class letter) fuel k n (pos, s) cs
    = match letters_run s with
      | O => None
      | S m => k (pos + S m, skipn (S m) s)%nat cs
      end.
Proof.
  intros Hk. induction n as [|n IH]; intros s pos cs Hs.
  - destruct s; [reflexivity | cbn in Hs; lia].
  - rewrite plus_loop_S, exec_Class. cbv beta.
    destruct s as [|c t]; [reflexivity|].
    cbn [List.length] in Hs. cbn [letters_run].
    destruct (letter c); [|reflexivity].
    rewrite (IH t (S pos) cs) by lia.
    destruct t as [|c' t'].
    + cbn [letters_run orelse skipn]. rewrite Nat.add_1_r. reflexivity.
    + cbn [letters_run]. destruct (letter c') eqn:E.
      * rewrite (Hk (S pos) c' t' cs E), orelse_None_r.
        replace (S pos + S (letters_run t'))%nat
          with (pos + S (S (letters_run t')))%nat by lia.
        reflexivity.
      * cbn [orelse skipn]. rewrite Nat.add_1_r. reflexivity.
Qed.

Lemma arg_length_step (c d : ascii) (t : list ascii) :
  arg_length (c :: d :: t)
  = if not_backslash c && Ascii.eqb "}"%char d then Some 1%nat
    else if dot c then option_map S (arg_length (d :: t))
    else None.
Proof. reflexivity. Qed.

(** The lazy text of an argument: the shortest one after which the
    continuation succeeds. *)
Lemma lazy_arg (fuel : nat) (k : cursor -> captures -> option R)
      (F : nat -> captures -> R) :
  (forall pos s cs,
      k (pos, s) cs
      = match s with
        | c :: d :: _ =>
          if not_backslash c && Ascii.eqb "}"%char d then Some (F (S pos) cs)
          else None
        | _ => None
        end) ->
  forall (n : nat) (u : list ascii) (pos : nat) (cs : captures),
    (List.length u <= n)%nat ->
    lazy_loop (Class dot) fuel k n (pos, u) cs
    = option_map (fun a => F (pos + a)%nat cs) (arg_length u).
Proof.
  intros Hk. induction n as [|n IH]; intros u pos cs Hu.
  - destruct u; [|cbn in Hu; lia]. cbn [lazy_loop]. rewrite Hk. reflexivity.
  - rewrite lazy_loop_S, Hk, exec_Class. cbv beta.
    destruct u as [|c [|d t]]; cbn [List.length] in Hu.
    + reflexivity.
    + cbn [orelse arg_length option_map].
      destruct (dot c); [|reflexivity].
      rewrite (IH [] (S pos) cs) by (cbn; lia). reflexivity.
    + rewrite arg_length_step.
      destruct (not_backslash c && Ascii.eqb "}"%char d).
      * cbn [orelse option_map]. rewrite Nat.add_1_r. reflexivity.
      * cbn [orelse]. destruct (dot c); [|reflexivity].
        rewrite (IH (d :: t) (S pos) cs) by (cbn [List.length]; lia).
        destruct (arg_length (d :: t)) as [a|]; [|reflexivity].
        cbn [option_map]. replace (S pos + a)%nat with (pos + S a)%nat by lia.
        reflexivity.
Qed.

End MatchToken.

Lemma letter_not_space (c : ascii) : Regexp.letter c = true -> Regexp.space c = false.
Proof.
  destruct c as [[] [] [] [] [] [] [] []]; intros H;
    first [reflexivity | discriminate H].
Qed.

Lemma letter_not_brace (c : ascii) :
  Regexp.letter c = true -> Ascii.eqb "}"%char c = false.
Proof.
  destruct c as [[] [] [] [] [] [] [] []]; intros H;
    first [reflexivity | discriminate H].
Qed.

Lemma space_not_brace (c : ascii) :
  Regexp.space c = true -> Ascii.eqb "}"%char c = false.
Proof.
  destruct c as [[] [] [] [] [] [] [] []]; intros H;
    first [reflexivity | discriminate H].
Qed.

Section TokensB.

Import GrammarB Regexp.

(** What the regular expression matches at a position is the token that
    starts there. *)
Lemma match_here_spec (fuel pos : nat) (rest : list ascii) :
  (List.length rest <= fuel)%nat ->
  match_here formatRe fuel (pos, rest)
  = option_map (to_submatch pos) (token_at rest).
Proof.
  intros Hf. unfold match_here, formatRe.
  rewrite exec_Seq, exec_Char. cbn [fst].
  destruct rest as [|c1 rest]; [reflexivity|].
  cbn [List.length] in Hf.
  destruct (Ascii.eqb "%"%char c1) eqn:E1;
    [|unfold token_at; rewrite E1; destruct rest; reflexivity].
  rewrite exec_Seq, exec_Char.
  destruct rest as [|c2 t]; [reflexivity|].
  cbn [List.length] in Hf.
  destruct (Ascii.eqb "{"%char c2) eqn:E2;
    [|unfold token_at; rewrite E1, E2; reflexivity].
  unfold token_at. rewrite E1, E2. cbn [andb]. cbv zeta.
  rewrite exec_Seq, exec_Group, exec_Plus. cbn [fst].
  rewrite plus_letters.
  - destruct (letters_run t) as [|m] eqn:Er; [reflexivity|].
    rewrite exec_Seq, exec_Quest, exec_Seq, exec_Class, exec_Char. cbn [fst].
    pose proof (length_skipn (S m) t) as Ls.
    destruct (skipn (S m) t) as [|c u]; [reflexivity|].
    cbn [List.length] in Ls.
    destruct (space c) eqn:Es.
    + rewrite exec_Group, exec_Seq, exec_StarLazy. cbn [fst].
      rewrite (lazy_arg _ fuel _
                 (fun e cs =>
                    mkSubmatch pos (S e) (cs 1%nat)
                               (Some (S (S (S pos) + S m), e))%nat)).
      * destruct (arg_length u) as [a|]; cbn [option_map orelse].
        -- unfold to_submatch, token_length. cbn [fst snd capture Nat.eqb].
           repeat f_equal; lia.
        -- rewrite (space_not_brace c Es). reflexivity.
      * intros p s cs. rewrite exec_Class.
        destruct s as [|c0 [|d s']]; [reflexivity | |].
        -- destruct (not_backslash c0); reflexivity.
        -- cbn [fst]. destruct (not_backslash c0); [|reflexivity].
           rewrite exec_Char. cbn [andb].
           destruct (Ascii.eqb "}"%char d); reflexivity.
      * lia.
    + cbn [orelse].
      destruct (Ascii.eqb "}"%char c); [|reflexivity].
      cbn [option_map]. unfold to_submatch, token_length.
      cbn [fst snd capture Nat.eqb no_captures].
      repeat f_equal; lia.
  - intros p c t' cs L.
    rewrite exec_Seq, exec_Quest, exec_Seq, exec_Class, exec_Char.
    rewrite (letter_not_space c L), (letter_not_brace c L). reflexivity.
  - lia.
Qed.

Lemma search_spec (fuel : nat) (rest : list ascii) :
  forall pos,
    (List.length rest <= fuel)%nat ->
    search formatRe fuel pos rest = first_token pos rest.
Proof.
  induction rest as [|c t IH]; intros pos Hf.
  - cbn [search first_token]. rewrite match_here_spec by exact Hf. reflexivity.
  - cbn [List.length] in Hf. cbn [search first_token].
    rewrite match_here_spec by (cbn [List.length]; lia).
    destruct (token_at (c :: t)); [reflexivity|].
    cbn [option_map]. apply IH. lia.
Qed.

Lemma arg_length_bound (u : list ascii) :
  forall a, arg_length u = Some a -> (1 <= a /\ a + 1 <= List.length u)%nat.
Proof.
  induction u as [|c t IH]; intros a H; [discriminate H|].
  destruct t as [|d t']; [discriminate H|].
  rewrite arg_length_step in H.
  destruct (not_backslash c && Ascii.eqb "}"%char d).
  - injection H as <-. cbn [List.length]. lia.
  - destruct (dot c); [|discriminate H].
    destruct (arg_length (d :: t')) as [a'|]; [|discriminate H].
    injection H as <-. destruct (IH a' eq_refl) as [H1 H2].
    cbn [List.length] in *. lia.
Qed.

(** A token is at least four bytes long and lies within the text. *)
Lemma token_at_length (s : list ascii) (tk : nat * option nat) :
  token_at s = Some tk ->
  (4 <= token_length tk <= List.length s)%nat.
Proof.
  unfold token_at, token_length.
  destruct s as [|c1 [|c2 t]]; try discriminate.
  destruct (Ascii.eqb "%"%char c1 && Ascii.eqb "{"%char c2); [|discriminate].
  cbv zeta. destruct (letters_run t) as [|m]; [discriminate|].
  pose proof (length_skipn (S m) t) as Ls.
  destruct (skipn (S m) t) as [|c u]; [discriminate|].
  cbn [List.length] in Ls |- *.
  destruct (space c).
  - destruct (arg_length u) as [a|] eqn:Ea; [|discriminate].
    destruct (arg_length_bound u a Ea) as [A1 A2].
    intros [= <-]. cbn [fst snd]. lia.
  - destruct (Ascii.eqb "}"%char c); [|discriminate].
    intros [= <-]. cbn [fst snd]. lia.
Qed.

Lemma tokens_skip (k : nat) :
  forall (pos : nat) (t : list ascii),
    (k <= List.length t)%nat ->
    tokens pos k t = tokens (pos + k) 0 (skipn k t).
Proof.
  induction k as [|k IH]; intros pos t H.
  - rewrite Nat.add_0_r. reflexivity.
  - destruct t as [|c t]; [cbn in H; lia|].
    cbn [List.length] in H. cbn [tokens skipn].
    rewrite IH by lia. f_equal. lia.
Qed.

Lemma tokens_first (s : list ascii) :
  forall pos,
    match first_token pos s with
    | None => tokens pos 0 s = []
    | Some m =>
      (pos < m_end m /\ m_end m - pos <= List.length s)%nat
      /\ tokens pos 0 s = m :: tokens (m_end m) 0 (skipn (m_end m - pos) s)
    end.
Proof.
  induction s as [|c t IH]; intros pos; [reflexivity|].
  cbn [first_token tokens].
  destruct (token_at (c :: t)) as [tk|] eqn:E.
  - destruct (token_at_length _ _ E) as [L1 L2]. cbn [List.length] in L2.
    change (m_end (to_submatch pos tk)) with (pos + token_length tk)%nat.
    split; [cbn [List.length]; lia|].
    f_equal. rewrite tokens_skip by lia.
    replace (pos + token_length tk - pos)%nat with (S (token_length tk - 1)) by lia.
    cbn [skipn]. f_equal. lia.
  - specialize (IH (S pos)).
    destruct (first_token (S pos) t) as [m|]; [|exact IH].
    destruct IH as [[I1 I2] I3].
    split; [cbn [List.length]; lia|].
    rewrite I3. f_equal.
    replace (m_end m - pos)%nat with (S (m_end m - S pos)) by lia.
    reflexivity.
Qed.

Lemma find_all_spec (fuel n : nat) :
  forall (pos : nat) (rest : list ascii),
    (List.length rest < n)%nat -> (List.length rest <= fuel)%nat ->
    find_all formatRe fuel n pos rest = tokens pos 0 rest.
Proof.
  induction n as [|n IH]; intros pos rest Hn Hf; [lia|].
  cbn [find_all]. rewrite search_spec by exact Hf.
  pose proof (tokens_first rest pos) as T.
  destruct (first_token pos rest) as [m|]; [|symmetry; exact T].
  destruct T as [[T1 T2] T3].
  replace (m_end m <=? pos)%nat with false by (symmetry; apply Nat.leb_gt; lia).
  rewrite T3. f_equal. apply IH; rewrite length_skipn; lia.
Qed.

Lemma FindAll_tokens (s : list ascii) :
  FindAllStringSubmatchIndex formatRe s = tokens 0 0 s.
Proof. apply find_all_spec; lia. Qed.

End TokensB.

Section StructuralB.

Import GrammarB Regexp.

Variable ColorCode : bytes -> bytes.

Variable context : LogContext.

Lemma skipn_app_len {A : Type} (done rest : list A) (k : nat) :
  skipn (List.length done + k) (done ++ rest) = skipn k rest.
Proof.
  rewrite skipn_app, skipn_all2 by lia.
  replace (List.length done + k - List.length done)%nat with k by lia.
  reflexivity.
Qed.

Lemma substr_at (done rest : list ascii) (a n : nat) :
  substr (done ++ rest) (List.length done + a) (List.length done + a + n)
  = firstn n (skipn a rest).
Proof.
  unfold substr. rewrite skipn_app_len. f_equal. lia.
Qed.

Lemma substr_empty (s : list ascii) (a b : nat) : (b <= a)%nat -> substr s a b = [].
Proof.
  intros H. unfold substr. replace (b - a)%nat with 0%nat by lia. reflexivity.
Qed.

Lemma substr_snoc (done rest : list ascii) (c : ascii) (prev : nat) :
  (prev <= List.length done)%nat ->
  substr (done ++ c :: rest) prev (S (List.length done))
  = substr (done ++ c :: rest) prev (List.length done) ++ [c].
Proof.
  intros H. unfold substr.
  rewrite !skipn_app.
  replace (prev - List.length done)%nat with 0%nat by lia. cbn [skipn].
  assert (L : List.length (skipn prev done) = (List.length done - prev)%nat)
    by apply length_skipn.
  rewrite !firstn_app, L.
  replace (List.length done - prev - (List.length done - prev))%nat with 0%nat by lia.
  replace (S (List.length done) - prev - (List.length done - prev))%nat
    with 1%nat by lia.
  cbn [firstn]. rewrite app_nil_r.
  rewrite !firstn_all2 by lia. reflexivity.
Qed.

Lemma token_piece_at (done rest : list ascii) (tk : nat * option nat) :
  token_piece ColorCode (done ++ rest) context
              (to_submatch (List.length done) tk)
  = verb_piece ColorCode context (token_name tk rest) (token_layout tk rest).
Proof.
  unfold token_piece, to_submatch, token_name, token_layout.
  cbn [m_group1 m_group2]. rewrite substr_at.
  destruct (snd tk) as [a|]; [|reflexivity].
  replace (List.length done + 2 + fst tk + 1)%nat
    with (List.length done + (2 + fst tk + 1))%nat by lia.
  rewrite substr_at. reflexivity.
Qed.

(** Reading along the tokens is reading byte by byte. *)
Lemma read_tokens (frmt : list ascii) (rest : list ascii) :
  forall (done : list ascii) (skip prev : nat),
    frmt = done ++ rest ->
    (skip = 0%nat -> (prev <= List.length done)%nat) ->
    (skip <> 0%nat ->
     prev = (List.length done + skip)%nat /\ (skip <= List.length rest)%nat) ->
    interpretB ColorCode frmt context (tokens (List.length done) skip rest) prev
    = (r <- readB ColorCode context skip rest ;;
       Ok (substr frmt prev (List.length done) ++ r)).
Proof.
  induction rest as [|c t IH]; intros done skip prev E H0 H1.
  - destruct skip as [|k]; [|destruct (H1 ltac:(discriminate)); cbn in *; lia].
    specialize (H0 eq_refl). cbn [tokens interpretB readB bind].
    rewrite app_nil_r in *. subst frmt. unfold substr.
    rewrite firstn_all2 by (rewrite length_skipn; lia). reflexivity.
  - assert (E' : frmt = (done ++ [c]) ++ t)
      by (rewrite <- app_assoc; exact E).
    assert (L' : List.length (done ++ [c]) = S (List.length done))
      by (rewrite length_app; cbn; lia).
    destruct skip as [|k].
    + specialize (H0 eq_refl). cbn [tokens readB].
      destruct (token_at (c :: t)) as [tk|] eqn:Et.
      * destruct (token_at_length _ _ Et) as [T1 T2]. cbn [List.length] in T2.
        cbn [interpretB].
        change (m_start (to_submatch (List.length done) tk)) with (List.length done).
        change (m_end (to_submatch (List.length done) tk))
          with (List.length done + token_length tk)%nat.
        assert (TP : token_piece ColorCode frmt context
                                 (to_submatch (List.length done) tk)
                     = verb_piece ColorCode context (token_name tk (c :: t))
                                  (token_layout tk (c :: t)))
          by (rewrite E; apply token_piece_at).
        rewrite TP. clear TP.
        destruct (verb_piece ColorCode context _ _) as [p| |]; cbn [bind];
          try reflexivity.
        rewrite <- L'.
        rewrite (IH (done ++ [c]) (token_length tk - 1)%nat
                    (List.length done + token_length tk)%nat E')
          by (rewrite ?L'; lia).
        destruct (readB ColorCode context _ t) as [r| |]; cbn [bind];
          try reflexivity.
        rewrite (substr_empty frmt (List.length done + token_length tk)
                              (List.length (done ++ [c])))
          by (rewrite L'; lia).
        reflexivity.
      * rewrite <- L'.
        rewrite (IH (done ++ [c]) 0%nat prev E') by (rewrite ?L'; lia).
        destruct (readB ColorCode context 0 t) as [r| |]; cbn [bind];
          try reflexivity.
        rewrite L', E, substr_snoc by exact H0.
        rewrite <- app_assoc. reflexivity.
    + destruct (H1 ltac:(discriminate)) as [-> Hk]. cbn [List.length] in Hk.
      cbn [tokens readB].
      rewrite <- L'.
      rewrite (IH (done ++ [c]) k _ E') by (rewrite ?L'; lia).
      destruct (readB ColorCode context k t) as [r| |]; cbn [bind];
        try reflexivity.
      rewrite !(substr_empty frmt) by (rewrite ?L'; lia).
      reflexivity.
Qed.

(** The compiled format of a template renders what the byte-by-byte
    reading of the template gives. *)
Lemma accumulate_readB (frmt : bytes) :
  numbers_okB context ->
  accumulate (NewStdFormatter ColorCode frmt) context
  = readB ColorCode context 0 frmt.
Proof.
  intros Hn. rewrite (accumulate_interpretB ColorCode context Hn).
  rewrite FindAll_tokens.
  pose proof (read_tokens frmt frmt [] 0%nat 0%nat eq_refl) as T.
  cbn [List.length] in T. rewrite T by (intros; lia).
  rewrite (substr_empty frmt) by lia.
  destruct (readB ColorCode context 0 frmt); reflexivity.
Qed.

End StructuralB.

Ltac app_flat :=
  repeat first [rewrite <- app_assoc | progress cbn [app B list_ascii_of_string]];
  try reflexivity.

Section PlanB.

Import GrammarB Regexp.

Variable ColorCode : bytes -> bytes.

Variable context : LogContext.

Lemma readB_skip (k : nat) :
  forall t : list ascii,
    (k <= List.length t)%nat ->
    readB ColorCode context k t = readB ColorCode context 0 (skipn k t).
Proof.
  induction k as [|k IH]; intros t H; [reflexivity|].
  destruct t as [|c t]; [cbn in H; lia|].
  cbn [List.length] in H. cbn [readB skipn]. apply IH. lia.
Qed.

Lemma token_at_closed (s : list ascii) :
  match s with
  | c1 :: c2 :: _ => Ascii.eqb c1 "%"%char && Ascii.eqb c2 "{"%char
  | _ => false
  end = false ->
  token_at s = None.
Proof.
  intros H. unfold token_at.
  destruct s as [|c1 [|c2 t]]; try reflexivity.
  rewrite (Ascii.eqb_sym "%"%char c1), (Ascii.eqb_sym "{"%char c2), H.
  reflexivity.
Qed.

(** Text that opens no token is read as it is. *)
Lemma readB_text (text : list ascii) :
  forall rest : list ascii,
    opens_token text = false ->
    match rest with
    | c :: _ => c <> "{"%char
    | [] => True
    end ->
    readB ColorCode context 0 (text ++ rest)
    = (r <- readB ColorCode context 0 rest ;; Ok (text ++ r)).
Proof.
  induction text as [|c t IH]; intros rest Ho Hr.
  - cbn [app]. destruct (readB ColorCode context 0 rest); reflexivity.
  - assert (Ht : opens_token t = false /\ token_at ((c :: t) ++ rest) = None).
    { destruct t as [|d t'].
      - split; [reflexivity|]. apply token_at_closed. cbn [app].
        destruct rest as [|r0 rest']; [reflexivity|].
        apply andb_false_iff. right. apply Ascii.eqb_neq, Hr.
      - cbn [opens_token] in Ho. apply orb_false_iff in Ho.
        destruct Ho as [Ho1 Ho2]. split; [exact Ho2|].
        apply token_at_closed. exact Ho1. }
    destruct Ht as [Ht Hn].
    change ((c :: t) ++ rest) with (c :: t ++ rest) in *.
    cbn [readB]. rewrite Hn, (IH rest Ht Hr).
    destruct (readB ColorCode context 0 rest); reflexivity.
Qed.

Lemma letters_run_app (name rest : list ascii) :
  Forall (fun c => letter c = true) name ->
  match rest with
  | c :: _ => letter c = false
  | [] => True
  end ->
  letters_run (name ++ rest) = List.length name.
Proof.
  intros Hn Hr. induction Hn as [|c name Hc _ IH]; cbn [app letters_run List.length].
  - destruct rest as [|c rest]; [reflexivity|]. cbn [letters_run]. rewrite Hr.
    reflexivity.
  - rewrite Hc, IH. reflexivity.
Qed.

Lemma arg_length_app (a : list ascii) :
  forall rest : list ascii,
    ~ In "}"%char a -> ~ In newline a -> last a "\"%char <> "\"%char ->
    arg_length (a ++ "}"%char :: rest) = Some (List.length a).
Proof.
  induction a as [|c a IH]; intros rest Hb Hn Hl.
  - contradiction Hl. reflexivity.
  - destruct a as [|d a'].
    + cbn [app]. rewrite arg_length_step. cbn [last] in Hl.
      unfold not_backslash.
      replace (Ascii.eqb c "\"%char) with false
        by (symmetry; apply Ascii.eqb_neq, Hl).
      reflexivity.
    + change ((c :: d :: a') ++ "}"%char :: rest)
        with (c :: d :: (a' ++ "}"%char :: rest)).
      rewrite arg_length_step.
      replace (Ascii.eqb "}"%char d) with false
        by (symmetry; apply Ascii.eqb_neq; intros <-; apply Hb; right; left;
            reflexivity).
      rewrite andb_false_r.
      unfold dot.
      replace (Ascii.eqb c newline) with false
        by (symmetry; apply Ascii.eqb_neq; intros ->; apply Hn; left;
            reflexivity).
      cbn [negb].
      change (d :: a' ++ "}"%char :: rest) with ((d :: a') ++ "}"%char :: rest).
      rewrite IH.
      * reflexivity.
      * intros I. apply Hb. right. exact I.
      * intros I. apply Hn. right. exact I.
      * exact Hl.
Qed.

(** A well-formed token is found where it is written. *)
Lemma token_at_text (tk : token) (rest : list ascii) :
  token_ok tk ->
  let found := (List.length (tok_name tk),
                option_map (fun sa : ascii * bytes => List.length (snd sa))
                           (tok_arg tk)) in
  token_at (token_text tk ++ rest) = Some found
  /\ token_name found (token_text tk ++ rest) = tok_name tk
  /\ token_layout found (token_text tk ++ rest) = tok_layout tk
  /\ skipn (token_length found) (token_text tk ++ rest) = rest.
Proof.
  intros (Hne & Hl & Ha). cbv zeta.
  destruct tk as [name arg]. cbn [tok_name tok_arg] in *.
  unfold token_text, tok_layout, token_name, token_layout, token_length.
  cbn [tok_name tok_arg fst snd].
  assert (Ln : (0 < List.length name)%nat)
    by (destruct name; [contradiction Hne; reflexivity | cbn; lia]).
  destruct arg as [[sep a]|]; cbn [option_map snd].
  - destruct Ha as (Hs & Hb & Hnl & Hlast).
    assert (E : (B "%{" ++ name ++ (sep :: a) ++ B "}") ++ rest
                = "%"%char :: "{"%char :: name ++ sep :: a ++ "}"%char :: rest).
    { app_flat. }
    rewrite E. clear E.
    assert (Lr : letters_run (name ++ sep :: a ++ "}"%char :: rest)
                 = List.length name).
    { apply letters_run_app; [exact Hl|].
      destruct (letter sep) eqn:El; [|reflexivity].
      rewrite (letter_not_space sep El) in Hs. discriminate Hs. }
    assert (Sk : skipn (List.length name) (name ++ sep :: a ++ "}"%char :: rest)
                 = sep :: a ++ "}"%char :: rest).
    { rewrite skipn_app, skipn_all, Nat.sub_diag. reflexivity. }
    repeat split.
    + unfold token_at. cbn [Ascii.eqb Bool.eqb andb]. cbv zeta.
      rewrite Lr. destruct (List.length name) as [|m] eqn:En; [lia|].
      rewrite Sk, Hs, arg_length_app by assumption. reflexivity.
    + cbn [skipn]. rewrite firstn_app, firstn_all, Nat.sub_diag.
      cbn [firstn]. apply app_nil_r.
    + replace (2 + List.length name + 1)%nat with (S (S (List.length name + 1)))
        by lia.
      cbn [skipn].
      replace (name ++ sep :: a ++ "}"%char :: rest)
        with ((name ++ [sep]) ++ a ++ "}"%char :: rest)
        by (rewrite <- app_assoc; reflexivity).
      replace (List.length name + 1)%nat with (List.length (name ++ [sep]))
        by (rewrite length_app; reflexivity).
      rewrite skipn_app, skipn_all, Nat.sub_diag. cbn [skipn app].
      rewrite firstn_app, firstn_all, Nat.sub_diag.
      cbn [firstn]. apply app_nil_r.
    + replace (2 + List.length name + 1 + List.length a + 1)%nat
        with (S (S (List.length (name ++ sep :: a ++ ["}"%char]))))
        by (rewrite !length_app; cbn [List.length]; rewrite length_app;
            cbn [List.length]; lia).
      cbn [skipn].
      replace (name ++ sep :: a ++ "}"%char :: rest)
        with ((name ++ sep :: a ++ ["}"%char]) ++ rest)
        by app_flat.
      rewrite skipn_app, skipn_all, Nat.sub_diag. reflexivity.
  - assert (E : (B "%{" ++ name ++ [] ++ B "}") ++ rest
                = "%"%char :: "{"%char :: name ++ "}"%char :: rest).
    { app_flat. }
    rewrite E. clear E.
    assert (Lr : letters_run (name ++ "}"%char :: rest) = List.length name)
      by (apply letters_run_app; [exact Hl | reflexivity]).
    assert (Sk : skipn (List.length name) (name ++ "}"%char :: rest)
                 = "}"%char :: rest).
    { rewrite skipn_app, skipn_all, Nat.sub_diag. reflexivity. }
    repeat split.
    + unfold token_at. cbn [Ascii.eqb Bool.eqb andb]. cbv zeta.
      rewrite Lr. destruct (List.length name) as [|m] eqn:En; [lia|].
      rewrite Sk. reflexivity.
    + cbn [skipn]. rewrite firstn_app, firstn_all, Nat.sub_diag.
      cbn [firstn]. apply app_nil_r.
    + replace (2 + List.length name + 1)%nat
        with (S (S (List.length (name ++ ["}"%char]))))
        by (rewrite length_app; cbn [List.length]; lia).
      cbn [skipn].
      replace (name ++ "}"%char :: rest) with ((name ++ ["}"%char]) ++ rest)
        by (rewrite <- app_assoc; reflexivity).
      rewrite skipn_app, skipn_all, Nat.sub_diag. reflexivity.
Qed.

(** A well-formed token is read as what its verb renders. *)
Lemma readB_token (tk : token) (rest : list ascii) :
  token_ok tk ->
  readB ColorCode context 0 (token_text tk ++ rest)
  = (p <- verb_piece ColorCode context (tok_name tk) (tok_layout tk) ;;
     r <- readB ColorCode context 0 rest ;;
     Ok (p ++ r)).
Proof.
  intros Hok. destruct (token_at_text tk rest Hok) as (T1 & T2 & T3 & T4).
  cbv zeta in *.
  set (found := (List.length (tok_name tk),
                 option_map (fun sa : ascii * bytes => List.length (snd sa))
                            (tok_arg tk))) in *.
  destruct (token_at_length _ _ T1) as [L1 L2].
  destruct (token_text tk ++ rest) as [|c t] eqn:E; [cbn in L2; lia|].
  cbn [List.length] in L2.
  cbn [readB]. rewrite T1, T2, T3.
  rewrite readB_skip by lia.
  replace (skipn (token_length found - 1) t) with rest; [reflexivity|].
  rewrite <- T4.
  replace (token_length found) with (S (token_length found - 1)) at 1 by lia.
  reflexivity.
Qed.

Lemma token_text_starts (tk : token) (rest : list ascii) :
  match token_text tk ++ rest with
  | c :: _ => c <> "{"%char
  | [] => True
  end.
Proof. unfold token_text. cbn. discriminate. Qed.

(** A template written out renders what it is meant to. *)
Lemma readB_template (plan : list (bytes * token)) (tail : bytes) :
  Forall (fun p => opens_token (fst p) = false /\ token_ok (snd p)) plan ->
  opens_token tail = false ->
  readB ColorCode context 0 (template plan tail)
  = expected ColorCode context plan tail.
Proof.
  intros Hp Ht. induction Hp as [|[text tk] plan [Ho Hok] _ IH];
    cbn [template expected].
  - pose proof (readB_text tail [] Ht I) as T. rewrite app_nil_r in T.
    rewrite T. cbn [readB bind]. rewrite app_nil_r. reflexivity.
  - cbn [fst snd] in Ho, Hok.
    rewrite (readB_text text (token_text tk ++ template plan tail) Ho
                        (token_text_starts tk (template plan tail))).
    rewrite (readB_token tk _ Hok), IH.
    destruct (verb_piece ColorCode context _ _); cbn [bind]; try reflexivity.
    destruct (expected ColorCode context plan tail); reflexivity.
Qed.

End PlanB.

Lemma tokens_in_order (s : list ascii) :
  forall pos skip,
    (skip <= List.length s)%nat ->
    in_order (pos + skip) (tokens pos skip s) (pos + List.length s).
Proof.
  induction s as [|c t IH]; intros pos skip H; cbn [List.length] in H.
  - cbn [tokens in_order List.length]. lia.
  - cbn [tokens]. destruct skip as [|k].
    + destruct (token_at (c :: t)) as [tk|] eqn:E.
      * destruct (token_at_length _ _ E) as [L1 L2]. cbn [List.length] in L2.
        cbn [in_order]. unfold to_submatch.
        cbn [Regexp.m_start Regexp.m_end Regexp.m_group1 Regexp.m_group2].
        split; [lia|]. split.
        -- exists (pos + 2)%nat, (pos + 2 + fst tk)%nat.
           split; [reflexivity|].
           unfold token_at in E.
           destruct t as [|c2 t']; [discriminate E|].
           destruct (Ascii.eqb "%"%char c && Ascii.eqb "{"%char c2);
             [|discriminate E].
           cbv zeta in E. destruct (letters_run t') as [|m]; [discriminate E|].
           destruct (skipn (S m) t') as [|c3 u]; [discriminate E|].
           unfold token_length in *.
           destruct (Regexp.space c3).
           ++ destruct (arg_length u) as [a|] eqn:Ea; [|discriminate E].
              destruct (arg_length_bound u a Ea) as [A1 A2].
              injection E as <-. cbn [fst snd] in *. lia.
           ++ destruct (Ascii.eqb "}"%char c3); [|discriminate E].
              injection E as <-. cbn [fst snd] in *. lia.
        -- specialize (IH (S pos) (token_length tk - 1)%nat ltac:(lia)).
           replace (S pos + (token_length tk - 1))%nat
             with (pos + token_length tk)%nat in IH by lia.
           replace (S pos + List.length t)%nat
             with (pos + List.length (c :: t))%nat in IH
             by (cbn [List.length]; lia).
           exact IH.
      * specialize (IH (S pos) 0%nat ltac:(lia)).
        cbn [List.length].
        replace (pos + S (List.length t))%nat with (S pos + List.length t)%nat
          by lia.
        clear E. revert IH.
        generalize (tokens (S pos) 0 t) as ms. intros ms.
        destruct ms as [|m ms]; cbn [in_order]; [lia|].
        intros (I1 & I2 & I3). split; [lia|]. split; assumption.
    + specialize (IH (S pos) k ltac:(lia)).
      cbn [List.length].
      replace (pos + S k)%nat with (S pos + k)%nat by lia.
      replace (pos + S (List.length t))%nat with (S pos + List.length t)%nat
        by lia.
      exact IH.
Qed.

Ltac not_in_text :=
  let H := fresh in
  intros H; cbn in H; repeat (destruct H as [H | H]; [discriminate H|]); exact H.

Ltac token_ok_here :=
  split; [discriminate|];
  split; [repeat constructor|];
  cbn [tok_arg];
  first [ exact I
        | split; [reflexivity|];
          split; [not_in_text|];
          split; [not_in_text | discriminate] ].

(** X13. Grammar B, compiled against read directly.  For every template
    and every record whose numbers the writers can take, rendering the
    compiled format gives what a byte-by-byte reading of the template
    gives: where a token starts (a percent sign, an opening brace, the
    longest run of letters, then a closing brace or white space, the
    shortest argument and a closing brace) what its verb renders, a colour
    its escape sequence, an unknown name nothing, and on after the token;
    any other byte as it is; then the line terminator.  The two stop with
    a panic on the same inputs. *)
Theorem compiledB_reads_as_template (ColorCode : bytes -> bytes) (frmt : bytes)
        (context : GrammarB.LogContext) :
  numbers_okB context ->
  GrammarB.Format (GrammarB.NewStdFormatter ColorCode frmt) context
  = (o <- readB ColorCode context 0 frmt ;; terminate o).
Proof.
  intros H. unfold GrammarB.Format.
  rewrite (accumulate_readB ColorCode context frmt H). reflexivity.
Qed.

Lemma compiledB_reads_as_template_witness :
  numbers_okB logTestContext
  /\ GrammarB.Format
       (GrammarB.NewStdFormatter (fun _ => B "<red>")
          (B "%{Color red}[%{SEV}:%{File}:%{Line}]%{Color reset} %{Nope}%{Message}"))
       logTestContext
     = (o <- readB (fun _ => B "<red>") logTestContext 0
               (B "%{Color red}[%{SEV}:%{File}:%{Line}]%{Color reset} %{Nope}%{Message}") ;;
        terminate o).
Proof.
  split; [exact logTestContext_numbers|].
  apply (compiledB_reads_as_template
           (fun _ => B "<red>")
           (B "%{Color red}[%{SEV}:%{File}:%{Line}]%{Color reset} %{Nope}%{Message}")
           logTestContext logTestContext_numbers).
Defined.

(** X18. Grammar B, a template written out.  A template that is made of
    texts that open no token, each followed by a well-formed token, and of
    a last text renders each text as it is and for each token what its
    verb renders: its field of the record for a known verb, the escape
    sequence of its argument for a colour, nothing for an unknown name;
    then the line terminator. *)
Theorem template_renders (ColorCode : bytes -> bytes)
        (context : GrammarB.LogContext) (plan : list (bytes * token))
        (tail : bytes) :
  numbers_okB context ->
  Forall (fun p => opens_token (fst p) = false /\ token_ok (snd p)) plan ->
  opens_token tail = false ->
  GrammarB.Format (GrammarB.NewStdFormatter ColorCode (template plan tail)) context
  = (o <- expected ColorCode context plan tail ;; terminate o).
Proof.
  intros Hn Hp Ht. unfold GrammarB.Format.
  rewrite (accumulate_readB ColorCode context _ Hn).
  rewrite (readB_template ColorCode context plan tail Hp Ht). reflexivity.
Qed.

Lemma template_renders_witness :
  (numbers_okB logTestContext
   /\ Forall (fun p => opens_token (fst p) = false /\ token_ok (snd p)) logTestPlan
   /\ opens_token (B "%") = false)
  /\ GrammarB.Format
       (GrammarB.NewStdFormatter (fun _ => B "<red>") (template logTestPlan (B "%")))
       logTestContext
     = (o <- expected (fun _ => B "<red>") logTestContext logTestPlan (B "%") ;;
        terminate o).
Proof.
  assert (P : Forall (fun p => opens_token (fst p) = false /\ token_ok (snd p))
                     logTestPlan).
  { unfold logTestPlan.
    repeat (apply Forall_cons; [split; [reflexivity | token_ok_here]|]).
    apply Forall_nil. }
  split; [split; [exact logTestContext_numbers | split; [exact P | reflexivity]]|].
  apply (template_renders (fun _ => B "<red>") logTestContext logTestPlan (B "%")
                          logTestContext_numbers P eq_refl).
Defined.

(** X19. The regular expression of Grammar B finds the tokens.  For every
    text the matches of [formatRe], found by backtracking with the
    preferences of Go's [regexp], are the tokens that a single pass from
    left to right finds: at each byte outside a token, the token that
    starts there if one does.  A token is a percent sign, an opening
    brace, the longest run of letters there, not empty, and then either a
    closing brace, or one byte of white space, the shortest non-empty
    argument that does not end in a backslash, holds no line feed before
    its last byte and is followed by a closing brace, and that brace. *)
Theorem formatRe_finds_tokens (s : bytes) :
  Regexp.FindAllStringSubmatchIndex GrammarB.formatRe s = tokens 0 0 s.
Proof. apply FindAll_tokens. Qed.

(** X20. The slices of the compiler are within bounds.  For every
    template the matches of [formatRe] come in order and do not overlap,
    each lies within the template and is at least four bytes long, the
    name group is not empty and lies inside the match, and so does the
    argument group when there is one: no slice that [NewStdFormatter]
    takes with these indices can fail. *)
Theorem matches_in_order (frmt : bytes) :
  in_order 0 (Regexp.FindAllStringSubmatchIndex GrammarB.formatRe frmt)
           (List.length frmt).
Proof.
  rewrite FindAll_tokens.
  apply (tokens_in_order frmt 0%nat 0%nat). lia.
Qed.

Lemma decimal_escape_printable (c : ascii) :
  code c < 128 ->
  Forall (fun b => 32 <= code b < 128) (decimal_escape c)
  /\ (1 <= List.length (decimal_escape c) <= 4)%nat.
Proof.
  intros H. unfold decimal_escape. pose proof (code_bound c) as Hc.
  destruct (code c <? 32) eqn:E.
  - apply Z.ltb_lt in E. split; [|cbn; lia].
    assert (D : forall k, 0 <= k < 10 -> 32 <= code (digit k) < 128).
    { intros k Hk. rewrite code_digit by exact Hk.
      change (code "0"%char) with 48. lia. }
    cbn [B list_ascii_of_string app].
    repeat apply Forall_cons; try apply Forall_nil.
    + vm_compute. split; [discriminate | reflexivity].
    + vm_compute. split; [discriminate | reflexivity].
    + apply D. apply Z.mod_pos_bound. lia.
    + apply D. apply Z.mod_pos_bound. lia.
  - apply Z.ltb_ge in E. split; [|cbn; lia].
    apply Forall_cons; [lia | apply Forall_nil].
Qed.

(** X21. Grammar B, the safe message holds no control byte.  For a
    message of ASCII bytes [%{SafeMessage}] renders only bytes from 32 to
    127: no line feed, no carriage return and no escape byte of the
    message reaches the output.  Each byte of the message gives one byte
    or four. *)
Theorem safe_message_no_control (ColorCode : bytes -> bytes)
        (context : GrammarB.LogContext) :
  Forall (fun c => code c < 128) (GrammarB.Message context) ->
  exists out,
    GrammarB.accumulate
      (GrammarB.NewStdFormatter ColorCode (B "%{SafeMessage}")) context = Ok out
    /\ Forall (fun b => 32 <= code b < 128) out
    /\ (List.length (GrammarB.Message context) <= List.length out
        <= 4 * List.length (GrammarB.Message context))%nat.
Proof.
  intros H. rewrite (safe_message_ascii ColorCode context H).
  eexists. split; [reflexivity|].
  induction H as [|c m Hc _ [IH1 IH2]]; cbn [flat_map List.length].
  - split; [apply Forall_nil | lia].
  - destruct (decimal_escape_printable c Hc) as [P1 P2].
    split; [apply Forall_app; split; assumption|].
    rewrite length_app. lia.
Qed.

Lemma safe_message_no_control_witness :
  Forall (fun c => code c < 128)
         (GrammarB.Message
            (recordB ERROR [] (B "one" ++ [newline] ++ B "two" ++ ["027"%char])))
  /\ exists out,
      GrammarB.accumulate
        (GrammarB.NewStdFormatter (fun _ => []) (B "%{SafeMessage}"))
        (recordB ERROR [] (B "one" ++ [newline] ++ B "two" ++ ["027"%char]))
      = Ok out
      /\ Forall (fun b => 32 <= code b < 128) out
      /\ (List.length
            (GrammarB.Message
               (recordB ERROR [] (B "one" ++ [newline] ++ B "two" ++ ["027"%char])))
          <= List.length out
          <= 4 * List.length
                   (GrammarB.Message
                      (recordB ERROR []
                               (B "one" ++ [newline] ++ B "two" ++ ["027"%char]))))%nat.
Proof.
  assert (A : Forall (fun c => code c < 128)
                (GrammarB.Message
                   (recordB ERROR []
                            (B "one" ++ [newline] ++ B "two" ++ ["027"%char]))))
    by (repeat constructor).
  split; [exact A|].
  apply (safe_message_no_control
           (fun _ => [])
           (recordB ERROR [] (B "one" ++ [newline] ++ B "two" ++ ["027"%char])) A).
Defined.

(** ** The scratch buffer and the stack trace *)

(** X22. The scratch buffer carries nothing from one call to the next.
    Two formatters with the same parts and strings and scratch buffers of
    64 bytes render every record whose numbers the writers can take
    alike, whatever the scratch buffers hold: a formatter can be used
    again after any call.  This holds in both grammars. *)
Theorem Format_ignores_scratch
        (f1 f2 : GrammarA.StdFormatter) (data : GrammarA.LogRecord)
        (g1 g2 : GrammarB.StdFormatter) (context : GrammarB.LogContext) :
  numbers_ok (GrammarA.Time_ data) (GrammarA.Line data) ->
  GrammarA.parts f1 = GrammarA.parts f2 ->
  GrammarA.strings f1 = GrammarA.strings f2 ->
  List.length (GrammarA.tmp f1) = 64%nat ->
  List.length (GrammarA.tmp f2) = 64%nat ->
  numbers_okB context ->
  GrammarB.parts g1 = GrammarB.parts g2 ->
  GrammarB.strings g1 = GrammarB.strings g2 ->
  List.length (GrammarB.tmp g1) = 64%nat ->
  List.length (GrammarB.tmp g2) = 64%nat ->
  GrammarA.Format f1 data = GrammarA.Format f2 data
  /\ GrammarB.Format g1 context = GrammarB.Format g2 context.
Proof.
  intros Hn Hp Hs H1 H2 Hn' Hp' Hs' H1' H2'. split.
  - unfold GrammarA.Format, GrammarA.accumulate.
    pose proof (format_parts_assemble data Hn f1 (GrammarA.parts f1) []
                  (GrammarA.strings f1) [] (GrammarA.tmp f1) eq_refl H1) as E1.
    pose proof (format_parts_assemble data Hn f2 (GrammarA.parts f2) []
                  (GrammarA.strings f2) [] (GrammarA.tmp f2) eq_refl H2) as E2.
    change (len (@nil bytes)) with 0 in E1, E2.
    rewrite E1, E2, Hp, Hs. reflexivity.
  - unfold GrammarB.Format, GrammarB.accumulate.
    pose proof (format_parts_assembleB context Hn' g1 (GrammarB.parts g1) []
                  (GrammarB.strings g1) [] (GrammarB.tmp g1) (GrammarB.stmp g1)
                  eq_refl H1') as E1.
    pose proof (format_parts_assembleB context Hn' g2 (GrammarB.parts g2) []
                  (GrammarB.strings g2) [] (GrammarB.tmp g2) (GrammarB.stmp g2)
                  eq_refl H2') as E2.
    change (len (@nil bytes)) with 0 in E1, E2.
    rewrite E1, E2, Hp', Hs'. reflexivity.
Qed.

Lemma Format_ignores_scratch_witness :
  (numbers_ok (GrammarA.Time_ fmtTestsData) (GrammarA.Line fmtTestsData)
   /\ GrammarA.parts (GrammarA.NewStdFormatter (B "%T %s"))
      = GrammarA.parts (used_formatterA (B "%T %s"))
   /\ GrammarA.strings (GrammarA.NewStdFormatter (B "%T %s"))
      = GrammarA.strings (used_formatterA (B "%T %s"))
   /\ List.length (GrammarA.tmp (GrammarA.NewStdFormatter (B "%T %s"))) = 64%nat
   /\ List.length (GrammarA.tmp (used_formatterA (B "%T %s"))) = 64%nat
   /\ numbers_okB logTestContext
   /\ GrammarB.parts (GrammarB.NewStdFormatter (fun _ => []) (B "%{Date} %{Line}"))
      = GrammarB.parts (used_formatterB (B "%{Date} %{Line}"))
   /\ GrammarB.strings (GrammarB.NewStdFormatter (fun _ => []) (B "%{Date} %{Line}"))
      = GrammarB.strings (used_formatterB (B "%{Date} %{Line}"))
   /\ List.length
        (GrammarB.tmp (GrammarB.NewStdFormatter (fun _ => []) (B "%{Date} %{Line}")))
      = 64%nat
   /\ List.length (GrammarB.tmp (used_formatterB (B "%{Date} %{Line}"))) = 64%nat)
  /\ GrammarA.Format (GrammarA.NewStdFormatter (B "%T %s")) fmtTestsData
     = GrammarA.Format (used_formatterA (B "%T %s")) fmtTestsData
  /\ GrammarB.Format (GrammarB.NewStdFormatter (fun _ => []) (B "%{Date} %{Line}"))
                     logTestContext
     = GrammarB.Format (used_formatterB (B "%{Date} %{Line}")) logTestContext.
Proof.
  assert (H : numbers_ok (GrammarA.Time_ fmtTestsData) (GrammarA.Line fmtTestsData)).
  { cbv [numbers_ok fmtTestsData fmtTestsTime GrammarA.Time_ GrammarA.Line
         Date Clock Nanosecond].
    repeat split; try discriminate; reflexivity. }
  split.
  - split; [exact H|].
    split; [reflexivity|]. split; [reflexivity|].
    split; [reflexivity|]. split; [reflexivity|].
    split; [exact logTestContext_numbers|].
    split; [reflexivity|]. split; [reflexivity|].
    split; reflexivity.
  - apply (Format_ignores_scratch
             (GrammarA.NewStdFormatter (B "%T %s")) (used_formatterA (B "%T %s"))
             fmtTestsData
             (GrammarB.NewStdFormatter (fun _ => []) (B "%{Date} %{Line}"))
             (used_formatterB (B "%{Date} %{Line}")) logTestContext
             H eq_refl eq_refl eq_refl eq_refl
             logTestContext_numbers eq_refl eq_refl eq_refl eq_refl).
Defined.

Section StacksFacts.

Import Stacks.

Variable trace_of : bool -> bytes.

Lemma len_make (n : Z) : 0 <= n -> len (make n) = n.
Proof. intros H. unfold len, make. rewrite repeat_length. lia. Qed.

(** One call of [runtime.Stack] on a fresh buffer of [n] bytes. *)
Lemma Stack_make (n : Z) (all : bool) :
  0 <= n ->
  exists buf,
    Stack trace_of (make n) all = (buf, Z.min n (len (trace_of all)))
    /\ len buf = n
    /\ firstn (Z.to_nat (Z.min n (len (trace_of all)))) buf
       = firstn (Z.to_nat n) (trace_of all).
Proof.
  intros H. unfold Stack.
  assert (Lm : List.length (make n) = Z.to_nat n)
    by (unfold make; apply repeat_length).
  rewrite Lm.
  set (w := firstn (Z.to_nat n) (trace_of all)).
  assert (Lw : List.length w = Nat.min (Z.to_nat n) (List.length (trace_of all)))
    by apply length_firstn.
  exists (w ++ skipn (List.length w) (make n)).
  split; [|split].
  - f_equal. unfold len. rewrite Lw. lia.
  - unfold len. rewrite length_app, length_skipn, Lm, Lw. lia.
  - replace (Z.to_nat (Z.min n (len (trace_of all)))) with (List.length w)
      by (rewrite Lw; unfold len; lia).
    rewrite firstn_app, Nat.sub_diag, firstn_all. cbn [firstn].
    apply app_nil_r.
Qed.

Lemma stacks_loop_S (fuel : nat) (i n : Z) (trace : bytes) (all : bool) :
  stacks_loop trace_of (S fuel) i n trace all
  = if i <? 5 then
      let trace := make n in
      let '(trace, nbytes) := Stack trace_of trace all in
      if nbytes <? len trace then slice_to trace nbytes
      else stacks_loop trace_of fuel (i + 1) (n * 2) trace all
    else Ok trace.
Proof. reflexivity. Qed.

(** One round of the loop: the whole trace if it is shorter than the
    buffer, another round with the buffer doubled otherwise. *)
Lemma stacks_round (fuel : nat) (i n : Z) (trace : bytes) (all : bool) :
  i < 5 -> 0 <= n ->
  exists buf,
    len buf = n
    /\ (n <= len (trace_of all) -> buf = firstn (Z.to_nat n) (trace_of all))
    /\ stacks_loop trace_of (S fuel) i n trace all
       = if len (trace_of all) <? n then Ok (trace_of all)
         else stacks_loop trace_of fuel (i + 1) (n * 2) buf all.
Proof.
  intros Hi Hn. rewrite stacks_loop_S.
  replace (i <? 5) with true by (symmetry; apply Z.ltb_lt; exact Hi).
  cbv zeta.
  destruct (Stack_make n all Hn) as (buf & -> & Lb & Fb).
  exists buf. split; [exact Lb|]. rewrite Lb.
  destruct (len (trace_of all) <? n) eqn:E.
  - apply Z.ltb_lt in E. split; [lia|].
    replace (Z.min n (len (trace_of all)) <? n) with true
      by (symmetry; apply Z.ltb_lt; lia).
    unfold slice_to. rewrite Lb.
    replace ((0 <=? Z.min n (len (trace_of all)))
             && (Z.min n (len (trace_of all)) <=? n)) with true
      by (symmetry; apply andb_true_iff; split; apply Z.leb_le; unfold len; lia).
    rewrite Fb. rewrite firstn_all2 by (unfold len in E; lia). reflexivity.
  - apply Z.ltb_ge in E. split.
    + intros _. rewrite <- Fb.
      replace (Z.min n (len (trace_of all))) with n by lia.
      rewrite <- Lb at 1. rewrite to_nat_len. symmetry. apply firstn_all.
    + replace (Z.min n (len (trace_of all)) <? n) with false
        by (symmetry; apply Z.ltb_ge; lia).
      reflexivity.
Qed.

End StacksFacts.

(** X23. The stack trace is cut at sixteen times the first buffer.  With
    [runtime.Stack] writing as much of the trace as the buffer has room
    for, [stacks] returns the trace of the calling goroutine cut after
    160000 bytes, and the trace of all goroutines cut after 1600000
    bytes: the whole trace when it is no longer than that.  It never
    fails, and the loop ends within its five rounds. *)
Theorem stacks_returns_prefix (trace_of : bool -> bytes) (all : bool) :
  Stacks.stacks trace_of all
  = Ok (firstn (Z.to_nat (if all then 1600000 else 160000)) (trace_of all)).
Proof.
  unfold Stacks.stacks.
  set (n := if all then 100000 else 10000).
  assert (Hn : 0 < n) by (destruct all; reflexivity).
  replace (if all then 1600000 else 160000) with (n * 2 * 2 * 2 * 2)
    by (destruct all; reflexivity).
  assert (W : forall m, len (trace_of all) < m -> m <= n * 2 * 2 * 2 * 2 ->
                        trace_of all
                        = firstn (Z.to_nat (n * 2 * 2 * 2 * 2)) (trace_of all)).
  { intros m H1 H2. symmetry. apply firstn_all2. unfold len in H1. lia. }
  destruct (stacks_round trace_of 5 0 n [] all ltac:(lia) ltac:(lia))
    as (b0 & _ & _ & ->).
  destruct (len (trace_of all) <? n) eqn:E0;
    [apply Z.ltb_lt in E0; f_equal; apply (W n); lia|].
  destruct (stacks_round trace_of 4 (0 + 1) (n * 2) b0 all ltac:(lia) ltac:(lia))
    as (b1 & _ & _ & ->).
  destruct (len (trace_of all) <? n * 2) eqn:E1;
    [apply Z.ltb_lt in E1; f_equal; apply (W (n * 2)); lia|].
  destruct (stacks_round trace_of 3 (0 + 1 + 1) (n * 2 * 2) b1 all
                         ltac:(lia) ltac:(lia))
    as (b2 & _ & _ & ->).
  destruct (len (trace_of all) <? n * 2 * 2) eqn:E2;
    [apply Z.ltb_lt in E2; f_equal; apply (W (n * 2 * 2)); lia|].
  destruct (stacks_round trace_of 2 (0 + 1 + 1 + 1) (n * 2 * 2 * 2) b2 all
                         ltac:(lia) ltac:(lia))
    as (b3 & _ & _ & ->).
  destruct (len (trace_of all) <? n * 2 * 2 * 2) eqn:E3;
    [apply Z.ltb_lt in E3; f_equal; apply (W (n * 2 * 2 * 2)); lia|].
  destruct (stacks_round trace_of 1 (0 + 1 + 1 + 1 + 1) (n * 2 * 2 * 2 * 2) b3 all
                         ltac:(lia) ltac:(lia))
    as (b4 & L4 & F4 & ->).
  destruct (len (trace_of all) <? n * 2 * 2 * 2 * 2) eqn:E4;
    [apply Z.ltb_lt in E4; f_equal; apply (W (n * 2 * 2 * 2 * 2)); lia|].
  apply Z.ltb_ge in E4.
  rewrite stacks_loop_S.
  replace (0 + 1 + 1 + 1 + 1 + 1 <? 5) with false by reflexivity.
  f_equal. apply F4, E4.
Qed.

(** ** The logger *)

Section LoggerFacts.

Import Logger.


(** After the last point there is no point. *)
Lemma last_index_found (name : bytes) (c : ascii) :
  forall (pkg : bytes) i found,
    ~ In c name ->
    last_index (pkg ++ c :: name) c i found = i + len pkg.
Proof.
  intros pkg. induction pkg as [|x pkg IH]; intros i found N; cbn [app last_index].
  - rewrite Ascii.eqb_refl, len_nil.
    assert (K : forall t j, ~ In c t -> last_index t c j i = i).
    { induction t as [|y t IHt]; intros j Nt; cbn [last_index]; [reflexivity|].
      replace (Ascii.eqb y c) with false
        by (symmetry; apply Ascii.eqb_neq; intros ->; apply Nt; left; reflexivity).
      apply IHt. intros I. apply Nt. right. exact I. }
    rewrite K by exact N. lia.
  - rewrite IH by exact N. rewrite len_cons. lia.
Qed.

Lemma last_index_none (s : bytes) (c : ascii) :
  forall i found, ~ In c s -> last_index s c i found = found.
Proof.
  induction s as [|y t IH]; intros i found N; cbn [last_index]; [reflexivity|].
  replace (Ascii.eqb y c) with false
    by (symmetry; apply Ascii.eqb_neq; intros ->; apply N; left; reflexivity).
  apply IH. intros I. apply N. right. exact I.
Qed.


End LoggerFacts.


Section UnixFree.

Import GrammarB.

Lemma format_part_unix (f : StdFormatter) (context : LogContext) (st : render)
      (p : fmtVerb) :
  unix_verb p = false ->
  format_part f context st p = format_part f (zero_unix context) st p.
Proof. intros H. destruct p; try discriminate H; reflexivity. Qed.

Lemma format_parts_unix (f : StdFormatter) (context : LogContext)
      (ps : list fmtVerb) :
  existsb unix_verb ps = false ->
  forall st, format_parts f context ps st = format_parts f (zero_unix context) ps st.
Proof.
  induction ps as [|p ps IH]; intros H st; [reflexivity|].
  cbn [existsb] in H. apply orb_false_iff in H. destruct H as [Hp Hps].
  cbn [format_parts]. rewrite (format_part_unix f context st p Hp).
  destruct (format_part f (zero_unix context) st p); cbn [bind]; try reflexivity.
  apply IH, Hps.
Qed.

Lemma zero_unix_numbers (context : LogContext) :
  numbers_ok (Time_ context) (Line context) -> numbers_okB (zero_unix context).
Proof.
  intros H. unfold numbers_okB, zero_unix.
  cbn [Time_ Line Unix UnixNano].
  split; [|split; split; (reflexivity || discriminate)].
  unfold numbers_ok in *. cbn [Date Clock Nanosecond]. exact H.
Qed.

End UnixFree.

(** X25. The package-level logger writes date, time and message.  In
    [factorlog.go] [std] is compiled from [%d %t %M]: whatever writer
    stands for [os.Stderr], for every time with fields that are not
    negative, every severity, call depth and message, [Output] on it
    hands the writer, once, exactly [YYYY/MM/DD HH:MM:SS], a space and
    the message, with a line feed added unless the message ends in one,
    returns the error the writer returns, leaves the mutex free and never
    looks at the caller.  In the later generation, compiled from
    [%{Date} %{Time} %{Message}], the same holds with [YYYY-MM-DD]. *)
Theorem std_writes_lines (ColorCode : bytes -> bytes)
        (W : Type) (writer : Logger.Writer W) (w : W)
        (rt : Logger.Runtime) (sev : Severity) (calldepth : Z) (s : bytes) :
  numbers_ok (Logger.Now rt) 0 ->
  (exists line,
      terminate (show_date "/" (Logger.Now rt) ++ B " "
                 ++ show_clock (Logger.Now rt) ++ B " " ++ s) = Ok line
      /\ Logger.Output rt sev calldepth s (Logger.std w)
         = (Logger.mkFactorLog false (fst (Logger.Write w line))
                               (Logger.formatter (Logger.std w)) 0,
            Ok (snd (snd (Logger.Write w line)))))
  /\ (exists line,
         terminate (show_date "-" (Logger.Now rt) ++ B " "
                    ++ show_clock (Logger.Now rt) ++ B " " ++ s) = Ok line
         /\ Logger.OutputB rt sev calldepth s (Logger.stdB ColorCode w)
            = (Logger.mkFactorLog false (fst (Logger.Write w line))
                                  (Logger.formatter (Logger.stdB ColorCode w)) 0,
               Ok (snd (snd (Logger.Write w line))))).
Proof.
  intros Hn. split.
  - destruct (terminate_spec (show_date "/" (Logger.Now rt) ++ B " "
                              ++ show_clock (Logger.Now rt) ++ B " " ++ s))
      as (line & T & _).
    exists line. split; [exact T|].
    assert (E : GrammarA.Format (GrammarA.NewStdFormatter (B "%d %t %M"))
                  (GrammarA.mkLogRecord (Logger.Now rt) sev [] 0 [] [] s)
                = Ok line).
    { unfold GrammarA.Format.
      rewrite (accumulate_interpret
                 (GrammarA.mkLogRecord (Logger.Now rt) sev [] 0 [] [] s) Hn).
      replace (interpret (GrammarA.mkLogRecord (Logger.Now rt) sev [] 0 [] [] s)
                         false (runes (B "%d %t %M")))
        with (Ok (show_date "/" (Logger.Now rt) ++ B " "
                  ++ show_clock (Logger.Now rt) ++ B " " ++ s))
        by (cbn; rewrite !app_nil_r; reflexivity).
      cbn [bind]. exact T. }
    unfold Logger.Output, Logger.then_, Logger.defer, Logger.Lock, Logger.Unlock,
      Logger.get, Logger.lift, Logger.ret, Logger.write, Logger.std, Logger.New.
    cbn [Logger.mu Logger.out Logger.formatter Logger.verbosity andb
         Logger.ShouldRuntimeCaller Logger.Format Logger.StdFormatterA].
    replace (GrammarA.ShouldRuntimeCaller (GrammarA.NewStdFormatter (B "%d %t %M")))
      with false by reflexivity.
    cbv iota.
    cbn [Logger.mu Logger.out Logger.formatter Logger.verbosity].
    rewrite E.
    destruct (Logger.Write w line) as [w' [n err]]. reflexivity.
  - destruct (terminate_spec (show_date "-" (Logger.Now rt) ++ B " "
                              ++ show_clock (Logger.Now rt) ++ B " " ++ s))
      as (line & T & _).
    exists line. split; [exact T|].
    unfold Logger.OutputB, Logger.then_, Logger.defer, Logger.Lock, Logger.Unlock,
      Logger.get, Logger.lift, Logger.ret, Logger.write, Logger.stdB, Logger.NewB.
    cbn [Logger.mu Logger.out Logger.formatter Logger.verbosity andb
         Logger.ShouldRuntimeCaller Logger.Format Logger.StdFormatterB].
    set (context := GrammarB.mkLogContext (Logger.Now rt) sev [] 0 [] s
                                          (Logger.Getpid rt)).
    set (frmt := B "%{Date} %{Time} %{Message}").
    replace (GrammarB.ShouldRuntimeCaller (GrammarB.NewStdFormatter ColorCode frmt))
      with false by reflexivity.
    cbv iota.
    cbn [Logger.mu Logger.out Logger.formatter Logger.verbosity].
    assert (E : GrammarB.Format (GrammarB.NewStdFormatter ColorCode frmt) context
                = Ok line).
    { unfold GrammarB.Format, GrammarB.accumulate.
      rewrite format_parts_unix by reflexivity.
      fold (GrammarB.accumulate (GrammarB.NewStdFormatter ColorCode frmt)
                                (zero_unix context)).
      rewrite (accumulate_readB ColorCode (zero_unix context) frmt
                                (zero_unix_numbers context Hn)).
      replace (readB ColorCode (zero_unix context) 0 frmt)
        with (Ok (show_date "-" (Logger.Now rt) ++ B " "
                  ++ show_clock (Logger.Now rt) ++ B " " ++ s))
        by (cbn; rewrite !app_nil_r; reflexivity).
      cbn [bind]. exact T. }
    rewrite E.
    destruct (Logger.Write w line) as [w' [n err]]. reflexivity.
Qed.

Lemma testRuntime_numbers (line : Z) :
  0 <= line < 10 ^ 64 -> numbers_ok (Logger.Now testRuntime) line.
Proof.
  intros H.
  cbv [numbers_ok testRuntime Logger.Now fmtTestsTime Date Clock Nanosecond].
  repeat split; try discriminate; lia.
Qed.

Lemma std_writes_lines_witness :
  numbers_ok (Logger.Now testRuntime) 0
  /\ (exists line,
         terminate (show_date "/" (Logger.Now testRuntime) ++ B " "
                    ++ show_clock (Logger.Now testRuntime) ++ B " "
                    ++ B "hello there!") = Ok line
         /\ Logger.Output testRuntime ERROR 2 (B "hello there!")
                          (Logger.std (B "earlier line" ++ [newline]))
            = (Logger.mkFactorLog
                 false
                 (fst (Logger.Write (B "earlier line" ++ [newline]) line))
                 (Logger.formatter (Logger.std (B "earlier line" ++ [newline]))) 0,
               Ok (snd (snd (Logger.Write (B "earlier line" ++ [newline]) line)))))
     /\ (exists line,
            terminate (show_date "-" (Logger.Now testRuntime) ++ B " "
                       ++ show_clock (Logger.Now testRuntime) ++ B " "
                       ++ B "hello there!") = Ok line
            /\ Logger.OutputB testRuntime ERROR 2 (B "hello there!")
                              (Logger.stdB (fun _ => [])
                                           (B "earlier line" ++ [newline]))
               = (Logger.mkFactorLog
                    false
                    (fst (Logger.Write (B "earlier line" ++ [newline]) line))
                    (Logger.formatter
                       (Logger.stdB (fun _ => []) (B "earlier line" ++ [newline])))
                    0,
                  Ok (snd (snd (Logger.Write (B "earlier line" ++ [newline])
                                             line))))).
Proof.
  assert (H : numbers_ok (Logger.Now testRuntime) 0)
    by (apply testRuntime_numbers; lia).
  split; [exact H|].
  apply (std_writes_lines (fun _ => []) bytes Logger.Buffer
                          (B "earlier line" ++ [newline])
                          testRuntime ERROR 2 (B "hello there!") H).
Defined.

(** X26. What [Output] tells the formatter about the caller.  When
    [runtime.Caller] answers and the function is known, [%F] and [%s]
    render the file and the line it gave, [%P] the whole identifier of the
    function and [%p] what stands before its last point, the package
    path, not the name of the function.  When [runtime.Caller] does not
    answer, the file is [???], the line 0 and both names are empty. *)
Theorem Output_names_the_caller
        (w : bytes) (rt rt0 : Logger.Runtime) (sev : Severity) (calldepth : Z)
        (s : bytes) (pc : Z) (file : bytes) (line : Z) (pkg name : bytes) :
  numbers_ok (Logger.Now rt) line ->
  Logger.Caller rt calldepth = Some (pc, file, line) ->
  Logger.FuncForPC rt pc = Some (pkg ++ "."%char :: name) ->
  ~ In "."%char name ->
  numbers_ok (Logger.Now rt0) 0 ->
  Logger.Caller rt0 calldepth = None ->
  (exists out,
      terminate (file ++ B ":" ++ decimal line ++ B " "
                 ++ (pkg ++ "."%char :: name) ++ B " " ++ pkg) = Ok out
      /\ Logger.Output rt sev calldepth s (Logger.New w (B "%F:%s %P %p"))
         = (Logger.mkFactorLog false (w ++ out)
                               (GrammarA.NewStdFormatter (B "%F:%s %P %p")) 0,
            Ok None))
  /\ Logger.Output rt0 sev calldepth s (Logger.New w (B "%F:%s %P %p"))
     = (Logger.mkFactorLog false (w ++ B "???:0  " ++ [newline])
                           (GrammarA.NewStdFormatter (B "%F:%s %P %p")) 0,
        Ok None).
Proof.
  intros Hn Hc Hf Hd Hn0 Hc0.
  assert (Li : Logger.LastIndex (pkg ++ "."%char :: name) "."%char = len pkg).
  { unfold Logger.LastIndex.
    rewrite (last_index_found name "."%char pkg 0 (-1) Hd). lia. }
  split.
  - destruct (terminate_spec (file ++ B ":" ++ decimal line ++ B " "
                              ++ (pkg ++ "."%char :: name) ++ B " " ++ pkg))
      as (out & T & _).
    exists out. split; [exact T|].
    unfold Logger.Output, Logger.then_, Logger.defer, Logger.Lock, Logger.Unlock,
      Logger.get, Logger.lift, Logger.ret, Logger.write, Logger.New.
    cbn [Logger.mu Logger.out Logger.formatter Logger.verbosity andb
         Logger.ShouldRuntimeCaller Logger.Format Logger.StdFormatterA].
    replace (GrammarA.ShouldRuntimeCaller
               (GrammarA.NewStdFormatter (B "%F:%s %P %p")))
      with true by reflexivity.
    cbv iota.
    cbn [Logger.mu Logger.out Logger.formatter Logger.verbosity andb
         Logger.Write Logger.Buffer].
    unfold Logger.locate. rewrite Hc, Hf. cbv zeta. rewrite Li.
    replace (negb (len pkg =? -1)) with true
      by (symmetry; apply negb_true_iff, Z.eqb_neq; pose proof (len_nonneg pkg);
          lia).
    rewrite (slice_to_app pkg ("."%char :: name)).
    cbn [bind GrammarA.Time_ GrammarA.Severity_ GrammarA.File GrammarA.Line
         GrammarA.Function GrammarA.Package GrammarA.Message
         Logger.mu Logger.out Logger.formatter Logger.verbosity andb].
    unfold GrammarA.Format.
    rewrite (accumulate_interpret
               (GrammarA.mkLogRecord (Logger.Now rt) sev file line
                                     (pkg ++ "."%char :: name) pkg s) Hn).
    replace (interpret
               (GrammarA.mkLogRecord (Logger.Now rt) sev file line
                                     (pkg ++ "."%char :: name) pkg s)
               false (runes (B "%F:%s %P %p")))
      with (Ok (file ++ B ":" ++ decimal line ++ B " "
                ++ (pkg ++ "."%char :: name) ++ B " " ++ pkg))
      by (cbn; rewrite !app_nil_r; reflexivity).
    cbn [bind]. rewrite T. reflexivity.
  - unfold Logger.Output, Logger.then_, Logger.defer, Logger.Lock, Logger.Unlock,
      Logger.get, Logger.lift, Logger.ret, Logger.write, Logger.New.
    cbn [Logger.mu Logger.out Logger.formatter Logger.verbosity andb
         Logger.ShouldRuntimeCaller Logger.Format Logger.StdFormatterA].
    replace (GrammarA.ShouldRuntimeCaller
               (GrammarA.NewStdFormatter (B "%F:%s %P %p")))
      with true by reflexivity.
    cbv iota.
    cbn [Logger.mu Logger.out Logger.formatter Logger.verbosity andb
         Logger.Write Logger.Buffer].
    unfold Logger.locate. rewrite Hc0.
    cbn [bind GrammarA.Time_ GrammarA.Severity_ GrammarA.File GrammarA.Line
         GrammarA.Function GrammarA.Package GrammarA.Message
         Logger.mu Logger.out Logger.formatter Logger.verbosity andb].
    unfold GrammarA.Format.
    rewrite (accumulate_interpret
               (GrammarA.mkLogRecord (Logger.Now rt0) sev (B "???") 0 [] [] s) Hn0).
    replace (interpret
               (GrammarA.mkLogRecord (Logger.Now rt0) sev (B "???") 0 [] [] s)
               false (runes (B "%F:%s %P %p")))
      with (Ok (B "???:0  "))
      by (cbn; reflexivity).
    reflexivity.
Qed.

Lemma Output_names_the_caller_witness :
  (numbers_ok (Logger.Now testRuntime) 122
   /\ Logger.Caller testRuntime 2
      = Some (4198400, B "/go/src/factorlog/factorlog_test.go", 122)
   /\ Logger.FuncForPC testRuntime 4198400
      = Some (B "github.com/kdar/factorlog" ++ "."%char :: B "TestLog")
   /\ ~ In "."%char (B "TestLog")
   /\ numbers_ok (Logger.Now blindRuntime) 0
   /\ Logger.Caller blindRuntime 2 = None)
  /\ (exists out,
         terminate (B "/go/src/factorlog/factorlog_test.go" ++ B ":"
                    ++ decimal 122 ++ B " "
                    ++ (B "github.com/kdar/factorlog" ++ "."%char :: B "TestLog")
                    ++ B " " ++ B "github.com/kdar/factorlog") = Ok out
         /\ Logger.Output testRuntime ERROR 2 (B "hello there!")
                          (Logger.New [] (B "%F:%s %P %p"))
            = (Logger.mkFactorLog false ([] ++ out)
                                  (GrammarA.NewStdFormatter (B "%F:%s %P %p")) 0,
               Ok None))
     /\ Logger.Output blindRuntime ERROR 2 (B "hello there!")
                      (Logger.New [] (B "%F:%s %P %p"))
        = (Logger.mkFactorLog false ([] ++ B "???:0  " ++ [newline])
                              (GrammarA.NewStdFormatter (B "%F:%s %P %p")) 0,
           Ok None).
Proof.
  assert (H : numbers_ok (Logger.Now testRuntime) 122)
    by (apply testRuntime_numbers; lia).
  assert (H0 : numbers_ok (Logger.Now blindRuntime) 0)
    by (apply (testRuntime_numbers 0); lia).
  assert (N : ~ In "."%char (B "TestLog")) by not_in_text.
  split.
  - split; [exact H|]. split; [reflexivity|]. split; [reflexivity|].
    split; [exact N|]. split; [exact H0 | reflexivity].
  - apply (Output_names_the_caller
             [] testRuntime blindRuntime ERROR 2 (B "hello there!") 4198400
             (B "/go/src/factorlog/factorlog_test.go") 122
             (B "github.com/kdar/factorlog") (B "TestLog")
             H eq_refl eq_refl N H0 eq_refl).
Defined.

(** ** The glog formatter *)

Section GlogFacts.

Lemma bind_assoc {A B C : Type} (c : result A) (k : A -> result B)
      (h : B -> result C) :
  (x <- c ;; y <- k x ;; h y) = (y <- (x <- c ;; k x) ;; h y).
Proof. destruct c; reflexivity. Qed.

(** A scratch buffer of 64 bytes, its first 28 bytes named. *)
Lemma scratch_split28 (t : bytes) :
  List.length t = 64%nat ->
  exists a0 a1 a2 a3 a4 a5 a6 a7 a8 a9 a10 a11 a12 a13 a14 a15 a16 a17 a18 a19
         a20 a21 a22 a23 a24 a25 a26 a27 rest,
    t = a0 :: a1 :: a2 :: a3 :: a4 :: a5 :: a6 :: a7 :: a8 :: a9
           :: a10 :: a11 :: a12 :: a13 :: a14 :: a15 :: a16 :: a17 :: a18
           :: a19 :: a20 :: a21 :: a22 :: a23 :: a24 :: a25 :: a26 :: a27
           :: rest
    /\ List.length rest = 36%nat.
Proof.
  intros H.
  do 28 (destruct t as [|? t]; [discriminate H|]).
  repeat eexists. cbn [List.length] in H. lia.
Qed.

(** [itoa] into the second byte of a scratch buffer. *)
Lemma itoa_at_one (c0 : ascii) (t : bytes) (line : Z) :
  List.length t = 63%nat ->
  0 <= line < 10 ^ 61 ->
  exists tail,
    itoa (c0 :: t) 1 line = Ok (c0 :: decimal line ++ tail, len (decimal line))
    /\ (List.length (decimal line) + List.length tail = 63)%nat
    /\ (1 <= List.length (decimal line) <= 61)%nat.
Proof.
  intros Ht Hl.
  assert (K : (1 <= List.length (decimal line) <= 61)%nat)
    by (apply (decimal_length 60); exact Hl).
  destruct (encoders_agree (c0 :: t) 1 line) as [-> _];
    [lia | cbn [List.length]; lia |].
  cbn [List.length]. rewrite Ht.
  replace (64 - List.length (decimal line))%nat
    with (S (63 - List.length (decimal line))) by lia.
  cbn [firstn].
  set (pre := firstn (63 - List.length (decimal line)) t).
  assert (Lp : List.length pre = (63 - List.length (decimal line))%nat)
    by (unfold pre; rewrite length_firstn; lia).
  unfold copy_within.
  change ((c0 :: pre) ++ decimal line) with (c0 :: (pre ++ decimal line)).
  replace (slice_from (c0 :: pre ++ decimal line) 1)
    with (Ok (pre ++ decimal line))
    by (symmetry; apply (slice_from_app [c0] (pre ++ decimal line))).
  cbn [bind].
  change (c0 :: pre ++ decimal line) with ((c0 :: pre) ++ decimal line).
  rewrite slice_from_app. cbn [bind].
  replace (Z.min (len (pre ++ decimal line)) (len (decimal line)))
    with (len (decimal line))
    by (unfold len; rewrite length_app; lia).
  exists (skipn (List.length (decimal line)) (pre ++ decimal line)).
  rewrite to_nat_len, firstn_all.
  change (Z.to_nat 1) with 1%nat. cbn [firstn app].
  split; [reflexivity|].
  split; [|exact K].
  rewrite length_skipn, length_app. lia.
Qed.

End GlogFacts.

(** The line of [TestGlogFormatter], for a record that gives it. *)
Example TestGlogFormatter :
  Glog.Format (fun _ _ => []) (@List.concat ascii) (fun sev => sev)
              Glog.NewGlogFormatter glogTestsContext
  = Ok (B "P0108 18:27:14.123456 01234 testing.go:391] hello there!"
          ++ [newline]).
Proof. vm_compute. reflexivity. Qed.

(** X27. The glog line.  For a record whose numbers the writers can take
    (date and time fields, nanoseconds and process id not negative, a line
    number of at most 61 digits) and a level whose name is not empty, the
    glog formatter renders the first letter of the level, month and day in
    two digits each, a space, [HH:MM:SS], a point and the microseconds in
    six digits, a space, the low five digits of the process id, a space,
    the base name of the file (nothing for an empty name), a colon, the
    line number, a bracket and a space, and the message.  The line feed is
    decided on the message alone: an empty message leaves the line without
    one. *)
Theorem Glog_line (Args : Type) (Sprintf : bytes -> Args -> bytes)
        (Sprint : Args -> bytes) (SeverityToIndex : Severity -> Z)
        (f : Glog.GlogFormatter) (context : Glog.LogContext Args)
        (c : ascii) (more : bytes) :
  List.length (Glog.tmp f) = 64%nat ->
  numbers_ok (Glog.Time_ context) (Glog.Line context) ->
  Glog.Line context < 10 ^ 61 ->
  0 <= Glog.Pid context ->
  index GrammarB.UcShortestSeverityStrings
        (SeverityToIndex (Glog.Severity_ context)) = Ok (c :: more) ->
  let message := match Glog.Format_ context with
                 | Some format => Sprintf format (Glog.Args_ context)
                 | None => Sprint (Glog.Args_ context)
                 end in
  exists text,
    terminate message = Ok text
    /\ (message = [] -> text = [])
    /\ Glog.Format Sprintf Sprint SeverityToIndex f context
       = Ok (glog_header c (Glog.Time_ context) (Glog.Pid context)
             ++ base_name (Glog.File context) ++ B ":"
             ++ decimal (Glog.Line context) ++ B "] " ++ text).
Proof.
  intros Ht Hn Hl Hp Hs message.
  destruct (terminate_spec message) as (text & T & _ & _ & T3).
  exists text. split; [exact T|]. split; [exact T3|].
  unfold Glog.Format, glog_header, show_clock, numbers_ok in *.
  rewrite bind_assoc, base_name_loop. cbn [bind].
  destruct (Date (Glog.Time_ context)) as [[year month] day].
  destruct (Clock (Glog.Time_ context)) as [[hour minute] second].
  destruct Hn as (Hy & Hmo & Hd & Hh & Hmi & Hse & Hns & Hl0 & _).
  assert (Hus : 0 <= Z.quot (Nanosecond (Glog.Time_ context)) 1000)
    by (apply Z.quot_pos; lia).
  rewrite Hs. cbn [bind]. rewrite index_0. cbn [bind].
  destruct (scratch_split28 (Glog.tmp f) Ht)
    as (a0 & a1 & a2 & a3 & a4 & a5 & a6 & a7 & a8 & a9 & a10 & a11 & a12
        & a13 & a14 & a15 & a16 & a17 & a18 & a19 & a20 & a21 & a22 & a23
        & a24 & a25 & a26 & a27 & rest & -> & Hr).
  unfold Glog.TwoDigits, Glog.NDigits, Glog.Itoa.
  store_step. two_step Hmo. two_step Hd. store_step. two_step Hh. store_step.
  two_step Hmi. store_step. two_step Hse. store_step. n_step 6%nat Hus.
  store_step. n_step 5%nat Hp. store_step. slice_step 28%nat.
  store_step.
  match goal with
  | |- context [itoa (?c0 :: ?t) 1 ?d] =>
    destruct (itoa_at_one c0 t d) as (tail & -> & Lt & Ld);
      [cbn [List.length]; lia | lia |]
  end.
  cbn [bind].
  destruct tail as [|x [|y tail]]; cbn [List.length] in Lt; try lia.
  set (dec := decimal (Glog.Line context)) in *.
  assert (L1 : len dec + 1 = len (":"%char :: dec))
    by (rewrite len_cons; lia).
  assert (L2 : len dec + 2 = len (":"%char :: dec ++ ["]"%char]))
    by (rewrite len_cons, len_app; change (len ["]"%char]) with 1; lia).
  assert (L3 : len dec + 3 = len (":"%char :: dec ++ B "] "))
    by (rewrite len_cons, len_app; change (len (B "] ")) with 2; lia).
  rewrite (store_at (":"%char :: dec ++ x :: y :: tail) (":"%char :: dec)
                    (y :: tail) x "]"%char (len dec + 1) eq_refl L1).
  cbn [bind].
  assert (E2 : (":"%char :: dec) ++ "]"%char :: y :: tail
               = (":"%char :: dec ++ ["]"%char]) ++ y :: tail) by app_flat.
  rewrite (store_at ((":"%char :: dec) ++ "]"%char :: y :: tail)
                    (":"%char :: dec ++ ["]"%char])
                    tail y " "%char (len dec + 2) E2 L2).
  cbn [bind].
  assert (E3 : (":"%char :: dec ++ ["]"%char]) ++ " "%char :: tail
               = (":"%char :: dec ++ B "] ") ++ tail) by app_flat.
  rewrite (slice_to_at ((":"%char :: dec ++ ["]"%char]) ++ " "%char :: tail)
                       (":"%char :: dec ++ B "] ") tail (len dec + 3) E3 L3).
  cbn [bind]. cbv zeta. fold message.
  unfold terminate in T.
  destruct (0 <? len message).
  - destruct (index message (len message - 1)) as [last| |];
      cbn [bind] in T |- *; try discriminate T.
    destruct (negb (Ascii.eqb last newline)); injection T as <-;
      f_equal; app_flat.
  - injection T as <-. f_equal. app_flat.
Qed.

Lemma Glog_line_witness :
  (List.length (Glog.tmp Glog.NewGlogFormatter) = 64%nat
   /\ numbers_ok (Glog.Time_ glogTestsContext) (Glog.Line glogTestsContext)
   /\ Glog.Line glogTestsContext < 10 ^ 61
   /\ 0 <= Glog.Pid glogTestsContext
   /\ index GrammarB.UcShortestSeverityStrings (Glog.Severity_ glogTestsContext)
      = Ok ("P"%char :: []))
  /\ exists text,
      terminate (List.concat (Glog.Args_ glogTestsContext)) = Ok text
      /\ (List.concat (Glog.Args_ glogTestsContext) = [] -> text = [])
      /\ Glog.Format (fun _ _ => []) (@List.concat ascii) (fun sev => sev)
                     Glog.NewGlogFormatter glogTestsContext
         = Ok (glog_header "P"%char (Glog.Time_ glogTestsContext)
                           (Glog.Pid glogTestsContext)
               ++ base_name (Glog.File glogTestsContext) ++ B ":"
               ++ decimal (Glog.Line glogTestsContext) ++ B "] " ++ text).
Proof.
  assert (H : numbers_ok (Glog.Time_ glogTestsContext) (Glog.Line glogTestsContext)).
  { cbv [numbers_ok glogTestsContext Glog.Time_ Glog.Line Date Clock Nanosecond].
    repeat split; try discriminate; reflexivity. }
  split.
  - split; [reflexivity|]. split; [exact H|]. split; [reflexivity|].
    split; [discriminate | reflexivity].
  - apply (Glog_line (list bytes) (fun _ _ => []) (@List.concat ascii)
                     (fun sev => sev) Glog.NewGlogFormatter glogTestsContext
                     "P"%char [] eq_refl H eq_refl ltac:(discriminate) eq_refl).
Defined.

(** ** Literal text in Grammar A *)

Section EscapeA.

Import GrammarA.

Lemma scan_escaped (s : bytes) :
  forall st,
    isverb st = false ->
    Forall (fun c => code c < 128) s ->
    Forall (eq vSTRING) (parts (f_ st)) ->
    isverb (fold_left scan_rune (runes (escapeA s)) st) = false
    /\ Forall (eq vSTRING) (parts (f_ (fold_left scan_rune (runes (escapeA s)) st))).
Proof.
  induction s as [|c s IH]; intros st Hv Ha Hp.
  - split; assumption.
  - inversion Ha as [|? ? Hc Hs]; subst.
    cbn [escapeA flat_map]. fold (escapeA s).
    destruct (Ascii.eqb_spec c "%"%char) as [-> | Nc].
    + rewrite runes_app_ascii by (repeat constructor).
      rewrite fold_left_app, scan_doubled_sentinel by exact Hv.
      destruct (0 <? len (raw st)).
      * apply IH; [reflexivity | exact Hs |].
        cbn [f_ add_string parts]. apply Forall_app. split; [exact Hp|].
        repeat constructor.
      * apply IH; [reflexivity | exact Hs | exact Hp].
    + rewrite runes_app_ascii by (repeat constructor; exact Hc).
      rewrite fold_left_app.
      rewrite (runes_ascii [c]) by (repeat constructor; exact Hc).
      assert (P : Forall (fun c => plain c = true) [c]).
      { apply Forall_cons; [|apply Forall_nil]. unfold plain.
        apply andb_true_iff. split;
          [apply Z.ltb_lt; exact Hc | apply negb_true_iff, Ascii.eqb_neq, Nc]. }
      rewrite (scan_plain [c] st Hv P).
      apply IH; [reflexivity | exact Hs | exact Hp].
Qed.

Lemma escaped_parts (s : bytes) :
  Forall (fun c => code c < 128) s ->
  Forall (eq vSTRING) (parts (NewStdFormatter (escapeA s))).
Proof.
  intros Ha. unfold NewStdFormatter.
  set (st0 := mkScan (mkStdFormatter (escapeA s) [] [] (repeat zero 64) 0) false []).
  destruct (scan_escaped s st0 eq_refl Ha (Forall_nil _)) as [_ Hp].
  destruct (0 <? len _); [|exact Hp].
  cbn [add_string parts]. apply Forall_app. split; [exact Hp|].
  repeat constructor.
Qed.

(** A formatter of literal parts only does not read the record. *)
Lemma format_parts_strings (f : StdFormatter) (d1 d2 : LogRecord)
      (ps : list fmtVerb) :
  Forall (eq vSTRING) ps ->
  forall st, format_parts f d1 ps st = format_parts f d2 ps st.
Proof.
  induction 1 as [|p ps <- _ IH]; intros st; [reflexivity|].
  cbn [format_parts format_part].
  destruct (index (strings f) (stringi st)); cbn [bind]; try reflexivity.
  apply IH.
Qed.

Lemma interpret_escaped (data : LogRecord) (s : bytes) :
  Forall (fun c => code c < 128) s ->
  interpret data false (runes (escapeA s)) = Ok s.
Proof.
  induction 1 as [|c s Hc Hs IH]; [reflexivity|].
  cbn [escapeA flat_map]. fold (escapeA s).
  destruct (Ascii.eqb_spec c "%"%char) as [-> | Nc].
  - rewrite runes_app_ascii by (repeat constructor).
    rewrite interpret_app.
    replace (interpret data false (runes (B "%%"))) with (Ok (B "%"))
      by reflexivity.
    cbn [bind]. 
    replace (fold_left (fun (b : bool) (c : Z) => negb b && rune_is c "%")
                       (runes (B "%%")) false)
      with false by reflexivity.
    rewrite IH. reflexivity.
  - rewrite runes_app_ascii by (repeat constructor; exact Hc).
    rewrite interpret_app.
    rewrite (runes_ascii [c]) by (repeat constructor; exact Hc).
    cbn [map interpret fold_left].
    assert (E : rune_is (code c) "%" = false).
    { unfold rune_is. apply Z.eqb_neq. intros E. apply Nc, code_inj, E. }
    unfold piece. rewrite E. cbn [bind negb andb app].
    rewrite byte_code, IH. reflexivity.
Qed.

End EscapeA.

(** X28. Grammar A, literal text.  Doubling each percent sign of an ASCII
    text gives a template that renders, for every record whatever it
    holds, as that text and the line terminator: the escape of the grammar
    is enough to write any ASCII text literally. *)
Theorem escaped_text_renders (s : bytes) (data : GrammarA.LogRecord) :
  Forall (fun c => code c < 128) s ->
  GrammarA.Format (GrammarA.NewStdFormatter (escapeA s)) data
  = terminate s.
Proof.
  intros Ha. unfold GrammarA.Format, GrammarA.accumulate.
  rewrite (format_parts_strings _ data (bare_record data) _ (escaped_parts s Ha)).
  fold (GrammarA.accumulate (GrammarA.NewStdFormatter (escapeA s))
                            (bare_record data)).
  rewrite (accumulate_interpret (bare_record data)).
  - rewrite (interpret_escaped (bare_record data) s Ha). reflexivity.
  - cbv [numbers_ok bare_record GrammarA.Time_ GrammarA.Line Date Clock
                    Nanosecond].
    repeat split; try discriminate; reflexivity.
Qed.

Lemma escaped_text_renders_witness :
  Forall (fun c => code c < 128) (B "100% of %M in %%s")
  /\ GrammarA.Format (GrammarA.NewStdFormatter (escapeA (B "100% of %M in %%s")))
                     fmtTestsData
     = terminate (B "100% of %M in %%s").
Proof.
  assert (A : Forall (fun c => code c < 128) (B "100% of %M in %%s"))
    by (repeat constructor).
  split; [exact A|].
  apply (escaped_text_renders (B "100% of %M in %%s") fmtTestsData A).
Defined.

(** X29. Grammar B, the numeric verbs.  For a record whose numbers the
    writers can take: [%{Date}] renders the low four digits of the year
    and the low two of the month and of the day, zero padded, with [-]
    between; [%{Time}] renders hour, minute and second in two digits each
    with colons; [%{Unix}], [%{UnixNano}] and [%{Line}] render the seconds,
    the nanoseconds and the line number in decimal, with no padding and
    no sign. *)
Theorem numeric_verbsB (ColorCode : bytes -> bytes)
        (context : GrammarB.LogContext) :
  numbers_okB context ->
  let t := GrammarB.Time_ context in
  GrammarB.accumulate (GrammarB.NewStdFormatter ColorCode (B "%{Date}")) context
  = Ok (show_date "-" t)
  /\ GrammarB.accumulate (GrammarB.NewStdFormatter ColorCode (B "%{Time}")) context
     = Ok (show_clock t)
  /\ GrammarB.accumulate (GrammarB.NewStdFormatter ColorCode (B "%{Unix}")) context
     = Ok (decimal (Unix t))
  /\ value (decimal (Unix t)) = Unix t
  /\ GrammarB.accumulate (GrammarB.NewStdFormatter ColorCode (B "%{UnixNano}"))
                         context
     = Ok (decimal (UnixNano t))
  /\ value (decimal (UnixNano t)) = UnixNano t
  /\ GrammarB.accumulate (GrammarB.NewStdFormatter ColorCode (B "%{Line}")) context
     = Ok (decimal (GrammarB.Line context))
  /\ value (decimal (GrammarB.Line context)) = GrammarB.Line context.
Proof.
  intros Hn t. subst t. pose proof Hn as (Hn1 & Hu & Hun).
  compile_template. one_verb (context) Hn. cbn [show_verbB].
  repeat split; try (apply value_decimal); try lia.
  unfold numbers_ok in Hn1.
  destruct (Date (GrammarB.Time_ context)) as [[? ?] ?].
  destruct (Clock (GrammarB.Time_ context)) as [[? ?] ?]. lia.
Qed.

Lemma numeric_verbsB_witness :
  numbers_okB logTestContext
  /\ (GrammarB.accumulate (GrammarB.NewStdFormatter (fun _ => []) (B "%{Date}"))
                          logTestContext
      = Ok (show_date "-" (GrammarB.Time_ logTestContext))
      /\ GrammarB.accumulate (GrammarB.NewStdFormatter (fun _ => []) (B "%{Time}"))
                             logTestContext
         = Ok (show_clock (GrammarB.Time_ logTestContext))
      /\ GrammarB.accumulate (GrammarB.NewStdFormatter (fun _ => []) (B "%{Unix}"))
                             logTestContext
         = Ok (decimal (Unix (GrammarB.Time_ logTestContext)))
      /\ value (decimal (Unix (GrammarB.Time_ logTestContext)))
         = Unix (GrammarB.Time_ logTestContext)
      /\ GrammarB.accumulate
           (GrammarB.NewStdFormatter (fun _ => []) (B "%{UnixNano}")) logTestContext
         = Ok (decimal (UnixNano (GrammarB.Time_ logTestContext)))
      /\ value (decimal (UnixNano (GrammarB.Time_ logTestContext)))
         = UnixNano (GrammarB.Time_ logTestContext)
      /\ GrammarB.accumulate (GrammarB.NewStdFormatter (fun _ => []) (B "%{Line}"))
                             logTestContext
         = Ok (decimal (GrammarB.Line logTestContext))
      /\ value (decimal (GrammarB.Line logTestContext))
         = GrammarB.Line logTestContext).
Proof.
  split; [exact logTestContext_numbers|].
  apply (numeric_verbsB (fun _ => []) logTestContext logTestContext_numbers).
Defined.

(** ** The caller flag and the escape, by the readings of the templates *)

Section CallerA.

Import GrammarA.

Lemma location_letter_spec (c : Z) :
  location_letter c
  = match verb_of_rune c with
    | Some v => needs_callerA v
    | None => false
    end.
Proof.
  unfold location_letter, verb_of_rune, rune_is.
  repeat match goal with
         | |- context [c =? ?k] =>
           destruct (Z.eqb_spec c k); [subst c; reflexivity|]
         end.
  reflexivity.
Qed.

Lemma scan_rune_location (st : scan) (c : Z) :
  existsb needs_callerA (parts (f_ (scan_rune st c)))
  = existsb needs_callerA (parts (f_ st)) || (isverb st && location_letter c)
  /\ isverb (scan_rune st c) = negb (isverb st) && rune_is c "%".
Proof.
  rewrite location_letter_spec. unfold scan_rune, verb_of_rune.
  destruct (isverb st); cbn [negb andb].
  - repeat match goal with
           | |- context [if rune_is c ?a then _ else _] =>
             destruct (rune_is c a) eqn:?
           end;
      cbn [f_ add_verb parts isverb]; rewrite ?existsb_app;
        cbn [existsb needs_callerA]; rewrite ?orb_false_r;
          split; reflexivity.
  - destruct (rune_is c "%"); [destruct (0 <? len (raw st))|];
      cbn [f_ add_string parts isverb]; rewrite ?existsb_app;
        cbn [existsb needs_callerA]; rewrite ?orb_false_r;
          split; reflexivity.
Qed.

Lemma scan_runes_location (rs : list Z) :
  forall st,
    existsb needs_callerA (parts (f_ (fold_left scan_rune rs st)))
    = existsb needs_callerA (parts (f_ st)) || mentions_locationA (isverb st) rs.
Proof.
  induction rs as [|c rs IH]; intros st; cbn [fold_left mentions_locationA].
  - rewrite orb_false_r. reflexivity.
  - destruct (scan_rune_location st c) as [E1 E2].
    rewrite IH, E1, E2. rewrite orb_assoc. reflexivity.
Qed.

(** The flag of a compiled template of Grammar A, read off the template. *)
Lemma ShouldRuntimeCaller_template_A (frmt : bytes) :
  ShouldRuntimeCaller (NewStdFormatter frmt)
  = mentions_locationA false (runes frmt).
Proof.
  rewrite ShouldRuntimeCaller_A. unfold NewStdFormatter.
  set (st0 := mkScan (mkStdFormatter frmt [] [] (repeat zero 64) 0) false []).
  pose proof (scan_runes_location (runes frmt) st0) as E.
  cbn [st0 f_ parts isverb existsb orb] in E.
  destruct (0 <? len (raw (fold_left scan_rune (runes frmt) st0))).
  - cbn [add_string parts]. rewrite existsb_app.
    cbn [existsb needs_callerA]. rewrite orb_false_r. exact E.
  - exact E.
Qed.

End CallerA.

Section CallerB.

Import GrammarB Regexp.

Variable ColorCode : bytes -> bytes.

Lemma existsb_verbs (ps : list fmtVerb) :
  existsb needs_callerB ps = existsb needs_callerB (filter is_verb ps).
Proof.
  induction ps as [|p ps IH]; [reflexivity|].
  destruct p; cbn [existsb filter is_verb needs_callerB orb]; rewrite ?IH;
    reflexivity.
Qed.

(** The flag of a compiled template of Grammar B, by the matches of
    [formatRe] in the template. *)
Lemma ShouldRuntimeCaller_matches (frmt : bytes) :
  ShouldRuntimeCaller (NewStdFormatter ColorCode frmt)
  = existsb needs_callerB
            (flat_map (verb_of_match frmt)
                      (FindAllStringSubmatchIndex formatRe frmt)).
Proof.
  rewrite ShouldRuntimeCaller_B, existsb_verbs.
  destruct (NewStdFormatter_okB ColorCode frmt) as [_ ->]. reflexivity.
Qed.

Lemma verb_of_match_at (done rest : list ascii) (tk : nat * option nat) :
  existsb needs_callerB
          (verb_of_match (done ++ rest) (to_submatch (List.length done) tk))
  = match verbMap (token_name tk rest) with
    | Some v => needs_callerB v
    | None => false
    end.
Proof.
  unfold verb_of_match, to_submatch, token_name. cbn [m_group1].
  rewrite substr_at.
  destruct (verbMap _) as [v|]; [|reflexivity].
  destruct v; reflexivity.
Qed.

Lemma mentions_tokens (frmt : list ascii) (rest : list ascii) :
  forall (done : list ascii) (skip : nat),
    frmt = done ++ rest ->
    existsb needs_callerB
            (flat_map (verb_of_match frmt) (tokens (List.length done) skip rest))
    = mentions_locationB skip rest.
Proof.
  induction rest as [|c t IH]; intros done skip E; [reflexivity|].
  assert (E' : frmt = (done ++ [c]) ++ t)
    by (rewrite <- app_assoc; exact E).
  assert (L' : S (List.length done) = List.length (done ++ [c]))
    by (rewrite length_app; cbn; lia).
  cbn [tokens mentions_locationB]. destruct skip as [|k].
  - destruct (token_at (c :: t)) as [tk|].
    + cbn [flat_map]. rewrite existsb_app, L', (IH _ _ E').
      rewrite E at 1. rewrite verb_of_match_at. reflexivity.
    + rewrite L'. apply IH, E'.
  - rewrite L'. apply IH, E'.
Qed.

(** The flag of a compiled template of Grammar B, read off the template. *)
Lemma ShouldRuntimeCaller_template_B (frmt : bytes) :
  ShouldRuntimeCaller (NewStdFormatter ColorCode frmt)
  = mentions_locationB 0 frmt.
Proof.
  rewrite ShouldRuntimeCaller_matches, FindAll_tokens.
  exact (mentions_tokens frmt frmt [] 0%nat eq_refl).
Qed.

Lemma appendString_strings (f : StdFormatter) (s : bytes) :
  strings (appendString f s) = strings f ++ filter not_empty [s].
Proof.
  unfold appendString. cbn [filter]. unfold not_empty.
  destruct (0 <? len s); cbn [strings]; [reflexivity|].
  rewrite app_nil_r. reflexivity.
Qed.

Lemma compile_match_strings (frmt : bytes) (f : StdFormatter) (prev : nat)
      (m : submatch) :
  strings (fst (compile_match ColorCode frmt (f, prev) m))
  = strings f
    ++ filter not_empty
         ((if (prev <? m_start m)%nat then [substr frmt prev (m_start m)] else [])
            ++ match color_of_match ColorCode frmt m with
               | Some code => [code]
               | None => []
               end)
  /\ snd (compile_match ColorCode frmt (f, prev) m) = m_end m.
Proof.
  unfold compile_match, color_of_match. cbn [fst snd].
  split; [|reflexivity].
  set (f1 := if (prev <? m_start m)%nat then _ else f).
  assert (E1 : strings f1
               = strings f
                 ++ filter not_empty
                      (if (prev <? m_start m)%nat
                       then [substr frmt prev (m_start m)] else [])).
  { unfold f1. destruct (prev <? m_start m)%nat.
    - apply appendString_strings.
    - cbn [filter]. rewrite app_nil_r. reflexivity. }
  rewrite filter_app, app_assoc, <- E1.
  destruct (verbMap _) as [v|]; [|cbn [filter]; rewrite app_nil_r; reflexivity].
  destruct v;
    try (cbn [add_verb strings filter]; rewrite app_nil_r; reflexivity).
  destruct (Go.eqb _ _); apply appendString_strings.
Qed.

Lemma compile_matches_strings (frmt : bytes) (ms : list submatch) :
  forall (f : StdFormatter) (prev : nat),
    strings (fst (fold_left (compile_match ColorCode frmt) ms (f, prev)))
    ++ filter not_empty
         [skipn (snd (fold_left (compile_match ColorCode frmt) ms (f, prev))) frmt]
    = strings f ++ filter not_empty (literal_texts ColorCode frmt ms prev).
Proof.
  induction ms as [|m ms IH]; intros f prev; cbn [fold_left literal_texts].
  - reflexivity.
  - destruct (compile_match_strings frmt f prev m) as [E1 E2].
    destruct (compile_match ColorCode frmt (f, prev) m) as [f1 prev1].
    cbn [fst snd] in E1, E2. subst prev1.
    rewrite IH, E1. rewrite app_assoc, !filter_app, <- !app_assoc. reflexivity.
Qed.

(** The literal segments of a compiled template of Grammar B are the
    literal texts of the template that are not empty, the escape
    sequences of its colours among them. *)
Lemma NewStdFormatter_strings (frmt : bytes) :
  strings (NewStdFormatter ColorCode frmt)
  = filter not_empty
           (literal_texts ColorCode frmt
                          (FindAllStringSubmatchIndex formatRe frmt) 0).
Proof.
  unfold NewStdFormatter.
  set (f0 := mkStdFormatter frmt [] [] (repeat zero 64) [] 0).
  pose proof (compile_matches_strings
                frmt (FindAllStringSubmatchIndex formatRe frmt) f0 0%nat) as H.
  destruct (fold_left _ _ _) as [f prev]. cbn [fst snd f0 strings app] in H.
  rewrite <- H. rewrite eqb_nil.
  destruct (skipn prev frmt) as [|c t] eqn:E; cbn [negb].
  - cbn [filter not_empty]. rewrite app_nil_r. reflexivity.
  - rewrite appendString_strings. reflexivity.
Qed.

End CallerB.

Section RunesBeforeAscii.

(** The second byte of a well-formed sequence is never an ASCII byte. *)
Lemma first_lo (s0 : Z) :
  fst (fst (first s0)) = 0 \/ 128 <= snd (fst (first s0)).
Proof.
  unfold first.
  repeat match goal with
         | |- context [if ?b then _ else _] => destruct b
         end; cbn [fst snd]; lia.
Qed.

Lemma runes_cons (c0 : ascii) (t0 : bytes) :
  runes (c0 :: t0)
  = let s0 := code c0 in
    if s0 <? 128 then s0 :: runes t0
    else
      let '(sz, lo, hi) := first s0 in
      if sz =? 0 then RuneError :: runes t0
      else
        match t0 with
        | [] => RuneError :: runes t0
        | c1 :: t1 =>
          let s1 := code c1 in
          if negb (in_range lo hi s1) then RuneError :: runes t0
          else if sz =? 2 then
            Z.lor (Z.shiftl (Z.land s0 31) 6) (Z.land s1 63) :: runes t1
          else
            match t1 with
            | [] => RuneError :: runes t0
            | c2 :: t2 =>
              let s2 := code c2 in
              if negb (cont s2) then RuneError :: runes t0
              else if sz =? 3 then
                Z.lor (Z.lor (Z.shiftl (Z.land s0 15) 12)
                             (Z.shiftl (Z.land s1 63) 6))
                      (Z.land s2 63) :: runes t2
              else
                match t2 with
                | [] => RuneError :: runes t0
                | c3 :: t3 =>
                  let s3 := code c3 in
                  if negb (cont s3) then RuneError :: runes t0
                  else
                    Z.lor (Z.lor (Z.lor (Z.shiftl (Z.land s0 7) 18)
                                        (Z.shiftl (Z.land s1 63) 12))
                                 (Z.shiftl (Z.land s2 63) 6))
                          (Z.land s3 63) :: runes t3
                end
            end
        end.
Proof. reflexivity. Qed.

Lemma cont_ascii (b : Z) : b < 128 -> cont b = false.
Proof. intros H. unfold cont. apply andb_false_iff. left. apply Z.leb_gt. lia. Qed.

Lemma in_range_ascii (lo hi b : Z) : 128 <= lo -> b < 128 -> in_range lo hi b = false.
Proof. intros H1 H2. unfold in_range. apply andb_false_iff. left. apply Z.leb_gt. lia. Qed.

Lemma runes_app_at_ascii (n : nat) :
  forall (t1 : bytes) (c : ascii) (rest : bytes),
    (List.length t1 <= n)%nat ->
    code c < 128 ->
    runes (t1 ++ c :: rest) = runes t1 ++ runes (c :: rest).
Proof.
  induction n as [|n IH]; intros t1 c rest Hl Hc.
  - destruct t1; [reflexivity | cbn in Hl; lia].
  - destruct t1 as [|c0 t0]; [reflexivity|].
    cbn [List.length] in Hl.
    change ((c0 :: t0) ++ c :: rest) with (c0 :: (t0 ++ c :: rest)).
    rewrite (runes_cons c0 (t0 ++ c :: rest)), (runes_cons c0 t0). cbv zeta.
    assert (I0 : runes (t0 ++ c :: rest) = runes t0 ++ runes (c :: rest))
      by (apply IH; [lia | exact Hc]).
    destruct (code c0 <? 128); [rewrite I0; reflexivity|].
    pose proof (first_lo (code c0)) as Hf.
    destruct (first (code c0)) as [[sz lo] hi]. cbn [fst snd] in Hf.
    destruct (sz =? 0) eqn:Ez; [rewrite I0; reflexivity|].
    assert (Hlo : 128 <= lo) by (apply Z.eqb_neq in Ez; lia).
    destruct t0 as [|c1 t1].
    { cbn [app] in *. cbv beta iota zeta. rewrite (in_range_ascii lo hi (code c) Hlo Hc). cbn [negb].
      reflexivity. }
    cbn [List.length] in Hl.
    change ((c1 :: t1) ++ c :: rest) with (c1 :: (t1 ++ c :: rest)) in *.
    cbv beta iota zeta.
    destruct (negb (in_range lo hi (code c1))); [rewrite I0; reflexivity|].
    assert (I1 : runes (t1 ++ c :: rest) = runes t1 ++ runes (c :: rest))
      by (apply IH; [lia | exact Hc]).
    destruct (sz =? 2); [rewrite I1; reflexivity|].
    destruct t1 as [|c2 t2].
    { cbn [app] in *. cbv beta iota zeta. rewrite (cont_ascii (code c) Hc). cbn [negb].
      rewrite I0. reflexivity. }
    cbn [List.length] in Hl.
    change ((c2 :: t2) ++ c :: rest) with (c2 :: (t2 ++ c :: rest)) in *.
    cbv beta iota zeta.
    destruct (negb (cont (code c2))); [rewrite I0; reflexivity|].
    assert (I2 : runes (t2 ++ c :: rest) = runes t2 ++ runes (c :: rest))
      by (apply IH; [lia | exact Hc]).
    destruct (sz =? 3); [rewrite I2; reflexivity|].
    destruct t2 as [|c3 t3].
    { cbn [app] in *. cbv beta iota zeta. rewrite (cont_ascii (code c) Hc). cbn [negb].
      rewrite I0. reflexivity. }
    cbn [List.length] in Hl.
    change ((c3 :: t3) ++ c :: rest) with (c3 :: (t3 ++ c :: rest)) in *.
    cbv beta iota zeta.
    destruct (negb (cont (code c3))); [rewrite I0; reflexivity|].
    assert (I3 : runes (t3 ++ c :: rest) = runes t3 ++ runes (c :: rest))
      by (apply IH; [lia | exact Hc]).
    rewrite I3. reflexivity.
Qed.

(** Decoding stops and starts again in front of an ASCII byte, whatever
    stands before it. *)
Lemma runes_app_before_ascii (t1 : bytes) (c : ascii) (rest : bytes) :
  code c < 128 -> runes (t1 ++ c :: rest) = runes t1 ++ runes (c :: rest).
Proof. apply (runes_app_at_ascii (List.length t1)). lia. Qed.

End RunesBeforeAscii.

Section EscapeB.

Import GrammarB.

Variable ColorCode : bytes -> bytes.

Variable context : LogContext.

(** A template written out, with any text after it that does not start
    with an opening brace: the texts and tokens render as they are meant
    to, and the rest as it renders on its own. *)
Lemma readB_template_rest (plan : list (bytes * token)) (text rest : list ascii) :
  Forall (fun p => opens_token (fst p) = false /\ token_ok (snd p)) plan ->
  opens_token text = false ->
  match rest with
  | c :: _ => c <> "{"%char
  | [] => True
  end ->
  readB ColorCode context 0 (template plan (text ++ rest))
  = (a <- expected ColorCode context plan text ;;
     b <- readB ColorCode context 0 rest ;;
     Ok (a ++ b)).
Proof.
  intros Hp Ht Hr. induction Hp as [|[t tk] plan [Ho Hok] _ IH];
    cbn [template expected].
  - rewrite (readB_text ColorCode context text rest Ht Hr). reflexivity.
  - cbn [fst snd] in Ho, Hok.
    rewrite (readB_text ColorCode context t
                        (token_text tk ++ template plan (text ++ rest)) Ho
                        (token_text_starts tk (template plan (text ++ rest)))).
    rewrite (readB_token ColorCode context tk _ Hok), IH.
    destruct (verb_piece ColorCode context _ _); cbn [bind]; try reflexivity.
    destruct (expected ColorCode context plan text); cbn [bind];
      try reflexivity.
    destruct (readB ColorCode context 0 rest); cbn [bind]; try reflexivity.
    rewrite <- !app_assoc. reflexivity.
Qed.

End EscapeB.

(** C7. For every template, in both grammars, [ShouldRuntimeCaller] of the
    compiled format is true exactly when the template names the caller:
    in Grammar A when one of the letters [F], [f], [x], [s], [P] and [p]
    stands right after an unescaped sentinel, in Grammar B when the name
    of a token stands in the verb table for a verb of the file, the line
    or the function; and that is exactly when a verb that needs the
    caller's file, line or function is among the compiled parts.  In
    Grammar B the compiled verbs are, in order, those the recognized names
    of the template stand for, [Color] apart.  A [Color] token is resolved
    when the template is compiled: the literal segments of the compiled
    format are exactly the literal texts of the template that are not
    empty, the texts between the tokens and the escape sequences of the
    colours, in order, with one literal part for each, as in
    [[%{Color red}%{SEV}%{Color reset}]]; a [Color] verb is never a part
    and its bit is never set in the flags. *)
Theorem ShouldRuntimeCaller_iff (ColorCode : bytes -> bytes) (frmt : bytes) :
  GrammarA.ShouldRuntimeCaller (GrammarA.NewStdFormatter frmt)
  = mentions_locationA false (runes frmt)
  /\ (GrammarA.ShouldRuntimeCaller (GrammarA.NewStdFormatter frmt) = true
      <-> exists v, In v (GrammarA.parts (GrammarA.NewStdFormatter frmt))
                    /\ needs_callerA v = true)
  /\ GrammarB.ShouldRuntimeCaller (GrammarB.NewStdFormatter ColorCode frmt)
     = mentions_locationB 0 frmt
  /\ (GrammarB.ShouldRuntimeCaller (GrammarB.NewStdFormatter ColorCode frmt) = true
      <-> exists v, In v (GrammarB.parts (GrammarB.NewStdFormatter ColorCode frmt))
                    /\ needs_callerB v = true)
  /\ filter is_verb (GrammarB.parts (GrammarB.NewStdFormatter ColorCode frmt))
     = flat_map (verb_of_match frmt)
                (Regexp.FindAllStringSubmatchIndex GrammarB.formatRe frmt)
  /\ GrammarB.strings (GrammarB.NewStdFormatter ColorCode frmt)
     = filter not_empty
              (literal_texts ColorCode frmt
                 (Regexp.FindAllStringSubmatchIndex GrammarB.formatRe frmt) 0)
  /\ literalsB (GrammarB.parts (GrammarB.NewStdFormatter ColorCode frmt))
     = List.length (GrammarB.strings (GrammarB.NewStdFormatter ColorCode frmt))
  /\ GrammarB.strings
       (GrammarB.NewStdFormatter ColorCode
                                 (B "[%{Color red}%{SEV}%{Color reset}]"))
     = filter not_empty [B "["; ColorCode (B "red"); GrammarB.Reset; B "]"]
  /\ ~ In GrammarB.vColor (GrammarB.parts (GrammarB.NewStdFormatter ColorCode frmt))
  /\ Z.land (GrammarB.flags (GrammarB.NewStdFormatter ColorCode frmt))
            (GrammarB.int GrammarB.vColor) = 0.
Proof.
  split; [|split; [|split; [|split; [|split; [|split; [|split; [|split;
    [|split]]]]]]]].
  - apply ShouldRuntimeCaller_template_A.
  - rewrite ShouldRuntimeCaller_A. apply existsb_exists.
  - apply ShouldRuntimeCaller_template_B.
  - rewrite ShouldRuntimeCaller_B. apply existsb_exists.
  - apply NewStdFormatter_okB.
  - apply NewStdFormatter_strings.
  - apply (NewStdFormatter_output ColorCode logTestContext frmt).
  - rewrite NewStdFormatter_strings. vm_compute. reflexivity.
  - apply no_color_part.
  - apply no_color_flag.
Qed.

(** C6, amended.  In Grammar A a doubled sentinel [%%] that the scanner
    meets while no sentinel is pending compiles to one literal percent
    sign: it adds one percent sign to the pending literal text and nothing
    else, and whatever the template holds before and after it, the
    template renders as what stands before renders, one percent sign, and
    what stands after renders.  Grammar B has no escape for the sentinel:
    in a template written as texts and well-formed tokens, a text that
    nowhere opens a token with [%{] is rendered byte for byte, its percent
    signs included, whatever follows it, so that [%%] renders as [%%] and
    a percent sign right before a token as a percent sign followed by what
    the token renders.  The records are those whose numbers the writers
    can take. *)
Theorem escape_doubling_by_grammar
        (t1 t2 : bytes) (st : GrammarA.scan) (data : GrammarA.LogRecord)
        (ColorCode : bytes -> bytes) (context : GrammarB.LogContext)
        (plan : list (bytes * token)) (text rest : bytes) :
  sentinel_pending (runes t1) = false ->
  numbers_ok (GrammarA.Time_ data) (GrammarA.Line data) ->
  GrammarA.isverb st = false ->
  Forall (fun p => opens_token (fst p) = false /\ token_ok (snd p)) plan ->
  opens_token text = false ->
  match rest with
  | c :: _ => c <> "{"%char
  | [] => True
  end ->
  numbers_okB context ->
  GrammarA.Format (GrammarA.NewStdFormatter (t1 ++ B "%%" ++ t2)) data
  = (a <- GrammarA.accumulate (GrammarA.NewStdFormatter t1) data ;;
     b <- GrammarA.accumulate (GrammarA.NewStdFormatter t2) data ;;
     terminate (a ++ B "%" ++ b))
  /\ fold_left GrammarA.scan_rune (runes (B "%%")) st
     = (if 0 <? len (GrammarA.raw st)
        then GrammarA.mkScan
               (GrammarA.add_string (GrammarA.f_ st) (GrammarA.raw st)) false
               (B "%")
        else GrammarA.mkScan (GrammarA.f_ st) false (GrammarA.raw st ++ B "%"))
  /\ GrammarB.Format
       (GrammarB.NewStdFormatter ColorCode (template plan (text ++ rest))) context
     = (a <- expected ColorCode context plan text ;;
        b <- GrammarB.accumulate (GrammarB.NewStdFormatter ColorCode rest) context ;;
        terminate (a ++ b))
  /\ GrammarB.Format (GrammarB.NewStdFormatter ColorCode (B "%%")) context
     = Ok (B "%%" ++ [newline]).
Proof.
  intros Hp Hn Hst Hplan Htext Hrest HnB.
  split; [|split; [|split]].
  - assert (Hr : runes (t1 ++ B "%%" ++ t2)
                 = runes t1 ++ runes (B "%%") ++ runes t2).
    { change (B "%%" ++ t2) with ("%"%char :: (B "%" ++ t2)).
      rewrite runes_app_before_ascii by (cbn; lia).
      change ("%"%char :: (B "%" ++ t2)) with (B "%%" ++ t2).
      rewrite (runes_app_ascii (B "%%") t2)
        by (repeat constructor; cbn; lia).
      reflexivity. }
    unfold GrammarA.Format.
    rewrite !(accumulate_interpret data Hn), Hr, !interpret_app.
    unfold sentinel_pending in Hp. rewrite Hp.
    change (runes (B "%%")) with [code "%"%char; code "%"%char].
    cbn [fold_left interpret piece].
    change (GrammarA.rune_is (code "%"%char) "%") with true.
    cbn [negb andb].
    change (verb_of_rune (code "%"%char)) with (@None GrammarA.fmtVerb).
    cbv iota. cbn [negb andb bind app].
    destruct (interpret data false (runes t1)); cbn [bind]; try reflexivity.
    destruct (interpret data false (runes t2)); cbn [bind]; reflexivity.
  - apply scan_doubled_sentinel, Hst.
  - unfold GrammarB.Format.
    rewrite !(accumulate_readB ColorCode context _ HnB).
    rewrite (readB_template_rest ColorCode context plan text rest
                                 Hplan Htext Hrest).
    destruct (expected ColorCode context plan text); cbn [bind];
      try reflexivity.
    destruct (readB ColorCode context 0 rest); cbn [bind]; reflexivity.
  - unfold GrammarB.Format.
    rewrite literal_accumulate_B by reflexivity.
    reflexivity.
Qed.

Lemma escape_doubling_by_grammar_witness :
  (sentinel_pending (runes (B "[%D]")) = false
   /\ numbers_ok (GrammarA.Time_ fmtTestsData) (GrammarA.Line fmtTestsData)
   /\ GrammarA.isverb (GrammarA.mkScan (GrammarA.NewStdFormatter []) false (B "100"))
      = false
   /\ Forall (fun p => opens_token (fst p) = false /\ token_ok (snd p))
             [(B "%", mkToken (B "Message") None)]
   /\ opens_token (B "%%") = false
   /\ " "%char <> "{"%char
   /\ numbers_okB logTestContext)
  /\ GrammarA.Format (GrammarA.NewStdFormatter (B "[%D]" ++ B "%%" ++ B "[%d]"))
                     fmtTestsData
     = (a <- GrammarA.accumulate (GrammarA.NewStdFormatter (B "[%D]"))
                                 fmtTestsData ;;
        b <- GrammarA.accumulate (GrammarA.NewStdFormatter (B "[%d]"))
                                 fmtTestsData ;;
        terminate (a ++ B "%" ++ b))
  /\ fold_left GrammarA.scan_rune (runes (B "%%"))
               (GrammarA.mkScan (GrammarA.NewStdFormatter []) false (B "100"))
     = GrammarA.mkScan
         (GrammarA.add_string (GrammarA.NewStdFormatter []) (B "100")) false
         (B "%")
  /\ GrammarB.Format
       (GrammarB.NewStdFormatter
          (fun _ => [])
          (template [(B "%", mkToken (B "Message") None)] (B "%%" ++ B " done")))
       logTestContext
     = (a <- expected (fun _ => []) logTestContext
                      [(B "%", mkToken (B "Message") None)] (B "%%") ;;
        b <- GrammarB.accumulate
               (GrammarB.NewStdFormatter (fun _ => []) (B " done"))
               logTestContext ;;
        terminate (a ++ b))
  /\ GrammarB.Format (GrammarB.NewStdFormatter (fun _ => []) (B "%%"))
                     logTestContext
     = Ok (B "%%" ++ [newline]).
Proof.
  assert (Hn : numbers_ok (GrammarA.Time_ fmtTestsData) (GrammarA.Line fmtTestsData)).
  { cbv [numbers_ok fmtTestsData fmtTestsTime GrammarA.Time_ GrammarA.Line
         Date Clock Nanosecond].
    repeat split; try discriminate; reflexivity. }
  assert (P : Forall (fun p => opens_token (fst p) = false /\ token_ok (snd p))
                     [(B "%", mkToken (B "Message") None)]).
  { apply Forall_cons; [split; [reflexivity | token_ok_here]|].
    apply Forall_nil. }
  assert (N : " "%char <> "{"%char) by discriminate.
  split.
  { split; [reflexivity|]. split; [exact Hn|].
    split; [reflexivity|]. split; [exact P|]. split; [reflexivity|].
    split; [exact N | exact logTestContext_numbers]. }
  exact (escape_doubling_by_grammar
           (B "[%D]") (B "[%d]")
           (GrammarA.mkScan (GrammarA.NewStdFormatter []) false (B "100"))
           fmtTestsData (fun _ => []) logTestContext
           [(B "%", mkToken (B "Message") None)] (B "%%") (B " done")
           eq_refl Hn eq_refl P eq_refl N logTestContext_numbers).
Defined.
